(* ===== verification/_CoqProject ===== *)
-Q . S2P
Prelude.v
Types.v
Generation.v
Context.v
Capability.v
CapabilitySpec.v
Registry.v
RegistrySpec.v
Ipc.v
Memory.v
SharedBuffer.v
Task.v
Policy.v
RoundRobin.v
Eevdf.v
Scheduler.v
SchedulerSpec.v
EevdfSpec.v
EevdfFair.v
Mmu.v
MmuSpec.v
Timer.v
Console.v
Posix.v
HostArch.v
Cpu.v
CpuSpec.v
DynamicArray.v
Libc.v
Report.v
Main.v
Services.v
MainSpec.v
Preempt.v
Layout.v
Machine.v
MachineSpec.v
Harness.v
HarnessTasks.v
HarnessSpec.v
HarnessTasksSpec.v
