(* ===== verification/Prelude.v ===== *)
(** * Lettuce: a verification development for the LettuceOs microkernel prototype

    LettuceOs is a small kernel in C.  Services are identified by 32-bit numbers, live
    in layers and in protection domains, and reach each other only through calls that
    the kernel mediates with capabilities.  On ARM64 the domains are address spaces and
    the services run in user mode (EL0); on the host build a domain is a variable.

    ** The parts and the files that model them

    - [Prelude] (this file): machine integers, arrays with bounds ([arr_get],
      [arr_set]; [None] is an access out of bounds), bounded loops ([for_range]), the
      tactics the other files share.  [Types]: [include/lettuce/*.h].  [Generation]:
      the arithmetic of 16-bit generations that all handles share.
    - [Context]: [kernel/main/context.c], [protection.c].  The domain backend is the class
      [ProtectionOps] with the laws [ProtectionLaws]; the host backend is an instance
      here, the MMU is one in [Mmu]/[MmuSpec].
    - [Capability], [CapabilitySpec]: [kernel/main/capability.c].  [Registry],
      [RegistrySpec]: [kernel/main/kernel.c], [dispatch.c].  Both are refinements of
      finite maps.
    - [Ipc]: [ipc/] and [runtime/c/*_call.c], the three call gates over the context, the
      capabilities and the registry.
    - [Memory], [SharedBuffer]: [memory/allocator/fixed.c], [memory/shared/buffer.c].
    - [Task], [Policy], [RoundRobin], [Eevdf], [Scheduler], [SchedulerSpec], [EevdfSpec],
      [EevdfFair]: [kernel/main/task.c] and [kernel/scheduler/].  A policy is a record of operations
      with the laws [PolicyLaws]; the mechanism is proved against the laws.
    - [Mmu], [MmuSpec]: [kernel/arch/arm64/mmu.c].  [Timer]: [timer.c], [gic.c], and the
      probes of [poe.c], [mte.c].  [Console]: the output routines of [cpu.c].
    - [Posix]: [runtime/posix/src/fd.c], [sys.c] and the host side of [posix.c].  [Libc]:
      the ARM64 side of [posix.c], composed with the kernel's handler.  [HostArch]:
      [kernel/main/host_arch_stubs.c] and the host branches of the time calls of [sys.c].
    - [Cpu], [CpuSpec]: [kernel/arch/arm64/cpu.c] and [elevator.S], the exception handlers
      that put all of the above together on one state, [cpu_state].
    - [Main], [MainSpec]: booting and running user code, from [kernel/arch/arm64/main.c]
      and [pac.S].  [Report]: the test and benchmark reports of [main.c].
      [Preempt]: user code while the scheduler is active.
    - [Layout]: the sizes and offsets of the C structures, and the static assertions of
      the headers.  [Machine], [MachineSpec]: the assembly of [boot.S], [exception.S],
      [entry.S], [elevator.S] and [context_switch.S], instruction by instruction on a
      machine with registers and memory; it reads the structures of [Layout], and a run of
      user code on the machine is the run of [Main].
    - [Services]: the user-mode services and scheduler tasks of [entry.S], as lists of
      instructions, and their execution under the translation tables, interrupted by a
      timer; one user code among others.
    - [Harness], [HarnessSpec]: tests 1 to 17 of [main.c], a program in a state monad over
      boot, the handlers, the tables and user code.  [HarnessTasks], [HarnessTasksSpec]:
      tests 18 to 25, the benchmarks and the summary, over an outside world ([environment])
      that answers for the counter, the interrupts and pointer authentication.
    - [DynamicArray]: [shared/dynamic_array/dynamic_array.c].

    A static variable of the source is a field of the state record of its component
    ([cap_state], [sched_mem], [scheduler_state], [mmu_state], [cpu_vars], ...) and an
    operation is a function from the state to the result and the new state, under the
    name of the C function.  [None] is undefined behaviour (an access out of bounds, or
    user memory that is not there), never an error the code reports: errors are status
    codes, [false] or negative results, as in the source.

    ** What the claims show

    - C1, C2, C4, the capability table: it refines a map of live handles to rights; a
      revoked handle is dead until its generation has gone round, which takes at least
      65534 calls; a check decides exactly the stated rights.
    - C3, C38, preemption: whatever user code does while tasks are preempted, the kernel's
      own state stays sound; and tasks that only compute, while another is ready, lose the
      processor within a bound, so that the kernel gets it back.
    - C5, the registry: it computes the answers of a specification by two maps.
    - C6, C7, C9, the call gates: complete mediation, restoration of the caller,
      revocation is effective.
    - C8, C26, the assembly: entering user mode is a call, with the run of the model in
      between, and a context that was switched away from is resumed exactly.
    - C10-C12, the page allocator: isolation, first fit (for sizes whose rounding to pages
      does not wrap), exact release.  C15, C17, shared
      buffers: exact access, effective revocation.
    - C13, C14, C16, boot and runs of user code: boot establishes the invariants the other
      claims assume; a run of arbitrary user code returns with the identity, domain and
      tables it was started with; except that after a fault in a nested call the dead
      callers stay on the call stack.
    - C18-C20, tasks and the choice of EEVDF.  C23-C25, C27, the scheduler: at most one
      task runs, preemption is transparent, neither round robin (C25) nor EEVDF (C27)
      starves a ready task that the scans see, which is one in a slot of generation at most
      10.  C21: from a fresh start and under ticks alone, EEVDF's shares are those of the
      weights, if these divide 65536 and the slices are in proportion to them.
    - C28-C30, address spaces: isolation of the domains, no user access changes code or
      translations, the hardware follows the recorded domain.
    - C31, C32, C22, system calls: the effect of [write] and [clock_gettime], with every
      error of [write], and what user code gets back through the library and the supervisor
      call (all wrappers, but of [nanosleep] the refusals only).
    - C33, bring-up: the tests and benchmarks, with arbitrary user code and outside world,
      leave the tables of boot plus the capabilities the test program created, and no
      others.  C39: the benchmarks are a straight-line trace of measured calls, take their
      samples from the counter and print the reports of those samples; they end when the
      services they run return.  C34, reports: the text of a report, and that its figures
      are order statistics of the samples.
    - C35-C37, exception handlers: mediated entry into services, exact return from nested
      calls, the assembly elevator equals the C path.
    - C40, the circular array is a double-ended list that grows exactly when it is full and
      the allocator allows.

    Lemmas that are not claims but state behaviour worth knowing:
    [revoked_handle_returns_after_wraparound] in [CapabilitySpec],
    [elevator_accepts_no_more] in [Ipc] (the elevator accepts nothing that the other two
    gates refuse), [sleeping_task_loses_its_registers] and [recycled_task_never_runs] in
    [SchedulerSpec] (a slot that was recycled ten times is not scheduled any more), [nanosleep_overwrites_the_next_task] and [yield_inside_a_call_misplaces_the_next_task]
    in [CpuSpec] (two places where handlers and scheduler do not fit together),
    [host_clock_agrees] in [HostArch], [allocate_size_wraps] and [released_handle_becomes_valid_again] in [Memory], [created_buffer_is_fresh] in
    [SharedBuffer], [eevdf_wakeup_gets_no_credit] and [eevdf_tick_charges_the_running_task] in
    [Eevdf], [eevdf_share_depends_on_the_slice] in [EevdfFair] (with other slices the
    shares are not those of the weights),
    [nanosleep_counts_counter_cycles] and [write_reads_what_the_caller_cannot] in
    [Posix], [reregistration_is_ignored] in [MainSpec], [test_number_round_trip] in
    [Report], [all_tests_pass] in [HarnessTasksSpec] (with the services of [Services] as
    user code all twenty-five tests pass), [layouts_are_as_asserted] in [Layout] (the static
    assertions and documented offsets of the sources hold under the AArch64 layout rules,
    and fields are aligned and do not overlap), [elevator_instructions], [context_switch_spec]
    and [start_spec] in [MachineSpec] (the elevator's instructions are the transition of
    [Cpu]; a kernel context switch saves one context and restores the other; boot clears
    [.bss] and nothing else).

    ** Parameters, bounds and fuel

    - Parameters: service code behind an entry point ([call_entry] in [Ipc]), user code
      ([el0_code] in [Main]: a function from the registers and the state it is entered with
      to the next exception and the user memory it changed) and the registers it is
      entered with, the backend that enters a domain ([arch_enter] in [Scheduler]), pointer
      authentication ([pac_sign], [pac_auth], with inversion as a hypothesis where a
      claim needs it), the addresses chosen by the linker ([layout], [el0_symbols]; the
      hypothesis [layout_ok] says aligned, inside the image, without overlap), the
      allocator of [DynamicArray], the clock of the C library in [HostArch], the values of
      the syndrome, fault-address and interrupt acknowledge registers, and the counter.
      For the bring-up program the last two, and the authentications that trap, are an
      [environment] indexed by the kernel's observations of it; string literals have the
      addresses it gives them.
    - Loops with a constant bound are [for_range]; loops over the tables go by their
      sizes.  [dec_fill] has fuel 24, the size of its buffer, enough for the 20 digits
      of a 64-bit number ([print_dec_spec]).
    - A run of user code has fuel for its exceptions ([el0_execution]), a service for its
      instructions ([run_user]): user code may loop for ever.  The claims about runs hold
      for every fuel with which the run ends, and C38 proves that it does; 120 exceptions,
      with a timer interrupt after at most 12 instructions, are enough for the services of
      [entry.S] ([all_tests_pass]).  The loop of test 20 that waits for ticks has a number
      of turns; with the counter of [harness_env] ten are enough.
    - C27 bounds the slices by [S] and the virtual times by [H], with room for the wait
      below 2^64: at 65536 a tick that is more than 2^47 ticks.  C21 has room for [N + 3]
      slices, more than 2^55 ticks with the default slice.
    - [Machine] has memory in 64-bit words, [None] where there is none; C8 asks for 368
      bytes of stack below the caller, for the saved registers and one trap frame.
    - Claims about dead handles hold for fewer than 65534 further calls, the period of a
      generation; C40 needs fewer than 2^60 elements, so that a size in bytes is 64 bits.

    ** Not modelled

    Barriers and TLB maintenance have no effect on the model (the latter is a log).  The
    interrupt mask that [_start] sets is not a register of [Machine]; the two branches of
    [lettuce_arch_context_switch] to its [ret] and the call and return instructions
    themselves are the composition of the routines.  Compiled C code is not run on the
    machine: [c_code] says what C8 relies on (it leaves the words it does not own as they
    are), and the registers a handler is entered with reach it only as the trap frame.
    The idle loop at the end of [main.c].  The
    unit tests, benchmarks, build files and the Rust runtime; the placeholders in
    [runtime/c] and [kernel/main/sync.c], which have no code. *)

From stdpp Require Export prelude list gmap.
From Stdlib Require Export ZArith Lia.

#[global] Open Scope Z_scope.

(** ** Machine integers

    A [w]-bit unsigned value of the source is a [Z] kept in [0, 2^w); the
    wrap-around of an arithmetic operation is written out with these
    truncations. *)

Definition u8 (x : Z) : Z := x mod 2 ^ 8.
Definition u16 (x : Z) : Z := x mod 2 ^ 16.
Definition u32 (x : Z) : Z := x mod 2 ^ 32.
Definition u64 (x : Z) : Z := x mod 2 ^ 64.

Definition is_u16 (x : Z) : Prop := 0 ≤ x < 2 ^ 16.
Definition is_u32 (x : Z) : Prop := 0 ≤ x < 2 ^ 32.
Definition is_u64 (x : Z) : Prop := 0 ≤ x < 2 ^ 64.

Declare Scope lettuce_scope.
Delimit Scope lettuce_scope with lettuce.
Infix ".&" := Z.land (at level 40, left associativity) : lettuce_scope.
Infix ".|" := Z.lor (at level 50, left associativity) : lettuce_scope.
Infix ".<<" := Z.shiftl (at level 40, left associativity) : lettuce_scope.
Infix ".>>" := Z.shiftr (at level 40, left associativity) : lettuce_scope.
#[global] Open Scope lettuce_scope.

(** ** Arrays

    A C array is a list.  Reading or writing it outside its bounds is
    undefined behaviour; the operations return [None] there, so an operation
    of the model that is [Some] has stayed inside every array it touched. *)

Definition arr_get {A} (l : list A) (i : Z) : option A :=
  if 0 <=? i then l !! Z.to_nat i else None.

Definition arr_set {A} (l : list A) (i : Z) (x : A) : option (list A) :=
  if (0 <=? i) && (i <? Z.of_nat (length l))
  then Some (<[Z.to_nat i := x]> l) else None.

(** ** Loops

    [for_range n i body s] is [for (k = i; k < i + n; ++k) s = body(k, s)];
    [for_flow] is the same loop with [break] and [return] in its body. *)

Fixpoint for_range {S} (n : nat) (i : Z) (body : Z → S → option S) (s : S) : option S :=
  match n with
  | O => Some s
  | Datatypes.S n' => s' ← body i s; for_range n' (i + 1) body s'
  end.

Inductive flow (S R : Type) :=
  | Next (s : S)
  | Break (s : S)
  | Return (r : R) (s : S).
Arguments Next {S R} s.
Arguments Break {S R} s.
Arguments Return {S R} r s.

Fixpoint for_flow {S R} (n : nat) (i : Z) (body : Z → S → option (flow S R)) (s : S)
    : option (flow S R) :=
  match n with
  | O => Some (Next s)
  | Datatypes.S n' =>
      f ← body i s;
      match f with
      | Next s' => for_flow n' (i + 1) body s'
      | Break s' => Some (Break s')
      | Return r s' => Some (Return r s')
      end
  end.

(** [for_search] is a loop whose body only reads the state and leaves it with a
    [return]. *)
Definition for_search {R} (n : nat) (i : Z) (test : Z → option R) : option R :=
  match for_flow n i (λ k (_ : unit), Some (match test k with
                                            | Some r => Return r tt
                                            | None => Next tt
                                            end)) tt with
  | Some (Return r _) => Some r
  | _ => None
  end.

(** ** Automation *)

Create HintDb lettuce discriminated.

(** Turn the boolean tests of the code into the propositions they decide. *)
Ltac b2p :=
  repeat match goal with
  | H : _ && _ = true |- _ => apply andb_prop in H; destruct H
  | H : _ || _ = false |- _ => apply orb_false_elim in H; destruct H
  | H : _ || _ = true |- _ => apply orb_prop in H
  | H : _ && _ = false |- _ => apply andb_false_iff in H
  | H : negb _ = true |- _ => apply negb_true_iff in H
  | H : negb _ = false |- _ => apply negb_false_iff in H
  | H : (_ =? _) = true |- _ => apply Z.eqb_eq in H
  | H : (_ =? _) = false |- _ => apply Z.eqb_neq in H
  | H : (_ <? _) = true |- _ => apply Z.ltb_lt in H
  | H : (_ <? _) = false |- _ => apply Z.ltb_ge in H
  | H : (_ <=? _) = true |- _ => apply Z.leb_le in H
  | H : (_ <=? _) = false |- _ => apply Z.leb_gt in H
  end.

(** Split on the next [if] or [match] of the goal (of hypothesis [H]), keeping
    its equation. *)
Ltac case_goal :=
  match goal with
  | |- context [if ?b then _ else _] => destruct b eqn:?
  | |- context [match ?x with _ => _ end] => destruct x eqn:?
  end.

Ltac case_in H :=
  match type of H with
  | context [if ?b then _ else _] => destruct b eqn:?
  | context [match ?x with _ => _ end] => destruct x eqn:?
  end.

(** Invert the binds and tests of a run [H : op ... = Some r]. *)
Ltac run_inv H :=
  repeat (first [ progress simplify_eq/=
                | progress (simplify_option_eq)
                | case_in H ]).

(** ** Generic lemmas: integers *)

Lemma u16_small (x : Z) : is_u16 x → u16 x = x.
Proof. intros. by apply Z.mod_small. Qed.

Lemma u32_small (x : Z) : is_u32 x → u32 x = x.
Proof. intros. by apply Z.mod_small. Qed.

Lemma u64_small (x : Z) : is_u64 x → u64 x = x.
Proof. intros. by apply Z.mod_small. Qed.

Lemma u16_range (x : Z) : is_u16 (u16 x).
Proof. apply Z.mod_pos_bound. lia. Qed.

Lemma u32_range (x : Z) : is_u32 (u32 x).
Proof. apply Z.mod_pos_bound. lia. Qed.

Lemma u64_range (x : Z) : is_u64 (u64 x).
Proof. apply Z.mod_pos_bound. lia. Qed.

(** A remainder by a smaller power of two forgets one by a larger power. *)
Lemma mod_pow2_mod_pow2 (x n m : Z) : 0 ≤ m ≤ n → (x mod 2 ^ n) mod 2 ^ m = x mod 2 ^ m.
Proof.
  intros H. rewrite <- !Z.land_ones, <- Z.land_assoc by lia. f_equal. apply Z.bits_inj'. intros k Hk.
  rewrite Z.land_spec, !Z.testbit_ones_nonneg by lia. lia.
Qed.

#[export] Hint Resolve u16_range u32_range u64_range : lettuce.

(** Masking the low [n] bits is a remainder, shifting right is a quotient. *)
Lemma land_low_bits (x n : Z) : 0 ≤ n → x .& (2 ^ n - 1) = x mod 2 ^ n.
Proof. intros. rewrite <- Z.land_ones by done. by rewrite Z.ones_equiv, Z.sub_1_r. Qed.

Lemma land_mask16 (x : Z) : x .& 65535 = x mod 2 ^ 16.
Proof. apply (land_low_bits x 16). lia. Qed.

(** Disjoint bit fields: or-ing a shifted value over a small one is addition. *)
Lemma lor_shiftl_add (hi lo n : Z) :
  0 ≤ n → 0 ≤ lo < 2 ^ n → (hi .<< n) .| lo = hi * 2 ^ n + lo.
Proof.
  intros Hn Hlo. rewrite <- Z.shiftl_mul_pow2 by done.
  rewrite Z.add_nocarry_lxor.
  - apply Z.bits_inj'. intros k Hk.
    rewrite Z.lor_spec, Z.lxor_spec, Z.shiftl_spec by lia.
    destruct (Z.ltb_spec k n).
    + by rewrite (Z.testbit_neg_r hi) by lia.
    + rewrite <- (Z.mod_small lo (2 ^ n)) by done.
      rewrite Z.mod_pow2_bits_high by lia. by rewrite orb_false_r, xorb_false_r.
  - apply Z.bits_inj'. intros k Hk.
    rewrite Z.land_spec, Z.shiftl_spec, Z.bits_0 by lia.
    destruct (Z.ltb_spec k n).
    + by rewrite (Z.testbit_neg_r hi) by lia.
    + rewrite <- (Z.mod_small lo (2 ^ n)) by done.
      rewrite Z.mod_pow2_bits_high by lia. by rewrite andb_false_r.
Qed.

Lemma lor_shiftl_range (hi lo n m : Z) :
  0 ≤ n → 0 ≤ lo < 2 ^ n → 0 ≤ hi < 2 ^ m → 0 ≤ m → 0 ≤ (hi .<< n) .| lo < 2 ^ (m + n).
Proof.
  intros. rewrite lor_shiftl_add, Z.pow_add_r by lia. nia.
Qed.

(** Two sub-fields of a word determine it. *)
Lemma lor_shiftl_mod (hi lo n : Z) :
  0 ≤ n → 0 ≤ lo < 2 ^ n → ((hi .<< n) .| lo) mod 2 ^ n = lo.
Proof.
  intros. rewrite lor_shiftl_add, Z.add_comm, Z.mod_add by lia. by apply Z.mod_small.
Qed.

Lemma lor_shiftl_shiftr (hi lo n : Z) :
  0 ≤ n → 0 ≤ lo < 2 ^ n → ((hi .<< n) .| lo) .>> n = hi.
Proof.
  intros. rewrite lor_shiftl_add, Z.shiftr_div_pow2, Z.add_comm, Z.div_add by lia.
  rewrite Z.div_small by done. done.
Qed.

(** A mask test [(p & q) == q] is transitive in the mask. *)
Lemma land_subset_trans (p q r : Z) : p .& q = q → q .& r = r → p .& r = r.
Proof. intros Hpq Hqr. rewrite <- Hqr at 1. by rewrite Z.land_assoc, Hpq. Qed.

(** Two non-empty intervals are disjoint or share a point. *)
Lemma intervals_meet (s1 n1 s2 n2 : Z) :
  0 < n1 → 0 < n2 →
  s1 + n1 ≤ s2 ∨ s2 + n2 ≤ s1 ∨ ∃ p, s1 ≤ p < s1 + n1 ∧ s2 ≤ p < s2 + n2.
Proof.
  intros. destruct (decide (s1 + n1 ≤ s2)); [by left|]. destruct (decide (s2 + n2 ≤ s1)); [by right; left|].
  right. right. exists (Z.max s1 s2). lia.
Qed.

(** ** Generic lemmas: arrays *)

Lemma arr_get_lookup {A} (l : list A) (i : Z) : 0 ≤ i → arr_get l i = l !! Z.to_nat i.
Proof. intros. unfold arr_get. by rewrite (proj2 (Z.leb_le 0 i)). Qed.

Lemma arr_get_nat {A} (l : list A) (i : nat) : arr_get l (Z.of_nat i) = l !! i.
Proof. rewrite arr_get_lookup by lia. by rewrite Nat2Z.id. Qed.

Lemma arr_get_Some_range {A} (l : list A) (i : Z) (x : A) :
  arr_get l i = Some x → 0 ≤ i < Z.of_nat (length l).
Proof.
  unfold arr_get. destruct (Z.leb_spec 0 i) as [Hi|Hi]; [|done].
  intros ?%lookup_lt_Some. lia.
Qed.

Lemma arr_get_is_Some {A} (l : list A) (i : Z) :
  0 ≤ i < Z.of_nat (length l) → is_Some (arr_get l i).
Proof. intros. rewrite arr_get_lookup by lia. apply lookup_lt_is_Some_2. lia. Qed.

Lemma arr_set_Some {A} (l : list A) (i : Z) (x : A) :
  0 ≤ i < Z.of_nat (length l) → arr_set l i x = Some (<[Z.to_nat i := x]> l).
Proof.
  intros [? ?]. unfold arr_set.
  by rewrite (proj2 (Z.leb_le _ _)), (proj2 (Z.ltb_lt _ _)).
Qed.

Lemma arr_set_inv {A} (l l' : list A) (i : Z) (x : A) :
  arr_set l i x = Some l' →
  0 ≤ i < Z.of_nat (length l) ∧ l' = <[Z.to_nat i := x]> l.
Proof. unfold arr_set. intros. case_match; simplify_eq. b2p. lia || (split; [lia|done]). Qed.

Lemma arr_set_length {A} (l l' : list A) (i : Z) (x : A) :
  arr_set l i x = Some l' → length l' = length l.
Proof. intros [_ ->]%arr_set_inv. apply length_insert. Qed.

Lemma arr_get_set {A} (l l' : list A) (i j : Z) (x : A) :
  arr_set l i x = Some l' →
  arr_get l' j = if decide (i = j) then Some x else arr_get l j.
Proof.
  intros [Hi ->]%arr_set_inv. unfold arr_get. destruct (Z.leb_spec 0 j).
  - case_decide as Hij.
    + subst. apply list_lookup_insert_eq. lia.
    + apply list_lookup_insert_ne. lia.
  - case_decide; [lia|done].
Qed.

Lemma arr_get_insert {A} (l : list A) (i j : Z) (x : A) :
  0 ≤ i < Z.of_nat (length l) →
  arr_get (<[Z.to_nat i := x]> l) j = if decide (i = j) then Some x else arr_get l j.
Proof. intros. eapply arr_get_set. by apply arr_set_Some. Qed.

Lemma arr_eq {A} (l k : list A) :
  length l = length k → (∀ i, 0 ≤ i < Z.of_nat (length l) → arr_get l i = arr_get k i) → l = k.
Proof.
  intros Hlen H. apply list_eq. intros i.
  destruct (decide (i < length l)%nat) as [Hi|Hi].
  - rewrite <- !arr_get_nat. apply H. lia.
  - rewrite !lookup_ge_None_2 by lia. done.
Qed.

Lemma arr_get_replicate {A} (n : nat) (x : A) (i : Z) :
  0 ≤ i < Z.of_nat n → arr_get (replicate n x) i = Some x.
Proof. intros. rewrite arr_get_lookup by lia. apply lookup_replicate_2. lia. Qed.

(** Check a property of every entry of a concrete table. *)
Lemma arr_forall {A} (p : A → bool) (l : list A) (i : Z) (x : A) :
  forallb p l = true → arr_get l i = Some x → p x = true.
Proof.
  intros Hall Hx. rewrite forallb_forall in Hall. apply Hall. unfold arr_get in Hx.
  destruct (0 <=? i); [|done]. apply list_elem_of_In. by apply list_elem_of_lookup_2 in Hx.
Qed.

#[export] Hint Resolve arr_get_Some_range arr_get_is_Some : lettuce.

(** ** Generic lemmas: loops *)

(** The invariant rule: a loop whose body keeps [I] ends with [I] at its bound. *)
Lemma for_range_inv {S} (I : Z → S → Prop) (n : nat) (i : Z) body (s : S) :
  I i s →
  (∀ k s, i ≤ k < i + Z.of_nat n → I k s → ∃ s', body k s = Some s' ∧ I (k + 1) s') →
  ∃ s', for_range n i body s = Some s' ∧ I (i + Z.of_nat n) s'.
Proof.
  revert i s. induction n as [|n IH]; intros i s Hi Hbody.
  - exists s. split; [done|]. by rewrite Z.add_0_r.
  - destruct (Hbody i s) as (s1 & Hs1 & HI1); [lia|done|].
    destruct (IH (i + 1) s1) as (s2 & Hs2 & HI2); [done| |].
    { intros k s' Hk. apply Hbody. lia. }
    exists s2. split; [cbn; rewrite Hs1; exact Hs2|].
    rewrite Nat2Z.inj_succ. by replace (i + Z.succ (Z.of_nat n)) with (i + 1 + Z.of_nat n) by lia.
Qed.

Lemma for_range_keeps {S} (I : S → Prop) (n : nat) (i : Z) body (s s' : S) :
  (∀ k s s', body k s = Some s' → I s → I s') → for_range n i body s = Some s' → I s → I s'.
Proof.
  intros Hb. revert i s. induction n as [|n IH]; intros i s; cbn; [by intros [= ->]|].
  destruct (body i s) as [s1|] eqn:Hs; [|done]. cbn. intros Hr HI. eauto.
Qed.

(** The rule for loops with early exits: [Q] holds of however the loop ends. *)
Lemma for_flow_inv {S R} (I : Z → S → Prop) (Q : flow S R → Prop) (n : nat) (i : Z) body (s : S) :
  I i s →
  (∀ k s, i ≤ k < i + Z.of_nat n → I k s →
     ∃ f, body k s = Some f ∧ match f with Next s' => I (k + 1) s' | _ => Q f end) →
  (∀ s, I (i + Z.of_nat n) s → Q (Next s)) →
  ∃ f, for_flow n i body s = Some f ∧ Q f.
Proof.
  revert i s. induction n as [|n IH]; intros i s Hi Hbody Hend.
  - exists (Next s). split; [done|]. apply Hend. by rewrite Z.add_0_r.
  - destruct (Hbody i s) as (f & Hf & HI); [lia|done|].
    destruct f as [s'|s'|r s']; [|cbn; rewrite Hf; cbn; eauto..].
    destruct (IH (i + 1) s') as (f & Hf' & HQ); [done|..|].
    + intros k s'' Hk. apply Hbody. lia.
    + intros s'' Hs''. apply Hend. rewrite Nat2Z.inj_succ.
      by replace (i + Z.succ (Z.of_nat n)) with (i + 1 + Z.of_nat n) by lia.
    + exists f. split; [|done]. cbn. rewrite Hf. exact Hf'.
Qed.

(** A searching loop returns the first index its test accepts. *)
Lemma for_search_Some {R} (n : nat) (i : Z) (test : Z → option R) (r : R) :
  for_search n i test = Some r ↔
  ∃ k, i ≤ k < i + Z.of_nat n ∧ test k = Some r ∧ ∀ j, i ≤ j < k → test j = None.
Proof.
  unfold for_search. revert i. induction n as [|n IH]; intros i; cbn.
  - split; [done|]. intros (k & ? & _). lia.
  - destruct (test i) as [r'|] eqn:Hi; cbn.
    + split.
      * intros [= ->]. exists i. split_and!; [lia..|done|intros; lia].
      * intros (k & Hk & Htk & Hlt). destruct (decide (k = i)) as [->|]; [congruence|].
        rewrite (Hlt i) in Hi by lia. done.
    + rewrite IH. split; intros (k & Hk & Htk & Hlt); exists k; split_and!; try lia; try done.
      * intros j Hj. destruct (decide (j = i)) as [->|]; [done|]. apply Hlt. lia.
      * assert (k ≠ i) by congruence. lia.
      * intros j Hj. apply Hlt. lia.
Qed.

Lemma for_search_None {R} (n : nat) (i : Z) (test : Z → option R) :
  for_search n i test = None ↔ ∀ k, i ≤ k < i + Z.of_nat n → test k = None.
Proof.
  unfold for_search. revert i. induction n as [|n IH]; intros i; cbn.
  - split; [|done]. intros _ k ?. lia.
  - destruct (test i) as [r'|] eqn:Hi; cbn.
    + split; [done|]. intros H. rewrite H in Hi by lia. done.
    + rewrite IH. split; intros H k Hk; [|apply H; lia].
      destruct (decide (k = i)) as [->|]; [done|]. apply H. lia.
Qed.

(** ** Generic lemmas: lists of indices *)

(** An array whose first [i] entries a loop has set to [x]. *)
Definition filled {A} (n : nat) (x : A) (i : Z) (l : list A) : Prop :=
  length l = n ∧ ∀ k, 0 ≤ k < i → arr_get l k = Some x.

Lemma filled_start {A} (x : A) (l : list A) : filled (length l) x 0 l.
Proof. split; [done|]. intros; lia. Qed.

Lemma filled_step {A} (n : nat) (x : A) (i : Z) (l : list A) :
  filled n x i l → 0 ≤ i < Z.of_nat n → ∃ l', arr_set l i x = Some l' ∧ filled n x (i + 1) l'.
Proof.
  intros [Hl Hx] Hi. rewrite arr_set_Some by lia. eexists. split; [done|]. split; [by rewrite length_insert|].
  intros k Hk. rewrite arr_get_insert by lia. case_decide; [done|]. apply Hx. lia.
Qed.

Lemma filled_done {A} (n : nat) (x : A) (l : list A) : filled n x (Z.of_nat n) l → l = replicate n x.
Proof.
  intros [Hl Hx]. apply arr_eq; [by rewrite length_replicate|]. intros i Hi. rewrite Hl in Hi.
  rewrite arr_get_replicate by done. by apply Hx.
Qed.

(** A duplicate-free list of indices below [n] has at most [n] elements. *)
Lemma NoDup_bounded_length (l : list Z) (n : Z) :
  NoDup l → (∀ x, x ∈ l → 0 ≤ x < n) → (length l ≤ Z.to_nat n)%nat.
Proof.
  intros Hnd Hb. rewrite <- (length_seqZ 0 n). apply submseteq_length.
  apply NoDup_submseteq; [done|]. intros x Hx. apply elem_of_seqZ. specialize (Hb x Hx). lia.
Qed.

(** Popping and pushing at the top of an array used as a stack. *)
Lemma take_pop {A} (l : list A) (n : nat) (x : A) :
  (0 < n)%nat → l !! (n - 1)%nat = Some x → take n l = take (n - 1) l ++ [x].
Proof.
  intros Hn Hx. replace n with (S (n - 1)) at 1 by lia. by apply take_S_r.
Qed.

Lemma take_push {A} (l : list A) (n : nat) (x : A) :
  (n < length l)%nat → take (S n) (<[n:=x]> l) = take n l ++ [x].
Proof.
  intros Hn. rewrite (take_S_r _ _ x) by (by apply list_lookup_insert_eq).
  by rewrite take_insert_ge by lia.
Qed.
