(* ===== verification/Types.v ===== *)
(** * The public ABI vocabulary: [include/lettuce/*.h]

    Identifiers are 32-bit words; [0] is the invalid value of each kind.
    [LettuceStatus] is the closed enumeration of [errors.h] with its numeric
    codes; layers, flags and permissions stay numbers because the code compares
    and masks them as numbers. *)

From S2P Require Import Prelude.

(** ** Identifiers: [types.h] *)

Definition LETTUCE_SERVICE_ID_INVALID : Z := 0.
Definition LETTUCE_RESOURCE_ID_INVALID : Z := 0.
Definition LETTUCE_DOMAIN_ID_INVALID : Z := 0.
Definition LETTUCE_OPERATION_ID_INVALID : Z := 0.
Definition LETTUCE_CAPABILITY_INVALID : Z := 0.

(** ** Status codes: [errors.h] *)

Inductive LettuceStatus :=
  | LETTUCE_STATUS_OK
  | LETTUCE_STATUS_ERROR
  | LETTUCE_STATUS_INVALID_ARGUMENT
  | LETTUCE_STATUS_DENIED
  | LETTUCE_STATUS_NOT_FOUND
  | LETTUCE_STATUS_BUSY
  | LETTUCE_STATUS_TIMEOUT
  | LETTUCE_STATUS_UNAVAILABLE
  | LETTUCE_STATUS_NOT_SUPPORTED
  | LETTUCE_STATUS_ABORTED
  | LETTUCE_STATUS_OVERFLOW
  | LETTUCE_STATUS_INTERNAL
  | LETTUCE_STATUS_INVALID_STATE
  | LETTUCE_STATUS_INVALID_SERVICE
  | LETTUCE_STATUS_INACTIVE_SERVICE
  | LETTUCE_STATUS_DIFFERENT_LAYER
  | LETTUCE_STATUS_CAPABILITY_DENIED
  | LETTUCE_STATUS_INVALID_OPERATION
  | LETTUCE_STATUS_INVALID_RESOURCE
  | LETTUCE_STATUS_INVALID_TARGET_ENTRY.

#[export] Instance LettuceStatus_eq_dec : EqDecision LettuceStatus.
Proof. solve_decision. Defined.

(** The 32-bit value a status has in a register. *)
Definition status_code (s : LettuceStatus) : Z :=
  match s with
  | LETTUCE_STATUS_OK => 0
  | LETTUCE_STATUS_ERROR => 1
  | LETTUCE_STATUS_INVALID_ARGUMENT => 2
  | LETTUCE_STATUS_DENIED => 3
  | LETTUCE_STATUS_NOT_FOUND => 4
  | LETTUCE_STATUS_BUSY => 5
  | LETTUCE_STATUS_TIMEOUT => 6
  | LETTUCE_STATUS_UNAVAILABLE => 7
  | LETTUCE_STATUS_NOT_SUPPORTED => 8
  | LETTUCE_STATUS_ABORTED => 9
  | LETTUCE_STATUS_OVERFLOW => 10
  | LETTUCE_STATUS_INTERNAL => 11
  | LETTUCE_STATUS_INVALID_STATE => 12
  | LETTUCE_STATUS_INVALID_SERVICE => 13
  | LETTUCE_STATUS_INACTIVE_SERVICE => 14
  | LETTUCE_STATUS_DIFFERENT_LAYER => 15
  | LETTUCE_STATUS_CAPABILITY_DENIED => 16
  | LETTUCE_STATUS_INVALID_OPERATION => 17
  | LETTUCE_STATUS_INVALID_RESOURCE => 18
  | LETTUCE_STATUS_INVALID_TARGET_ENTRY => 19
  end.

Definition status_is_ok (s : LettuceStatus) : bool := bool_decide (s = LETTUCE_STATUS_OK).

(** ** Permission bits: [capability.h] *)

Definition LETTUCE_CAP_NONE : Z := 0.
Definition LETTUCE_CAP_CALL : Z := 1 .<< 0.
Definition LETTUCE_CAP_READ : Z := 1 .<< 1.
Definition LETTUCE_CAP_WRITE : Z := 1 .<< 2.
Definition LETTUCE_CAP_MAP : Z := 1 .<< 3.
Definition LETTUCE_CAP_SIGNAL : Z := 1 .<< 4.
Definition LETTUCE_CAP_CRITICAL : Z := 1 .<< 5.

(** ** Layers, flags and descriptors: [service.h] *)

Definition LETTUCE_LAYER_MAIN : Z := 0.
Definition LETTUCE_LAYER_L1 : Z := 1.
Definition LETTUCE_LAYER_L2 : Z := 2.
Definition LETTUCE_LAYER_L3 : Z := 3.
Definition LETTUCE_LAYER_L4 : Z := 4.

Definition LETTUCE_SERVICE_FLAG_ACTIVE : Z := 1 .<< 0.
Definition LETTUCE_SERVICE_FLAG_CRITICAL : Z := 1 .<< 1.
Definition LETTUCE_SERVICE_FLAG_TRUSTED : Z := 1 .<< 2.
Definition LETTUCE_SERVICE_FLAG_RESTARTABLE : Z := 1 .<< 3.

Record LettuceServiceDescriptor := {
  sd_id : Z;
  sd_layer : Z;
  sd_domain : Z;
  sd_flags : Z
}.

#[export] Instance LettuceServiceDescriptor_eq_dec : EqDecision LettuceServiceDescriptor.
Proof. solve_decision. Defined.

(** ** The mediated-call message: [message.h] *)

Record LettuceCallMessage := {
  target_service_id : Z;
  operation_id : Z;
  resource_id : Z;
  capability_handle : Z
}.

Lemma status_code_inj : Inj (=) (=) status_code.
Proof. intros [] []; cbn; done. Qed.

Lemma status_code_range (s : LettuceStatus) : 0 ≤ status_code s ≤ 19.
Proof. destruct s; cbn; lia. Qed.

Lemma status_is_ok_true (s : LettuceStatus) : status_is_ok s = true ↔ s = LETTUCE_STATUS_OK.
Proof. unfold status_is_ok. by rewrite bool_decide_eq_true. Qed.
