(* ===== verification/Generation.v ===== *)
(** * Generation counters and generational handles

    The capability table, the page allocator, the shared buffers and the task
    table all hand out 32-bit handles: a 16-bit generation over a 16-bit slot
    field.  Retiring a slot advances its 16-bit generation, skipping 0 on
    wrap-around.  The arithmetic they share is here; each component keeps its own
    encoder and decoder as the source has them. *)

From S2P Require Import Prelude.

(** [x = (uint16_t)(x + 1u); if (x == 0u) x = 1u;] *)
Definition gen_next (g : Z) : Z :=
  let g' := u16 (g + 1) in
  if g' =? 0 then 1 else g'.

(** The generation after [n] retirements. *)
Fixpoint gen_iter (n : nat) (g : Z) : Z :=
  match n with
  | O => g
  | S n' => gen_next (gen_iter n' g)
  end.

(** A generation in use is never 0. *)
Definition gen_ok (g : Z) : Prop := 1 ≤ g < 2 ^ 16.

(** [((uint32_t)gen << 16) | field], the layout of every handle. *)
Definition pack (gen field : Z) : Z := (gen .<< 16) .| field.

(** ** Generations *)

Lemma gen_next_ok (g : Z) : gen_ok g → gen_ok (gen_next g).
Proof.
  unfold gen_ok, gen_next, u16. intros.
  destruct (Z.eqb_spec ((g + 1) mod 2 ^ 16) 0) as [|Hne]; [lia|].
  pose proof (Z.mod_pos_bound (g + 1) (2 ^ 16)). lia.
Qed.

Lemma gen_next_eq (g : Z) : gen_ok g → gen_next g = if g =? 65535 then 1 else g + 1.
Proof.
  unfold gen_ok, gen_next, u16. intros. destruct (Z.eqb_spec g 65535) as [->|].
  - reflexivity.
  - rewrite Z.mod_small by lia. destruct (Z.eqb_spec (g + 1) 0); lia.
Qed.

Lemma gen_next_ne (g : Z) : gen_ok g → gen_next g ≠ g.
Proof. intros H. rewrite gen_next_eq by done. unfold gen_ok in H. case_match; b2p; lia. Qed.

Lemma gen_iter_ok (n : nat) (g : Z) : gen_ok g → gen_ok (gen_iter n g).
Proof. intros. induction n; cbn; auto using gen_next_ok. Qed.

(** Generations cycle through 1..65535. *)
Lemma gen_iter_closed (n : nat) (g : Z) :
  gen_ok g → gen_iter n g = 1 + (g - 1 + Z.of_nat n) mod 65535.
Proof.
  intros Hg. induction n as [|n IH].
  - cbn [gen_iter Z.of_nat]. unfold gen_ok in Hg.
    rewrite Z.add_0_r, Z.mod_small by lia. lia.
  - assert (gen_ok (gen_iter n g)) as Hok by by apply gen_iter_ok.
    cbn [gen_iter]. rewrite gen_next_eq by done. rewrite IH in Hok |- *.
    rewrite Nat2Z.inj_succ.
    replace (g - 1 + Z.succ (Z.of_nat n)) with (g - 1 + Z.of_nat n + 1) by lia.
    rewrite <- (Zplus_mod_idemp_l _ 1).
    set (m := (g - 1 + Z.of_nat n) mod 65535) in *.
    assert (0 ≤ m < 65535) by (apply Z.mod_pos_bound; lia).
    destruct (Z.eqb_spec (1 + m) 65535).
    + replace (m + 1) with 65535 by lia. rewrite Z.mod_same by lia. lia.
    + rewrite (Z.mod_small (m + 1)) by lia. lia.
Qed.

Lemma gen_iter_ne (n : nat) (g : Z) :
  gen_ok g → 0 < Z.of_nat n < 65535 → gen_iter n g ≠ g.
Proof.
  intros Hg Hn. rewrite gen_iter_closed by done. unfold gen_ok in Hg. intros Heq.
  assert ((g - 1 + Z.of_nat n) mod 65535 = g - 1) as Hm by lia.
  pose proof (Z.div_mod (g - 1 + Z.of_nat n) 65535). lia.
Qed.

Lemma gen_iter_period (n : nat) (g : Z) : gen_ok g → Z.of_nat n = 65535 → gen_iter n g = g.
Proof.
  intros Hg Hn. rewrite gen_iter_closed, Hn by done.
  replace (g - 1 + 65535) with (g - 1 + 1 * 65535) by lia.
  rewrite Z.mod_add, Z.mod_small by (unfold gen_ok in Hg; lia). lia.
Qed.

(** ** Packed handles *)

Lemma pack_field (gen field : Z) : 0 ≤ field < 2 ^ 16 → pack gen field .& 65535 = field.
Proof. intros. rewrite land_mask16. by apply lor_shiftl_mod. Qed.

Lemma pack_gen (gen field : Z) :
  is_u16 gen → 0 ≤ field < 2 ^ 16 → u16 (pack gen field .>> 16) = gen.
Proof. intros. unfold pack. rewrite lor_shiftl_shiftr by lia. by apply u16_small. Qed.

Lemma pack_range (gen field : Z) :
  is_u16 gen → 0 ≤ field < 2 ^ 16 → is_u32 (pack gen field).
Proof. intros. apply (lor_shiftl_range gen field 16 16); unfold is_u16 in *; lia. Qed.

Lemma pack_inj (g1 f1 g2 f2 : Z) :
  is_u16 g1 → is_u16 g2 → 0 ≤ f1 < 2 ^ 16 → 0 ≤ f2 < 2 ^ 16 →
  pack g1 f1 = pack g2 f2 → g1 = g2 ∧ f1 = f2.
Proof.
  intros ???? Heq. split.
  - rewrite <- (pack_gen g1 f1), <- (pack_gen g2 f2), Heq by done. done.
  - rewrite <- (pack_field g1 f1), <- (pack_field g2 f2), Heq by done. done.
Qed.

(** Every 32-bit word is the packing of its two halves. *)
Lemma pack_unpack (h : Z) : is_u32 h → pack (u16 (h .>> 16)) (h .& 65535) = h.
Proof.
  intros Hh. unfold pack. rewrite land_mask16.
  rewrite lor_shiftl_add by (try apply Z.mod_pos_bound; lia).
  rewrite Z.shiftr_div_pow2 by lia. unfold is_u32 in Hh.
  rewrite u16_small.
  - pose proof (Z.div_mod h (2 ^ 16)). lia.
  - unfold is_u16. split; [apply Z.div_pos; lia|apply Z.div_lt_upper_bound; lia].
Qed.

Lemma pack_pos (gen field : Z) :
  gen_ok gen → 0 ≤ field < 2 ^ 16 → 0 < pack gen field.
Proof. intros. unfold pack, gen_ok in *. rewrite lor_shiftl_add by lia. nia. Qed.

Lemma gen_ok_u16 (g : Z) : gen_ok g → is_u16 g.
Proof. unfold gen_ok, is_u16. lia. Qed.

(** The slot field of a handle is the slot plus one, so that 0 is no handle. *)
Lemma pack_slot (slot gen : Z) :
  0 ≤ slot < 65535 → is_u16 gen →
  pack gen (slot + 1) ≠ 0 ∧ pack gen (slot + 1) .& 65535 = slot + 1 ∧
  u32 (pack gen (slot + 1) .& 65535 - 1) = slot ∧ u16 (pack gen (slot + 1) .>> 16) = gen.
Proof.
  intros Hs Hg. rewrite pack_field, pack_gen by (done || lia).
  replace (slot + 1 - 1) with slot by lia. rewrite u32_small by (unfold is_u32; lia).
  split_and!; try done. unfold pack. rewrite lor_shiftl_add by lia. unfold is_u16 in Hg. lia.
Qed.

Lemma unpack_slot (h : Z) :
  is_u32 h → h .& 65535 ≠ 0 →
  0 ≤ u32 (h .& 65535 - 1) < 65535 ∧ h = pack (u16 (h .>> 16)) (u32 (h .& 65535 - 1) + 1).
Proof.
  intros Hh Hne. pose proof (pack_unpack h Hh) as Hp. pose proof (land_mask16 h) as Hm.
  pose proof (Z.mod_pos_bound h (2 ^ 16)) as Hb. rewrite u32_small by (unfold is_u32; lia).
  split; [lia|]. by rewrite Z.sub_add.
Qed.

(** [((uint32_t)gen << 16) | (uint32_t)(slot + 1)] does not lose a bit. *)
Lemma pack_words (slot gen : Z) :
  0 ≤ slot < 65535 → is_u16 gen → u32 (gen .<< 16) .| u32 (slot + 1) = pack gen (slot + 1).
Proof.
  unfold pack, is_u16. intros. rewrite !u32_small; [done|unfold is_u32; lia|].
  unfold is_u32. rewrite Z.shiftl_mul_pow2 by lia. lia.
Qed.

Lemma gen_iter_next (n : nat) (g : Z) : gen_iter n (gen_next g) = gen_iter (S n) g.
Proof. induction n as [|n IH]; [done|]. cbn. by rewrite IH. Qed.

#[export] Hint Resolve gen_next_ok gen_ok_u16 pack_range : lettuce.
