(* ===== verification/Context.v ===== *)
(** * Execution contexts and protection domains

    [kernel/main/context.c] keeps the authoritative identity of the running
    service and, on every mediated call, swaps it together with the protection
    domain.  The domain half is delegated to a backend ([kernel/main/protection.c]):
    a variable on the host build, the MMU on the ARM64 build.  The backend is the
    class [ProtectionOps], its contract [ProtectionLaws]; the call gates are
    proved against the contract. *)

From S2P Require Import Prelude Types.

(** ** The protection backend *)

Class ProtectionOps (P : Type) := {
  lettuce_protection_enter : Z → P → Z * P;
  lettuce_protection_leave : Z → P → P;
  lettuce_protection_current_domain : P → Z
}.

(** What the portable kernel relies on.  [domain_known] is the set of domains the
    backend is able to install. *)
Class ProtectionLaws (P : Type) `{ProtectionOps P} := {
  domain_known : Z → Prop;
  protection_enter_previous (d : Z) (p : P) :
    (lettuce_protection_enter d p).1 = lettuce_protection_current_domain p;
  protection_enter_installs (d : Z) (p : P) :
    domain_known d → d ≠ LETTUCE_DOMAIN_ID_INVALID →
    lettuce_protection_current_domain (lettuce_protection_enter d p).2 = d;
  protection_enter_invalid (p : P) :
    (lettuce_protection_enter LETTUCE_DOMAIN_ID_INVALID p).2 = p;
  protection_leave_restores (d : Z) (p : P) :
    domain_known d → lettuce_protection_current_domain (lettuce_protection_leave d p) = d
}.

(** ** The host backend: [kernel/main/protection.c], [#else] branch *)

Record host_protection := { g_current_domain : Z }.

Definition host_protection_boot : host_protection :=
  {| g_current_domain := LETTUCE_DOMAIN_ID_INVALID |}.

Definition host_protection_enter (target_domain : Z) (p : host_protection)
    : Z * host_protection :=
  let previous_domain := g_current_domain p in
  (previous_domain,
   if negb (target_domain =? LETTUCE_DOMAIN_ID_INVALID)
   then {| g_current_domain := target_domain |} else p).

Definition host_protection_leave (previous_domain : Z) (p : host_protection)
    : host_protection :=
  {| g_current_domain := previous_domain |}.

#[export] Instance host_protection_ops : ProtectionOps host_protection := {
  lettuce_protection_enter := host_protection_enter;
  lettuce_protection_leave := host_protection_leave;
  lettuce_protection_current_domain := g_current_domain
}.

#[export] Instance host_protection_laws : ProtectionLaws host_protection.
Proof.
  refine {| domain_known := λ _, True |}.
  - done.
  - intros d p _ Hd. cbn. apply Z.eqb_neq in Hd. by rewrite Hd.
  - done.
  - done.
Defined.

(** ** Execution contexts: [kernel/main/context.c] *)

Section context.
Context {P : Type} `{!ProtectionOps P}.

Record context_state := {
  g_current_service_id : Z;
  ctx_protection : P
}.

Record LettuceExecutionContext := {
  ec_service_id : Z;
  ec_domain_id : Z
}.

Definition current_service_id (s : context_state) : Z := g_current_service_id s.

Definition set_current_service_id (service_id : Z) (s : context_state) : context_state :=
  {| g_current_service_id := service_id; ctx_protection := ctx_protection s |}.

Definition kernel_set_current_service_id (service_id : Z) (s : context_state) : context_state :=
  set_current_service_id service_id s.

Definition current_domain_id (s : context_state) : Z :=
  lettuce_protection_current_domain (ctx_protection s).

Definition lettuce_context_enter (target_service_id target_domain_id : Z) (s : context_state)
    : LettuceExecutionContext * context_state :=
  let previous_context :=
    {| ec_service_id := current_service_id s; ec_domain_id := current_domain_id s |} in
  let s1 := kernel_set_current_service_id target_service_id s in
  let '(_, p) := lettuce_protection_enter target_domain_id (ctx_protection s1) in
  (previous_context,
   {| g_current_service_id := g_current_service_id s1; ctx_protection := p |}).

Definition lettuce_context_leave (previous_context : LettuceExecutionContext) (s : context_state)
    : context_state :=
  let s1 := {| g_current_service_id := g_current_service_id s;
               ctx_protection := lettuce_protection_leave (ec_domain_id previous_context)
                                   (ctx_protection s) |} in
  kernel_set_current_service_id (ec_service_id previous_context) s1.

(** ** Facts the call gates use *)

Context `{!ProtectionLaws P}.

Lemma context_enter_service (svc dom : Z) (s : context_state) :
  current_service_id (lettuce_context_enter svc dom s).2 = svc.
Proof. unfold lettuce_context_enter. by destruct (lettuce_protection_enter _ _). Qed.

Lemma context_enter_saved (svc dom : Z) (s : context_state) :
  (lettuce_context_enter svc dom s).1 =
  {| ec_service_id := current_service_id s; ec_domain_id := current_domain_id s |}.
Proof. unfold lettuce_context_enter. by destruct (lettuce_protection_enter _ _). Qed.

Lemma context_enter_domain (svc dom : Z) (s : context_state) :
  domain_known dom → dom ≠ LETTUCE_DOMAIN_ID_INVALID →
  current_domain_id (lettuce_context_enter svc dom s).2 = dom.
Proof.
  intros Hk Hne. unfold lettuce_context_enter, current_domain_id.
  pose proof (protection_enter_installs dom (ctx_protection s) Hk Hne) as He. cbn.
  by destruct (lettuce_protection_enter _ _).
Qed.

(** Leaving restores what entering saved, whatever ran in between. *)
Lemma context_leave_restores (svc dom : Z) (s s' : context_state) :
  domain_known (current_domain_id s) →
  let s'' := lettuce_context_leave (lettuce_context_enter svc dom s).1 s' in
  current_service_id s'' = current_service_id s ∧ current_domain_id s'' = current_domain_id s.
Proof.
  intros Hk. rewrite context_enter_saved. cbn. split; [done|].
  unfold current_domain_id. cbn. by apply protection_leave_restores.
Qed.

End context.

Arguments context_state : clear implicits.
