(* ===== verification/Capability.v ===== *)
(** * The capability table: [kernel/main/capability.c]

    4096 entries, a LIFO stack of free slots and generational handles.  The
    operations are the source's, over the record of its three static variables;
    [None] marks an array access out of bounds.  The invariant [cap_inv] says that
    the free stack enumerates the inactive slots without repetition. *)

From S2P Require Import Prelude Types Generation.

Definition LETTUCE_CAPABILITY_TABLE_SIZE : Z := 4096.
Definition HANDLE_SLOT_MASK : Z := 65535.
Definition HANDLE_GENERATION_SHIFT : Z := 16.
Definition LETTUCE_CAPABILITY_KNOWN_PERMISSIONS : Z :=
  LETTUCE_CAP_CALL .| LETTUCE_CAP_READ .| LETTUCE_CAP_WRITE .| LETTUCE_CAP_MAP .|
  LETTUCE_CAP_SIGNAL .| LETTUCE_CAP_CRITICAL.

(** ** State *)

Record LettuceCapabilityEntry := {
  ce_generation : Z;
  ce_active : bool;
  ce_reserved : Z;
  ce_owner : Z;
  ce_target : Z;
  ce_operation : Z;
  ce_resource : Z;
  ce_permissions : Z
}.

Record cap_state := {
  capability_table : list LettuceCapabilityEntry;
  free_slots : list Z;
  free_slot_count : Z
}.

(** Static storage at boot: all bytes zero. *)
Definition cap_entry_zero : LettuceCapabilityEntry :=
  {| ce_generation := 0; ce_active := false; ce_reserved := 0; ce_owner := 0;
     ce_target := 0; ce_operation := 0; ce_resource := 0; ce_permissions := 0 |}.

Definition cap_boot : cap_state :=
  {| capability_table := replicate (Z.to_nat LETTUCE_CAPABILITY_TABLE_SIZE) cap_entry_zero;
     free_slots := replicate (Z.to_nat LETTUCE_CAPABILITY_TABLE_SIZE) 0;
     free_slot_count := 0 |}.

(** ** Handles *)

Definition make_handle (slot generation : Z) : Z :=
  u32 (generation .<< HANDLE_GENERATION_SHIFT) .| u32 (slot + 1).

Definition decode_handle (handle : Z) : option (Z * Z) :=
  if handle =? LETTUCE_CAPABILITY_INVALID then None else
  let encoded_slot := handle .& HANDLE_SLOT_MASK in
  if encoded_slot =? 0 then None else
  let decoded_slot := u32 (encoded_slot - 1) in
  if LETTUCE_CAPABILITY_TABLE_SIZE <=? decoded_slot then None else
  Some (u16 decoded_slot, u16 (handle .>> HANDLE_GENERATION_SHIFT)).

(** ** Operations *)

Definition cap_entry_fresh : LettuceCapabilityEntry :=
  {| ce_generation := 1; ce_active := false; ce_reserved := 0;
     ce_owner := LETTUCE_SERVICE_ID_INVALID; ce_target := LETTUCE_SERVICE_ID_INVALID;
     ce_operation := LETTUCE_OPERATION_ID_INVALID; ce_resource := LETTUCE_RESOURCE_ID_INVALID;
     ce_permissions := LETTUCE_CAP_NONE |}.

Definition lettuce_capability_init (st : cap_state) : option cap_state :=
  st' ← for_range (Z.to_nat LETTUCE_CAPABILITY_TABLE_SIZE) 0
          (λ i s,
             table ← arr_set (capability_table s) i cap_entry_fresh;
             slots ← arr_set (free_slots s) i (u16 (u32 (LETTUCE_CAPABILITY_TABLE_SIZE - 1 - i)));
             Some {| capability_table := table; free_slots := slots;
                     free_slot_count := free_slot_count s |}) st;
  Some {| capability_table := capability_table st'; free_slots := free_slots st';
          free_slot_count := LETTUCE_CAPABILITY_TABLE_SIZE |}.

(** The stores of [lettuce_capability_create] into the popped entry. *)
Definition entry_grant (entry : LettuceCapabilityEntry)
    (owner target operation permissions resource : Z) : LettuceCapabilityEntry :=
  {| ce_generation := ce_generation entry; ce_active := true;
     ce_reserved := ce_reserved entry; ce_owner := owner; ce_target := target;
     ce_operation := operation; ce_resource := resource; ce_permissions := permissions |}.

(** The stores of [lettuce_capability_revoke] into the revoked entry. *)
Definition entry_clear (entry : LettuceCapabilityEntry) : LettuceCapabilityEntry :=
  {| ce_generation := gen_next (ce_generation entry); ce_active := false;
     ce_reserved := ce_reserved entry; ce_owner := LETTUCE_SERVICE_ID_INVALID;
     ce_target := LETTUCE_SERVICE_ID_INVALID; ce_operation := LETTUCE_OPERATION_ID_INVALID;
     ce_resource := LETTUCE_RESOURCE_ID_INVALID; ce_permissions := LETTUCE_CAP_NONE |}.

Definition lettuce_capability_create
    (owner target operation permissions resource : Z) (st : cap_state)
    : option (Z * cap_state) :=
  if (owner =? LETTUCE_SERVICE_ID_INVALID) || (target =? LETTUCE_SERVICE_ID_INVALID) ||
     (operation =? LETTUCE_OPERATION_ID_INVALID) || (resource =? LETTUCE_RESOURCE_ID_INVALID)
  then Some (LETTUCE_CAPABILITY_INVALID, st) else
  if (permissions =? LETTUCE_CAP_NONE) ||
     negb (permissions .& u32 (Z.lnot LETTUCE_CAPABILITY_KNOWN_PERMISSIONS) =? 0)
  then Some (LETTUCE_CAPABILITY_INVALID, st) else
  if free_slot_count st =? 0 then Some (LETTUCE_CAPABILITY_INVALID, st) else
  let count := u16 (free_slot_count st - 1) in
  slot ← arr_get (free_slots st) count;
  entry ← arr_get (capability_table st) slot;
  let entry' := entry_grant entry owner target operation permissions resource in
  table ← arr_set (capability_table st) slot entry';
  Some (make_handle slot (ce_generation entry'),
        {| capability_table := table; free_slots := free_slots st; free_slot_count := count |}).

Definition lettuce_capability_revoke (handle : Z) (st : cap_state) : option (bool * cap_state) :=
  match decode_handle handle with
  | None => Some (false, st)
  | Some (slot, generation) =>
      entry ← arr_get (capability_table st) slot;
      if negb (ce_active entry) || negb (ce_generation entry =? generation)
      then Some (false, st) else
      table ← arr_set (capability_table st) slot (entry_clear entry);
      slots ← arr_set (free_slots st) (free_slot_count st) slot;
      Some (true, {| capability_table := table; free_slots := slots;
                     free_slot_count := u16 (free_slot_count st + 1) |})
  end.

(** [trusted_caller] is the value of [current_service_id()]. *)
Definition lettuce_capability_check
    (trusted_caller handle target operation permission resource : Z) (st : cap_state)
    : option bool :=
  if permission =? LETTUCE_CAP_NONE then Some false else
  match decode_handle handle with
  | None => Some false
  | Some (slot, generation) =>
      entry ← arr_get (capability_table st) slot;
      if negb (ce_active entry) || negb (ce_generation entry =? generation) then Some false else
      if trusted_caller =? LETTUCE_SERVICE_ID_INVALID then Some false else
      if negb (ce_owner entry =? trusted_caller) then Some false else
      if negb (ce_target entry =? target) then Some false else
      if negb (ce_operation entry =? operation) then Some false else
      if negb (resource =? ce_resource entry) then Some false else
      if negb (ce_permissions entry .& permission =? permission) then Some false else
      Some true
  end.

(** ** Call sequences

    The supervisor drives the table with these calls; a run threads the state
    through them and collects the returned values. *)

Inductive cap_call :=
  | CreateCall (owner target operation permissions resource : Z)
  | RevokeCall (handle : Z)
  | CheckCall (trusted_caller handle target operation permission resource : Z).

Inductive cap_result :=
  | HandleResult (h : Z)
  | BoolResult (b : bool).

Definition cap_exec (c : cap_call) (st : cap_state) : option (cap_result * cap_state) :=
  match c with
  | CreateCall o t op p r =>
      '(h, st') ← lettuce_capability_create o t op p r st; Some (HandleResult h, st')
  | RevokeCall h =>
      '(b, st') ← lettuce_capability_revoke h st; Some (BoolResult b, st')
  | CheckCall c h t op p r =>
      b ← lettuce_capability_check c h t op p r st; Some (BoolResult b, st)
  end.

Fixpoint cap_run (cs : list cap_call) (st : cap_state) : option (list cap_result * cap_state) :=
  match cs with
  | [] => Some ([], st)
  | c :: cs' =>
      '(r, st1) ← cap_exec c st;
      '(rs, st2) ← cap_run cs' st1;
      Some (r :: rs, st2)
  end.

(** The arguments are 32-bit words. *)
Definition cap_call_wf (c : cap_call) : Prop :=
  match c with
  | CreateCall o t op p r => is_u32 o ∧ is_u32 t ∧ is_u32 op ∧ is_u32 p ∧ is_u32 r
  | RevokeCall h => is_u32 h
  | CheckCall c h t op p r => is_u32 h
  end.

(** ** The invariant *)

Record cap_inv (st : cap_state) : Prop := {
  inv_table_len : Z.of_nat (length (capability_table st)) = LETTUCE_CAPABILITY_TABLE_SIZE;
  inv_slots_len : Z.of_nat (length (free_slots st)) = LETTUCE_CAPABILITY_TABLE_SIZE;
  inv_count : 0 ≤ free_slot_count st ≤ LETTUCE_CAPABILITY_TABLE_SIZE;
  inv_nodup : NoDup (take (Z.to_nat (free_slot_count st)) (free_slots st));
  inv_free : ∀ s, s ∈ take (Z.to_nat (free_slot_count st)) (free_slots st) ↔
                  ∃ e, arr_get (capability_table st) s = Some e ∧ ce_active e = false;
  inv_gen : ∀ s e, arr_get (capability_table st) s = Some e → gen_ok (ce_generation e)
}.

(** The entry a handle currently designates, if any. *)
Definition cap_designates (st : cap_state) (h : Z) (e : LettuceCapabilityEntry) : Prop :=
  ∃ slot gen, decode_handle h = Some (slot, gen) ∧
    arr_get (capability_table st) slot = Some e ∧ ce_active e = true ∧ ce_generation e = gen.

(** ** Handles: encoding and decoding *)

Lemma make_handle_pack (slot gen : Z) :
  0 ≤ slot < LETTUCE_CAPABILITY_TABLE_SIZE → is_u16 gen → make_handle slot gen = pack gen (slot + 1).
Proof.
  unfold LETTUCE_CAPABILITY_TABLE_SIZE, make_handle, pack, HANDLE_GENERATION_SHIFT, is_u16.
  intros. rewrite !u32_small; [done|unfold is_u32; lia|].
  unfold is_u32. rewrite Z.shiftl_mul_pow2 by lia. lia.
Qed.

Lemma decode_handle_Some (h slot gen : Z) :
  is_u32 h →
  decode_handle h = Some (slot, gen) ↔
  0 ≤ slot < LETTUCE_CAPABILITY_TABLE_SIZE ∧ is_u16 gen ∧ h = pack gen (slot + 1).
Proof.
  intros Hh. pose proof (pack_unpack h Hh) as Hpack.
  pose proof (land_mask16 h) as Hmask. pose proof (Z.mod_pos_bound h (2 ^ 16)) as Hmod.
  unfold decode_handle, LETTUCE_CAPABILITY_INVALID, HANDLE_SLOT_MASK,
    HANDLE_GENERATION_SHIFT, LETTUCE_CAPABILITY_TABLE_SIZE.
  split.
  - intros H. repeat case_match; simplify_eq. b2p.
    rewrite u32_small in * by (unfold is_u32; lia).
    rewrite (u16_small (_ - 1)) by (unfold is_u16; lia).
    split_and!; [lia..|apply u16_range|]. by rewrite Z.sub_add.
  - intros (Hs & Hg & ->). rewrite pack_field by lia. rewrite pack_gen by (done || lia).
    replace (slot + 1 - 1) with slot by lia.
    rewrite u32_small by (unfold is_u32; lia). rewrite (u16_small slot) by (unfold is_u16; lia).
    unfold pack in *. rewrite lor_shiftl_add in * by lia.
    repeat case_match; b2p; try done; unfold is_u16 in *; lia.
Qed.

Lemma decode_make_handle (slot gen : Z) :
  0 ≤ slot < LETTUCE_CAPABILITY_TABLE_SIZE → is_u16 gen →
  decode_handle (make_handle slot gen) = Some (slot, gen).
Proof.
  intros Hs Hg. rewrite make_handle_pack by done.
  apply decode_handle_Some; [|done]. apply pack_range; [done|].
  unfold LETTUCE_CAPABILITY_TABLE_SIZE in Hs. lia.
Qed.

Lemma make_handle_range (slot gen : Z) :
  0 ≤ slot < LETTUCE_CAPABILITY_TABLE_SIZE → is_u16 gen → is_u32 (make_handle slot gen).
Proof.
  intros Hs Hg. rewrite make_handle_pack by done. apply pack_range; [done|].
  unfold LETTUCE_CAPABILITY_TABLE_SIZE in Hs. lia.
Qed.

Lemma decode_handle_range (h slot gen : Z) :
  decode_handle h = Some (slot, gen) → 0 ≤ slot < LETTUCE_CAPABILITY_TABLE_SIZE.
Proof.
  unfold decode_handle. intros H. repeat case_match; simplify_eq. b2p.
  pose proof (u32_range (h .& HANDLE_SLOT_MASK - 1)) as Hr.
  unfold is_u32, LETTUCE_CAPABILITY_TABLE_SIZE in *.
  rewrite u16_small by (unfold is_u16; lia). lia.
Qed.

(** ** Permission masks *)

(** Masking with the complement of the known bits tests [p < 64]. *)
Lemma known_permissions_test (p : Z) :
  is_u32 p → (p .& u32 (Z.lnot LETTUCE_CAPABILITY_KNOWN_PERMISSIONS) =? 0) = (p <? 64).
Proof.
  intros Hp. unfold is_u32 in Hp.
  change (u32 (Z.lnot LETTUCE_CAPABILITY_KNOWN_PERMISSIONS)) with (Z.ones 26 .<< 6).
  assert (p .& (Z.ones 26 .<< 6) = (p / 2 ^ 6) .<< 6) as ->.
  { apply Z.bits_inj'. intros k Hk. rewrite Z.land_spec, !Z.shiftl_spec by lia.
    destruct (Z.ltb_spec k 6) as [Hk6|Hk6].
    - rewrite !(Z.testbit_neg_r _ (k - 6)) by lia. by rewrite andb_false_r.
    - rewrite Z.div_pow2_bits by lia. replace (k - 6 + 6) with k by lia.
      destruct (Z.ltb_spec (k - 6) 26).
      + rewrite Z.ones_spec_low by lia. by rewrite andb_true_r.
      + rewrite <- (Z.mod_small p (2 ^ 32)) by lia.
        by rewrite Z.mod_pow2_bits_high by lia. }
  rewrite Z.shiftl_mul_pow2 by lia.
  destruct (Z.ltb_spec p 64).
  - rewrite Z.div_small by lia. done.
  - apply Z.eqb_neq. assert (1 ≤ p / 2 ^ 6) by (apply Z.div_le_lower_bound; lia). lia.
Qed.

(** ** Initialisation *)

Definition cap_fresh : cap_state :=
  {| capability_table := replicate (Z.to_nat LETTUCE_CAPABILITY_TABLE_SIZE) cap_entry_fresh;
     free_slots := (λ i, LETTUCE_CAPABILITY_TABLE_SIZE - 1 - i) <$>
                     seqZ 0 LETTUCE_CAPABILITY_TABLE_SIZE;
     free_slot_count := LETTUCE_CAPABILITY_TABLE_SIZE |}.

Lemma cap_fresh_slot (i : Z) :
  0 ≤ i < LETTUCE_CAPABILITY_TABLE_SIZE →
  arr_get (free_slots cap_fresh) i = Some (LETTUCE_CAPABILITY_TABLE_SIZE - 1 - i).
Proof.
  intros Hi. rewrite arr_get_lookup by lia. cbn [free_slots cap_fresh].
  rewrite list_lookup_fmap, lookup_seqZ_lt by lia. cbn. f_equal. lia.
Qed.

Lemma cap_init_spec (st : cap_state) :
  Z.of_nat (length (capability_table st)) = LETTUCE_CAPABILITY_TABLE_SIZE →
  Z.of_nat (length (free_slots st)) = LETTUCE_CAPABILITY_TABLE_SIZE →
  lettuce_capability_init st = Some cap_fresh.
Proof.
  intros Ht Hf. unfold lettuce_capability_init.
  destruct (for_range_inv (λ i s,
    Z.of_nat (length (capability_table s)) = LETTUCE_CAPABILITY_TABLE_SIZE ∧
    Z.of_nat (length (free_slots s)) = LETTUCE_CAPABILITY_TABLE_SIZE ∧
    ∀ k, 0 ≤ k < i → arr_get (capability_table s) k = Some cap_entry_fresh ∧
                     arr_get (free_slots s) k = Some (LETTUCE_CAPABILITY_TABLE_SIZE - 1 - k))
    (Z.to_nat LETTUCE_CAPABILITY_TABLE_SIZE) 0
    (λ i s,
             table ← arr_set (capability_table s) i cap_entry_fresh;
             slots ← arr_set (free_slots s) i (u16 (u32 (LETTUCE_CAPABILITY_TABLE_SIZE - 1 - i)));
             Some {| capability_table := table; free_slots := slots;
                     free_slot_count := free_slot_count s |}) st) as (st' & Hst' & Hlt & Hls & Hk).
  - split_and!; [done..|]. intros; lia.
  - intros k s Hk (Hlt & Hls & Hpre). unfold LETTUCE_CAPABILITY_TABLE_SIZE in *.
    rewrite !arr_set_Some by lia. eexists. split; [reflexivity|]. cbn.
    rewrite !length_insert. split_and!; [done..|]. intros j Hj.
    rewrite !arr_get_insert by lia.
    rewrite u32_small, u16_small by (unfold is_u16, is_u32; lia).
    case_decide; [subst; done|]. apply Hpre. lia.
  - rewrite Hst'. cbn. f_equal. unfold cap_fresh. rewrite Z2Nat.id in Hk by done.
    assert (length (capability_table st') = Z.to_nat LETTUCE_CAPABILITY_TABLE_SIZE) as Hlt'
      by (rewrite <- Hlt, Nat2Z.id; done).
    f_equal.
    + apply arr_eq; rewrite ?length_replicate; [done|].
      intros i Hi. rewrite arr_get_replicate by (rewrite <- Hlt'; done). apply Hk. lia.
    + apply arr_eq.
      { rewrite length_fmap, length_seqZ, <- Hls, Nat2Z.id. done. }
      intros i Hi. etrans; [apply Hk; lia|]. symmetry. apply cap_fresh_slot. lia.
Qed.

Lemma cap_boot_init : lettuce_capability_init cap_boot = Some cap_fresh.
Proof.
  apply cap_init_spec; cbn [capability_table free_slots cap_boot]; by rewrite length_replicate.
Qed.

(** ** The invariant is established and kept *)

Lemma cap_fresh_inv : cap_inv cap_fresh.
Proof.
  split.
  - cbn [capability_table cap_fresh]. by rewrite length_replicate.
  - cbn [free_slots cap_fresh]. by rewrite length_fmap, length_seqZ.
  - cbn [free_slot_count cap_fresh]. unfold LETTUCE_CAPABILITY_TABLE_SIZE. lia.
  - cbn [free_slots free_slot_count cap_fresh].
    rewrite take_ge by (by rewrite length_fmap, length_seqZ).
    apply NoDup_fmap_2; [intros ?? ?; lia|]. apply NoDup_seqZ.
  - intros s. cbn [free_slots free_slot_count capability_table cap_fresh].
    rewrite take_ge by (by rewrite length_fmap, length_seqZ).
    rewrite list_elem_of_fmap. split.
    + intros (i & -> & Hi%elem_of_seqZ). exists cap_entry_fresh. split; [|done].
      apply arr_get_replicate. lia.
    + intros (e & He%arr_get_Some_range & _). rewrite length_replicate in He.
      exists (LETTUCE_CAPABILITY_TABLE_SIZE - 1 - s). rewrite elem_of_seqZ. lia.
  - intros s e He. cbn [capability_table cap_fresh] in He.
    pose proof (arr_get_Some_range _ _ _ He) as Hr. rewrite length_replicate in Hr.
    rewrite arr_get_replicate in He by done. by simplify_eq.
Qed.

(** The conditions under which a create request is served. *)
Definition cap_args_ok (owner target operation permissions resource : Z) : bool :=
  negb ((owner =? LETTUCE_SERVICE_ID_INVALID) || (target =? LETTUCE_SERVICE_ID_INVALID) ||
        (operation =? LETTUCE_OPERATION_ID_INVALID) || (resource =? LETTUCE_RESOURCE_ID_INVALID)) &&
  negb ((permissions =? LETTUCE_CAP_NONE) ||
        negb (permissions .& u32 (Z.lnot LETTUCE_CAPABILITY_KNOWN_PERMISSIONS) =? 0)).

Section with_inv.
Context (st : cap_state) (Hinv : cap_inv st).

Lemma inv_active_bound (slot : Z) (e : LettuceCapabilityEntry) :
  arr_get (capability_table st) slot = Some e → ce_active e = true →
  free_slot_count st < LETTUCE_CAPABILITY_TABLE_SIZE.
Proof.
  intros He Ha. destruct Hinv as [Ht Hs Hc Hnd Hfree Hgen].
  pose proof (arr_get_Some_range _ _ _ He) as Hr. rewrite Ht in Hr.
  set (l := take (Z.to_nat (free_slot_count st)) (free_slots st)) in *.
  assert (slot ∉ l) as Hnin. { intros (e' & ? & ?)%Hfree. congruence. }
  assert (length (slot :: l) ≤ Z.to_nat LETTUCE_CAPABILITY_TABLE_SIZE)%nat as Hlen.
  { apply NoDup_bounded_length; [by apply NoDup_cons|].
    intros x [->|(e' & Hx%arr_get_Some_range & _)%Hfree]%elem_of_cons; lia. }
  cbn in Hlen. unfold l in Hlen. rewrite length_take in Hlen. lia.
Qed.

(** The slot at the top of the free stack. *)
Lemma inv_pop :
  free_slot_count st ≠ 0 →
  ∃ slot e, arr_get (free_slots st) (free_slot_count st - 1) = Some slot ∧
    arr_get (capability_table st) slot = Some e ∧ ce_active e = false ∧
    take (Z.to_nat (free_slot_count st)) (free_slots st) =
      take (Z.to_nat (free_slot_count st - 1)) (free_slots st) ++ [slot].
Proof.
  intros Hne. destruct Hinv as [Ht Hs Hc Hnd Hfree Hgen].
  destruct (arr_get_is_Some (free_slots st) (free_slot_count st - 1)) as [slot Hslot]; [lia|].
  rewrite arr_get_lookup in Hslot by lia.
  assert (take (Z.to_nat (free_slot_count st)) (free_slots st) =
          take (Z.to_nat (free_slot_count st - 1)) (free_slots st) ++ [slot]) as Htake.
  { replace (Z.to_nat (free_slot_count st - 1)) with (Z.to_nat (free_slot_count st) - 1)%nat
      in Hslot |- * by lia. apply take_pop; [lia|done]. }
  assert (slot ∈ take (Z.to_nat (free_slot_count st)) (free_slots st)) as Hin.
  { rewrite Htake. set_solver. }
  apply Hfree in Hin as (e & He & Ha). exists slot, e.
  by rewrite arr_get_lookup by lia.
Qed.

Lemma create_refused (o t op p r : Z) :
  cap_args_ok o t op p r = false ∨ free_slot_count st = 0 →
  lettuce_capability_create o t op p r st = Some (LETTUCE_CAPABILITY_INVALID, st).
Proof.
  unfold cap_args_ok, lettuce_capability_create. intros [Hbad|Hz].
  - apply andb_false_iff in Hbad. rewrite !negb_false_iff in Hbad.
    destruct Hbad as [->| ->]; [done|]. by case_match.
  - rewrite Hz. repeat case_match; done.
Qed.

(** A served request activates the entry at the top of the free stack. *)
Lemma create_served (o t op p r : Z) :
  cap_args_ok o t op p r = true → free_slot_count st ≠ 0 →
  ∃ slot e st', arr_get (capability_table st) slot = Some e ∧ ce_active e = false ∧
    lettuce_capability_create o t op p r st = Some (make_handle slot (ce_generation e), st') ∧
    arr_set (capability_table st) slot (entry_grant e o t op p r) = Some (capability_table st') ∧
    free_slot_count st' = free_slot_count st - 1 ∧
    take (Z.to_nat (free_slot_count st)) (free_slots st) =
      take (Z.to_nat (free_slot_count st')) (free_slots st') ++ [slot] ∧
    cap_inv st'.
Proof.
  intros Hok Hne. destruct (inv_pop Hne) as (slot & e & Hslot & He & Ha & Htake).
  destruct Hinv as [Ht Hs Hc Hnd Hfree Hgen].
  unfold LETTUCE_CAPABILITY_TABLE_SIZE in Hc.
  pose proof (arr_get_Some_range _ _ _ He) as Hr.
  set (e' := entry_grant e o t op p r).
  set (st' := {| capability_table := <[Z.to_nat slot := e']> (capability_table st);
                 free_slots := free_slots st; free_slot_count := free_slot_count st - 1 |}).
  exists slot, e, st'. rewrite arr_set_Some by done. split_and!; [done..| | |done|done|].
  - apply andb_prop in Hok as [H1 H2]. rewrite negb_true_iff in H1, H2.
    unfold lettuce_capability_create. rewrite H1, H2.
    rewrite (proj2 (Z.eqb_neq _ _) Hne).
    rewrite u16_small by (unfold is_u16; lia). rewrite Hslot. cbn. rewrite He. cbn.
    by rewrite arr_set_Some by done.
  - done.
  - rewrite Htake in Hnd, Hfree. apply NoDup_app in Hnd as (Hnd & Hdisj & _).
    split; cbn; rewrite ?length_insert; [done|done|unfold LETTUCE_CAPABILITY_TABLE_SIZE; lia|done|..].
    + intros s. rewrite arr_get_insert by done. case_decide as Hss.
      * subst s. split; [intros Hin; exfalso; apply (Hdisj slot Hin); set_solver|].
        intros (e'' & [= <-] & ?). done.
      * rewrite <- Hfree. set_solver.
    + intros s x. rewrite arr_get_insert by done. case_decide; [|apply Hgen].
      intros [= <-]. cbn. by eapply Hgen.
Qed.

(** A revocation that is accepted retires the entry and pushes its slot. *)
Lemma revoke_served (h : Z) (slot : Z) (e : LettuceCapabilityEntry) :
  decode_handle h = Some (slot, ce_generation e) →
  arr_get (capability_table st) slot = Some e → ce_active e = true →
  ∃ st', lettuce_capability_revoke h st = Some (true, st') ∧
    arr_set (capability_table st) slot (entry_clear e) = Some (capability_table st') ∧
    free_slot_count st' = free_slot_count st + 1 ∧
    take (Z.to_nat (free_slot_count st')) (free_slots st') =
      take (Z.to_nat (free_slot_count st)) (free_slots st) ++ [slot] ∧
    cap_inv st'.
Proof.
  intros Hd He Ha. pose proof (inv_active_bound _ _ He Ha) as Hlt.
  destruct Hinv as [Ht Hs Hc Hnd Hfree Hgen].
  pose proof (arr_get_Some_range _ _ _ He) as Hr.
  set (n := free_slot_count st) in *. unfold LETTUCE_CAPABILITY_TABLE_SIZE in *.
  set (st' := {| capability_table := <[Z.to_nat slot := entry_clear e]> (capability_table st);
                 free_slots := <[Z.to_nat n := slot]> (free_slots st); free_slot_count := n + 1 |}).
  assert (take (Z.to_nat (n + 1)) (<[Z.to_nat n := slot]> (free_slots st)) =
          take (Z.to_nat n) (free_slots st) ++ [slot]) as Htake.
  { replace (Z.to_nat (n + 1)) with (S (Z.to_nat n)) by lia. apply take_push. lia. }
  exists st'. rewrite arr_set_Some by done. split_and!; [|done..|].
  - unfold lettuce_capability_revoke. rewrite Hd, He. cbn. rewrite Ha, Z.eqb_refl. cbn.
    rewrite !arr_set_Some by lia. cbn. fold n.
    by rewrite u16_small by (unfold is_u16; lia).
  - split; cbn; rewrite ?length_insert; [done|done|unfold LETTUCE_CAPABILITY_TABLE_SIZE; lia|..].
    + rewrite Htake. apply NoDup_app. split_and!; [done| |apply NoDup_singleton].
      intros x Hx ->%list_elem_of_singleton. apply Hfree in Hx as (e' & ? & ?). congruence.
    + intros s. rewrite Htake, arr_get_insert by done. case_decide as Hss.
      * subst. split; [eauto|set_solver].
      * rewrite <- Hfree. set_solver.
    + intros s x. rewrite arr_get_insert by done. case_decide; [|apply Hgen].
      intros [= <-]. cbn. apply gen_next_ok. by eapply Hgen.
Qed.

Lemma revoke_refused (h : Z) :
  (∀ e, ¬ cap_designates st h e) → lettuce_capability_revoke h st = Some (false, st).
Proof.
  intros Hno. unfold lettuce_capability_revoke.
  destruct (decode_handle h) as [[slot gen]|] eqn:Hd; [|done].
  destruct (arr_get_is_Some (capability_table st) slot) as [e He].
  { rewrite (inv_table_len _ Hinv). by eapply decode_handle_range. }
  rewrite He. cbn. destruct (ce_active e) eqn:Ha, (Z.eqb_spec (ce_generation e) gen); [|done..].
  exfalso. apply (Hno e). by exists slot, gen.
Qed.

End with_inv.

Lemma cap_designates_fun (st : cap_state) (h : Z) (e e' : LettuceCapabilityEntry) :
  cap_designates st h e → cap_designates st h e' → e = e'.
Proof. intros (?&?&?&?&_) (?&?&?&?&_). congruence. Qed.

#[export] Instance cap_designates_dec (st : cap_state) (h : Z) :
  Decision (∃ e, cap_designates st h e).
Proof.
  destruct (decode_handle h) as [[slot gen]|] eqn:Hd;
    [|right; intros (e & slot & gen & ? & _); congruence].
  destruct (arr_get (capability_table st) slot) as [e|] eqn:He;
    [|right; intros (e & slot' & gen' & ? & ? & _); congruence].
  destruct (decide (ce_active e = true ∧ ce_generation e = gen)) as [[Ha Hg]|Hn].
  - left. exists e, slot, gen. done.
  - right. intros (e' & slot' & gen' & ? & ? & ? & ?). apply Hn. simplify_eq. done.
Defined.

(** Close a branch of a decided test: its value, and why. *)
#[local] Ltac decided := eexists; split; [done|]; naive_solver.

(** What a successful check establishes about the entry it found. *)
Definition entry_authorizes (e : LettuceCapabilityEntry)
    (trusted_caller target operation permission resource : Z) : Prop :=
  ce_owner e = trusted_caller ∧ ce_target e = target ∧ ce_operation e = operation ∧
  ce_resource e = resource ∧ ce_permissions e .& permission = permission.

Lemma check_spec (st : cap_state) (tc h t op p r : Z) :
  cap_inv st →
  ∃ b, lettuce_capability_check tc h t op p r st = Some b ∧
    (b = true ↔ p ≠ LETTUCE_CAP_NONE ∧ tc ≠ LETTUCE_SERVICE_ID_INVALID ∧
                ∃ e, cap_designates st h e ∧ entry_authorizes e tc t op p r).
Proof.
  intros Hinv. unfold lettuce_capability_check, cap_designates, entry_authorizes.
  destruct (Z.eqb_spec p LETTUCE_CAP_NONE); [decided|].
  destruct (decode_handle h) as [[slot gen]|] eqn:Hd; [|decided].
  destruct (arr_get_is_Some (capability_table st) slot) as [e He].
  { rewrite (inv_table_len _ Hinv). by eapply decode_handle_range. }
  rewrite He. cbn.
  destruct (ce_active e) eqn:Ha; [|decided].
  destruct (Z.eqb_spec (ce_generation e) gen); [|decided].
  destruct (Z.eqb_spec tc LETTUCE_SERVICE_ID_INVALID); [decided|].
  destruct (Z.eqb_spec (ce_owner e) tc); [|decided].
  destruct (Z.eqb_spec (ce_target e) t); [|decided].
  destruct (Z.eqb_spec (ce_operation e) op); [|decided].
  destruct (Z.eqb_spec r (ce_resource e)); [|decided].
  destruct (Z.eqb_spec (ce_permissions e .& p) p); [|decided].
  decided.
Qed.

(** Every call on a well-formed table is defined and keeps it well formed. *)
Lemma cap_exec_inv (c : cap_call) (st : cap_state) :
  cap_inv st → ∃ r st', cap_exec c st = Some (r, st') ∧ cap_inv st'.
Proof.
  intros Hinv. destruct c as [o t op p r|h|tc h t op p r]; cbn.
  - destruct (cap_args_ok o t op p r) eqn:Hok; [destruct (decide (free_slot_count st = 0)) as [Hz|Hz]|].
    + rewrite create_refused by eauto. cbn. eauto.
    + destruct (create_served st Hinv o t op p r Hok Hz) as (?&?&?&_&_&->&_&_&_&?). cbn. eauto.
    + rewrite create_refused by eauto. cbn. eauto.
  - destruct (decide (∃ e, cap_designates st h e)) as [(e & slot & gen & Hd & He & Ha & <-)|Hn].
    + destruct (revoke_served st Hinv h slot e) as (?&->&_&_&_&?); [done..|]. cbn. eauto.
    + rewrite revoke_refused by (try done; naive_solver). cbn. eauto.
  - destruct (check_spec st tc h t op p r Hinv) as (b & -> & _). cbn. eauto.
Qed.

Lemma cap_run_inv (cs : list cap_call) (st : cap_state) :
  cap_inv st → ∃ rs st', cap_run cs st = Some (rs, st') ∧ cap_inv st'.
Proof.
  revert st. induction cs as [|c cs IH]; intros st Hinv; cbn; [eauto|].
  destruct (cap_exec_inv c st Hinv) as (r & st1 & -> & H1). cbn.
  destruct (IH st1 H1) as (rs & st2 & -> & H2). cbn. eauto.
Qed.

#[export] Hint Resolve cap_fresh_inv : lettuce.
