(* ===== verification/CapabilitySpec.v ===== *)
(** * The capability table against its abstract specification

    Abstractly the table is a finite map from live handles to the rights they
    grant.  [acap_step] is what each call may answer and do; the table of
    [Capability] refines it over every sequence of calls.  The second half is about
    time: a revoked handle stays dead until its slot's 16-bit generation has gone
    all the way round. *)

From S2P Require Import Prelude Types Generation Capability.

(** ** The specification *)

Record cap_right := {
  cr_owner : Z;
  cr_target : Z;
  cr_operation : Z;
  cr_resource : Z;
  cr_permissions : Z
}.

Definition right_allows (r : cap_right) (caller target operation permission resource : Z) : Prop :=
  cr_owner r = caller ∧ cr_target r = target ∧ cr_operation r = operation ∧
  cr_resource r = resource ∧ cr_permissions r .& permission = permission.

(** A request is well formed when its identifiers are valid and it asks for some
    of the six known permissions and nothing else. *)
Definition acap_request_ok (o t op p r : Z) : Prop :=
  o ≠ 0 ∧ t ≠ 0 ∧ op ≠ 0 ∧ r ≠ 0 ∧ 0 < p < 64.

Inductive acap_step : gmap Z cap_right → cap_call → cap_result → gmap Z cap_right → Prop :=
  | acap_create m o t op p r h :
      acap_request_ok o t op p r → (Z.of_nat (size m) < 4096) →
      h ≠ 0 → is_u32 h → m !! h = None →
      acap_step m (CreateCall o t op p r) (HandleResult h)
        (<[h := {| cr_owner := o; cr_target := t; cr_operation := op;
                   cr_resource := r; cr_permissions := p |}]> m)
  | acap_create_refused m o t op p r :
      ¬ acap_request_ok o t op p r ∨ Z.of_nat (size m) = 4096 →
      acap_step m (CreateCall o t op p r) (HandleResult 0) m
  | acap_revoke m h :
      is_Some (m !! h) → acap_step m (RevokeCall h) (BoolResult true) (delete h m)
  | acap_revoke_refused m h :
      m !! h = None → acap_step m (RevokeCall h) (BoolResult false) m
  | acap_check m c h t op p r b :
      (b = true ↔ p ≠ 0 ∧ c ≠ 0 ∧ ∃ x, m !! h = Some x ∧ right_allows x c t op p r) →
      acap_step m (CheckCall c h t op p r) (BoolResult b) m.

Inductive acap_steps : gmap Z cap_right → list cap_call → list cap_result → gmap Z cap_right → Prop :=
  | acap_nil m : acap_steps m [] [] m
  | acap_cons m1 m2 m3 c r cs rs :
      acap_step m1 c r m2 → acap_steps m2 cs rs m3 → acap_steps m1 (c :: cs) (r :: rs) m3.

(** ** The refinement relation *)

Definition rights_of (e : LettuceCapabilityEntry) : cap_right :=
  {| cr_owner := ce_owner e; cr_target := ce_target e; cr_operation := ce_operation e;
     cr_resource := ce_resource e; cr_permissions := ce_permissions e |}.

Record cap_refines (st : cap_state) (m : gmap Z cap_right) : Prop := {
  ref_inv : cap_inv st;
  ref_map : ∀ h r, m !! h = Some r ↔ is_u32 h ∧ ∃ e, cap_designates st h e ∧ r = rights_of e;
  ref_size : Z.of_nat (size m) + free_slot_count st = LETTUCE_CAPABILITY_TABLE_SIZE
}.

Lemma request_ok_iff (o t op p r : Z) :
  is_u32 p → cap_args_ok o t op p r = true ↔ acap_request_ok o t op p r.
Proof.
  intros Hp. unfold cap_args_ok, acap_request_ok. rewrite known_permissions_test by done.
  unfold is_u32, LETTUCE_SERVICE_ID_INVALID, LETTUCE_OPERATION_ID_INVALID,
    LETTUCE_RESOURCE_ID_INVALID, LETTUCE_CAP_NONE in *. lia.
Qed.

(** How one table update changes what handles designate. *)
Lemma designates_update (st st' : cap_state) (slot h : Z) (e' x : LettuceCapabilityEntry) :
  arr_set (capability_table st) slot e' = Some (capability_table st') →
  cap_designates st' h x ↔
  (∃ gen, decode_handle h = Some (slot, gen) ∧ x = e' ∧ ce_active e' = true ∧ ce_generation e' = gen) ∨
  (∃ s gen, decode_handle h = Some (s, gen) ∧ s ≠ slot ∧
     arr_get (capability_table st) s = Some x ∧ ce_active x = true ∧ ce_generation x = gen).
Proof.
  intros Hset. unfold cap_designates. setoid_rewrite (arr_get_set _ _ _ _ _ Hset).
  split.
  - intros (s & gen & Hd & Hg & Ha & He). case_decide; simplify_eq; [left|right]; eauto 10.
  - intros [(gen & Hd & -> & Ha & He)|(s & gen & Hd & Hne & Hg & Ha & He)].
    + exists slot, gen. by rewrite decide_True.
    + exists s, gen. by rewrite decide_False.
Qed.

Lemma designates_after_create (st st' : cap_state) (slot h : Z) (e x : LettuceCapabilityEntry) o t op p r :
  is_u32 h → is_u16 (ce_generation e) → 0 ≤ slot < LETTUCE_CAPABILITY_TABLE_SIZE →
  arr_get (capability_table st) slot = Some e → ce_active e = false →
  arr_set (capability_table st) slot (entry_grant e o t op p r) = Some (capability_table st') →
  cap_designates st' h x ↔
  (h = make_handle slot (ce_generation e) ∧ x = entry_grant e o t op p r) ∨ cap_designates st h x.
Proof.
  intros Hh Hg Hs He Ha Hset. rewrite (designates_update _ _ _ _ _ _ Hset). cbn. split.
  - intros [(gen & Hd & -> & _ & <-)|(s & gen & Hd & Hne & Hx & Hax & Hgx)].
    + left. split; [|done]. apply decode_handle_Some in Hd as (_ & _ & ->); [|done].
      by rewrite make_handle_pack.
    + right. by exists s, gen.
  - intros [[-> ->]|(s & gen & Hd & Hx & Hax & Hgx)].
    + left. exists (ce_generation e). rewrite decode_make_handle by done. done.
    + right. exists s, gen. split_and!; try done. intros ->. congruence.
Qed.

Lemma designates_after_revoke (st st' : cap_state) (slot h h' : Z) (e x : LettuceCapabilityEntry) :
  is_u32 h → is_u32 h' → decode_handle h = Some (slot, ce_generation e) →
  arr_get (capability_table st) slot = Some e →
  arr_set (capability_table st) slot (entry_clear e) = Some (capability_table st') →
  cap_designates st' h' x ↔ h' ≠ h ∧ cap_designates st h' x.
Proof.
  intros Hh Hh' Hd He Hset. rewrite (designates_update _ _ _ _ _ _ Hset). cbn. split.
  - intros [(gen & _ & _ & ? & _)|(s & gen & Hds & Hne & Hx & Hax & Hgx)]; [done|].
    split; [congruence|]. by exists s, gen.
  - intros [Hne (s & gen & Hds & Hx & Hax & Hgx)]. right. exists s, gen.
    split_and!; try done. intros ->. apply Hne. simplify_eq.
    apply decode_handle_Some in Hd as (_ & _ & ->); [|done].
    by apply decode_handle_Some in Hds as (_ & _ & ->).
Qed.

(** ** One step *)

Lemma refines_designated (st : cap_state) (m : gmap Z cap_right) (h : Z) :
  cap_refines st m → is_u32 h → m !! h = None ↔ ∀ e, ¬ cap_designates st h e.
Proof.
  intros Href Hh. rewrite eq_None_not_Some. split.
  - intros Hn e He. apply Hn. exists (rights_of e). apply (ref_map _ _ Href). eauto.
  - intros Hn [r Hr]. apply (ref_map _ _ Href) in Hr as (_ & e & He & _). by apply (Hn e).
Qed.

Lemma refine_create (st : cap_state) (m : gmap Z cap_right) o t op p r :
  cap_refines st m → is_u32 p →
  ∃ h st' m', lettuce_capability_create o t op p r st = Some (h, st') ∧
    acap_step m (CreateCall o t op p r) (HandleResult h) m' ∧ cap_refines st' m'.
Proof.
  intros Href Hp. pose proof Href as [Hinv Hmap Hsize].
  pose proof (request_ok_iff o t op p r Hp) as Hreq.
  unfold LETTUCE_CAPABILITY_TABLE_SIZE in *.
  destruct (cap_args_ok o t op p r) eqn:Hok;
    [destruct (decide (free_slot_count st = 0)) as [Hz|Hz]|].
  - rewrite create_refused by eauto. do 3 eexists. split; [done|].
    split; [|done]. apply acap_create_refused. right. lia.
  - destruct (create_served st Hinv o t op p r Hok Hz)
      as (slot & e & st' & He & Ha & Hrun & Hset & Hcount & _ & Hinv').
    assert (0 ≤ slot < LETTUCE_CAPABILITY_TABLE_SIZE) as Hslot.
    { rewrite <- (inv_table_len _ Hinv). by eapply arr_get_Some_range. }
    assert (gen_ok (ce_generation e)) as Hgen by by eapply (inv_gen _ Hinv).
    set (h := make_handle slot (ce_generation e)) in *.
    assert (is_u32 h) as Hh by (apply make_handle_range; auto with lettuce).
    assert (m !! h = None) as Hfresh.
    { apply (refines_designated _ _ _ Href Hh). intros x (s & g & Hd & Hx & Hax & _).
      unfold h in Hd. rewrite decode_make_handle in Hd by auto with lettuce. simplify_eq. congruence. }
    eexists _, st', _. split; [done|]. split.
    { apply acap_create; [by apply Hreq| |..|done|done].
      - pose proof (inv_count _ Hinv'). lia.
      - unfold h. rewrite make_handle_pack by auto with lettuce.
        unfold LETTUCE_CAPABILITY_TABLE_SIZE in Hslot.
        pose proof (pack_pos (ce_generation e) (slot + 1) Hgen). lia. }
    split; [done| |].
    + intros h' r'. rewrite lookup_insert. case_decide as Hhh.
      * subst h'. split.
        -- intros [= <-]. split; [done|]. exists (entry_grant e o t op p r). split; [|done].
           eapply designates_after_create; eauto with lettuce.
        -- intros (_ & x & Hx & ->). f_equal.
           apply (designates_after_create _ _ _ _ _ _ _ _ _ _ _ Hh (gen_ok_u16 _ Hgen) Hslot He Ha Hset)
             in Hx as [[_ ->]|Hx]; [done|].
           exfalso. by eapply (refines_designated _ _ _ Href Hh).
      * rewrite Hmap. split; intros (Hh' & x & Hx & ->); (split; [done|]); exists x; (split; [|done]).
        -- eapply designates_after_create; eauto with lettuce.
        -- apply (designates_after_create _ _ _ _ _ _ _ _ _ _ _ Hh' (gen_ok_u16 _ Hgen) Hslot He Ha Hset)
             in Hx as [[-> _]|]; done.
    + rewrite map_size_insert_None by done. unfold LETTUCE_CAPABILITY_TABLE_SIZE. lia.
  - rewrite create_refused by eauto. do 3 eexists. split; [done|].
    split; [|done]. apply acap_create_refused. left. rewrite <- Hreq. done.
Qed.

Lemma refine_revoke (st : cap_state) (m : gmap Z cap_right) h :
  cap_refines st m → is_u32 h →
  ∃ b st' m', lettuce_capability_revoke h st = Some (b, st') ∧
    acap_step m (RevokeCall h) (BoolResult b) m' ∧ cap_refines st' m'.
Proof.
  intros Href Hh. pose proof Href as [Hinv Hmap Hsize].
  destruct (decide (∃ e, cap_designates st h e)) as [(e & Hdes)|Hn].
  - pose proof Hdes as (slot & gen & Hd & He & Ha & <-).
    destruct (revoke_served st Hinv h slot e) as (st' & Hrun & Hset & Hcount & _ & Hinv'); [done..|].
    assert (m !! h = Some (rights_of e)) as Hm by (apply Hmap; eauto).
    exists true, st', (delete h m). split; [done|]. split; [by apply acap_revoke|].
    split; [done| |].
    + intros h' r'. rewrite lookup_delete_Some, Hmap.
      split.
      * intros (Hne & Hh' & x & Hx & ->). split; [done|]. exists x. split; [|done].
        eapply (designates_after_revoke _ _ _ h); eauto.
      * intros (Hh' & x & Hx & ->).
        eapply (designates_after_revoke _ _ _ h) in Hx as [Hne Hx]; eauto 10.
    + rewrite map_size_delete_Some by eauto. rewrite Hcount.
      assert (size m ≠ 0%nat).
      { intros ->%map_size_empty_iff. by rewrite lookup_empty in Hm. }
      unfold LETTUCE_CAPABILITY_TABLE_SIZE in *. lia.
  - rewrite revoke_refused by (try done; naive_solver). do 3 eexists. split; [done|].
    split; [|done]. apply acap_revoke_refused. apply (refines_designated _ _ _ Href Hh). naive_solver.
Qed.

Lemma refine_check (st : cap_state) (m : gmap Z cap_right) c h t op p r :
  cap_refines st m → is_u32 h →
  ∃ b, lettuce_capability_check c h t op p r st = Some b ∧
    acap_step m (CheckCall c h t op p r) (BoolResult b) m.
Proof.
  intros Href Hh. destruct (check_spec st c h t op p r (ref_inv _ _ Href)) as (b & Hb & Hiff).
  exists b. split; [done|]. apply acap_check. rewrite Hiff.
  unfold LETTUCE_CAP_NONE, LETTUCE_SERVICE_ID_INVALID.
  split; intros (Hp & Hc & x & Hx & Hauth); split_and!; try done.
  - exists (rights_of x). split; [|done]. apply (ref_map _ _ Href). eauto.
  - apply (ref_map _ _ Href) in Hx as (_ & e & He & ->). eauto.
Qed.

Lemma refine_exec (c : cap_call) (st : cap_state) (m : gmap Z cap_right) :
  cap_refines st m → cap_call_wf c →
  ∃ r st' m', cap_exec c st = Some (r, st') ∧ acap_step m c r m' ∧ cap_refines st' m'.
Proof.
  intros Href Hwf. destruct c as [o t op p r|h|tc h t op p r]; cbn in *.
  - destruct (refine_create st m o t op p r Href) as (h & st' & m' & -> & ? & ?); [tauto|]. cbn. eauto 10.
  - destruct (refine_revoke st m h Href Hwf) as (b & st' & m' & -> & ? & ?). cbn. eauto 10.
  - destruct (refine_check st m tc h t op p r Href Hwf) as (b & -> & ?). cbn. eauto 10.
Qed.

Lemma refine_run (cs : list cap_call) (st : cap_state) (m : gmap Z cap_right) :
  cap_refines st m → Forall cap_call_wf cs →
  ∃ rs st' m', cap_run cs st = Some (rs, st') ∧ acap_steps m cs rs m' ∧ cap_refines st' m'.
Proof.
  intros Href Hwf. revert st m Href. induction Hwf as [|c cs Hc Hwf IH]; intros st m Href; cbn.
  - do 3 eexists. split; [done|]. split; [constructor|done].
  - destruct (refine_exec c st m Href Hc) as (r & st1 & m1 & -> & Hstep & Href1). cbn.
    destruct (IH st1 m1 Href1) as (rs & st2 & m2 & -> & Hsteps & Href2). cbn.
    do 3 eexists. split; [done|]. split; [by econstructor|done].
Qed.

Lemma cap_fresh_refines : cap_refines cap_fresh ∅.
Proof.
  split; [apply cap_fresh_inv| |done]. intros h r. rewrite lookup_empty. split; [done|].
  intros (_ & e & (slot & gen & _ & He & Ha & _) & _). cbn [capability_table cap_fresh] in He.
  pose proof (arr_get_Some_range _ _ _ He) as Hr. rewrite length_replicate in Hr.
  rewrite arr_get_replicate in He by done. simplify_eq.
Qed.

(** ** Generations over time *)

(** One call leaves a slot's generation alone or advances it once. *)
Lemma exec_generation (c : cap_call) (r : cap_result) (st st' : cap_state) (slot : Z) e :
  cap_inv st → cap_exec c st = Some (r, st') → arr_get (capability_table st) slot = Some e →
  ∃ e', arr_get (capability_table st') slot = Some e' ∧
    (ce_generation e' = ce_generation e ∨ ce_generation e' = gen_next (ce_generation e)).
Proof.
  intros Hinv Hrun He. destruct c as [o t op p rs|h|tc h t op p rs]; cbn in Hrun.
  - destruct (cap_args_ok o t op p rs) eqn:Hok;
      [destruct (decide (free_slot_count st = 0)) as [Hz|Hz]|].
    + rewrite create_refused in Hrun by eauto. simplify_eq/=. eauto.
    + destruct (create_served st Hinv o t op p rs Hok Hz) as (s & x & st2 & Hx & _ & Hc & Hset & _).
      rewrite Hc in Hrun. simplify_eq/=. rewrite (arr_get_set _ _ _ _ _ Hset).
      case_decide; [|eauto]. eexists. split; [done|]. left. cbn. congruence.
    + rewrite create_refused in Hrun by eauto. simplify_eq/=. eauto.
  - destruct (decide (∃ e, cap_designates st h e)) as [(x & s & gen & Hd & Hx & Ha & <-)|Hn].
    + destruct (revoke_served st Hinv h s x) as (st2 & Hr & Hset & _); [done..|].
      rewrite Hr in Hrun. simplify_eq/=. rewrite (arr_get_set _ _ _ _ _ Hset).
      case_decide; [|eauto]. eexists. split; [done|]. right. cbn. congruence.
    + rewrite revoke_refused in Hrun by (try done; naive_solver). simplify_eq/=. eauto.
  - destruct (check_spec st tc h t op p rs Hinv) as (b & Hb & _). rewrite Hb in Hrun.
    simplify_eq/=. eauto.
Qed.

Lemma run_generation (cs : list cap_call) (rs : list cap_result) (st st' : cap_state) (slot : Z) e :
  cap_inv st → cap_run cs st = Some (rs, st') → arr_get (capability_table st) slot = Some e →
  ∃ e' n, arr_get (capability_table st') slot = Some e' ∧ (n ≤ length cs)%nat ∧
    ce_generation e' = gen_iter n (ce_generation e).
Proof.
  revert rs st e. induction cs as [|c cs IH]; intros rs st e Hinv Hrun He; cbn in Hrun.
  - simplify_eq. exists e, 0%nat. done.
  - destruct (cap_exec_inv c st Hinv) as (r1 & st1 & Hc & Hinv1). rewrite Hc in Hrun. cbn in Hrun.
    destruct (cap_run cs st1) as [[rs1 st2]|] eqn:Hcs; simplify_eq/=.
    destruct (exec_generation _ _ _ _ _ _ Hinv Hc He) as (e1 & He1 & Hg).
    destruct (IH _ _ _ Hinv1 Hcs He1) as (e' & n & He' & Hn & Hge).
    destruct Hg as [Hg|Hg]; rewrite Hg in Hge.
    + exists e', n. split_and!; [done|lia|done].
    + exists e', (S n). rewrite gen_iter_next in Hge. split_and!; [done|lia|done].
Qed.

Lemma revoke_true_inv (st st' : cap_state) (h : Z) :
  cap_inv st → lettuce_capability_revoke h st = Some (true, st') →
  ∃ slot e, decode_handle h = Some (slot, ce_generation e) ∧
    arr_get (capability_table st) slot = Some e ∧ ce_active e = true ∧
    arr_set (capability_table st) slot (entry_clear e) = Some (capability_table st') ∧ cap_inv st'.
Proof.
  intros Hinv Hrun.
  destruct (decide (∃ e, cap_designates st h e)) as [(x & s & gen & Hd & Hx & Ha & <-)|Hn].
  - destruct (revoke_served st Hinv h s x) as (st2 & Hr & Hset & _ & _ & Hinv2); [done..|].
    simplify_eq. by exists s, x.
  - rewrite revoke_refused in Hrun by (try done; naive_solver). done.
Qed.

(** After a revocation and fewer than 65534 further calls the handle designates
    nothing. *)
Lemma stale_undesignated (h : Z) (cs : list cap_call) rs (st st1 st2 : cap_state) :
  cap_inv st → lettuce_capability_revoke h st = Some (true, st1) →
  cap_run cs st1 = Some (rs, st2) → Z.of_nat (length cs) < 65534 →
  cap_inv st2 ∧ ∀ e, ¬ cap_designates st2 h e.
Proof.
  intros Hinv Hrev Hrun Hlen.
  destruct (revoke_true_inv _ _ _ Hinv Hrev) as (slot & e & Hd & He & Ha & Hset & Hinv1).
  destruct (cap_run_inv cs st1 Hinv1) as (? & ? & ? & Hinv2). simplify_eq. split; [done|].
  assert (gen_ok (ce_generation e)) as Hg by by eapply (inv_gen _ Hinv).
  assert (arr_get (capability_table st1) slot = Some (entry_clear e)) as He1.
  { rewrite (arr_get_set _ _ _ _ _ Hset). by rewrite decide_True. }
  destruct (run_generation _ _ _ _ _ _ Hinv1 Hrun He1) as (e2 & n & He2 & Hn & Hge).
  intros x (s & gen & Hd' & Hx & _ & Hgx). simplify_eq. cbn in Hge.
  rewrite gen_iter_next in Hge. apply (gen_iter_ne (S n) (ce_generation e)); [done|lia|congruence].
Qed.

(** Revoking a live handle and granting again reuses its slot, one generation on. *)
Lemma recycle (st : cap_state) (h slot : Z) e o t op p r :
  cap_inv st → cap_args_ok o t op p r = true →
  decode_handle h = Some (slot, ce_generation e) →
  arr_get (capability_table st) slot = Some e → ce_active e = true →
  ∃ e' st', cap_run [RevokeCall h; CreateCall o t op p r] st =
      Some ([BoolResult true; HandleResult (make_handle slot (gen_next (ce_generation e)))], st') ∧
    cap_inv st' ∧ arr_get (capability_table st') slot = Some e' ∧
    e' = entry_grant (entry_clear e) o t op p r.
Proof.
  intros Hinv Hok Hd He Ha.
  destruct (revoke_served st Hinv h slot e Hd He Ha) as (st1 & Hr & Hset1 & Hc1 & Ht1 & Hinv1).
  pose proof (inv_count _ Hinv).
  destruct (create_served st1 Hinv1 o t op p r Hok) as (s & x & st2 & Hx & _ & Hc & Hset2 & _ & Ht2 & Hinv2);
    [lia|].
  assert (s = slot) as ->. { rewrite Ht1 in Ht2. by apply app_inj_tail in Ht2 as [_ ->]. }
  rewrite (arr_get_set _ _ _ _ _ Hset1), decide_True in Hx by done. injection Hx as <-.
  eexists _, st2. cbn. rewrite Hr. cbn. rewrite Hc. cbn. split_and!; [done..| |done].
  rewrite (arr_get_set _ _ _ _ _ Hset2). by rewrite decide_True.
Qed.

Lemma cap_run_app (cs1 cs2 : list cap_call) (st st1 st2 : cap_state) rs1 rs2 :
  cap_run cs1 st = Some (rs1, st1) → cap_run cs2 st1 = Some (rs2, st2) →
  cap_run (cs1 ++ cs2) st = Some (rs1 ++ rs2, st2).
Proof.
  revert st rs1. induction cs1 as [|c cs1 IH]; intros st rs1 H1 H2; cbn in *; simplify_eq; [done|].
  destruct (cap_exec c st) as [[r st']|]; simplify_eq/=.
  destruct (cap_run cs1 st') as [[rs st'']|] eqn:Hc; simplify_eq/=.
  by rewrite (IH _ _ Hc H2).
Qed.

(** [n] recyclings of a live slot. *)
Lemma recycle_iter (n : nat) (st : cap_state) (h slot : Z) e o t op p r :
  cap_inv st → cap_args_ok o t op p r = true →
  decode_handle h = Some (slot, ce_generation e) →
  arr_get (capability_table st) slot = Some e → ce_active e = true →
  ∃ cs rs e' st', cap_run (RevokeCall h :: cs) st = Some (BoolResult true :: rs, st') ∧
    length cs = (2 * n + 1)%nat ∧ cap_inv st' ∧
    arr_get (capability_table st') slot = Some e' ∧
    ce_generation e' = gen_iter (S n) (ce_generation e) ∧
    e' = entry_grant e' o t op p r.
Proof.
  intros Hinv Hok Hd He Ha. induction n as [|n IH].
  - destruct (recycle st h slot e o t op p r) as (e' & st' & Hrun & Hinv' & He' & ->); [done..|].
    exists [CreateCall o t op p r]. do 3 eexists. split_and!; done.
  - destruct IH as (cs & rs & e1 & st1 & Hrun & Hlen & Hinv1 & He1 & Hg1 & Hgrant).
    assert (0 ≤ slot < LETTUCE_CAPABILITY_TABLE_SIZE) by by eapply decode_handle_range.
    assert (is_u16 (ce_generation e1)) by (apply gen_ok_u16; by eapply (inv_gen _ Hinv1)).
    destruct (recycle st1 (make_handle slot (ce_generation e1)) slot e1 o t op p r)
      as (e' & st' & Hrun' & Hinv' & He' & ->);
      [done|done|by apply decode_make_handle|done|by rewrite Hgrant|].
    exists (cs ++ [RevokeCall (make_handle slot (ce_generation e1)); CreateCall o t op p r]).
    eexists (rs ++ [_; _]), _, st'. split_and!.
    + exact (cap_run_app (RevokeCall h :: cs) _ _ _ _ _ _ Hrun Hrun').
    + rewrite length_app. cbn. lia.
    + done.
    + done.
    + cbn [ce_generation entry_grant entry_clear]. by rewrite Hg1.
    + done.
Qed.

(** ** Claims *)

(** C1: over every sequence of calls with 32-bit arguments, starting from the
    initialised table, every call returns, every answer is one the abstract
    handle-to-rights map allows (fresh non-zero handles, exact revocation, checks
    that read the map), and the final table still represents that map. *)
Theorem capability_refinement (cs : list cap_call) :
  Forall cap_call_wf cs →
  ∃ st0 rs st m, lettuce_capability_init cap_boot = Some st0 ∧
    cap_run cs st0 = Some (rs, st) ∧ acap_steps ∅ cs rs m ∧ cap_refines st m.
Proof.
  intros Hwf. exists cap_fresh.
  destruct (refine_run cs cap_fresh ∅ cap_fresh_refines Hwf) as (rs & st & m & ? & ? & ?).
  exists rs, st, m. split; [exact cap_boot_init|done].
Qed.

(** C2: a revoked handle is dead: after the revocation and any further sequence of
    fewer than 65534 calls, no check of it succeeds, for any caller, target,
    operation, permission or resource, and it cannot be revoked again. *)
Theorem revoked_handle_is_stale (h : Z) (cs : list cap_call) rs (st st1 st2 : cap_state) :
  cap_inv st → lettuce_capability_revoke h st = Some (true, st1) →
  cap_run cs st1 = Some (rs, st2) → Z.of_nat (length cs) < 65534 →
  (∀ c t op p r, lettuce_capability_check c h t op p r st2 = Some false) ∧
  lettuce_capability_revoke h st2 = Some (false, st2).
Proof.
  intros Hinv Hrev Hrun Hlen.
  destruct (stale_undesignated _ _ _ _ _ _ Hinv Hrev Hrun Hlen) as [Hinv2 Hno]. split.
  - intros c t op p r. destruct (check_spec st2 c h t op p r Hinv2) as (b & -> & Hb).
    destruct b; [|done]. destruct Hb as [Hb _]. destruct Hb as (_ & _ & e & He & _); [done|].
    by destruct (Hno e).
  - by apply revoke_refused.
Qed.

(** Generations are 16 bits wide: there is a sequence of calls, beginning with
    the revocation of a live handle, after which the very same handle value is live
    again and passes the check of whoever was granted it last. *)
Theorem revoked_handle_returns_after_wraparound (h : Z) (st : cap_state) e o t op p r :
  cap_inv st → is_u32 h → cap_designates st h e → cap_args_ok o t op p r = true →
  ∃ cs rs st', cap_run (RevokeCall h :: cs) st = Some (BoolResult true :: rs, st') ∧
    Z.of_nat (length cs) = 2 * 65535 - 1 ∧
    lettuce_capability_check o h t op p r st' = Some true.
Proof.
  intros Hinv Hh (slot & gen & Hd & He & Ha & <-) Hok.
  assert (∃ n, Z.of_nat n = 65534) as [n Hn] by (exists (Z.to_nat 65534); by rewrite Z2Nat.id).
  destruct (recycle_iter n st h slot e o t op p r)
    as (cs & rs & e' & st' & Hrun & Hlen & Hinv' & He' & Hg & Hgrant); [done..|].
  rewrite gen_iter_period in Hg; [|by eapply (inv_gen _ Hinv)|lia].
  exists cs, rs, st'. split_and!; [done|lia|].
  destruct (check_spec st' o h t op p r Hinv') as (b & -> & Hb). f_equal. apply Hb.
  unfold cap_args_ok in Hok. b2p. split_and!; [done..|]. exists e'. split.
  - exists slot, (ce_generation e). split_and!; [done..| |done]. by rewrite Hgrant.
  - rewrite Hgrant. unfold entry_authorizes. cbn. by rewrite Z.land_diag.
Qed.

(** C4: a check succeeds exactly when the permission asked for is not empty, some
    service is running, and the handle designates a live entry whose owner is the
    running service and whose target, operation and resource are the requested ones
    and whose permissions include all requested bits. *)
Theorem capability_check_exact (st : cap_state) (c h t op p r : Z) :
  cap_inv st →
  lettuce_capability_check c h t op p r st = Some true ↔
  p ≠ LETTUCE_CAP_NONE ∧ c ≠ LETTUCE_SERVICE_ID_INVALID ∧
  ∃ e, cap_designates st h e ∧ entry_authorizes e c t op p r.
Proof.
  intros Hinv. destruct (check_spec st c h t op p r Hinv) as (b & -> & <-).
  split; [congruence|by intros ->].
Qed.

(** ** Witnesses *)

Lemma capability_refinement_witness :
  ∃ st0 rs st m, lettuce_capability_init cap_boot = Some st0 ∧
    cap_run [CreateCall 10 20 1 1 7; CheckCall 10 65537 20 1 1 7] st0 = Some (rs, st) ∧
    acap_steps ∅ [CreateCall 10 20 1 1 7; CheckCall 10 65537 20 1 1 7] rs m ∧ cap_refines st m.
Proof.
  apply (capability_refinement [CreateCall 10 20 1 1 7; CheckCall 10 65537 20 1 1 7]).
  repeat constructor; unfold is_u32; lia.
Defined.

(** A table in which service 10 holds handle 65537 for operation 1 of service 20. *)
Definition cap_demo : cap_state :=
  match lettuce_capability_create 10 20 1 1 7 cap_fresh with Some (_, st) => st | None => cap_fresh end.

Lemma cap_demo_eq : lettuce_capability_create 10 20 1 1 7 cap_fresh = Some (65537, cap_demo).
Proof. vm_compute. reflexivity. Qed.

Lemma create_keeps_inv (st st' : cap_state) (o t op p r h : Z) :
  cap_inv st → lettuce_capability_create o t op p r st = Some (h, st') → cap_inv st'.
Proof.
  intros Hinv Hrun. destruct (cap_exec_inv (CreateCall o t op p r) st Hinv) as (r' & st2 & Hx & ?).
  cbn in Hx. rewrite Hrun in Hx. by simplify_eq/=.
Qed.

Lemma cap_demo_inv : cap_inv cap_demo.
Proof. exact (create_keeps_inv _ _ _ _ _ _ _ _ cap_fresh_inv cap_demo_eq). Qed.

Lemma cap_demo_designates :
  cap_designates cap_demo 65537 (entry_grant cap_entry_fresh 10 20 1 1 7).
Proof. exists 0, 1. vm_compute. split_and!; reflexivity. Qed.

Lemma cap_demo_revoked : ∃ st1, lettuce_capability_revoke 65537 cap_demo = Some (true, st1).
Proof.
  destruct cap_demo_designates as (slot & gen & Hd & He & Ha & <-).
  destruct (revoke_served cap_demo cap_demo_inv 65537 slot _ Hd He Ha) as (st1 & Hr & _).
  by exists st1.
Qed.

Lemma revoked_handle_is_stale_witness :
  ∃ st1, lettuce_capability_revoke 65537 cap_demo = Some (true, st1) ∧
    lettuce_capability_check 10 65537 20 1 1 7 st1 = Some false.
Proof.
  destruct cap_demo_revoked as [st1 Hrev]. exists st1. split; [exact Hrev|].
  apply (revoked_handle_is_stale 65537 [] [] cap_demo st1 st1 cap_demo_inv Hrev eq_refl).
  reflexivity.
Defined.

Lemma revoked_handle_returns_after_wraparound_witness :
  ∃ cs rs st', cap_run (RevokeCall 65537 :: cs) cap_demo = Some (BoolResult true :: rs, st') ∧
    Z.of_nat (length cs) = 2 * 65535 - 1 ∧
    lettuce_capability_check 99 65537 20 1 63 7 st' = Some true.
Proof.
  apply (revoked_handle_returns_after_wraparound 65537 cap_demo
           (entry_grant cap_entry_fresh 10 20 1 1 7) 99 20 1 63 7 cap_demo_inv).
  - unfold is_u32. lia.
  - exact cap_demo_designates.
  - reflexivity.
Defined.

Lemma capability_check_exact_witness :
  lettuce_capability_check 10 65537 20 1 1 7 cap_demo = Some true.
Proof.
  apply (capability_check_exact cap_demo 10 65537 20 1 1 7 cap_demo_inv).
  split; [discriminate|]. split; [discriminate|].
  exists (entry_grant cap_entry_fresh 10 20 1 1 7). split; [exact cap_demo_designates|].
  repeat split.
Defined.
