(* ===== verification/Registry.v ===== *)
(** * The service registry and its dispatch tables

    [kernel/main/kernel.c] keeps 256 registry entries, indexed by service
    identifier, each a descriptor with 64 dispatch slots; [kernel/main/dispatch.c]
    installs and resolves the entry points.  An entry point is an address ([0] is
    [NULL]).  Lookups return [Some None] for the source's [NULL] and [None] for an
    access out of bounds. *)

From S2P Require Import Prelude Types.

Definition LETTUCE_SERVICE_TABLE_SIZE : Z := 256.
Definition LETTUCE_DISPATCH_OPERATION_LIMIT : Z := 64.
Definition NULL : Z := 0.

(** ** State *)

Record LettuceDispatchEntry := {
  de_entry : Z;
  de_active : bool
}.

Record LettuceServiceRegistryEntry := {
  re_descriptor : LettuceServiceDescriptor;
  re_operations : list LettuceDispatchEntry
}.

Definition descriptor_zero : LettuceServiceDescriptor :=
  {| sd_id := 0; sd_layer := 0; sd_domain := 0; sd_flags := 0 |}.

Definition dispatch_zero : LettuceDispatchEntry := {| de_entry := NULL; de_active := false |}.

Definition registry_entry_zero : LettuceServiceRegistryEntry :=
  {| re_descriptor := descriptor_zero;
     re_operations := replicate (Z.to_nat LETTUCE_DISPATCH_OPERATION_LIMIT) dispatch_zero |}.

(** The static [service_table], zero at boot. *)
Definition registry_boot : list LettuceServiceRegistryEntry :=
  replicate (Z.to_nat LETTUCE_SERVICE_TABLE_SIZE) registry_entry_zero.

(** ** Registry operations: [kernel/main/kernel.c] *)

(** [for (operation = 0; operation < LIMIT; ++operation) operations[operation] = {0};] *)
Definition clear_operations (operations : list LettuceDispatchEntry)
    : option (list LettuceDispatchEntry) :=
  for_range (Z.to_nat LETTUCE_DISPATCH_OPERATION_LIMIT) 0
    (λ operation ops, arr_set ops operation dispatch_zero) operations.

Definition lettuce_service_registry_init (service_table : list LettuceServiceRegistryEntry)
    : option (bool * list LettuceServiceRegistryEntry) :=
  table ← for_range (Z.to_nat LETTUCE_SERVICE_TABLE_SIZE) 0
    (λ i t,
       entry ← arr_get t i;
       ops ← clear_operations (re_operations entry);
       arr_set t i {| re_descriptor := descriptor_zero; re_operations := ops |}) service_table;
  Some (true, table).

Definition lettuce_service_registry_register (descriptor : LettuceServiceDescriptor)
    (service_table : list LettuceServiceRegistryEntry)
    : option (bool * list LettuceServiceRegistryEntry) :=
  if (sd_id descriptor =? LETTUCE_SERVICE_ID_INVALID) ||
     (LETTUCE_SERVICE_TABLE_SIZE <=? sd_id descriptor)
  then Some (false, service_table) else
  if LETTUCE_LAYER_L4 <? sd_layer descriptor then Some (false, service_table) else
  entry ← arr_get service_table (sd_id descriptor);
  if negb (sd_id (re_descriptor entry) =? LETTUCE_SERVICE_ID_INVALID)
  then Some (false, service_table) else
  table ← arr_set service_table (sd_id descriptor)
            {| re_descriptor := descriptor; re_operations := re_operations entry |};
  Some (true, table).

Definition lettuce_service_registry_unregister (service_id : Z)
    (service_table : list LettuceServiceRegistryEntry)
    : option (bool * list LettuceServiceRegistryEntry) :=
  if (service_id =? LETTUCE_SERVICE_ID_INVALID) || (LETTUCE_SERVICE_TABLE_SIZE <=? service_id)
  then Some (false, service_table) else
  entry ← arr_get service_table service_id;
  if sd_id (re_descriptor entry) =? LETTUCE_SERVICE_ID_INVALID
  then Some (false, service_table) else
  ops ← clear_operations (re_operations entry);
  table ← arr_set service_table service_id
            {| re_descriptor := descriptor_zero; re_operations := ops |};
  Some (true, table).

Definition lettuce_service_registry_lookup (service_id : Z)
    (service_table : list LettuceServiceRegistryEntry) : option (option LettuceServiceDescriptor) :=
  if (service_id =? LETTUCE_SERVICE_ID_INVALID) || (LETTUCE_SERVICE_TABLE_SIZE <=? service_id)
  then Some None else
  entry ← arr_get service_table service_id;
  Some (if sd_id (re_descriptor entry) =? service_id then Some (re_descriptor entry) else None).

(** [lettuce_service_registry_entry] and its mutable twin: the entry itself. *)
Definition lettuce_service_registry_entry (service_id : Z)
    (service_table : list LettuceServiceRegistryEntry) : option (option LettuceServiceRegistryEntry) :=
  if (service_id =? LETTUCE_SERVICE_ID_INVALID) || (LETTUCE_SERVICE_TABLE_SIZE <=? service_id)
  then Some None else
  entry ← arr_get service_table service_id;
  Some (if sd_id (re_descriptor entry) =? service_id then Some entry else None).

Definition lettuce_service_registry_entry_mutable (service_id : Z)
    (service_table : list LettuceServiceRegistryEntry) : option (option LettuceServiceRegistryEntry) :=
  if (service_id =? LETTUCE_SERVICE_ID_INVALID) || (LETTUCE_SERVICE_TABLE_SIZE <=? service_id)
  then Some None else
  entry ← arr_get service_table service_id;
  Some (if sd_id (re_descriptor entry) =? service_id then Some entry else None).

Definition flag_active (flags : Z) : bool := negb (flags .& LETTUCE_SERVICE_FLAG_ACTIVE =? 0).

Definition lettuce_service_registry_is_active (service_id : Z)
    (service_table : list LettuceServiceRegistryEntry) : option bool :=
  descriptor ← lettuce_service_registry_lookup service_id service_table;
  Some (match descriptor with
        | None => false
        | Some d => flag_active (sd_flags d)
        end).

Definition lettuce_service_registry_validate (service_id : Z)
    (service_table : list LettuceServiceRegistryEntry) : option bool :=
  lettuce_service_registry_is_active service_id service_table.

(** ** Dispatch operations: [kernel/main/dispatch.c] *)

Definition lettuce_dispatch_register (service_id operation_id entry : Z)
    (service_table : list LettuceServiceRegistryEntry)
    : option (bool * list LettuceServiceRegistryEntry) :=
  if (service_id =? LETTUCE_SERVICE_ID_INVALID) || (operation_id =? LETTUCE_OPERATION_ID_INVALID) ||
     (LETTUCE_DISPATCH_OPERATION_LIMIT <=? operation_id) || (entry =? NULL)
  then Some (false, service_table) else
  service ← lettuce_service_registry_entry_mutable service_id service_table;
  match service with
  | None => Some (false, service_table)
  | Some service =>
      if negb (flag_active (sd_flags (re_descriptor service))) then Some (false, service_table) else
      dispatch ← arr_get (re_operations service) operation_id;
      if de_active dispatch then Some (false, service_table) else
      ops ← arr_set (re_operations service) operation_id {| de_entry := entry; de_active := true |};
      table ← arr_set service_table service_id
                {| re_descriptor := re_descriptor service; re_operations := ops |};
      Some (true, table)
  end.

Definition lettuce_dispatch_unregister (service_id operation_id : Z)
    (service_table : list LettuceServiceRegistryEntry)
    : option (bool * list LettuceServiceRegistryEntry) :=
  if (operation_id =? LETTUCE_OPERATION_ID_INVALID) ||
     (LETTUCE_DISPATCH_OPERATION_LIMIT <=? operation_id)
  then Some (false, service_table) else
  service ← lettuce_service_registry_entry_mutable service_id service_table;
  match service with
  | None => Some (false, service_table)
  | Some service =>
      dispatch ← arr_get (re_operations service) operation_id;
      if negb (de_active dispatch) then Some (false, service_table) else
      ops ← arr_set (re_operations service) operation_id {| de_entry := NULL; de_active := false |};
      table ← arr_set service_table service_id
                {| re_descriptor := re_descriptor service; re_operations := ops |};
      Some (true, table)
  end.

Definition lettuce_dispatch_lookup (service_id operation_id : Z)
    (service_table : list LettuceServiceRegistryEntry) : option (option LettuceDispatchEntry) :=
  if (operation_id =? LETTUCE_OPERATION_ID_INVALID) ||
     (LETTUCE_DISPATCH_OPERATION_LIMIT <=? operation_id)
  then Some None else
  service ← lettuce_service_registry_entry service_id service_table;
  match service with
  | None => Some None
  | Some service =>
      dispatch ← arr_get (re_operations service) operation_id;
      Some (if negb (de_active dispatch) then None else Some dispatch)
  end.

(** ** The invariant *)

(** Slot [o] of entry [i]: slot 0 is never used; an inactive slot is zeroed; an
    active one has an entry point and belongs to a registered service. *)
Definition dispatch_ok (registered : bool) (o : Z) (d : LettuceDispatchEntry) : Prop :=
  if de_active d then o ≠ 0 ∧ de_entry d ≠ NULL ∧ registered = true else d = dispatch_zero.

Record entry_ok (i : Z) (e : LettuceServiceRegistryEntry) : Prop := {
  eo_len : Z.of_nat (length (re_operations e)) = LETTUCE_DISPATCH_OPERATION_LIMIT;
  eo_id : sd_id (re_descriptor e) = 0 ∨ (sd_id (re_descriptor e) = i ∧ i ≠ 0);
  eo_layer : sd_layer (re_descriptor e) ≤ LETTUCE_LAYER_L4;
  eo_ops : ∀ o d, arr_get (re_operations e) o = Some d →
             dispatch_ok (negb (sd_id (re_descriptor e) =? 0)) o d
}.

Record reg_inv (t : list LettuceServiceRegistryEntry) : Prop := {
  ri_len : Z.of_nat (length t) = LETTUCE_SERVICE_TABLE_SIZE;
  ri_entry : ∀ i e, arr_get t i = Some e → entry_ok i e
}.

(** ** Facts *)

Lemma clear_operations_spec (ops : list LettuceDispatchEntry) :
  Z.of_nat (length ops) = LETTUCE_DISPATCH_OPERATION_LIMIT →
  clear_operations ops = Some (replicate (Z.to_nat LETTUCE_DISPATCH_OPERATION_LIMIT) dispatch_zero).
Proof.
  intros Hlen. unfold clear_operations.
  destruct (for_range_inv (λ i l,
    Z.of_nat (length l) = LETTUCE_DISPATCH_OPERATION_LIMIT ∧
    ∀ k, 0 ≤ k < i → arr_get l k = Some dispatch_zero)
    (Z.to_nat LETTUCE_DISPATCH_OPERATION_LIMIT) 0
    (λ operation ops, arr_set ops operation dispatch_zero) ops) as (l & -> & Hl & Hk).
  - split; [done|]. intros; lia.
  - intros k l Hk [Hl Hpre]. unfold LETTUCE_DISPATCH_OPERATION_LIMIT in *.
    rewrite arr_set_Some by lia. eexists. split; [done|]. rewrite length_insert.
    split; [done|]. intros j Hj. rewrite arr_get_insert by lia. case_decide; [done|]. apply Hpre. lia.
  - f_equal. apply arr_eq.
    + rewrite length_replicate. unfold LETTUCE_DISPATCH_OPERATION_LIMIT in *. lia.
    + intros i Hi. unfold LETTUCE_DISPATCH_OPERATION_LIMIT in *.
      rewrite arr_get_replicate by lia. apply Hk. lia.
Qed.

Lemma registry_entry_zero_ok (i : Z) : entry_ok i registry_entry_zero.
Proof.
  split; cbn [re_descriptor re_operations registry_entry_zero].
  - by rewrite length_replicate.
  - by left.
  - done.
  - intros o d Hd. pose proof (arr_get_Some_range _ _ _ Hd) as Hr. rewrite length_replicate in Hr.
    rewrite arr_get_replicate in Hd by done. by simplify_eq.
Qed.

Lemma registry_boot_inv : reg_inv registry_boot.
Proof.
  split; [unfold registry_boot; by rewrite length_replicate|].
  intros i e He. pose proof (arr_get_Some_range _ _ _ He) as Hr. unfold registry_boot in *.
  rewrite length_replicate in Hr. rewrite arr_get_replicate in He by done. simplify_eq.
  apply registry_entry_zero_ok.
Qed.

(** Initialising any table of the right shape gives the empty registry. *)
Lemma registry_init_spec (t : list LettuceServiceRegistryEntry) :
  reg_inv t → lettuce_service_registry_init t = Some (true, registry_boot).
Proof.
  intros Hinv. unfold lettuce_service_registry_init.
  destruct (for_range_inv (λ i l,
    Z.of_nat (length l) = LETTUCE_SERVICE_TABLE_SIZE ∧
    (∀ k e, arr_get l k = Some e → Z.of_nat (length (re_operations e)) = LETTUCE_DISPATCH_OPERATION_LIMIT) ∧
    ∀ k, 0 ≤ k < i → arr_get l k = Some registry_entry_zero)
    (Z.to_nat LETTUCE_SERVICE_TABLE_SIZE) 0
    (λ i t,
       entry ← arr_get t i;
       ops ← clear_operations (re_operations entry);
       arr_set t i {| re_descriptor := descriptor_zero; re_operations := ops |}) t)
    as (l & -> & Hl & _ & Hk).
  - split_and!; [apply Hinv| |intros; lia]. intros k e He. by eapply eo_len, ri_entry.
  - intros k l Hk (Hl & Hops & Hpre). unfold LETTUCE_SERVICE_TABLE_SIZE in *.
    destruct (arr_get_is_Some l k) as [e He]; [lia|]. rewrite He. cbn.
    rewrite clear_operations_spec by by eapply Hops. cbn. rewrite arr_set_Some by lia.
    eexists. split; [done|]. rewrite length_insert. split_and!; [done|..].
    + intros j x. rewrite arr_get_insert by lia. case_decide; [|apply Hops].
      by intros [= <-].
    + intros j Hj. rewrite arr_get_insert by lia. case_decide; [done|]. apply Hpre. lia.
  - cbn [mbind option_bind]. assert (l = registry_boot) as ->; [|done].
    unfold registry_boot, LETTUCE_SERVICE_TABLE_SIZE in *. apply arr_eq.
    + rewrite length_replicate. lia.
    + intros i Hi. rewrite arr_get_replicate by lia. apply Hk. lia.
Qed.
