(* ===== verification/RegistrySpec.v ===== *)
(** * The registry against its abstract specification

    Abstractly the registry is two finite maps: the registered descriptors by
    service identifier and the installed entry points by service and operation.
    [areg_exec] is the specification, a function; the tables of [Registry] compute
    exactly its answers over every sequence of calls. *)

From S2P Require Import Prelude Types Registry.

(** ** The specification *)

Record areg := {
  services : gmap Z LettuceServiceDescriptor;
  entry_points : gmap (Z * Z) Z
}.

Inductive reg_call :=
  | RegisterCall (d : LettuceServiceDescriptor)
  | UnregisterCall (service_id : Z)
  | LookupCall (service_id : Z)
  | DispatchRegisterCall (service_id operation_id entry : Z)
  | DispatchUnregisterCall (service_id operation_id : Z)
  | DispatchLookupCall (service_id operation_id : Z).

Inductive reg_result :=
  | RegBool (b : bool)
  | RegDescriptor (d : option LettuceServiceDescriptor)
  | RegEntry (entry : option Z).

Definition areg_empty : areg := {| services := ∅; entry_points := ∅ |}.

Definition areg_exec (c : reg_call) (a : areg) : reg_result * areg :=
  match c with
  | RegisterCall d =>
      if decide (0 < sd_id d < 256 ∧ sd_layer d ≤ 4 ∧ services a !! sd_id d = None)
      then (RegBool true, {| services := <[sd_id d := d]> (services a); entry_points := entry_points a |})
      else (RegBool false, a)
  | UnregisterCall i =>
      if decide (is_Some (services a !! i))
      then (RegBool true, {| services := delete i (services a);
                             entry_points := filter (λ kv, kv.1.1 ≠ i) (entry_points a) |})
      else (RegBool false, a)
  | LookupCall i => (RegDescriptor (services a !! i), a)
  | DispatchRegisterCall s o f =>
      match services a !! s with
      | Some d =>
          if decide (0 < o < 64 ∧ f ≠ 0 ∧ flag_active (sd_flags d) = true ∧ entry_points a !! (s, o) = None)
          then (RegBool true, {| services := services a; entry_points := <[(s, o) := f]> (entry_points a) |})
          else (RegBool false, a)
      | None => (RegBool false, a)
      end
  | DispatchUnregisterCall s o =>
      if decide (is_Some (entry_points a !! (s, o)))
      then (RegBool true, {| services := services a; entry_points := delete (s, o) (entry_points a) |})
      else (RegBool false, a)
  | DispatchLookupCall s o => (RegEntry (entry_points a !! (s, o)), a)
  end.

Fixpoint areg_run (cs : list reg_call) (a : areg) : list reg_result * areg :=
  match cs with
  | [] => ([], a)
  | c :: cs' =>
      let '(r, a1) := areg_exec c a in
      let '(rs, a2) := areg_run cs' a1 in (r :: rs, a2)
  end.

(** ** The implementation driven by the same calls *)

Definition reg_exec (c : reg_call) (t : list LettuceServiceRegistryEntry)
    : option (reg_result * list LettuceServiceRegistryEntry) :=
  match c with
  | RegisterCall d => '(b, t') ← lettuce_service_registry_register d t; Some (RegBool b, t')
  | UnregisterCall i => '(b, t') ← lettuce_service_registry_unregister i t; Some (RegBool b, t')
  | LookupCall i => d ← lettuce_service_registry_lookup i t; Some (RegDescriptor d, t)
  | DispatchRegisterCall s o f => '(b, t') ← lettuce_dispatch_register s o f t; Some (RegBool b, t')
  | DispatchUnregisterCall s o => '(b, t') ← lettuce_dispatch_unregister s o t; Some (RegBool b, t')
  | DispatchLookupCall s o =>
      d ← lettuce_dispatch_lookup s o t; Some (RegEntry (de_entry <$> d), t)
  end.

Fixpoint reg_run (cs : list reg_call) (t : list LettuceServiceRegistryEntry)
    : option (list reg_result * list LettuceServiceRegistryEntry) :=
  match cs with
  | [] => Some ([], t)
  | c :: cs' =>
      '(r, t1) ← reg_exec c t;
      '(rs, t2) ← reg_run cs' t1;
      Some (r :: rs, t2)
  end.

Definition reg_call_wf (c : reg_call) : Prop :=
  match c with
  | RegisterCall d => is_u32 (sd_id d)
  | UnregisterCall i | LookupCall i => is_u32 i
  | DispatchRegisterCall s o _ | DispatchUnregisterCall s o | DispatchLookupCall s o =>
      is_u32 s ∧ is_u32 o
  end.

(** ** The refinement relation *)

Record reg_refines (t : list LettuceServiceRegistryEntry) (a : areg) : Prop := {
  rr_inv : reg_inv t;
  rr_services : ∀ i d, services a !! i = Some d ↔
    ∃ e, arr_get t i = Some e ∧ i ≠ 0 ∧ sd_id (re_descriptor e) = i ∧ re_descriptor e = d;
  rr_entries : ∀ i o f, entry_points a !! (i, o) = Some f ↔
    ∃ e x, arr_get t i = Some e ∧ arr_get (re_operations e) o = Some x ∧
      de_active x = true ∧ de_entry x = f
}.

Section step.
Context (t : list LettuceServiceRegistryEntry) (a : areg) (Href : reg_refines t a).
Let Hinv := rr_inv _ _ Href.

Lemma reg_get (i : Z) : 0 ≤ i < 256 → ∃ e, arr_get t i = Some e ∧ entry_ok i e.
Proof using Href.
  intros Hi. destruct (arr_get_is_Some t i) as [e He].
  { pose proof (ri_len _ Hinv). unfold LETTUCE_SERVICE_TABLE_SIZE in *. lia. }
  exists e. split; [done|]. by apply (ri_entry _ Hinv).
Qed.

Lemma services_range (i : Z) (d : LettuceServiceDescriptor) :
  services a !! i = Some d → 0 < i < 256.
Proof using Href.
  intros (e & He%arr_get_Some_range & ? & _)%(rr_services _ _ Href).
  rewrite (ri_len _ Hinv) in He. unfold LETTUCE_SERVICE_TABLE_SIZE in He. lia.
Qed.

Lemma services_lookup (i : Z) (e : LettuceServiceRegistryEntry) :
  arr_get t i = Some e →
  services a !! i = if sd_id (re_descriptor e) =? 0 then None else Some (re_descriptor e).
Proof using Href.
  intros He. destruct (eo_id _ _ (ri_entry _ Hinv _ _ He)) as [Hid|[Hid Hi]].
  - rewrite Hid. cbn. apply eq_None_not_Some. intros [d Hd].
    apply (rr_services _ _ Href) in Hd as (e' & ? & ? & ? & _). simplify_eq.
  - rewrite (proj2 (Z.eqb_neq _ _)) by congruence. apply (rr_services _ _ Href). by exists e.
Qed.

Lemma entry_points_lookup (i o : Z) (e : LettuceServiceRegistryEntry) x :
  arr_get t i = Some e → arr_get (re_operations e) o = Some x →
  entry_points a !! (i, o) = if de_active x then Some (de_entry x) else None.
Proof using Href.
  intros He Hx. destruct (de_active x) eqn:Ha.
  - apply (rr_entries _ _ Href). by exists e, x.
  - apply eq_None_not_Some. intros [f Hf].
    apply (rr_entries _ _ Href) in Hf as (e' & x' & ? & ? & ? & _). simplify_eq. congruence.
Qed.

Lemma entry_points_range (i o f : Z) :
  entry_points a !! (i, o) = Some f → 0 < i < 256 ∧ 0 < o < 64 ∧ is_Some (services a !! i).
Proof using Href.
  intros (e & x & He & Hx & Ha & Hf)%(rr_entries _ _ Href).
  pose proof (ri_entry _ Hinv _ _ He) as [Hlen Hid _ Hops].
  pose proof (arr_get_Some_range _ _ _ Hx) as Hr. rewrite Hlen in Hr.
  specialize (Hops _ _ Hx). unfold dispatch_ok in Hops. rewrite Ha in Hops.
  destruct Hops as (Ho & _ & Hreg). rewrite negb_true_iff in Hreg.
  assert (services a !! i = Some (re_descriptor e)) as Hs.
  { rewrite (services_lookup _ _ He). by rewrite Hreg. }
  split; [by eapply services_range|]. unfold LETTUCE_DISPATCH_OPERATION_LIMIT in Hr.
  split; [lia|eauto].
Qed.

(** Looking up a registered service returns its registry entry. *)
Lemma registry_entry_lookup (i : Z) :
  is_u32 i →
  (∃ e d, arr_get t i = Some e ∧ entry_ok i e ∧ services a !! i = Some d ∧ re_descriptor e = d ∧
     lettuce_service_registry_entry i t = Some (Some e) ∧
     lettuce_service_registry_entry_mutable i t = Some (Some e) ∧
     lettuce_service_registry_lookup i t = Some (Some d)) ∨
  (services a !! i = None ∧ lettuce_service_registry_entry i t = Some None ∧
     lettuce_service_registry_entry_mutable i t = Some None ∧
     lettuce_service_registry_lookup i t = Some None).
Proof using Href.
  intros Hi. unfold lettuce_service_registry_entry, lettuce_service_registry_entry_mutable,
    lettuce_service_registry_lookup, LETTUCE_SERVICE_ID_INVALID, LETTUCE_SERVICE_TABLE_SIZE.
  destruct ((i =? 0) || (256 <=? i)) eqn:Hb.
  - right. split; [|done]. apply eq_None_not_Some. intros [d Hd%services_range]. lia.
  - b2p. unfold is_u32 in Hi. destruct (reg_get i) as (e & He & Hok); [lia|].
    rewrite He. cbn. rewrite (services_lookup _ _ He).
    destruct (eo_id _ _ Hok) as [Hid|[Hid Hne]].
    + right. rewrite Hid. by rewrite (proj2 (Z.eqb_neq 0 i)) by lia.
    + left. exists e, (re_descriptor e). rewrite Hid, Z.eqb_refl.
      by rewrite (proj2 (Z.eqb_neq i 0)) by lia.
Qed.

(** Replacing the entry of slot [i]. *)
Lemma reg_inv_update (i : Z) (e' : LettuceServiceRegistryEntry) t' :
  arr_set t i e' = Some t' → entry_ok i e' → reg_inv t'.
Proof using Href.
  intros Hset Hok. split.
  - rewrite (arr_set_length _ _ _ _ Hset). apply Hinv.
  - intros j e. rewrite (arr_get_set _ _ _ _ _ Hset). case_decide; [|apply Hinv].
    by intros [= <-]; subst.
Qed.

Lemma reg_refines_update (i : Z) (e e' : LettuceServiceRegistryEntry) t' a' :
  arr_get t i = Some e → arr_set t i e' = Some t' → entry_ok i e' →
  (∀ j d, services a' !! j = Some d ↔
     if decide (i = j) then i ≠ 0 ∧ sd_id (re_descriptor e') = i ∧ re_descriptor e' = d
     else services a !! j = Some d) →
  (∀ j o f, entry_points a' !! (j, o) = Some f ↔
     if decide (i = j) then ∃ x, arr_get (re_operations e') o = Some x ∧ de_active x = true ∧ de_entry x = f
     else entry_points a !! (j, o) = Some f) →
  reg_refines t' a'.
Proof using Href.
  intros He Hset Hok Hs Hp. split.
  - by eapply reg_inv_update.
  - intros j d. rewrite Hs, (arr_get_set _ _ _ _ _ Hset). case_decide; [subst|].
    + naive_solver.
    + apply (rr_services _ _ Href).
  - intros j o f. rewrite Hp, (arr_get_set _ _ _ _ _ Hset). case_decide; [subst|].
    + naive_solver.
    + apply (rr_entries _ _ Href).
Qed.

End step.

(** ** One call *)

Lemma refine_register (t : list LettuceServiceRegistryEntry) (a : areg) d :
  reg_refines t a → is_u32 (sd_id d) →
  ∃ t', reg_exec (RegisterCall d) t = Some ((areg_exec (RegisterCall d) a).1, t') ∧
        reg_refines t' (areg_exec (RegisterCall d) a).2.
Proof.
  intros Href Hd. cbn. unfold lettuce_service_registry_register, LETTUCE_SERVICE_ID_INVALID,
    LETTUCE_SERVICE_TABLE_SIZE, LETTUCE_LAYER_L4. unfold is_u32 in Hd.
  destruct ((sd_id d =? 0) || (256 <=? sd_id d)) eqn:Hb.
  { rewrite decide_False by (b2p; lia). cbn. eauto. }
  b2p. destruct (Z.ltb_spec 4 (sd_layer d)).
  { rewrite decide_False by lia. cbn. eauto. }
  destruct (reg_get t a Href (sd_id d)) as (e & He & Hok); [lia|]. rewrite He. cbn.
  rewrite (services_lookup t a Href _ _ He).
  destruct (Z.eqb_spec (sd_id (re_descriptor e)) 0) as [Hz|Hz]; cbn.
  - rewrite decide_True by (split_and!; done || lia).
    pose proof (arr_get_Some_range _ _ _ He) as Hr.
    rewrite arr_set_Some by done. cbn. eexists. split; [done|].
    eapply (reg_refines_update t a Href _ e); [done|by apply arr_set_Some|..]; cbn.
    + destruct Hok as [Hlen _ _ Hops]. split; cbn; [done|lia|done|].
      intros o x Hx. specialize (Hops o x Hx). rewrite Hz in Hops. cbn in Hops.
      unfold dispatch_ok in *. destruct (de_active x); naive_solver.
    + intros j x. rewrite lookup_insert. case_decide; [|done]. naive_solver lia.
    + intros j o f. case_decide; [subst|done]. split.
      * intros (e' & x & He' & Hx & Ha & Hf)%(rr_entries _ _ Href). simplify_eq. eauto.
      * intros (x & Hx & Ha & Hf). apply (rr_entries _ _ Href). eauto 10.
  - rewrite decide_False by naive_solver. eauto.
Qed.

Lemma refine_unregister (t : list LettuceServiceRegistryEntry) (a : areg) i :
  reg_refines t a → is_u32 i →
  ∃ t', reg_exec (UnregisterCall i) t = Some ((areg_exec (UnregisterCall i) a).1, t') ∧
        reg_refines t' (areg_exec (UnregisterCall i) a).2.
Proof.
  intros Href Hi. cbn. unfold lettuce_service_registry_unregister, LETTUCE_SERVICE_ID_INVALID,
    LETTUCE_SERVICE_TABLE_SIZE. unfold is_u32 in Hi.
  destruct ((i =? 0) || (256 <=? i)) eqn:Hb.
  { rewrite decide_False. { cbn. eauto. } intros [d Hd%(services_range t a Href)]. lia. }
  b2p. destruct (reg_get t a Href i) as (e & He & Hok); [lia|]. rewrite He. cbn.
  rewrite (services_lookup t a Href _ _ He).
  destruct (Z.eqb_spec (sd_id (re_descriptor e)) 0) as [Hz|Hz]; cbn.
  - rewrite decide_False by (by intros [? ?]). eauto.
  - rewrite decide_True by eauto. rewrite clear_operations_spec by apply Hok.
    cbn [mbind option_bind].
    pose proof (arr_get_Some_range _ _ _ He) as Hr.
    rewrite arr_set_Some by done. cbn [mbind option_bind fst]. eexists. split; [done|].
    eapply (reg_refines_update t a Href _ e); [done|by apply arr_set_Some|..]; cbn [services entry_points snd].
    + apply (registry_entry_zero_ok i).
    + intros j x. rewrite lookup_delete_Some. cbn. case_decide; naive_solver lia.
    + intros j o f. rewrite map_lookup_filter_Some. cbn [fst re_operations]. case_decide; [subst|].
      * split; [naive_solver|]. intros (x & Hx & Ha & _).
        pose proof (eo_ops _ _ (registry_entry_zero_ok j) o x Hx) as Hop. unfold dispatch_ok in Hop.
        rewrite Ha in Hop. naive_solver.
      * naive_solver.
Qed.

Lemma refine_lookup (t : list LettuceServiceRegistryEntry) (a : areg) i :
  reg_refines t a → is_u32 i →
  reg_exec (LookupCall i) t = Some (RegDescriptor (services a !! i), t).
Proof.
  intros Href Hi. cbn.
  destruct (registry_entry_lookup t a Href i Hi) as [(e & d & _ & _ & -> & _ & _ & _ & ->)|(-> & _ & _ & ->)];
    done.
Qed.

Lemma refine_dispatch_lookup (t : list LettuceServiceRegistryEntry) (a : areg) s o :
  reg_refines t a → is_u32 s → is_u32 o →
  reg_exec (DispatchLookupCall s o) t = Some (RegEntry (entry_points a !! (s, o)), t).
Proof.
  intros Href Hs Ho. cbn. unfold lettuce_dispatch_lookup, LETTUCE_OPERATION_ID_INVALID,
    LETTUCE_DISPATCH_OPERATION_LIMIT. unfold is_u32 in Ho.
  destruct ((o =? 0) || (64 <=? o)) eqn:Hb.
  { cbn. rewrite (proj2 (eq_None_not_Some (entry_points a !! (s, o)))); [done|].
    intros [f Hf%(entry_points_range t a Href)]. lia. }
  b2p.
  destruct (registry_entry_lookup t a Href s Hs)
    as [(e & d & He & Hok & Hsv & Hd & -> & _)|(Hsv & -> & _)]; cbn.
  - destruct (arr_get_is_Some (re_operations e) o) as [x Hx].
    { rewrite (eo_len _ _ Hok). unfold LETTUCE_DISPATCH_OPERATION_LIMIT. lia. }
    rewrite Hx. cbn. rewrite (entry_points_lookup t a Href _ _ _ _ He Hx).
    by destruct (de_active x).
  - rewrite (proj2 (eq_None_not_Some (entry_points a !! (s, o)))); [done|].
    intros [f (_ & _ & [d Hd])%(entry_points_range t a Href)]. congruence.
Qed.

(** Writing one dispatch slot of a registered service. *)
Lemma refine_slot_write (t : list LettuceServiceRegistryEntry) (a a' : areg) s o e x' ops' :
  reg_refines t a → arr_get t s = Some e → sd_id (re_descriptor e) ≠ 0 →
  arr_set (re_operations e) o x' = Some ops' →
  dispatch_ok true o x' →
  services a' = services a →
  entry_points a' = (if de_active x' then <[(s, o) := de_entry x']> (entry_points a)
                     else delete (s, o) (entry_points a)) →
  ∃ t', arr_set t s {| re_descriptor := re_descriptor e; re_operations := ops' |} = Some t' ∧
        reg_refines t' a'.
Proof.
  intros Href He Hid Hset Hx' Hsv Hep.
  pose proof (arr_get_Some_range _ _ _ He) as Hr.
  pose proof (ri_entry _ (rr_inv _ _ Href) _ _ He) as [Hlen Heid Hlay Hops].
  rewrite arr_set_Some by done. eexists. split; [done|].
  eapply (reg_refines_update t a Href s e); [done|by apply arr_set_Some|..]; cbn.
  - split; cbn; [by rewrite (arr_set_length _ _ _ _ Hset)|done|done|].
    intros j y. rewrite (arr_get_set _ _ _ _ _ Hset).
    case_decide; [|apply Hops]. intros [= <-]. subst j.
    by rewrite (proj2 (Z.eqb_neq _ _) Hid).
  - intros j d. rewrite Hsv. case_decide; [subst|done].
    rewrite (services_lookup t a Href _ _ He), (proj2 (Z.eqb_neq _ _) Hid).
    destruct Heid as [?|[? ?]]; [done|]. naive_solver.
  - intros j k f. rewrite Hep. case_decide as Hj.
    + subst j. setoid_rewrite (arr_get_set _ _ _ _ _ Hset).
      destruct (decide (o = k)) as [->|Hk].
      * destruct (de_active x') eqn:Ha.
        -- rewrite lookup_insert_eq. naive_solver.
        -- rewrite lookup_delete_eq. split; [done|].
           intros (x & [= <-] & Hax & _). congruence.
      * assert (entry_points a' !! (s, k) = entry_points a !! (s, k)) as Heq.
        { rewrite Hep. destruct (de_active x'); [apply lookup_insert_ne|apply lookup_delete_ne]; congruence. }
        rewrite <- Hep, Heq. rewrite (rr_entries _ _ Href). naive_solver.
    + destruct (de_active x'); [rewrite lookup_insert_ne by congruence|rewrite lookup_delete_ne by congruence];
        done.
Qed.

Lemma refine_dispatch_register (t : list LettuceServiceRegistryEntry) (a : areg) s o f :
  reg_refines t a → is_u32 s → is_u32 o →
  ∃ t', reg_exec (DispatchRegisterCall s o f) t =
          Some ((areg_exec (DispatchRegisterCall s o f) a).1, t') ∧
        reg_refines t' (areg_exec (DispatchRegisterCall s o f) a).2.
Proof.
  intros Href Hs Ho. cbn. unfold lettuce_dispatch_register, LETTUCE_OPERATION_ID_INVALID,
    LETTUCE_DISPATCH_OPERATION_LIMIT, LETTUCE_SERVICE_ID_INVALID, NULL.
  destruct (registry_entry_lookup t a Href s Hs)
    as [(e & d & He & Hok & Hsv & Hd & _ & -> & _)|(Hsv & _ & -> & _)]; rewrite Hsv;
    [|destruct (_ || _); cbn; eauto].
  pose proof (services_range t a Href _ _ Hsv) as Hrange. unfold is_u32 in Ho.
  destruct ((s =? 0) || (o =? 0) || (64 <=? o) || (f =? 0)) eqn:Hb.
  { rewrite decide_False by (intros (? & ? & _); lia). cbn. eauto. }
  b2p. cbn [mbind option_bind]. rewrite Hd.
  destruct (flag_active (sd_flags d)) eqn:Hact; cbn [negb].
  2:{ rewrite decide_False by naive_solver. cbn. eauto. }
  destruct (arr_get_is_Some (re_operations e) o) as [x Hx].
  { rewrite (eo_len _ _ Hok). unfold LETTUCE_DISPATCH_OPERATION_LIMIT. lia. }
  rewrite Hx. cbn [mbind option_bind]. rewrite (entry_points_lookup t a Href _ _ _ _ He Hx).
  destruct (de_active x) eqn:Ha.
  { rewrite decide_False by naive_solver. cbn. eauto. }
  rewrite decide_True by (split_and!; done || lia).
  assert (sd_id (re_descriptor e) ≠ 0) as Hid.
  { intros Hz. rewrite (services_lookup t a Href _ _ He), Hz in Hsv. done. }
  pose proof (arr_get_Some_range _ _ _ Hx) as Hr.
  rewrite (arr_set_Some _ o) by done. cbn [mbind option_bind]. rewrite <- Hd.
  destruct (refine_slot_write t a
    {| services := services a; entry_points := <[(s, o) := f]> (entry_points a) |} s o e
    {| de_entry := f; de_active := true |} _ Href He Hid (arr_set_Some _ _ _ Hr))
    as (t' & -> & Href'); [split_and!; [lia|done|done]|done..|]. cbn. eauto.
Qed.

Lemma refine_dispatch_unregister (t : list LettuceServiceRegistryEntry) (a : areg) s o :
  reg_refines t a → is_u32 s → is_u32 o →
  ∃ t', reg_exec (DispatchUnregisterCall s o) t =
          Some ((areg_exec (DispatchUnregisterCall s o) a).1, t') ∧
        reg_refines t' (areg_exec (DispatchUnregisterCall s o) a).2.
Proof.
  intros Href Hs Ho. cbn. unfold lettuce_dispatch_unregister, LETTUCE_OPERATION_ID_INVALID,
    LETTUCE_DISPATCH_OPERATION_LIMIT. unfold is_u32 in Ho.
  destruct ((o =? 0) || (64 <=? o)) eqn:Hb.
  { rewrite decide_False; [cbn; eauto|]. intros [f Hf%(entry_points_range t a Href)]. lia. }
  b2p.
  destruct (registry_entry_lookup t a Href s Hs)
    as [(e & d & He & Hok & Hsv & Hd & _ & -> & _)|(Hsv & _ & -> & _)]; cbn [mbind option_bind].
  2:{ rewrite decide_False; [cbn; eauto|]. intros [f Hf%(entry_points_range t a Href)].
      destruct Hf as (_ & _ & [d Hd]). congruence. }
  destruct (arr_get_is_Some (re_operations e) o) as [x Hx].
  { rewrite (eo_len _ _ Hok). unfold LETTUCE_DISPATCH_OPERATION_LIMIT. lia. }
  rewrite Hx. cbn [mbind option_bind]. rewrite (entry_points_lookup t a Href _ _ _ _ He Hx).
  destruct (de_active x) eqn:Ha; cbn [negb].
  2:{ rewrite decide_False by (by intros [? ?]). cbn. eauto. }
  rewrite decide_True by eauto.
  assert (sd_id (re_descriptor e) ≠ 0) as Hid.
  { intros Hz. rewrite (services_lookup t a Href _ _ He), Hz in Hsv. done. }
  pose proof (arr_get_Some_range _ _ _ Hx) as Hr.
  rewrite (arr_set_Some _ o) by done. cbn [mbind option_bind].
  destruct (refine_slot_write t a
    {| services := services a; entry_points := delete (s, o) (entry_points a) |} s o e
    {| de_entry := NULL; de_active := false |} _ Href He Hid (arr_set_Some _ _ _ Hr))
    as (t' & -> & Href'); [by unfold dispatch_ok|done..|]. cbn. eauto.
Qed.

Lemma refine_reg_exec (c : reg_call) (t : list LettuceServiceRegistryEntry) (a : areg) :
  reg_refines t a → reg_call_wf c →
  ∃ t', reg_exec c t = Some ((areg_exec c a).1, t') ∧ reg_refines t' (areg_exec c a).2.
Proof.
  intros Href Hwf. destruct c as [d|i|i|s o f|s o|s o]; cbn [reg_call_wf] in Hwf.
  - by apply refine_register.
  - by apply refine_unregister.
  - exists t. split; [by apply refine_lookup|done].
  - destruct Hwf. by apply refine_dispatch_register.
  - destruct Hwf. by apply refine_dispatch_unregister.
  - exists t. destruct Hwf. split; [by apply refine_dispatch_lookup|done].
Qed.

Lemma refine_reg_run (cs : list reg_call) (t : list LettuceServiceRegistryEntry) (a : areg) :
  reg_refines t a → Forall reg_call_wf cs →
  ∃ t', reg_run cs t = Some ((areg_run cs a).1, t') ∧ reg_refines t' (areg_run cs a).2.
Proof.
  intros Href Hwf. revert t a Href. induction Hwf as [|c cs Hc _ IH]; intros t a Href; cbn; [eauto|].
  destruct (refine_reg_exec c t a Href Hc) as (t1 & -> & Href1).
  destruct (areg_exec c a) as [r a1]. cbn in *.
  destruct (IH t1 a1 Href1) as (t2 & -> & Href2).
  destruct (areg_run cs a1) as [rs a2]. cbn in *. eauto.
Qed.

Lemma registry_boot_refines : reg_refines registry_boot areg_empty.
Proof.
  assert (∀ i e, arr_get registry_boot i = Some e → e = registry_entry_zero) as Hz.
  { intros i e He. pose proof (arr_get_Some_range _ _ _ He) as Hr. unfold registry_boot in *.
    rewrite length_replicate in Hr. rewrite arr_get_replicate in He by done. by simplify_eq. }
  split; [apply registry_boot_inv|..]; cbn [services entry_points areg_empty].
  - intros i d. rewrite lookup_empty. split; [done|].
    intros (e & ->%Hz & ? & Hid & _). cbn in Hid. congruence.
  - intros i o f. rewrite lookup_empty. split; [done|].
    intros (e & x & ->%Hz & Hx & Ha & _).
    pose proof (eo_ops _ _ (registry_entry_zero_ok i) o x Hx) as Hop. unfold dispatch_ok in Hop.
    rewrite Ha in Hop. naive_solver.
Qed.

(** ** Claims *)

(** C5: over every sequence of registry and dispatch calls with 32-bit
    identifiers, starting from the initialised tables, every call returns without
    leaving an array, and all answers are exactly those of the specification by two
    finite maps: unregistering a service removes all its entry points, an entry point is
    resolved only for a registered service, and nothing is overwritten. *)
Theorem registry_refinement (cs : list reg_call) :
  Forall reg_call_wf cs →
  ∃ t, lettuce_service_registry_init registry_boot = Some (true, registry_boot) ∧
    reg_run cs registry_boot = Some ((areg_run cs areg_empty).1, t) ∧
    reg_refines t (areg_run cs areg_empty).2.
Proof.
  intros Hwf. destruct (refine_reg_run cs _ _ registry_boot_refines Hwf) as (t & Hrun & Href).
  exists t. split; [apply registry_init_spec, registry_boot_inv|done].
Qed.

Definition display_descriptor : LettuceServiceDescriptor :=
  {| sd_id := 20; sd_layer := 3; sd_domain := 200; sd_flags := 1 |}.

Lemma registry_refinement_witness :
  ∃ t, lettuce_service_registry_init registry_boot = Some (true, registry_boot) ∧
    reg_run [RegisterCall display_descriptor; DispatchRegisterCall 20 1 4096; DispatchLookupCall 20 1;
             UnregisterCall 20; DispatchLookupCall 20 1] registry_boot =
      Some ([RegBool true; RegBool true; RegEntry (Some 4096); RegBool true; RegEntry None], t) ∧
    reg_refines t areg_empty.
Proof.
  destruct (registry_refinement
    [RegisterCall display_descriptor; DispatchRegisterCall 20 1 4096; DispatchLookupCall 20 1;
     UnregisterCall 20; DispatchLookupCall 20 1]) as (t & Hi & Hr & Href).
  - repeat constructor; unfold is_u32; cbn; lia.
  - exists t. split; [exact Hi|]. split; [exact Hr|exact Href].
Defined.
