(* ===== verification/Ipc.v ===== *)
(** * Mediated calls: [ipc/], [runtime/c/*_call.c]

    Three call gates share one shape: resolve the authoritative caller and the
    target, check the layer relation and the capability, look the entry point up,
    enter the target's context, run the entry point, restore the caller's context.
    The entry points are service code outside the kernel: [call_entry], an arbitrary
    partial function on the kernel state ([None] when the service never returns).  A
    pointer argument that may be [NULL] is a [bool] or an [option]. *)

From S2P Require Import Prelude Types Generation Context Capability CapabilitySpec Registry RegistrySpec.

Section ipc.
Context {P : Type} `{!ProtectionOps P}.

(** The kernel state the gates read and write. *)
Record kstate := {
  ks_context : context_state P;
  ks_caps : cap_state;
  ks_registry : list LettuceServiceRegistryEntry
}.

Definition with_context (c : context_state P) (st : kstate) : kstate :=
  {| ks_context := c; ks_caps := ks_caps st; ks_registry := ks_registry st |}.

Record LettuceCallResolution := {
  res_caller : LettuceServiceDescriptor;
  res_target : LettuceServiceDescriptor;
  res_entry : option LettuceDispatchEntry
}.

(** ** Validation *)

Definition lettuce_same_layer_validate
    (target_service_id operation_id resource_id capability_handle : Z) (resolution : bool)
    (st : kstate) : option (LettuceStatus * option LettuceCallResolution) :=
  if negb resolution then Some (LETTUCE_STATUS_INVALID_ARGUMENT, None) else
  let trusted_caller := current_service_id (ks_context st) in
  if trusted_caller =? LETTUCE_SERVICE_ID_INVALID then Some (LETTUCE_STATUS_INVALID_SERVICE, None) else
  caller ← lettuce_service_registry_lookup trusted_caller (ks_registry st);
  match caller with
  | None => Some (LETTUCE_STATUS_INVALID_SERVICE, None)
  | Some caller =>
  if negb (flag_active (sd_flags caller)) then Some (LETTUCE_STATUS_INACTIVE_SERVICE, None) else
  if target_service_id =? LETTUCE_SERVICE_ID_INVALID then Some (LETTUCE_STATUS_INVALID_SERVICE, None) else
  target ← lettuce_service_registry_lookup target_service_id (ks_registry st);
  match target with
  | None => Some (LETTUCE_STATUS_INVALID_SERVICE, None)
  | Some target =>
  if negb (flag_active (sd_flags target)) then Some (LETTUCE_STATUS_INACTIVE_SERVICE, None) else
  if negb (sd_layer caller =? sd_layer target) then Some (LETTUCE_STATUS_DIFFERENT_LAYER, None) else
  if operation_id =? LETTUCE_OPERATION_ID_INVALID then Some (LETTUCE_STATUS_INVALID_OPERATION, None) else
  if resource_id =? LETTUCE_RESOURCE_ID_INVALID then Some (LETTUCE_STATUS_INVALID_RESOURCE, None) else
  if capability_handle =? LETTUCE_CAPABILITY_INVALID then Some (LETTUCE_STATUS_CAPABILITY_DENIED, None) else
  granted ← lettuce_capability_check trusted_caller capability_handle target_service_id operation_id
              LETTUCE_CAP_CALL resource_id (ks_caps st);
  if negb granted then Some (LETTUCE_STATUS_CAPABILITY_DENIED, None) else
  entry ← lettuce_dispatch_lookup target_service_id operation_id (ks_registry st);
  match entry with
  | None => Some (LETTUCE_STATUS_INVALID_OPERATION, None)
  | Some entry =>
      Some (LETTUCE_STATUS_OK,
            Some {| res_caller := caller; res_target := target; res_entry := Some entry |})
  end end end.

Definition lettuce_cross_layer_validate (message : option LettuceCallMessage) (resolution : bool)
    (st : kstate) : option (LettuceStatus * option LettuceCallResolution) :=
  match message, resolution with
  | Some message, true =>
  let caller_id := current_service_id (ks_context st) in
  caller ← lettuce_service_registry_lookup caller_id (ks_registry st);
  match caller with
  | None => Some (LETTUCE_STATUS_INVALID_SERVICE, None)
  | Some caller =>
  if negb (flag_active (sd_flags caller)) then Some (LETTUCE_STATUS_INACTIVE_SERVICE, None) else
  target ← lettuce_service_registry_lookup (target_service_id message) (ks_registry st);
  match target with
  | None => Some (LETTUCE_STATUS_INVALID_SERVICE, None)
  | Some target =>
  if negb (flag_active (sd_flags target)) then Some (LETTUCE_STATUS_INACTIVE_SERVICE, None) else
  if sd_layer caller =? sd_layer target then Some (LETTUCE_STATUS_INVALID_STATE, None) else
  if operation_id message =? LETTUCE_OPERATION_ID_INVALID
  then Some (LETTUCE_STATUS_INVALID_OPERATION, None) else
  if resource_id message =? LETTUCE_RESOURCE_ID_INVALID
  then Some (LETTUCE_STATUS_INVALID_RESOURCE, None) else
  granted ← lettuce_capability_check caller_id (capability_handle message) (target_service_id message)
              (operation_id message) LETTUCE_CAP_CALL (resource_id message) (ks_caps st);
  if negb granted then Some (LETTUCE_STATUS_CAPABILITY_DENIED, None) else
  entry ← lettuce_dispatch_lookup (target_service_id message) (operation_id message) (ks_registry st);
  match entry with
  | None => Some (LETTUCE_STATUS_INVALID_TARGET_ENTRY, None)
  | Some entry =>
      if de_entry entry =? NULL then Some (LETTUCE_STATUS_INVALID_TARGET_ENTRY, None) else
      Some (LETTUCE_STATUS_OK,
            Some {| res_caller := caller; res_target := target; res_entry := Some entry |})
  end end end
  | _, _ => Some (LETTUCE_STATUS_INVALID_ARGUMENT, None)
  end.

Definition lettuce_elevator_policy (message : option LettuceCallMessage) (resolution : bool)
    (st : kstate) : option (LettuceStatus * option LettuceCallResolution) :=
  match message, resolution with
  | Some message, true =>
  let caller_id := current_service_id (ks_context st) in
  caller ← lettuce_service_registry_lookup caller_id (ks_registry st);
  target ← lettuce_service_registry_lookup (target_service_id message) (ks_registry st);
  match caller, target with
  | Some caller, Some target =>
  if negb (flag_active (sd_flags caller)) || negb (flag_active (sd_flags target))
  then Some (LETTUCE_STATUS_INACTIVE_SERVICE, None) else
  if operation_id message =? LETTUCE_OPERATION_ID_INVALID
  then Some (LETTUCE_STATUS_INVALID_OPERATION, None) else
  if resource_id message =? LETTUCE_RESOURCE_ID_INVALID
  then Some (LETTUCE_STATUS_INVALID_RESOURCE, None) else
  granted ← lettuce_capability_check caller_id (capability_handle message) (target_service_id message)
              (operation_id message) (LETTUCE_CAP_CALL .| LETTUCE_CAP_CRITICAL) (resource_id message)
              (ks_caps st);
  if negb granted then Some (LETTUCE_STATUS_CAPABILITY_DENIED, None) else
  entry ← lettuce_dispatch_lookup (target_service_id message) (operation_id message) (ks_registry st);
  match entry with
  | None => Some (LETTUCE_STATUS_INVALID_TARGET_ENTRY, None)
  | Some entry =>
      if de_entry entry =? NULL then Some (LETTUCE_STATUS_INVALID_TARGET_ENTRY, None) else
      Some (LETTUCE_STATUS_OK,
            Some {| res_caller := caller; res_target := target; res_entry := Some entry |})
  end
  | _, _ => Some (LETTUCE_STATUS_INVALID_SERVICE, None)
  end
  | _, _ => Some (LETTUCE_STATUS_INVALID_ARGUMENT, None)
  end.

Inductive call_kind := SameLayer | CrossLayer | Elevator.

Section gates.
(** ** Gates *)

(** The service code behind an entry point. *)
Context (call_entry : Z → kstate → option (LettuceStatus * kstate)).

(** The tail every gate shares: enter, [resolution.entry->entry()], leave.  [None]
    stands for a call through [NULL]. *)
Definition enter_and_run (resolution : LettuceCallResolution) (st : kstate)
    : option (LettuceStatus * kstate) :=
  entry ← res_entry resolution;
  let '(previous_context, c) :=
    lettuce_context_enter (sd_id (res_target resolution)) (sd_domain (res_target resolution))
      (ks_context st) in
  '(result, st') ← (if de_entry entry =? NULL then None
                    else call_entry (de_entry entry) (with_context c st));
  Some (result, with_context (lettuce_context_leave previous_context (ks_context st')) st').

Definition lettuce_same_layer_gate
    (target_service_id operation_id resource_id capability_handle : Z) (st : kstate)
    : option (LettuceStatus * kstate) :=
  '(validation_status, resolution) ←
    lettuce_same_layer_validate target_service_id operation_id resource_id capability_handle true st;
  if negb (status_is_ok validation_status) then Some (validation_status, st) else
  resolution ← resolution;
  match res_entry resolution with
  | None => Some (LETTUCE_STATUS_INVALID_TARGET_ENTRY, st)
  | Some entry =>
      if de_entry entry =? NULL then Some (LETTUCE_STATUS_INVALID_TARGET_ENTRY, st)
      else enter_and_run resolution st
  end.

Definition lettuce_cross_layer_gate (message : option LettuceCallMessage) (st : kstate)
    : option (LettuceStatus * kstate) :=
  '(status, resolution) ← lettuce_cross_layer_validate message true st;
  if negb (status_is_ok status) then Some (status, st) else
  resolution ← resolution;
  enter_and_run resolution st.

Definition lettuce_elevator_gate (message : option LettuceCallMessage) (st : kstate)
    : option (LettuceStatus * kstate) :=
  '(status, resolution) ← lettuce_elevator_policy message true st;
  if negb (status_is_ok status) then Some (status, st) else
  resolution ← resolution;
  enter_and_run resolution st.

(** ** The runtime wrappers: [runtime/c/] *)

Definition lettuce_same_layer_call
    (target_service_id operation_id resource_id capability_handle : Z) (st : kstate)
    : option (LettuceStatus * kstate) :=
  lettuce_same_layer_gate target_service_id operation_id resource_id capability_handle st.

Definition lettuce_cross_layer_call (message : option LettuceCallMessage) (st : kstate)
    : option (LettuceStatus * kstate) :=
  lettuce_cross_layer_gate message st.

Definition lettuce_elevator_call (message : option LettuceCallMessage) (st : kstate)
    : option (LettuceStatus * kstate) :=
  lettuce_elevator_gate message st.

(** A call of a kind, as the wrappers expose it. *)
Definition mediated_call (k : call_kind) (m : LettuceCallMessage) (st : kstate)
    : option (LettuceStatus * kstate) :=
  match k with
  | SameLayer => lettuce_same_layer_call (target_service_id m) (operation_id m) (resource_id m)
                   (capability_handle m) st
  | CrossLayer => lettuce_cross_layer_call (Some m) st
  | Elevator => lettuce_elevator_call (Some m) st
  end.

End gates.

(** ** What authorises a call *)

(** The validation of a call of a kind. *)
Definition validate_call (k : call_kind) (m : LettuceCallMessage) (st : kstate)
    : option (LettuceStatus * option LettuceCallResolution) :=
  match k with
  | SameLayer => lettuce_same_layer_validate (target_service_id m) (operation_id m) (resource_id m)
                   (capability_handle m) true st
  | CrossLayer => lettuce_cross_layer_validate (Some m) true st
  | Elevator => lettuce_elevator_policy (Some m) true st
  end.

Definition kind_permission (k : call_kind) : Z :=
  match k with
  | Elevator => LETTUCE_CAP_CALL .| LETTUCE_CAP_CRITICAL
  | _ => LETTUCE_CAP_CALL
  end.

Definition kind_layers (k : call_kind) (caller target : Z) : Prop :=
  match k with
  | SameLayer => caller = target
  | CrossLayer => caller ≠ target
  | Elevator => True
  end.

(** The running service and the target are registered and active, their layers
    stand in the kind's relation, and the running service owns a live capability for
    exactly this target, operation and resource with the kind's permissions; [d] is the
    installed entry point. *)
Record authorized (k : call_kind) (m : LettuceCallMessage) (st : kstate)
    (r : LettuceCallResolution) (d : LettuceDispatchEntry) : Prop := {
  au_caller : lettuce_service_registry_lookup (current_service_id (ks_context st)) (ks_registry st) =
                Some (Some (res_caller r));
  au_caller_active : flag_active (sd_flags (res_caller r)) = true;
  au_target : lettuce_service_registry_lookup (target_service_id m) (ks_registry st) =
                Some (Some (res_target r));
  au_target_active : flag_active (sd_flags (res_target r)) = true;
  au_layers : kind_layers k (sd_layer (res_caller r)) (sd_layer (res_target r));
  au_operation : operation_id m ≠ LETTUCE_OPERATION_ID_INVALID;
  au_resource : resource_id m ≠ LETTUCE_RESOURCE_ID_INVALID;
  au_capability : ∃ e, cap_designates (ks_caps st) (capability_handle m) e ∧
    entry_authorizes e (current_service_id (ks_context st)) (target_service_id m) (operation_id m)
      (kind_permission k) (resource_id m);
  au_entry : lettuce_dispatch_lookup (target_service_id m) (operation_id m) (ks_registry st) = Some (Some d);
  au_resolution : res_entry r = Some d
}.

Record kernel_inv (st : kstate) : Prop := {
  ki_caps : cap_inv (ks_caps st);
  ki_registry : ∃ a, reg_refines (ks_registry st) a;
  ki_current : is_u32 (current_service_id (ks_context st))
}.

Definition message_wf (m : LettuceCallMessage) : Prop :=
  is_u32 (target_service_id m) ∧ is_u32 (operation_id m) ∧ is_u32 (resource_id m) ∧
  is_u32 (capability_handle m).

(** ** Validation decides authorisation *)

Section facts.
Context (st : kstate) (Hinv : kernel_inv st).

Lemma lookup_total (i : Z) :
  is_u32 i → ∃ d, lettuce_service_registry_lookup i (ks_registry st) = Some d ∧
                  (i = LETTUCE_SERVICE_ID_INVALID → d = None).
Proof using Hinv.
  intros Hi. destruct (ki_registry _ Hinv) as [a Ha].
  destruct (registry_entry_lookup _ _ Ha i Hi) as [(e & d & _ & _ & Hs & _ & _ & _ & ->)|(_ & _ & _ & ->)].
  - exists (Some d). split; [done|]. intros ->.
    apply (services_range _ _ Ha) in Hs. unfold LETTUCE_SERVICE_ID_INVALID in Hs. lia.
  - by exists None.
Qed.

Lemma dispatch_total (s o : Z) :
  is_u32 s → is_u32 o →
  ∃ d, lettuce_dispatch_lookup s o (ks_registry st) = Some d ∧
       ∀ x, d = Some x → de_entry x ≠ NULL.
Proof using Hinv.
  intros Hs Ho. destruct (ki_registry _ Hinv) as [a Ha].
  pose proof (refine_dispatch_lookup _ _ s o Ha Hs Ho) as Hl. cbn in Hl.
  destruct (lettuce_dispatch_lookup s o (ks_registry st)) as [d|] eqn:Hd; [|done].
  exists d. split; [done|]. intros x ->. injection Hl as Hl.
  symmetry in Hl. apply (rr_entries _ _ Ha) in Hl as (e & y & He & Hy & Hact & Heq).
  pose proof (eo_ops _ _ (ri_entry _ (rr_inv _ _ Ha) _ _ He) _ _ Hy) as Hok.
  unfold dispatch_ok in Hok. rewrite Hact, Heq in Hok. tauto.
Qed.

(** A handle that passes the check is not the invalid handle. *)
Lemma designates_valid (h : Z) e : cap_designates (ks_caps st) h e → h ≠ LETTUCE_CAPABILITY_INVALID.
Proof using. intros (slot & gen & Hd & _) ->. done. Qed.

(** The outcome of a validation: a resolution of an authorised call, or a refusal
    of an unauthorised one. *)
Definition validated (k : call_kind) (m : LettuceCallMessage)
    (o : option (LettuceStatus * option LettuceCallResolution)) : Prop :=
  (∃ r d, o = Some (LETTUCE_STATUS_OK, Some r) ∧ authorized k m st r d ∧ de_entry d ≠ NULL) ∨
  (∃ s, o = Some (s, None) ∧ s ≠ LETTUCE_STATUS_OK ∧ ∀ r d, ¬ authorized k m st r d).

(** [authorized], with the four table reads of a validation already made. *)
Lemma authorized_reads (k : call_kind) (m : LettuceCallMessage) caller target entry b r d :
  lettuce_service_registry_lookup (current_service_id (ks_context st)) (ks_registry st) = Some caller →
  lettuce_service_registry_lookup (target_service_id m) (ks_registry st) = Some target →
  lettuce_dispatch_lookup (target_service_id m) (operation_id m) (ks_registry st) = Some entry →
  (b = true ↔ ∃ e, cap_designates (ks_caps st) (capability_handle m) e ∧
      entry_authorizes e (current_service_id (ks_context st)) (target_service_id m) (operation_id m)
        (kind_permission k) (resource_id m)) →
  authorized k m st r d ↔
  caller = Some (res_caller r) ∧ flag_active (sd_flags (res_caller r)) = true ∧
  target = Some (res_target r) ∧ flag_active (sd_flags (res_target r)) = true ∧
  kind_layers k (sd_layer (res_caller r)) (sd_layer (res_target r)) ∧
  operation_id m ≠ LETTUCE_OPERATION_ID_INVALID ∧ resource_id m ≠ LETTUCE_RESOURCE_ID_INVALID ∧
  b = true ∧ entry = Some d ∧ res_entry r = Some d.
Proof using.
  intros Hc Ht He Hb. split.
  - intros []. rewrite Hb. split_and!; try done; congruence.
  - intros (-> & ? & -> & ? & ? & ? & ? & Hbt & -> & ?). by split; try apply Hb.
Qed.

(** Use every implication whose premise is at hand. *)
Ltac fire :=
  repeat match goal with
  | H : ?A → ?B, H' : ?A |- _ => specialize (H H')
  | H : ∀ x, Some ?y = Some x → _ |- _ => specialize (H _ eq_refl)
  end.

Ltac refuse Hauth :=
  right; eexists; split; [reflexivity|]; split; [discriminate|];
  intros ? ? (? & ? & ? & ? & Hl & ? & ? & ? & ? & ?)%Hauth; cbn in Hl; destruct_or?; b2p; fire; congruence.

Ltac accept Hauth :=
  left; do 2 eexists; split; [reflexivity|]; split; [|eauto];
  apply Hauth; cbn; split_and!; (done || congruence).

Lemma validate_spec (k : call_kind) (m : LettuceCallMessage) :
  message_wf m → validated k m (validate_call k m st).
Proof using Hinv.
  intros (Ht & Ho & Hr & Hh).
  destruct (lookup_total _ (ki_current _ Hinv)) as (caller & Ecaller & Hcaller).
  destruct (lookup_total _ Ht) as (target & Etarget & Htarget).
  destruct (dispatch_total _ _ Ht Ho) as (entry & Eentry & Hentry).
  destruct (check_spec (ks_caps st) (current_service_id (ks_context st)) (capability_handle m)
    (target_service_id m) (operation_id m) (kind_permission k) (resource_id m) (ki_caps _ Hinv))
    as (b & Eb & Hb).
  assert (b = true → capability_handle m ≠ LETTUCE_CAPABILITY_INVALID) as Hvalid.
  { intros (_ & _ & e & He & _)%Hb. by eapply designates_valid. }
  destruct (decide (caller = None)) as [->|Hsome].
  { right. unfold validate_call, lettuce_same_layer_validate, lettuce_cross_layer_validate,
      lettuce_elevator_policy. rewrite Ecaller, Etarget. cbn [mbind option_bind negb].
    exists LETTUCE_STATUS_INVALID_SERVICE. split; [destruct k; [by case_match|done..]|].
    split; [done|]. intros r d []. congruence. }
  assert (kind_permission k ≠ LETTUCE_CAP_NONE) as Hperm by by destruct k.
  pose proof (λ r d, authorized_reads k m caller target entry b r d Ecaller Etarget Eentry
    ltac:(rewrite Hb; tauto)) as Hauth.
  clear Hb Hr Hh Ho Ht Hinv.
  unfold validate_call, lettuce_same_layer_validate, lettuce_cross_layer_validate, lettuce_elevator_policy.
  destruct k; cbn [negb kind_permission] in *; rewrite Ecaller, Etarget, Eentry, Eb;
    clear Ecaller Etarget Eentry Eb; cbn [mbind option_bind]; repeat case_goal; b2p.
  all: fire; first [congruence|refuse Hauth|accept Hauth].
Qed.

End facts.

(** ** The gates *)

(** The state the entry point of a resolved call starts in, and the state after
    its return. *)
Definition entered (r : LettuceCallResolution) (st : kstate) : kstate :=
  with_context (lettuce_context_enter (sd_id (res_target r)) (sd_domain (res_target r)) (ks_context st)).2 st.

Definition returned (r : LettuceCallResolution) (st st' : kstate) : kstate :=
  with_context (lettuce_context_leave
    (lettuce_context_enter (sd_id (res_target r)) (sd_domain (res_target r)) (ks_context st)).1
    (ks_context st')) st'.

Lemma enter_and_run_eq call_entry (r : LettuceCallResolution) (d : LettuceDispatchEntry) (st : kstate) :
  res_entry r = Some d → de_entry d ≠ NULL →
  enter_and_run call_entry r st =
  '(result, st') ← call_entry (de_entry d) (entered r st); Some (result, returned r st st').
Proof.
  intros Hr Hd. unfold enter_and_run, entered, returned. rewrite Hr. cbn [mbind option_bind].
  destruct (lettuce_context_enter _ _ _) as [prev c]. cbn [fst snd].
  by rewrite (proj2 (Z.eqb_neq _ _) Hd).
Qed.

(** Every gate is its validation followed by [enter_and_run]. *)
Lemma mediated_call_ok call_entry (k : call_kind) (m : LettuceCallMessage) r d (st : kstate) :
  validate_call k m st = Some (LETTUCE_STATUS_OK, Some r) → res_entry r = Some d → de_entry d ≠ NULL →
  mediated_call call_entry k m st =
  '(result, st') ← call_entry (de_entry d) (entered r st); Some (result, returned r st st').
Proof.
  intros Hv Hr Hd. rewrite <- enter_and_run_eq by done.
  destruct k; cbn in *; unfold lettuce_same_layer_call, lettuce_cross_layer_call, lettuce_elevator_call,
    lettuce_same_layer_gate, lettuce_cross_layer_gate, lettuce_elevator_gate; rewrite Hv; cbn; [|done..].
  by rewrite Hr, (proj2 (Z.eqb_neq _ _) Hd).
Qed.

Lemma mediated_call_refused call_entry (k : call_kind) (m : LettuceCallMessage) s o (st : kstate) :
  validate_call k m st = Some (s, o) → s ≠ LETTUCE_STATUS_OK → mediated_call call_entry k m st = Some (s, st).
Proof.
  intros Hv Hs. destruct k; cbn in *; unfold lettuce_same_layer_call, lettuce_cross_layer_call,
    lettuce_elevator_call, lettuce_same_layer_gate, lettuce_cross_layer_gate, lettuce_elevator_gate;
    rewrite Hv; by destruct s.
Qed.

Lemma mediated_call_unauthorized call_entry (k : call_kind) (m : LettuceCallMessage) (st : kstate) :
  kernel_inv st → message_wf m → (∀ r d, ¬ authorized k m st r d) →
  ∃ s, s ≠ LETTUCE_STATUS_OK ∧ mediated_call call_entry k m st = Some (s, st).
Proof.
  intros Hinv Hm Hno. destruct (validate_spec st Hinv k m Hm) as [(r & d & _ & Hau & _)|(s & Hv & Hs & _)].
  - by destruct (Hno r d).
  - exists s. split; [done|]. by eapply mediated_call_refused.
Qed.

(** The registry stores each descriptor under its own identifier. *)
Lemma lookup_id (i : Z) d t : lettuce_service_registry_lookup i t = Some (Some d) → sd_id d = i.
Proof.
  unfold lettuce_service_registry_lookup. intros H. case_match; [done|].
  destruct (arr_get t i) as [e|]; [|done]. cbn in H. case_match; b2p; by simplify_eq.
Qed.

(** What a run of a gate can return, without any assumption on the tables: the
    unchanged state, or a state whose context was restored. *)
Lemma enter_and_run_shape call_entry r s (st st' : kstate) :
  enter_and_run call_entry r st = Some (s, st') → ∃ st1, st' = returned r st st1.
Proof.
  unfold enter_and_run, returned. destruct (res_entry r) as [d|]; [|done]. cbn.
  destruct (lettuce_context_enter _ _ _) as [prev c]. case_match; [done|].
  destruct (call_entry _ _) as [[res st1]|]; [|done]. cbn. intros. simplify_eq. by exists st1.
Qed.

Lemma mediated_call_shape call_entry (k : call_kind) (m : LettuceCallMessage) s (st st' : kstate) :
  mediated_call call_entry k m st = Some (s, st') →
  st' = st ∨ ∃ r st1, st' = returned r st st1.
Proof.
  intros Hrun. destruct k; cbn [mediated_call] in Hrun;
    unfold lettuce_same_layer_call, lettuce_cross_layer_call, lettuce_elevator_call,
      lettuce_same_layer_gate, lettuce_cross_layer_gate, lettuce_elevator_gate in Hrun.
  1: destruct (lettuce_same_layer_validate _ _ _ _ _ _) as [[s1 o]|]; [|done].
  2: destruct (lettuce_cross_layer_validate _ _ _) as [[s1 o]|]; [|done].
  3: destruct (lettuce_elevator_policy _ _ _) as [[s1 o]|]; [|done].
  all: cbn in Hrun; destruct (negb (status_is_ok s1)); [simplify_eq; by left|].
  all: destruct o as [r|]; [|done]; cbn in Hrun.
  2-3: right; exists r; by eapply enter_and_run_shape.
  destruct (res_entry r) as [d|] eqn:Hd; [|simplify_eq; by left].
  destruct (de_entry d =? NULL); [simplify_eq; by left|].
  right; exists r; by eapply enter_and_run_shape.
Qed.

(** ** Claims *)

(** C6: complete mediation.  For every gate and every service code, a call either
    is authorised (an active registered caller, an active registered target in the
    layer relation of the gate, and a live capability of the running service for exactly
    this target, operation and resource with the permissions of the gate), and then the
    installed entry point runs as the target service, in the target's domain, over the
    otherwise unchanged kernel state, or it is refused with an error status, no service
    code runs and nothing changes. *)
Theorem mediation_is_complete `{!ProtectionLaws P} call_entry (k : call_kind) (m : LettuceCallMessage)
    (st : kstate) :
  kernel_inv st → message_wf m →
  (∃ r d st_in, authorized k m st r d ∧ de_entry d ≠ NULL ∧
     current_service_id (ks_context st_in) = target_service_id m ∧
     (domain_known (sd_domain (res_target r)) → sd_domain (res_target r) ≠ LETTUCE_DOMAIN_ID_INVALID →
      current_domain_id (ks_context st_in) = sd_domain (res_target r)) ∧
     ks_caps st_in = ks_caps st ∧ ks_registry st_in = ks_registry st ∧
     mediated_call call_entry k m st =
       '(result, st') ← call_entry (de_entry d) st_in; Some (result, returned r st st')) ∨
  ((∀ r d, ¬ authorized k m st r d) ∧
   ∃ s, s ≠ LETTUCE_STATUS_OK ∧ mediated_call call_entry k m st = Some (s, st)).
Proof.
  intros Hinv Hm. destruct (validate_spec st Hinv k m Hm) as [(r & d & Hv & Hau & Hd)|(s & Hv & Hs & Hno)].
  - left. exists r, d, (entered r st). split_and!; try done.
    + cbn. rewrite context_enter_service. by eapply lookup_id, au_target.
    + intros ? ?. by apply context_enter_domain.
    + apply mediated_call_ok; [done| |done]. by eapply au_resolution.
  - right. split; [done|]. exists s. split; [done|]. by eapply mediated_call_refused.
Qed.

(** C7: whatever service code a mediated call runs, and whatever nested calls that
    code makes, when the call returns the identity of the running service and the
    protection domain are those of the caller again. *)
Theorem mediated_call_restores_caller `{!ProtectionLaws P} call_entry (k : call_kind)
    (m : LettuceCallMessage) s (st st' : kstate) :
  domain_known (current_domain_id (ks_context st)) →
  mediated_call call_entry k m st = Some (s, st') →
  current_service_id (ks_context st') = current_service_id (ks_context st) ∧
  current_domain_id (ks_context st') = current_domain_id (ks_context st).
Proof.
  intros Hk [->|(r & st1 & ->)]%mediated_call_shape; [done|]. by apply context_leave_restores.
Qed.

(** The elevator grants no reach of its own: whatever it accepts, the same-layer
    gate (equal layers) or the cross-layer gate (different layers) accepts too, with the
    same caller, target and entry point. *)
Theorem elevator_accepts_no_more (m : LettuceCallMessage) r (st : kstate) :
  kernel_inv st → message_wf m →
  validate_call Elevator m st = Some (LETTUCE_STATUS_OK, Some r) →
  validate_call (if decide (sd_layer (res_caller r) = sd_layer (res_target r)) then SameLayer else CrossLayer)
    m st = Some (LETTUCE_STATUS_OK, Some r).
Proof.
  intros Hinv Hm Hv. set (k := if decide _ then _ else _).
  assert (authorized_weaken : ∀ d, authorized Elevator m st r d → authorized k m st r d).
  { intros d []. split; try done; [unfold k; by case_decide|].
    destruct au_capability0 as (e & He & ? & ? & ? & ? & Hp). exists e. split; [done|].
    split_and!; try done. apply land_subset_trans with (2 := eq_refl : _ .& LETTUCE_CAP_CALL = _) in Hp.
    unfold k. by case_decide. }
  destruct (validate_spec st Hinv Elevator m Hm) as [(r' & d & Hv' & Hau & _)|(s & Hv' & Hs & _)];
    simplify_eq.
  destruct (validate_spec st Hinv k m Hm) as [(r2 & d2 & Hv2 & Hau2 & _)|(s & _ & _ & Hno)];
    [|by destruct (Hno r d); apply authorized_weaken].
  rewrite Hv2. do 2 f_equal. destruct Hau, Hau2. destruct r, r2. cbn in *. congruence.
Qed.

(** C9: revocation is effective.  After a handle is revoked, and after any further
    sequence of fewer than 65534 capability calls, no gate accepts a message carrying
    it, whoever runs and whatever the registry holds: the call is refused, no service
    code runs and the state does not change. *)
Theorem revoked_capability_stops_calls call_entry (k : call_kind) (m : LettuceCallMessage)
    cs rs (caps caps1 : cap_state) (st : kstate) :
  kernel_inv st → message_wf m → cap_inv caps →
  lettuce_capability_revoke (capability_handle m) caps = Some (true, caps1) →
  cap_run cs caps1 = Some (rs, ks_caps st) → Z.of_nat (length cs) < 65534 →
  ∃ s, s ≠ LETTUCE_STATUS_OK ∧ mediated_call call_entry k m st = Some (s, st).
Proof.
  intros Hinv Hm Hcaps Hrev Hrun Hlen. apply mediated_call_unauthorized; [done..|].
  destruct (stale_undesignated _ _ _ _ _ _ Hcaps Hrev Hrun Hlen) as [_ Hno].
  intros r d Hau. destruct (au_capability _ _ _ _ _ Hau) as (e & He & _). by eapply Hno.
Qed.

End ipc.

Arguments kstate : clear implicits.

(** ** A concrete system

    Service 10 calls operation 1 of service 20 in the same layer with handle 65537;
    the handle carries the critical permission too. *)

Definition ipc_demo_calls : list reg_call :=
  [RegisterCall {| sd_id := 10; sd_layer := 3; sd_domain := 100; sd_flags := 1 |};
   RegisterCall display_descriptor; DispatchRegisterCall 20 1 4096].

Definition ipc_demo_registry : list LettuceServiceRegistryEntry := Eval vm_compute in
  match reg_run ipc_demo_calls registry_boot with Some (_, t) => t | None => registry_boot end.

Definition ipc_demo_caps : cap_state := Eval vm_compute in
  match lettuce_capability_create 10 20 1 33 7 cap_fresh with Some (_, st) => st | None => cap_fresh end.

Definition ipc_demo : kstate host_protection :=
  {| ks_context := {| g_current_service_id := 10; ctx_protection := {| g_current_domain := 100 |} |};
     ks_caps := ipc_demo_caps; ks_registry := ipc_demo_registry |}.

Definition ipc_demo_message : LettuceCallMessage :=
  {| target_service_id := 20; operation_id := 1; resource_id := 7; capability_handle := 65537 |}.

(** Service code that tries to keep the identity and domain it was given. *)
Definition ipc_demo_entry (entry : Z) (st : kstate host_protection)
    : option (LettuceStatus * kstate host_protection) :=
  Some (LETTUCE_STATUS_OK,
        {| ks_context := {| g_current_service_id := 99; ctx_protection := {| g_current_domain := 9 |} |};
           ks_caps := ks_caps st; ks_registry := ks_registry st |}).

Lemma ipc_demo_caps_eq : lettuce_capability_create 10 20 1 33 7 cap_fresh = Some (65537, ipc_demo_caps).
Proof. vm_compute. reflexivity. Qed.

Lemma ipc_demo_caps_inv : cap_inv ipc_demo_caps.
Proof. exact (create_keeps_inv _ _ _ _ _ _ _ _ cap_fresh_inv ipc_demo_caps_eq). Qed.

Lemma ipc_demo_registry_refines : ∃ a, reg_refines ipc_demo_registry a.
Proof.
  destruct (refine_reg_run ipc_demo_calls _ _ registry_boot_refines) as (t & Hrun & Href).
  { repeat constructor; unfold is_u32; cbn; lia. }
  exists (areg_run ipc_demo_calls areg_empty).2.
  assert (snd <$> reg_run ipc_demo_calls registry_boot = Some ipc_demo_registry) as Hsnd by (vm_compute; reflexivity).
  rewrite Hrun in Hsnd. injection Hsnd as <-. exact Href.
Qed.

Lemma ipc_demo_inv : kernel_inv ipc_demo.
Proof.
  split; [exact ipc_demo_caps_inv|exact ipc_demo_registry_refines|]. unfold is_u32. cbn. lia.
Qed.

Lemma ipc_demo_message_wf : message_wf ipc_demo_message.
Proof. unfold message_wf, is_u32. cbn. lia. Qed.

Lemma ipc_demo_validates : ∃ r, validate_call Elevator ipc_demo_message ipc_demo =
  Some (LETTUCE_STATUS_OK, Some r) ∧ sd_layer (res_caller r) = sd_layer (res_target r).
Proof. eexists. vm_compute. split; reflexivity. Qed.

Lemma mediation_is_complete_witness :
  mediated_call ipc_demo_entry SameLayer ipc_demo_message ipc_demo = Some (LETTUCE_STATUS_OK, ipc_demo).
Proof.
  destruct (mediation_is_complete ipc_demo_entry SameLayer ipc_demo_message ipc_demo
    ipc_demo_inv ipc_demo_message_wf) as [(r & d & st_in & _ & _ & _ & _ & Hc & Hr & Hrun)|[_ (s & Hs & Hrun)]].
  - rewrite Hrun. unfold ipc_demo_entry, returned, with_context, lettuce_context_leave.
    cbn [mbind option_bind ks_caps ks_registry ks_context]. rewrite Hc, Hr, context_enter_saved. reflexivity.
  - exfalso. apply Hs.
    assert (fst <$> mediated_call ipc_demo_entry SameLayer ipc_demo_message ipc_demo =
            Some LETTUCE_STATUS_OK) as Hok by (vm_compute; reflexivity).
    rewrite Hrun in Hok. cbn in Hok. congruence.
Defined.

Lemma mediated_call_restores_caller_witness :
  ∃ st', mediated_call ipc_demo_entry SameLayer ipc_demo_message ipc_demo =
           Some (LETTUCE_STATUS_OK, st') ∧
    current_service_id (ks_context st') = 10 ∧ current_domain_id (ks_context st') = 100.
Proof.
  exists ipc_demo. assert (mediated_call ipc_demo_entry SameLayer ipc_demo_message ipc_demo =
    Some (LETTUCE_STATUS_OK, ipc_demo)) as Hrun by (vm_compute; reflexivity).
  split; [exact Hrun|].
  exact (mediated_call_restores_caller ipc_demo_entry SameLayer ipc_demo_message _ _ _ I Hrun).
Defined.

Lemma elevator_accepts_no_more_witness :
  ∃ r, validate_call SameLayer ipc_demo_message ipc_demo = Some (LETTUCE_STATUS_OK, Some r).
Proof.
  destruct ipc_demo_validates as (r & Hv & Hl). exists r.
  pose proof (elevator_accepts_no_more ipc_demo_message r ipc_demo ipc_demo_inv ipc_demo_message_wf Hv) as H.
  rewrite decide_True in H by exact Hl. exact H.
Defined.

Lemma revoked_capability_stops_calls_witness :
  ∃ caps1 s, lettuce_capability_revoke 65537 ipc_demo_caps = Some (true, caps1) ∧ s ≠ LETTUCE_STATUS_OK ∧
    mediated_call ipc_demo_entry SameLayer ipc_demo_message
      {| ks_context := ks_context ipc_demo; ks_caps := caps1; ks_registry := ipc_demo_registry |} =
    Some (s, {| ks_context := ks_context ipc_demo; ks_caps := caps1; ks_registry := ipc_demo_registry |}).
Proof.
  pose proof (ki_caps _ ipc_demo_inv) as Hcaps.
  destruct (cap_exec_inv (RevokeCall 65537) ipc_demo_caps Hcaps) as (res & caps1 & Hx & Hinv1).
  cbn [cap_exec] in Hx.
  destruct (lettuce_capability_revoke 65537 ipc_demo_caps) as [[b c]|] eqn:Hrev; [|discriminate].
  assert (b = true) as ->.
  { assert (fst <$> lettuce_capability_revoke 65537 ipc_demo_caps = Some true) as Hb
      by (vm_compute; reflexivity). rewrite Hrev in Hb. cbn in Hb. congruence. }
  cbn in Hx. injection Hx as _ ->.
  destruct (revoked_capability_stops_calls ipc_demo_entry SameLayer ipc_demo_message [] [] ipc_demo_caps caps1
    {| ks_context := ks_context ipc_demo; ks_caps := caps1; ks_registry := ipc_demo_registry |})
    as (s & Hs & Hrun).
  - split; [exact Hinv1|exact (ki_registry _ ipc_demo_inv)|exact (ki_current _ ipc_demo_inv)].
  - exact ipc_demo_message_wf.
  - exact Hcaps.
  - exact Hrev.
  - reflexivity.
  - reflexivity.
  - exists caps1, s. split; [reflexivity|]. split; [exact Hs|exact Hrun].
Defined.
