(* ===== verification/Memory.v ===== *)
(** * The page allocator: [memory/allocator/fixed.c]

    64 pages of 4096 bytes.  Every page has its own [Allocation] record; a block of
    [n] pages is [n] equal records.  [size_t] is 64 bits, the fields are 16 and 32
    bits wide.  The bytes of the pool are never touched by the allocator: a pointer
    into it is its byte offset. *)

From S2P Require Import Prelude Types Generation.

Definition LETTUCE_MEMORY_HANDLE_INVALID : Z := 0.
Definition LETTUCE_MEMORY_PAGE_SIZE : Z := 4096.
Definition LETTUCE_MEMORY_POOL_SIZE : Z := 64 * LETTUCE_MEMORY_PAGE_SIZE.
Definition ALLOC_SLOT_MASK : Z := 65535.
Definition ALLOC_GENERATION_SHIFT : Z := 16.
Definition UINT16_MAX : Z := 65535.

Module Memory.

(** ** State *)

Record Allocation := {
  first_page : Z;
  page_count : Z;
  domain : Z;
  generation : Z;
  active : bool;
  reserved : Z
}.

Definition allocation_with_generation (gen : Z) : Allocation :=
  {| first_page := 0; page_count := 0; domain := 0; generation := gen; active := false; reserved := 0 |}.

(** [sizeof(allocations) / sizeof(allocations[0])] *)
Definition total_pages : Z := LETTUCE_MEMORY_POOL_SIZE / LETTUCE_MEMORY_PAGE_SIZE.

(** The static [allocations], zero at boot. *)
Definition memory_boot : list Allocation :=
  replicate (Z.to_nat total_pages) (allocation_with_generation 0).

(** ** Operations *)

Definition decode_handle (handle : Z) : option (Z * Z) :=
  if (handle =? LETTUCE_MEMORY_HANDLE_INVALID) || (handle .& ALLOC_SLOT_MASK =? 0) then None else
  let first_page := u32 (handle .& ALLOC_SLOT_MASK - 1) in
  let generation := u16 (handle .>> ALLOC_GENERATION_SHIFT) in
  if first_page <? total_pages then Some (first_page, generation) else None.

Definition lettuce_memory_init (allocations : list Allocation)
    : option (LettuceStatus * list Allocation) :=
  a ← for_range (Z.to_nat total_pages) 0
        (λ i a,
           x ← arr_get a i;
           let gen := if generation x =? 0 then 1 else generation x in
           arr_set a i (allocation_with_generation gen)) allocations;
  Some (LETTUCE_STATUS_OK, a).

(** The scan of [pages] pages from [start]: [free_span]. *)
Definition free_span (start pages : Z) (allocations : list Allocation) : option bool :=
  f ← for_flow (Z.to_nat pages) 0
        (λ page (_ : unit),
           x ← arr_get allocations (start + page);
           Some (if active x then Break tt else @Next unit unit tt)) tt;
  Some (match f with Break _ => false | _ => true end).

(** The stores of a new block. *)
Definition fill_span (start pages : Z) (alloc : Allocation) (allocations : list Allocation)
    : option (list Allocation) :=
  for_range (Z.to_nat pages) 0 (λ page a, arr_set a (start + page) alloc) allocations.

(** [handle_ptr] is [false] for a [NULL] handle pointer; the second component is the
    value stored through it. *)
Definition lettuce_memory_allocate (dom size : Z) (handle_ptr : bool) (allocations : list Allocation)
    : option (LettuceStatus * option Z * list Allocation) :=
  if (dom =? LETTUCE_DOMAIN_ID_INVALID) || (size =? 0) || negb handle_ptr
  then Some (LETTUCE_STATUS_INVALID_ARGUMENT, None, allocations) else
  let pages := u64 (u64 (size + LETTUCE_MEMORY_PAGE_SIZE) - 1) / LETTUCE_MEMORY_PAGE_SIZE in
  if UINT16_MAX <? pages then Some (LETTUCE_STATUS_OVERFLOW, None, allocations) else
  f ← for_flow (Z.to_nat (total_pages - pages + 1)) 0
        (λ start a,
           free ← free_span start pages a;
           if negb free then Some (Next a) else
           head ← arr_get a start;
           let gen := if generation head =? 0 then 1 else generation head in
           let alloc := {| first_page := u16 start; page_count := u16 pages; domain := dom;
                           generation := gen; active := true; reserved := 0 |} in
           a' ← fill_span start pages alloc a;
           Some (Return (u32 (gen .<< ALLOC_GENERATION_SHIFT) .| u32 (start + 1)) a')) allocations;
  match f with
  | Return handle a => Some (LETTUCE_STATUS_OK, Some handle, a)
  | Next a | Break a => Some (LETTUCE_STATUS_UNAVAILABLE, None, a)
  end.

Definition lettuce_memory_release (handle dom : Z) (allocations : list Allocation)
    : option (LettuceStatus * list Allocation) :=
  if dom =? LETTUCE_DOMAIN_ID_INVALID then Some (LETTUCE_STATUS_INVALID_ARGUMENT, allocations) else
  match decode_handle handle with
  | None => Some (LETTUCE_STATUS_INVALID_ARGUMENT, allocations)
  | Some (start, gen) =>
      x ← arr_get allocations start;
      if negb (active x) || negb (generation x =? gen) then Some (LETTUCE_STATUS_NOT_FOUND, allocations) else
      if negb (first_page x =? start) then Some (LETTUCE_STATUS_NOT_FOUND, allocations) else
      if negb (domain x =? dom) then Some (LETTUCE_STATUS_DENIED, allocations) else
      a ← fill_span start (page_count x) (allocation_with_generation (gen_next (generation x))) allocations;
      Some (LETTUCE_STATUS_OK, a)
  end.

(** [Some None] is [NULL], [Some (Some off)] is [&memory_pool[off]]. *)
Definition lettuce_memory_data (handle dom : Z) (allocations : list Allocation) : option (option Z) :=
  if dom =? LETTUCE_DOMAIN_ID_INVALID then Some None else
  match decode_handle handle with
  | None => Some None
  | Some (start, gen) =>
      x ← arr_get allocations start;
      if negb (active x) || negb (generation x =? gen) then Some None else
      if negb (first_page x =? start) then Some None else
      if negb (domain x =? dom) then Some None else
      Some (Some (start * LETTUCE_MEMORY_PAGE_SIZE))
  end.

(** ** Call sequences *)

Inductive mem_call :=
  | InitCall
  | AllocateCall (dom size : Z)
  | ReleaseCall (handle dom : Z).

Definition mem_exec (c : mem_call) (a : list Allocation)
    : option (LettuceStatus * option Z * list Allocation) :=
  match c with
  | InitCall => '(s, a') ← lettuce_memory_init a; Some (s, None, a')
  | AllocateCall d n => lettuce_memory_allocate d n true a
  | ReleaseCall h d => '(s, a') ← lettuce_memory_release h d a; Some (s, None, a')
  end.

Fixpoint mem_run (cs : list mem_call) (a : list Allocation)
    : option (list (LettuceStatus * option Z) * list Allocation) :=
  match cs with
  | [] => Some ([], a)
  | c :: cs' =>
      '(s, h, a1) ← mem_exec c a;
      '(rs, a2) ← mem_run cs' a1;
      Some ((s, h) :: rs, a2)
  end.

(** ** The invariant *)

(** Page [p] holds record [x]: a free page carries nothing but a generation; a page
    of a block lies inside it, and every page of the block holds the same record. *)
Definition page_ok (a : list Allocation) (p : Z) (x : Allocation) : Prop :=
  gen_ok (generation x) ∧
  if active x
  then first_page x ≤ p < first_page x + page_count x ∧ 0 ≤ first_page x ∧
       first_page x + page_count x ≤ total_pages ∧ domain x ≠ LETTUCE_DOMAIN_ID_INVALID ∧ reserved x = 0 ∧
       ∀ q, first_page x ≤ q < first_page x + page_count x → arr_get a q = Some x
  else x = allocation_with_generation (generation x).

Record mem_inv (a : list Allocation) : Prop := {
  mi_len : Z.of_nat (length a) = total_pages;
  mi_page : ∀ p x, arr_get a p = Some x → page_ok a p x
}.

(** The block a handle designates. *)
Definition mem_block (a : list Allocation) (h : Z) (x : Allocation) : Prop :=
  ∃ start gen, decode_handle h = Some (start, gen) ∧ arr_get a start = Some x ∧
    active x = true ∧ generation x = gen ∧ first_page x = start.

#[export] Instance mem_block_dec (a : list Allocation) (h d : Z) :
  Decision (∃ x, mem_block a h x ∧ domain x = d).
Proof.
  destruct (decode_handle h) as [[start gen]|] eqn:Hd;
    [|right; intros (x & (start & gen & ? & _) & _); congruence].
  destruct (arr_get a start) as [x|] eqn:Hx;
    [|right; intros (x & (start' & gen' & ? & ? & _) & _); congruence].
  destruct (decide (active x = true ∧ generation x = gen ∧ first_page x = start ∧ domain x = d)) as [Hy|Hn].
  - left. exists x. split; [exists start, gen|]; tauto.
  - right. intros (x' & (start' & gen' & ? & ? & ? & ? & ?) & ?). apply Hn. simplify_eq. done.
Defined.

(** The pages of a span are all free. *)
Definition span_free (a : list Allocation) (start pages : Z) : Prop :=
  ∀ p, start ≤ p < start + pages → ∃ x, arr_get a p = Some x ∧ active x = false.

(** ** Loops over a span *)

Section span.
Context (a : list Allocation) (start pages : Z).
Context (Hstart : 0 ≤ start) (Hpages : 0 ≤ pages) (Hend : start + pages ≤ Z.of_nat (length a)).

Lemma free_span_spec :
  ∃ b, free_span start pages a = Some b ∧ (b = true ↔ span_free a start pages).
Proof using Hstart Hpages Hend.
  unfold free_span, span_free.
  destruct (for_flow_inv (λ k (_ : unit), ∀ p, start ≤ p < start + k → ∃ x, arr_get a p = Some x ∧ active x = false)
    (λ f : flow unit unit, match f with
       | Next _ => span_free a start pages
       | Break _ => ∃ p x, start ≤ p < start + pages ∧ arr_get a p = Some x ∧ active x = true
       | Return _ _ => False end) (Z.to_nat pages) 0
    (λ page (_ : unit), x ← arr_get a (start + page);
       Some (if active x then Break tt else @Next unit unit tt)) tt) as (f & -> & Hf).
  - intros; lia.
  - intros k _ Hk Hpre. destruct (arr_get_is_Some a (start + k)) as [x Hx]; [lia|]. rewrite Hx. cbn.
    destruct (active x) eqn:Ha; eexists; (split; [done|]).
    + exists (start + k), x. split_and!; [lia..|done|done].
    + intros p Hp. destruct (decide (p = start + k)) as [->|]; [eauto|]. apply Hpre. lia.
  - intros _ Hall. intros p Hp. apply Hall. lia.
  - cbn. eexists. split; [done|]. destruct f as [?|?|? ?]; [done| |done].
    split; [done|]. intros Hfree. destruct Hf as (p & x & Hp & Hx & Ha).
    destruct (Hfree p Hp) as (y & Hy & Hb). congruence.
Qed.

Lemma fill_span_spec (alloc : Allocation) :
  ∃ a', fill_span start pages alloc a = Some a' ∧ length a' = length a ∧
    ∀ p, arr_get a' p = if decide (start ≤ p < start + pages) then Some alloc else arr_get a p.
Proof using Hstart Hpages Hend.
  unfold fill_span.
  destruct (for_range_inv (λ k b, length b = length a ∧
      ∀ p, arr_get b p = if decide (start ≤ p < start + k) then Some alloc else arr_get a p)
    (Z.to_nat pages) 0 (λ page a, arr_set a (start + page) alloc) a) as (a' & -> & Hlen & Hget).
  - split; [done|]. intros p. by rewrite decide_False by lia.
  - intros k b Hk [Hlen Hget]. rewrite arr_set_Some by lia. eexists. split; [done|].
    rewrite length_insert. split; [done|]. intros p. rewrite arr_get_insert by lia. rewrite Hget.
    repeat case_decide; try done; lia.
  - exists a'. split_and!; [done..|]. intros p. rewrite Hget. by rewrite Z.add_0_l, Z2Nat.id by done.
Qed.

End span.

(** ** Sizes *)

(** The number of pages a request asks for, when [size + 4095] does not wrap. *)
Definition pages_for (size : Z) : Z := (size + 4095) / 4096.

Lemma pages_exact (size : Z) :
  0 < size ≤ 2 ^ 64 - 4096 →
  u64 (u64 (size + LETTUCE_MEMORY_PAGE_SIZE) - 1) / LETTUCE_MEMORY_PAGE_SIZE = pages_for size ∧
  1 ≤ pages_for size ∧ size ≤ pages_for size * 4096 < size + 4096.
Proof.
  intros Hs. unfold u64, LETTUCE_MEMORY_PAGE_SIZE, pages_for.
  rewrite Zminus_mod_idemp_l. rewrite Z.mod_small by lia.
  replace (size + 4096 - 1) with (size + 4095) by lia. split; [done|].
  pose proof (Z.div_mod (size + 4095) 4096). pose proof (Z.mod_pos_bound (size + 4095) 4096). lia.
Qed.

Lemma pages_wrapped (size : Z) :
  2 ^ 64 - 4096 < size < 2 ^ 64 →
  u64 (u64 (size + LETTUCE_MEMORY_PAGE_SIZE) - 1) / LETTUCE_MEMORY_PAGE_SIZE = 0.
Proof.
  intros Hs. unfold u64, LETTUCE_MEMORY_PAGE_SIZE. rewrite Zminus_mod_idemp_l.
  replace (size + 4096 - 1) with (size - (2 ^ 64 - 4095) + 1 * 2 ^ 64) by lia.
  rewrite Z.mod_add, Z.mod_small by lia. apply Z.div_small. lia.
Qed.

Lemma pages_nonneg (size : Z) :
  0 ≤ u64 (u64 (size + LETTUCE_MEMORY_PAGE_SIZE) - 1) / LETTUCE_MEMORY_PAGE_SIZE.
Proof. apply Z.div_pos; [apply u64_range|done]. Qed.

(** ** Handles *)

Lemma memory_handle_pack (start gen : Z) :
  0 ≤ start < total_pages → is_u16 gen →
  u32 (gen .<< ALLOC_GENERATION_SHIFT) .| u32 (start + 1) = pack gen (start + 1).
Proof. change total_pages with 64. intros. apply pack_words; [lia|done]. Qed.

Lemma memory_decode_pack (start gen : Z) :
  0 ≤ start < total_pages → is_u16 gen → decode_handle (pack gen (start + 1)) = Some (start, gen).
Proof.
  intros Hs Hg. destruct (pack_slot start gen) as (H0 & Hf & Hsl & Hgen);
    [change total_pages with 64 in Hs; lia|done|].
  unfold decode_handle, ALLOC_SLOT_MASK, ALLOC_GENERATION_SHIFT, LETTUCE_MEMORY_HANDLE_INVALID.
  rewrite Hsl, Hgen, Hf, (proj2 (Z.eqb_neq _ _) H0), (proj2 (Z.eqb_neq (start + 1) 0)) by lia.
  by rewrite (proj2 (Z.ltb_lt _ _)) by lia.
Qed.

Lemma memory_decode_range (h start gen : Z) :
  decode_handle h = Some (start, gen) → 0 ≤ start < total_pages ∧ is_u16 gen.
Proof.
  unfold decode_handle. intros H. repeat case_match; simplify_eq. b2p.
  split; [|apply u16_range]. split; [|done]. apply u32_range.
Qed.

Lemma memory_decode_inj (h1 h2 start gen : Z) :
  is_u32 h1 → is_u32 h2 → decode_handle h1 = Some (start, gen) → decode_handle h2 = Some (start, gen) → h1 = h2.
Proof.
  intros H1 H2.
  assert (∀ h, is_u32 h → decode_handle h = Some (start, gen) → h = pack gen (start + 1)) as Hd.
  { intros h Hh. unfold decode_handle. intros H. repeat case_match; simplify_eq. b2p.
    by destruct (unpack_slot h) as [_ ?]. }
  intros ->%Hd ->%Hd; done.
Qed.

(** ** Allocation *)

Definition block (start pages dom gen : Z) : Allocation :=
  {| first_page := start; page_count := pages; domain := dom; generation := gen; active := true; reserved := 0 |}.

(** The table with [x] written over a span. *)
Definition span_written (a : list Allocation) (start pages : Z) (x : Allocation) (a' : list Allocation) : Prop :=
  length a' = length a ∧
  ∀ p, arr_get a' p = if decide (start ≤ p < start + pages) then Some x else arr_get a p.

Lemma free_head (a : list Allocation) (start : Z) (x : Allocation) :
  mem_inv a → arr_get a start = Some x → gen_ok (generation x).
Proof. intros Hinv Hx. apply (mi_page _ Hinv _ _ Hx). Qed.

(** First fit: the lowest free span, or none. *)
Definition first_fit (a : list Allocation) (pages start : Z) : Prop :=
  0 ≤ start ∧ start + pages ≤ total_pages ∧ span_free a start pages ∧
  ∀ s, 0 ≤ s < start → ¬ span_free a s pages.

Lemma allocate_search (a : list Allocation) (dom size pages : Z) :
  mem_inv a → dom ≠ LETTUCE_DOMAIN_ID_INVALID → size ≠ 0 →
  u64 (u64 (size + LETTUCE_MEMORY_PAGE_SIZE) - 1) / LETTUCE_MEMORY_PAGE_SIZE = pages →
  1 ≤ pages ≤ UINT16_MAX →
  (∃ start head a', first_fit a pages start ∧ arr_get a start = Some head ∧
     lettuce_memory_allocate dom size true a =
       Some (LETTUCE_STATUS_OK, Some (pack (generation head) (start + 1)), a') ∧
     span_written a start pages (block start pages dom (generation head)) a') ∨
  ((∀ s, 0 ≤ s → s + pages ≤ total_pages → ¬ span_free a s pages) ∧
   lettuce_memory_allocate dom size true a = Some (LETTUCE_STATUS_UNAVAILABLE, None, a)).
Proof.
  intros Hinv Hdom Hsize Hpages Hp. pose proof (mi_len _ Hinv) as Hlen.
  unfold lettuce_memory_allocate.
  rewrite (proj2 (Z.eqb_neq _ _) Hdom), (proj2 (Z.eqb_neq _ _) Hsize), Hpages. cbn [orb negb].
  rewrite (proj2 (Z.ltb_ge _ _)) by lia.
  match goal with |- context [for_flow ?n 0 ?body a] =>
    destruct (for_flow_inv (λ k b, b = a ∧ ∀ s, 0 ≤ s < k → ¬ span_free a s pages)
      (λ f, match f with
       | Next b => b = a ∧ ∀ s, 0 ≤ s → s + pages ≤ total_pages → ¬ span_free a s pages
       | Break _ => False
       | Return h b => ∃ start head, first_fit a pages start ∧ arr_get a start = Some head ∧
           h = pack (generation head) (start + 1) ∧
           span_written a start pages (block start pages dom (generation head)) b end) n 0 body a)
      as (f & -> & Hf)
  end.
  - split; [done|]. intros; lia.
  - intros k b Hk [-> Hpre]. change total_pages with 64 in *.
    assert (0 ≤ k ∧ k + pages ≤ 64) as Hk' by lia.
    destruct (free_span_spec a k pages) as (free & -> & Hfree); [lia..|]. cbn [mbind option_bind].
    destruct free; cbn [negb].
    + destruct (proj1 Hfree eq_refl k) as (head & Hhead & _); [lia|]. rewrite Hhead. cbn [mbind option_bind].
      pose proof (free_head _ _ _ Hinv Hhead) as Hg. unfold gen_ok in Hg.
      rewrite (proj2 (Z.eqb_neq _ _)) by lia. rewrite !u16_small by (unfold is_u16, UINT16_MAX in *; lia).
      destruct (fill_span_spec a k pages ltac:(lia) ltac:(lia) ltac:(lia) (block k pages dom (generation head)))
        as (a' & Ha' & Hlen' & Hget').
      unfold block in Ha'. rewrite Ha'. cbn [mbind option_bind]. eexists. split; [done|]. exists k, head.
      split; [split; [lia|]; split; [change total_pages with 64; lia|by split; [apply Hfree|]]|].
      split; [done|]. split; [|done].
      apply memory_handle_pack; [change total_pages with 64; lia|by apply gen_ok_u16].
    + eexists. split; [done|]. cbn. split; [done|]. intros s Hs. destruct (decide (s = k)) as [->|].
      * intros H%Hfree. done.
      * apply Hpre. lia.
  - intros b [-> Hall]. split; [done|]. intros s Hs1 Hs2. apply Hall. lia.
  - cbn [mbind option_bind]. destruct f as [b|b|h b]; [|done|].
    + right. destruct Hf as [-> Hnone]. done.
    + left. destruct Hf as (start & head & Hff & Hhead & -> & Hw). exists start, head, b. done.
Qed.

(** Writing a block over a free span keeps the invariant. *)
Lemma block_keeps_inv (a a' : list Allocation) (start pages dom gen : Z) :
  mem_inv a → 0 ≤ start → start + pages ≤ total_pages → dom ≠ LETTUCE_DOMAIN_ID_INVALID → gen_ok gen →
  span_free a start pages → span_written a start pages (block start pages dom gen) a' → mem_inv a'.
Proof.
  intros Hinv Hs Hend Hdom Hg Hfree [Hlen Hget]. split; [rewrite Hlen; apply Hinv|].
  intros p x Hx. rewrite Hget in Hx. case_decide as Hp.
  - injection Hx as <-. split; [done|]. cbn. split_and!; try done; try lia.
    intros q Hq. rewrite Hget. by rewrite decide_True.
  - destruct (mi_page _ Hinv _ _ Hx) as [Hgx Hok]. split; [done|].
    destruct (active x) eqn:Ha; [|done]. destruct Hok as (H1 & H2 & H3 & H4 & H5 & Hall).
    split_and!; try done; try lia. intros q Hq. rewrite Hget. case_decide as Hqs; [|by apply Hall].
    destruct (Hfree q Hqs) as (y & Hy & Hya). rewrite (Hall q Hq) in Hy. congruence.
Qed.

(** Freeing a whole block keeps the invariant. *)
Lemma release_keeps_inv (a a' : list Allocation) (p0 gen : Z) (x : Allocation) :
  mem_inv a → arr_get a p0 = Some x → active x = true → gen_ok gen →
  span_written a (first_page x) (page_count x) (allocation_with_generation gen) a' → mem_inv a'.
Proof.
  intros Hinv Hx Ha Hg [Hlen Hget]. split; [rewrite Hlen; apply Hinv|].
  destruct (mi_page _ Hinv _ _ Hx) as [_ Hblock]. rewrite Ha in Hblock.
  destruct Hblock as (_ & _ & _ & _ & _ & Hblock).
  intros p y Hy. rewrite Hget in Hy. case_decide as Hp; [by injection Hy as <-|].
  destruct (mi_page _ Hinv _ _ Hy) as [Hgy Hok]. split; [done|].
  destruct (active y) eqn:Hay; [|done]. destruct Hok as (H1 & H2 & H3 & H4 & H5 & Hall).
  split_and!; try done; try lia. intros q Hq. rewrite Hget. case_decide as Hqs; [|by apply Hall].
  specialize (Hblock q Hqs). specialize (Hall q Hq). by simplify_eq.
Qed.

(** ** Release *)

(** Which status a release returns, from the page its handle names. *)
Lemma release_refused (a : list Allocation) (h dom : Z) :
  mem_inv a → (∀ x, mem_block a h x → domain x ≠ dom) →
  ∃ s, lettuce_memory_release h dom a = Some (s, a) ∧ s ≠ LETTUCE_STATUS_OK ∧
       lettuce_memory_data h dom a = Some None.
Proof.
  intros Hinv Hno. unfold lettuce_memory_release, lettuce_memory_data.
  destruct (dom =? LETTUCE_DOMAIN_ID_INVALID); [eauto|].
  destruct (decode_handle h) as [[start gen]|] eqn:Hd; [|eauto].
  destruct (arr_get_is_Some a start) as [x Hx].
  { rewrite (mi_len _ Hinv). by apply (memory_decode_range h start gen). }
  rewrite Hx. cbn [mbind option_bind].
  destruct (negb (active x) || negb (generation x =? gen)) eqn:H1; [eauto|].
  destruct (negb (first_page x =? start)) eqn:H2; [eauto|].
  destruct (negb (domain x =? dom)) eqn:H3; [eauto|]. b2p.
  exfalso. apply (Hno x); [|done]. by exists start, gen.
Qed.

Lemma release_served (a : list Allocation) (h : Z) (x : Allocation) :
  mem_inv a → mem_block a h x →
  ∃ a', lettuce_memory_release h (domain x) a = Some (LETTUCE_STATUS_OK, a') ∧
    lettuce_memory_data h (domain x) a = Some (Some (first_page x * LETTUCE_MEMORY_PAGE_SIZE)) ∧
    span_written a (first_page x) (page_count x) (allocation_with_generation (gen_next (generation x))) a' ∧
    mem_inv a'.
Proof.
  intros Hinv (start & gen & Hd & Hx & Ha & <- & <-).
  destruct (mi_page _ Hinv _ _ Hx) as [Hg Hok]. rewrite Ha in Hok.
  destruct Hok as (H1 & H2 & H3 & H4 & H5 & Hall).
  unfold lettuce_memory_release, lettuce_memory_data. rewrite (proj2 (Z.eqb_neq _ _) H4), Hd, Hx.
  cbn [mbind option_bind]. rewrite Ha, !Z.eqb_refl. cbn [negb orb].
  destruct (fill_span_spec a (first_page x) (page_count x) ltac:(lia) ltac:(lia)
    ltac:(rewrite (mi_len _ Hinv); lia) (allocation_with_generation (gen_next (generation x))))
    as (a' & -> & Hw). exists a'. split_and!; [done|done|done|].
  eapply release_keeps_inv; [done|done|done| |done]. by apply gen_next_ok.
Qed.

(** ** Initialisation *)

Lemma memory_init_keeps (a : list Allocation) :
  Z.of_nat (length a) = total_pages → (∀ p x, arr_get a p = Some x → is_u16 (generation x)) →
  ∃ a', lettuce_memory_init a = Some (LETTUCE_STATUS_OK, a') ∧ mem_inv a' ∧
    ∀ p x, arr_get a' p = Some x → active x = false.
Proof.
  intros Hlen Hgen. unfold lettuce_memory_init.
  match goal with |- context [for_range ?n 0 ?body a] =>
    destruct (for_range_inv (λ k b, Z.of_nat (length b) = total_pages ∧
        (∀ p x, arr_get b p = Some x → is_u16 (generation x)) ∧
        ∀ p, 0 ≤ p < k → ∃ g, gen_ok g ∧ arr_get b p = Some (allocation_with_generation g)) n 0 body a)
      as (a' & -> & Hlen' & _ & Hall)
  end.
  - split_and!; [done|done|]. intros; lia.
  - intros k b Hk (Hl & Hg & Hpre). change total_pages with 64 in *.
    destruct (arr_get_is_Some b k) as [x Hx]; [lia|]. rewrite Hx. cbn [mbind option_bind].
    rewrite arr_set_Some by lia. eexists. split; [done|].
    assert (gen_ok (if generation x =? 0 then 1 else generation x)) as Hgx.
    { specialize (Hg _ _ Hx). unfold is_u16, gen_ok in *. case_match; b2p; lia. }
    split_and!.
    + by rewrite length_insert.
    + intros p y. rewrite arr_get_insert by lia. case_decide; [|apply Hg].
      intros [= <-]. by apply gen_ok_u16.
    + intros p Hp. rewrite arr_get_insert by lia. case_decide; [eauto|]. apply Hpre. lia.
  - assert (∀ p x, arr_get a' p = Some x → ∃ g, gen_ok g ∧ x = allocation_with_generation g) as Hfresh.
    { intros p x Hx. pose proof (arr_get_Some_range _ _ _ Hx) as Hr. rewrite Hlen' in Hr.
      destruct (Hall p) as (g & ? & ?); [change total_pages with 64 in *; lia|]. simplify_eq. eauto. }
    exists a'. split_and!; [done| |].
    + split; [done|]. intros p x (g & Hg & ->)%Hfresh. done.
    + by intros p x (g & Hg & ->)%Hfresh.
Qed.

(** ** Every call keeps the invariant *)

Lemma allocate_wrapped (a : list Allocation) (dom size : Z) :
  mem_inv a → dom ≠ LETTUCE_DOMAIN_ID_INVALID → 2 ^ 64 - 4096 < size < 2 ^ 64 →
  ∃ head, arr_get a 0 = Some head ∧
    lettuce_memory_allocate dom size true a = Some (LETTUCE_STATUS_OK, Some (pack (generation head) 1), a).
Proof.
  intros Hinv Hdom Hsize.
  destruct (arr_get_is_Some a 0) as [head Hhead]; [rewrite (mi_len _ Hinv); done|].
  exists head. split; [done|]. unfold lettuce_memory_allocate. rewrite pages_wrapped by done.
  rewrite (proj2 (Z.eqb_neq _ _) Hdom), (proj2 (Z.eqb_neq size 0)) by lia. cbn [orb negb].
  change (Z.to_nat (total_pages - 0 + 1)) with (S (Z.to_nat total_pages)).
  cbn [for_flow]. change (free_span 0 0 a) with (Some true). cbn [mbind option_bind negb].
  rewrite Hhead. cbn [mbind option_bind].
  pose proof (free_head _ _ _ Hinv Hhead) as Hg. rewrite (proj2 (Z.eqb_neq _ _)) by (unfold gen_ok in Hg; lia).
  match goal with |- context [fill_span 0 0 ?x a] => change (fill_span 0 0 x a) with (Some a) end.
  cbn [mbind option_bind]. do 4 f_equal. apply (memory_handle_pack 0); [done|by apply gen_ok_u16].
Qed.

Lemma allocate_keeps_inv (a : list Allocation) (dom size : Z) :
  mem_inv a → is_u64 size →
  ∃ s h a', lettuce_memory_allocate dom size true a = Some (s, h, a') ∧ mem_inv a'.
Proof.
  intros Hinv Hsize. unfold is_u64 in Hsize.
  destruct (decide (dom = LETTUCE_DOMAIN_ID_INVALID ∨ size = 0)) as [Hbad|Hok].
  { exists LETTUCE_STATUS_INVALID_ARGUMENT, None, a. split; [|done]. unfold lettuce_memory_allocate.
    by destruct Hbad as [-> | ->]; rewrite ?Z.eqb_refl, ?orb_true_r. }
  destruct (decide (2 ^ 64 - 4096 < size)) as [Hwrap|Hnowrap].
  { destruct (allocate_wrapped a dom size) as (head & _ & ->); [done|tauto|lia|]. eauto. }
  destruct (pages_exact size) as (Hpages & H1 & _); [lia|].
  destruct (decide (pages_for size ≤ UINT16_MAX)) as [Hle|Hgt].
  - destruct (allocate_search a dom size (pages_for size)) as
      [(start & head & a' & (Hs & He & Hf & _) & Hhead & -> & Hw)|[_ ->]]; [done|tauto|tauto|done|lia|..].
    + do 3 eexists. split; [done|]. eapply block_keeps_inv; [done|done|done| | |done|done]; [tauto|].
      by eapply free_head.
    + eauto.
  - exists LETTUCE_STATUS_OVERFLOW, None, a. split; [|done]. unfold lettuce_memory_allocate. rewrite Hpages.
    rewrite (proj2 (Z.eqb_neq dom _)), (proj2 (Z.eqb_neq size 0)) by tauto.
    by rewrite (proj2 (Z.ltb_lt _ _)) by lia.
Qed.

Definition mem_call_wf (c : mem_call) : Prop :=
  match c with AllocateCall _ size => is_u64 size | _ => True end.

Lemma mem_exec_inv (c : mem_call) (a : list Allocation) :
  mem_inv a → mem_call_wf c → ∃ s h a', mem_exec c a = Some (s, h, a') ∧ mem_inv a'.
Proof.
  intros Hinv Hwf. destruct c as [|d n|h d]; cbn.
  - destruct (memory_init_keeps a) as (a' & -> & Hinv' & _); [apply Hinv| |].
    { intros p x Hx. by eapply gen_ok_u16, free_head. }
    cbn. eauto.
  - by apply allocate_keeps_inv.
  - destruct (decide (∃ x, mem_block a h x ∧ domain x = d)) as [(x & Hx & <-)|Hno].
    + destruct (release_served a h x Hinv Hx) as (a' & -> & _ & _ & Hinv'). cbn. eauto.
    + destruct (release_refused a h d Hinv) as (s & -> & _); [naive_solver|]. cbn. eauto.
Qed.

Lemma mem_run_inv (cs : list mem_call) (a : list Allocation) :
  mem_inv a → Forall mem_call_wf cs → ∃ rs a', mem_run cs a = Some (rs, a') ∧ mem_inv a'.
Proof.
  intros Hinv Hwf. revert a Hinv. induction Hwf as [|c cs Hc _ IH]; intros a Hinv; cbn; [eauto|].
  destruct (mem_exec_inv c a Hinv Hc) as (s & h & a1 & -> & Hinv1). cbn.
  destruct (IH a1 Hinv1) as (rs & a2 & -> & Hinv2). cbn. eauto.
Qed.

Lemma boot_init : ∃ a0, lettuce_memory_init memory_boot = Some (LETTUCE_STATUS_OK, a0) ∧ mem_inv a0.
Proof.
  destruct (memory_init_keeps memory_boot) as (a0 & H & Hinv & _).
  - unfold memory_boot. by rewrite length_replicate.
  - intros p x Hx. pose proof (arr_get_Some_range _ _ _ Hx) as Hr. unfold memory_boot in *.
    rewrite length_replicate in Hr. rewrite arr_get_replicate in Hx by done. by injection Hx as <-.
  - eauto.
Qed.

(** A block lies in the pool, and two blocks with a common page are the same. *)
Lemma mem_block_pool (a : list Allocation) (h : Z) (x : Allocation) :
  mem_inv a → mem_block a h x →
  0 ≤ first_page x ∧ 0 < page_count x ∧ first_page x + page_count x ≤ total_pages ∧
  ∀ q, first_page x ≤ q < first_page x + page_count x → arr_get a q = Some x.
Proof.
  intros Hinv (start & gen & _ & Hx & Ha & _ & Hf). destruct (mi_page _ Hinv _ _ Hx) as [_ Hok].
  rewrite Ha in Hok. destruct Hok as (? & ? & ? & _ & _ & ?). split_and!; try done; lia.
Qed.

Lemma mem_block_overlap (a : list Allocation) (h1 h2 p : Z) (x1 x2 : Allocation) :
  mem_inv a → is_u32 h1 → is_u32 h2 → mem_block a h1 x1 → mem_block a h2 x2 →
  first_page x1 ≤ p < first_page x1 + page_count x1 → first_page x2 ≤ p < first_page x2 + page_count x2 →
  h1 = h2 ∧ x1 = x2.
Proof.
  intros Hinv Hh1 Hh2 Hx1 Hx2 Hp1 Hp2.
  destruct (mem_block_pool _ _ _ Hinv Hx1) as (_ & _ & _ & Hall1).
  destruct (mem_block_pool _ _ _ Hinv Hx2) as (_ & _ & _ & Hall2).
  assert (x1 = x2) as ->. { specialize (Hall1 p Hp1). specialize (Hall2 p Hp2). congruence. }
  split; [|done]. destruct Hx1 as (s1 & g1 & Hd1 & _ & _ & <- & <-).
  destruct Hx2 as (s2 & g2 & Hd2 & _ & _ & <- & <-). by eapply memory_decode_inj.
Qed.

(** The data pointer of a handle and a domain. *)
Lemma data_spec (a : list Allocation) (h dom : Z) :
  mem_inv a →
  ∃ o, lettuce_memory_data h dom a = Some o ∧
    ∀ off, o = Some off ↔ ∃ x, mem_block a h x ∧ domain x = dom ∧
                               off = first_page x * LETTUCE_MEMORY_PAGE_SIZE.
Proof.
  intros Hinv. destruct (decide (∃ x, mem_block a h x ∧ domain x = dom)) as [(x & Hx & <-)|Hno].
  - destruct (release_served a h x Hinv Hx) as (_ & _ & -> & _). eexists. split; [done|].
    intros off. split; [intros [= <-]; eauto|]. intros (y & Hy & _ & ->).
    assert (x = y) as ->; [|done]. destruct Hx as (?&?&?&?&_), Hy as (?&?&?&?&_). congruence.
  - destruct (release_refused a h dom Hinv) as (s & _ & _ & ->); [naive_solver|].
    eexists. split; [done|]. intros off. split; [done|]. naive_solver.
Qed.

(** ** Claims *)

(** C10: memory isolation.  After every sequence of initialisations, allocations
    (of any 64-bit size) and releases, each of which returns, any two distinct live
    handles own page ranges that lie inside the pool and do not overlap, and a handle
    yields a pointer only to the domain that allocated it, and only to the first byte of
    its own block. *)
Theorem memory_isolation (cs : list mem_call) :
  Forall mem_call_wf cs →
  ∃ a0 rs a, lettuce_memory_init memory_boot = Some (LETTUCE_STATUS_OK, a0) ∧ mem_run cs a0 = Some (rs, a) ∧
    (∀ h1 h2 x1 x2, is_u32 h1 → is_u32 h2 → h1 ≠ h2 → mem_block a h1 x1 → mem_block a h2 x2 →
       0 ≤ first_page x1 ∧ first_page x1 + page_count x1 ≤ total_pages ∧
       (first_page x1 + page_count x1 ≤ first_page x2 ∨ first_page x2 + page_count x2 ≤ first_page x1)) ∧
    (∀ h dom off, lettuce_memory_data h dom a = Some (Some off) ↔
       ∃ x, mem_block a h x ∧ domain x = dom ∧ off = first_page x * LETTUCE_MEMORY_PAGE_SIZE).
Proof.
  intros Hwf. destruct boot_init as (a0 & Ha0 & Hinv0).
  destruct (mem_run_inv cs a0 Hinv0 Hwf) as (rs & a & Hrun & Hinv).
  exists a0, rs, a. split_and!; [done..| |].
  - intros h1 h2 x1 x2 Hh1 Hh2 Hne Hx1 Hx2.
    destruct (mem_block_pool _ _ _ Hinv Hx1) as (? & ? & ? & _).
    destruct (mem_block_pool _ _ _ Hinv Hx2) as (? & ? & ? & _). split_and!; [done..|].
    destruct (intervals_meet (first_page x1) (page_count x1) (first_page x2) (page_count x2))
      as [?|[?|(p & Hp1 & Hp2)]]; [done|done|by left|by right|].
    destruct (mem_block_overlap a h1 h2 p x1 x2 Hinv Hh1 Hh2 Hx1 Hx2 Hp1 Hp2) as [Heq _].
    destruct (Hne Heq).
  - intros h dom off. destruct (data_spec a h dom Hinv) as (o & -> & Ho). rewrite <- Ho.
    split; [congruence|by intros ->].
Qed.

(** C11: allocation is first fit.  For a domain and a size from 1 to 2^64 - 4096 bytes
    (beyond, the rounding to pages wraps, [allocate_size_wraps]), the allocation succeeds
    exactly when some span of that many pages is free; it then takes the lowest one,
    leaves every other page alone, and the handle it returns is live at once: it yields
    the block's address to the domain.  Otherwise it fails, with [OVERFLOW] for more than
    65535 pages and [UNAVAILABLE] for fewer, and changes nothing. *)
Theorem allocate_is_first_fit (a : list Allocation) (dom size : Z) :
  mem_inv a → dom ≠ LETTUCE_DOMAIN_ID_INVALID → 0 < size ≤ 2 ^ 64 - LETTUCE_MEMORY_PAGE_SIZE →
  let pages := pages_for size in
  (∃ start h a', first_fit a pages start ∧
     lettuce_memory_allocate dom size true a = Some (LETTUCE_STATUS_OK, Some h, a') ∧ mem_inv a' ∧
     lettuce_memory_data h dom a' = Some (Some (start * LETTUCE_MEMORY_PAGE_SIZE)) ∧
     ∀ p, arr_get a' p = if decide (start ≤ p < start + pages)
                         then arr_get a' start else arr_get a p) ∨
  ((∀ s, ¬ first_fit a pages s) ∧
   lettuce_memory_allocate dom size true a =
     Some (if UINT16_MAX <? pages then LETTUCE_STATUS_OVERFLOW else LETTUCE_STATUS_UNAVAILABLE, None, a)).
Proof.
  intros Hinv Hdom Hsize. unfold LETTUCE_MEMORY_PAGE_SIZE in Hsize.
  destruct (pages_exact size) as (Hpages & H1 & Hb); [lia|]. cbn zeta.
  destruct (Z.ltb_spec UINT16_MAX (pages_for size)) as [Hbig|Hfits].
  { right. split; [intros s (Hs & He & _); change total_pages with 64 in He; unfold UINT16_MAX in Hbig; lia|].
    unfold lettuce_memory_allocate. rewrite Hpages.
    rewrite (proj2 (Z.eqb_neq dom _)), (proj2 (Z.eqb_neq size 0)) by (done || lia).
    by rewrite (proj2 (Z.ltb_lt _ _)) by done. }
  destruct (allocate_search a dom size (pages_for size)) as
    [(start & head & a' & Hff & Hhead & Hal & Hw)|[Hnone Hal]];
    [done|done|lia|done|lia|left|right].
  - pose proof Hff as (Hs & He & Hf & _). pose proof (free_head _ _ _ Hinv Hhead) as Hg.
    assert (mem_inv a') as Hinv' by by eapply block_keeps_inv.
    destruct Hw as [Hlen Hget].
    assert (arr_get a' start = Some (block start (pages_for size) dom (generation head))) as Hstart.
    { rewrite Hget. by rewrite decide_True by lia. }
    exists start, (pack (generation head) (start + 1)), a'. split_and!; [done..| |].
    + destruct (data_spec a' (pack (generation head) (start + 1)) dom Hinv') as (o & -> & Ho). f_equal.
      apply Ho. exists (block start (pages_for size) dom (generation head)). split_and!; [|done..].
      exists start, (generation head). split_and!; try done.
      apply memory_decode_pack; [lia|by apply gen_ok_u16].
    + intros p. rewrite Hstart. apply Hget.
  - split; [|done]. intros s (Hs & He & Hf & _). by eapply Hnone.
Qed.

(** C12: release is exact.  The owner's release of a live handle succeeds, frees all
    pages of the block, advances their generation and touches no other page; the handle
    is then dead: it yields no pointer to anybody and cannot be released again.  Any
    other release fails and changes nothing. *)
Theorem release_is_exact (a : list Allocation) (h dom : Z) :
  mem_inv a →
  (∃ x a', mem_block a h x ∧ domain x = dom ∧ lettuce_memory_release h dom a = Some (LETTUCE_STATUS_OK, a') ∧
     mem_inv a' ∧ span_free a' (first_page x) (page_count x) ∧
     (∀ p, ¬ first_page x ≤ p < first_page x + page_count x → arr_get a' p = arr_get a p) ∧
     (∀ d, lettuce_memory_data h d a' = Some None ∧
           ∃ s, lettuce_memory_release h d a' = Some (s, a') ∧ s ≠ LETTUCE_STATUS_OK)) ∨
  ((∀ x, mem_block a h x → domain x ≠ dom) ∧
   ∃ s, lettuce_memory_release h dom a = Some (s, a) ∧ s ≠ LETTUCE_STATUS_OK).
Proof.
  intros Hinv. destruct (decide (∃ x, mem_block a h x ∧ domain x = dom)) as [(x & Hx & Hdom)|Hno].
  - left. destruct (release_served a h x Hinv Hx) as (a' & Hrel & _ & [Hlen Hget] & Hinv').
    rewrite Hdom in Hrel.
    exists x, a'. split_and!; [done|done|done|done|..].
    + intros p Hp. rewrite Hget, decide_True by done. by eexists.
    + intros p Hp. by rewrite Hget, decide_False.
    + intros d. destruct (release_refused a' h d Hinv') as (s & -> & Hs & ->); [|by eauto].
      intros y (start & gen & Hd & Hy & Ha & _ & _).
      destruct (mem_block_pool a h x Hinv Hx) as (? & ? & _).
      destruct Hx as (start' & gen' & Hd' & _ & _ & _ & Hf). rewrite Hd in Hd'. injection Hd' as <- <-.
      rewrite Hget, decide_True in Hy by lia. injection Hy as <-. done.
  - right. split; [naive_solver|]. destruct (release_refused a h dom Hinv) as (s & ? & ? & _); naive_solver.
Qed.

(** [size + 4095] wraps at 64 bits.  A request for one of the 4095 largest
    sizes succeeds without reserving a page: the table does not change, and the handle
    returned names page 0, which stays free or in the hands of its current owner. *)
Theorem allocate_size_wraps (a : list Allocation) (dom size : Z) :
  mem_inv a → dom ≠ LETTUCE_DOMAIN_ID_INVALID → 2 ^ 64 - 4096 < size < 2 ^ 64 →
  ∃ head, arr_get a 0 = Some head ∧
    lettuce_memory_allocate dom size true a = Some (LETTUCE_STATUS_OK, Some (pack (generation head) 1), a) ∧
    (active head = true → domain head = dom → first_page head = 0 →
     lettuce_memory_data (pack (generation head) 1) dom a = Some (Some 0)).
Proof.
  intros Hinv Hdom Hsize. destruct (allocate_wrapped a dom size Hinv Hdom Hsize) as (head & Hhead & Hal).
  exists head. split_and!; [done..|]. intros Ha Hd Hf.
  destruct (data_spec a (pack (generation head) 1) dom Hinv) as (o & -> & Ho). f_equal. apply Ho.
  exists head. split_and!; [|done|by rewrite Hf]. exists 0, (generation head). split_and!; try done.
  apply (memory_decode_pack 0); [done|]. by eapply gen_ok_u16, free_head.
Qed.

(** The calls of domain 7 that bring a released handle back: page 1 is reused twice
    on its own, then once as the interior page of a two-page block, whose head is
    younger and whose generation it inherits. *)
Definition stale_calls : list mem_call :=
  [AllocateCall 7 1; AllocateCall 7 1;       (* pages 0 and 1 *)
   ReleaseCall 65538 7; AllocateCall 7 1;    (* page 1 again: handle (2, page 1) *)
   ReleaseCall 131074 7; AllocateCall 7 1;   (* page 1 again: handle (3, page 1) *)
   ReleaseCall 196610 7;                     (* handle (3, page 1) is released *)
   ReleaseCall 65537 7; AllocateCall 7 8192; (* pages 0 and 1 as one block *)
   ReleaseCall 131073 7;
   AllocateCall 7 1; AllocateCall 7 1].      (* pages 0 and 1 once more *)

(** The generation of a page can decrease.  A block gives its head's generation
    to all its pages, so after these calls the handle (3, page 1), released five calls
    earlier, is returned a second time and grants access again. *)
Theorem released_handle_becomes_valid_again :
  ∃ a0 rs a, lettuce_memory_init memory_boot = Some (LETTUCE_STATUS_OK, a0) ∧
    mem_run stale_calls a0 = Some (rs, a) ∧
    rs !! 5%nat = Some (LETTUCE_STATUS_OK, Some 196610) ∧
    rs !! 6%nat = Some (LETTUCE_STATUS_OK, None) ∧
    rs !! 11%nat = Some (LETTUCE_STATUS_OK, Some 196610) ∧
    lettuce_memory_data 196610 7 a = Some (Some 4096).
Proof. do 3 eexists. repeat (split; [vm_compute; reflexivity|]). vm_compute. reflexivity. Qed.

(** ** Witnesses *)

Lemma memory_isolation_witness :
  ∃ a0 rs a, lettuce_memory_init memory_boot = Some (LETTUCE_STATUS_OK, a0) ∧
    mem_run [AllocateCall 7 5000; AllocateCall 8 1] a0 = Some (rs, a) ∧
    lettuce_memory_data 65539 8 a = Some (Some 8192).
Proof.
  destruct (memory_isolation [AllocateCall 7 5000; AllocateCall 8 1]) as (a0 & rs & a & Hi & Hrun & _ & Hdata).
  - repeat constructor; unfold is_u64; lia.
  - exists a0, rs, a. split; [exact Hi|]. split; [exact Hrun|]. apply Hdata.
    vm_compute in Hi. injection Hi as <-. vm_compute in Hrun. injection Hrun as _ <-.
    exists (block 2 1 8 1). split; [|split; reflexivity].
    exists 2, 1. vm_compute. repeat split; reflexivity.
Defined.

(** Pages 0 and 1 belong to domain 7. *)
Definition mem_demo : list Allocation :=
  match lettuce_memory_init memory_boot with
  | Some (_, a) => match lettuce_memory_allocate 7 5000 true a with Some (_, _, a') => a' | None => a end
  | None => []
  end.

Lemma mem_demo_inv : mem_inv mem_demo.
Proof.
  unfold mem_demo. destruct boot_init as (a0 & -> & Hinv).
  destruct (allocate_keeps_inv a0 7 5000 Hinv) as (s & h & a' & -> & Hinv'); [unfold is_u64; lia|done].
Qed.

Lemma allocate_is_first_fit_witness :
  ∃ a', lettuce_memory_allocate 9 4096 true mem_demo = Some (LETTUCE_STATUS_OK, Some 65539, a') ∧
    lettuce_memory_data 65539 9 a' = Some (Some 8192).
Proof.
  destruct (allocate_is_first_fit mem_demo 9 4096 mem_demo_inv)
    as [(start & h & a' & _ & Hal & _ & Hdata & _)|[_ Hal]];
    [discriminate|unfold LETTUCE_MEMORY_PAGE_SIZE; lia|..].
  - exists a'. vm_compute in Hal. injection Hal as <- <-. split; vm_compute; reflexivity.
  - vm_compute in Hal. discriminate.
Defined.

Lemma release_is_exact_witness :
  ∃ a', lettuce_memory_release 65537 7 mem_demo = Some (LETTUCE_STATUS_OK, a') ∧
    lettuce_memory_data 65537 7 a' = Some None.
Proof.
  destruct (release_is_exact mem_demo 65537 7 mem_demo_inv)
    as [(x & a' & _ & _ & Hrel & _ & _ & _ & Hdead)|[Hno _]].
  - exists a'. split; [exact Hrel|]. apply (Hdead 7).
  - exfalso. apply (Hno (block 0 2 7 1)); [|reflexivity]. exists 0, 1. vm_compute. repeat split; reflexivity.
Defined.

Lemma allocate_size_wraps_witness :
  lettuce_memory_allocate 7 (2 ^ 64 - 1) true mem_demo = Some (LETTUCE_STATUS_OK, Some 65537, mem_demo).
Proof.
  destruct (allocate_size_wraps mem_demo 7 (2 ^ 64 - 1) mem_demo_inv) as (head & Hh & Hal & _);
    [discriminate|lia|].
  vm_compute in Hh. injection Hh as <-. exact Hal.
Defined.

End Memory.
