(* ===== verification/SharedBuffer.v ===== *)
(** * Shared buffers: [memory/shared/buffer.c]

    16 buffers of 4096 bytes with generational handles.  Access needs the handle of
    the buffer, the very capability configured for the direction, and a successful
    capability check against the owner.  A [void *] to a buffer's payload is the
    buffer's slot; [current_service_id()] is the argument [caller]. *)

From S2P Require Import Prelude Types Generation Capability.

Definition LETTUCE_SHARED_BUFFER_INVALID : Z := 0.
Definition LETTUCE_SHARED_BUFFER_SIZE : Z := 4096.
Definition LETTUCE_SHARED_BUFFER_COUNT : Z := 16.
Definition LETTUCE_SHARED_READ_OPERATION : Z := 256.
Definition LETTUCE_SHARED_WRITE_OPERATION : Z := 257.
Definition SHARED_SLOT_MASK : Z := 65535.
Definition SHARED_GENERATION_SHIFT : Z := 16.

Module SharedBuffer.

(** ** State *)

Record SharedBuffer := {
  size : Z;
  resource : Z;
  read_capability : Z;
  write_capability : Z;
  owner : Z;
  generation : Z;
  active : bool;
  data : list Z
}.

Definition data_zero : list Z := replicate (Z.to_nat LETTUCE_SHARED_BUFFER_SIZE) 0.

(** [(SharedBuffer){.generation = generation}] *)
Definition buffer_with_generation (gen : Z) : SharedBuffer :=
  {| size := 0; resource := 0; read_capability := 0; write_capability := 0; owner := 0;
     generation := gen; active := false; data := data_zero |}.

(** The static [buffers], zero at boot.  The five padding bytes of the header are never
    read or written and are left out. *)
Definition buffers_boot : list SharedBuffer :=
  replicate (Z.to_nat LETTUCE_SHARED_BUFFER_COUNT) (buffer_with_generation 0).

(** ** Operations *)

Definition decode_handle (handle : Z) : option (Z * Z) :=
  if (handle =? LETTUCE_SHARED_BUFFER_INVALID) || (handle .& SHARED_SLOT_MASK =? 0) then None else
  let slot := u32 (handle .& SHARED_SLOT_MASK - 1) in
  let generation := u16 (handle .>> SHARED_GENERATION_SHIFT) in
  if slot <? LETTUCE_SHARED_BUFFER_COUNT then Some (slot, generation) else None.

Definition lettuce_shared_buffer_init (buffers : list SharedBuffer)
    : option (LettuceStatus * list SharedBuffer) :=
  bs ← for_range (Z.to_nat LETTUCE_SHARED_BUFFER_COUNT) 0
         (λ i bs,
            b ← arr_get bs i;
            let gen := if generation b =? 0 then 1 else generation b in
            arr_set bs i (buffer_with_generation gen)) buffers;
  Some (LETTUCE_STATUS_OK, bs).

(** [for (b = 0; b < sizeof(data); ++b) data[b] = 0;] *)
Definition zero_payload (d : list Z) : option (list Z) :=
  for_range (Z.to_nat LETTUCE_SHARED_BUFFER_SIZE) 0 (λ b d, arr_set d b 0) d.

(** [handle_ptr] is [false] for a [NULL] handle pointer; the second component is the
    value stored through it. *)
Definition lettuce_shared_buffer_create (caller own res sz rcap wcap : Z) (handle_ptr : bool)
    (buffers : list SharedBuffer) : option (LettuceStatus * option Z * list SharedBuffer) :=
  if (own =? LETTUCE_SERVICE_ID_INVALID) || (res =? LETTUCE_RESOURCE_ID_INVALID) || (sz =? 0) ||
     (LETTUCE_SHARED_BUFFER_SIZE <? sz) || negb handle_ptr
  then Some (LETTUCE_STATUS_INVALID_ARGUMENT, None, buffers) else
  if negb (caller =? own) then Some (LETTUCE_STATUS_DENIED, None, buffers) else
  f ← for_flow (Z.to_nat LETTUCE_SHARED_BUFFER_COUNT) 0
        (λ i bs,
           b ← arr_get bs i;
           if active b then Some (Next bs) else
           let gen := if generation b =? 0 then 1 else generation b in
           d ← zero_payload (data b);
           bs' ← arr_set bs i {| size := sz; resource := res; read_capability := rcap;
                                 write_capability := wcap; owner := own; generation := gen;
                                 active := true; data := d |};
           Some (Return (u32 (gen .<< SHARED_GENERATION_SHIFT) .| u32 (i + 1)) bs')) buffers;
  match f with
  | Return handle bs => Some (LETTUCE_STATUS_OK, Some handle, bs)
  | Next bs | Break bs => Some (LETTUCE_STATUS_UNAVAILABLE, None, bs)
  end.

(** [out_ptrs] is [false] when [data] or [size] is [NULL]; the second component is
    what is stored through them: the buffer whose payload is exposed, and its size. *)
Definition lettuce_shared_buffer_access (caller handle capability : Z) (write out_ptrs : bool)
    (caps : cap_state) (buffers : list SharedBuffer) : option (LettuceStatus * option (Z * Z)) :=
  match (if out_ptrs then decode_handle handle else None) with
  | None => Some (LETTUCE_STATUS_INVALID_ARGUMENT, None)
  | Some (slot, gen) =>
      buffer ← arr_get buffers slot;
      if negb (active buffer) || negb (generation buffer =? gen)
      then Some (LETTUCE_STATUS_NOT_FOUND, None) else
      let operation := if write then LETTUCE_SHARED_WRITE_OPERATION else LETTUCE_SHARED_READ_OPERATION in
      let expected := if write then write_capability buffer else read_capability buffer in
      granted ← (if negb (capability =? expected) then Some false else
                 lettuce_capability_check caller capability (owner buffer) operation
                   (if write then LETTUCE_CAP_WRITE else LETTUCE_CAP_READ) (resource buffer) caps);
      if negb granted then Some (LETTUCE_STATUS_CAPABILITY_DENIED, None) else
      Some (LETTUCE_STATUS_OK, Some (slot, size buffer))
  end.

Definition lettuce_shared_buffer_revoke (caller handle : Z) (buffers : list SharedBuffer)
    : option (LettuceStatus * list SharedBuffer) :=
  match decode_handle handle with
  | None => Some (LETTUCE_STATUS_INVALID_ARGUMENT, buffers)
  | Some (slot, gen) =>
      buffer ← arr_get buffers slot;
      if negb (active buffer) || negb (generation buffer =? gen)
      then Some (LETTUCE_STATUS_NOT_FOUND, buffers) else
      if negb (caller =? owner buffer) then Some (LETTUCE_STATUS_DENIED, buffers) else
      d ← zero_payload (data buffer);
      bs ← arr_set buffers slot
             {| size := size buffer; resource := resource buffer; read_capability := read_capability buffer;
                write_capability := write_capability buffer; owner := owner buffer;
                generation := gen_next (generation buffer); active := false; data := d |};
      Some (LETTUCE_STATUS_OK, bs)
  end.

(** A service stores [v] at offset [off] through a payload pointer it was given. *)
Definition payload_store (slot off v : Z) (buffers : list SharedBuffer) : option (list SharedBuffer) :=
  b ← arr_get buffers slot;
  d ← arr_set (data b) off v;
  arr_set buffers slot
    {| size := size b; resource := resource b; read_capability := read_capability b;
       write_capability := write_capability b; owner := owner b; generation := generation b;
       active := active b; data := d |}.

(** ** Call sequences *)

Inductive buf_call :=
  | CreateBuffer (caller own res sz rcap wcap : Z)
  | RevokeBuffer (caller handle : Z)
  | StorePayload (slot off v : Z).

Definition buf_exec (c : buf_call) (bs : list SharedBuffer) : option (list SharedBuffer) :=
  match c with
  | CreateBuffer c o r s rc wc =>
      '(_, _, bs') ← lettuce_shared_buffer_create c o r s rc wc true bs; Some bs'
  | RevokeBuffer c h => '(_, bs') ← lettuce_shared_buffer_revoke c h bs; Some bs'
  | StorePayload s o v => payload_store s o v bs
  end.

Fixpoint buf_run (cs : list buf_call) (bs : list SharedBuffer) : option (list SharedBuffer) :=
  match cs with
  | [] => Some bs
  | c :: cs' => bs1 ← buf_exec c bs; buf_run cs' bs1
  end.

(** ** The invariant *)

Record buffer_ok (b : SharedBuffer) : Prop := {
  bo_gen : gen_ok (generation b);
  bo_len : Z.of_nat (length (data b)) = LETTUCE_SHARED_BUFFER_SIZE;
  bo_size : active b = true → 0 < size b ≤ LETTUCE_SHARED_BUFFER_SIZE
}.

Record buf_inv (bs : list SharedBuffer) : Prop := {
  bi_len : Z.of_nat (length bs) = LETTUCE_SHARED_BUFFER_COUNT;
  bi_ok : ∀ i b, arr_get bs i = Some b → buffer_ok b
}.

(** The buffer a handle designates, at its slot. *)
Definition buf_designates (bs : list SharedBuffer) (h slot : Z) (b : SharedBuffer) : Prop :=
  decode_handle h = Some (slot, generation b) ∧ arr_get bs slot = Some b ∧ active b = true.

#[export] Instance buf_designates_dec (bs : list SharedBuffer) (h : Z) :
  Decision (∃ slot b, buf_designates bs h slot b).
Proof.
  destruct (decode_handle h) as [[slot gen]|] eqn:Hd; [|right; intros (s & b & ? & _); congruence].
  destruct (arr_get bs slot) as [b|] eqn:Hb; [|right; intros (s & b & ? & ? & _); congruence].
  destruct (decide (active b = true ∧ generation b = gen)) as [[Ha Hg]|Hn].
  - left. exists slot, b. split_and!; congruence.
  - right. intros (s & b' & ? & ? & ?). apply Hn. simplify_eq. done.
Defined.

(** ** Facts *)

Lemma zero_payload_spec (d : list Z) :
  Z.of_nat (length d) = LETTUCE_SHARED_BUFFER_SIZE → zero_payload d = Some data_zero.
Proof.
  intros Hlen. unfold zero_payload.
  destruct (for_range_inv (λ i l, Z.of_nat (length l) = LETTUCE_SHARED_BUFFER_SIZE ∧
      ∀ k, 0 ≤ k < i → arr_get l k = Some 0)
    (Z.to_nat LETTUCE_SHARED_BUFFER_SIZE) 0 (λ b d, arr_set d b 0) d) as (l & -> & Hl & Hk).
  - split; [done|]. intros; lia.
  - intros k l Hk [Hl Hpre]. unfold LETTUCE_SHARED_BUFFER_SIZE in *. rewrite arr_set_Some by lia.
    eexists. split; [done|]. rewrite length_insert. split; [done|]. intros j Hj.
    rewrite arr_get_insert by lia. case_decide; [done|]. apply Hpre. lia.
  - rewrite Z2Nat.id in Hk by done. f_equal. apply arr_eq.
    + unfold data_zero. by rewrite length_replicate, <- Hl, Nat2Z.id.
    + intros i Hi. rewrite Hl in Hi. unfold data_zero. rewrite arr_get_replicate; [by apply Hk|].
      by rewrite Z2Nat.id.
Qed.

Lemma data_zero_len : Z.of_nat (length data_zero) = LETTUCE_SHARED_BUFFER_SIZE.
Proof. unfold data_zero. by rewrite length_replicate. Qed.

Lemma buffer_decode_pack (slot gen : Z) :
  0 ≤ slot < LETTUCE_SHARED_BUFFER_COUNT → is_u16 gen → decode_handle (pack gen (slot + 1)) = Some (slot, gen).
Proof.
  intros Hs Hg. destruct (pack_slot slot gen) as (H0 & Hf & Hsl & Hgen);
    [unfold LETTUCE_SHARED_BUFFER_COUNT in Hs; lia|done|].
  unfold decode_handle, SHARED_SLOT_MASK, SHARED_GENERATION_SHIFT, LETTUCE_SHARED_BUFFER_INVALID.
  rewrite Hsl, Hgen, Hf, (proj2 (Z.eqb_neq _ _) H0), (proj2 (Z.eqb_neq (slot + 1) 0)) by lia.
  by rewrite (proj2 (Z.ltb_lt _ _)) by lia.
Qed.

Lemma buffer_decode_range (h slot gen : Z) :
  decode_handle h = Some (slot, gen) → 0 ≤ slot < LETTUCE_SHARED_BUFFER_COUNT.
Proof.
  unfold decode_handle. intros H. repeat case_match; simplify_eq. b2p. split; [|done]. apply u32_range.
Qed.

Lemma buf_get (bs : list SharedBuffer) (i : Z) :
  buf_inv bs → 0 ≤ i < LETTUCE_SHARED_BUFFER_COUNT → ∃ b, arr_get bs i = Some b ∧ buffer_ok b.
Proof.
  intros Hinv Hi. destruct (arr_get_is_Some bs i) as [b Hb]; [by rewrite (bi_len _ Hinv)|].
  exists b. split; [done|]. by eapply bi_ok.
Qed.

Lemma buf_inv_set (bs bs' : list SharedBuffer) (i : Z) (b : SharedBuffer) :
  buf_inv bs → arr_set bs i b = Some bs' → buffer_ok b → buf_inv bs'.
Proof.
  intros Hinv Hset Hb. split; [rewrite (arr_set_length _ _ _ _ Hset); apply Hinv|].
  intros j x. rewrite (arr_get_set _ _ _ _ _ Hset). case_decide; [by intros [= <-]|apply (bi_ok _ Hinv)].
Qed.

(** ** Creation *)

(** The arguments [lettuce_shared_buffer_create] accepts from [caller]. *)
Definition create_args_ok (caller own res sz : Z) : Prop :=
  own ≠ LETTUCE_SERVICE_ID_INVALID ∧ res ≠ LETTUCE_RESOURCE_ID_INVALID ∧
  0 < sz ≤ LETTUCE_SHARED_BUFFER_SIZE ∧ caller = own.

Definition granted_buffer (own res sz rcap wcap gen : Z) : SharedBuffer :=
  {| size := sz; resource := res; read_capability := rcap; write_capability := wcap; owner := own;
     generation := gen; active := true; data := data_zero |}.

Lemma create_rejected (bs : list SharedBuffer) (caller own res sz rcap wcap : Z) :
  0 ≤ sz → ¬ create_args_ok caller own res sz →
  ∃ s, lettuce_shared_buffer_create caller own res sz rcap wcap true bs = Some (s, None, bs) ∧
       s ≠ LETTUCE_STATUS_OK.
Proof.
  intros Hsz Hbad. unfold lettuce_shared_buffer_create.
  destruct (_ || _) eqn:H1; [eauto|]. destruct (negb (caller =? own)) eqn:H2; [eauto|]. b2p.
  destruct Hbad. split_and!; try done; lia.
Qed.

Lemma create_search (bs : list SharedBuffer) (caller own res sz rcap wcap : Z) :
  buf_inv bs → create_args_ok caller own res sz →
  (∃ i b bs', arr_get bs i = Some b ∧ active b = false ∧
     (∀ j x, 0 ≤ j < i → arr_get bs j = Some x → active x = true) ∧
     lettuce_shared_buffer_create caller own res sz rcap wcap true bs =
       Some (LETTUCE_STATUS_OK, Some (pack (generation b) (i + 1)), bs') ∧
     arr_set bs i (granted_buffer own res sz rcap wcap (generation b)) = Some bs') ∨
  ((∀ j x, arr_get bs j = Some x → active x = true) ∧
   lettuce_shared_buffer_create caller own res sz rcap wcap true bs =
     Some (LETTUCE_STATUS_UNAVAILABLE, None, bs)).
Proof.
  intros Hinv (Ho & Hr & Hsz & ->). pose proof (bi_len _ Hinv) as Hlen.
  unfold lettuce_shared_buffer_create.
  rewrite (proj2 (Z.eqb_neq _ _) Ho), (proj2 (Z.eqb_neq _ _) Hr), (proj2 (Z.eqb_neq sz 0)) by lia.
  rewrite (proj2 (Z.ltb_ge _ _)), Z.eqb_refl by lia. cbn [negb orb].
  match goal with |- context [for_flow ?n 0 ?body bs] =>
    destruct (for_flow_inv (λ k l, l = bs ∧ ∀ j x, 0 ≤ j < k → arr_get bs j = Some x → active x = true)
      (λ f, match f with
       | Next l => l = bs ∧ ∀ j x, arr_get bs j = Some x → active x = true
       | Break _ => False
       | Return h l => ∃ i b, arr_get bs i = Some b ∧ active b = false ∧
           (∀ j x, 0 ≤ j < i → arr_get bs j = Some x → active x = true) ∧ h = pack (generation b) (i + 1) ∧
           arr_set bs i (granted_buffer own res sz rcap wcap (generation b)) = Some l end) n 0 body bs)
      as (f & -> & Hf)
  end.
  - split; [done|]. intros; lia.
  - intros k l Hk [-> Hpre]. rewrite Z2Nat.id in Hk by done.
    destruct (buf_get bs k Hinv) as (b & Hb & [Hg Hd _]); [lia|].
    rewrite Hb. cbn [mbind option_bind]. destruct (active b) eqn:Ha.
    + eexists. split; [done|]. split; [done|]. intros j x Hj Hx.
      destruct (decide (j = k)) as [->|]; [congruence|]. eapply Hpre; [|done]. lia.
    + rewrite (proj2 (Z.eqb_neq _ _)) by (unfold gen_ok in Hg; lia).
      rewrite zero_payload_spec by done. cbn [mbind option_bind].
      rewrite arr_set_Some by lia. cbn [mbind option_bind]. eexists. split; [done|]. exists k, b.
      split_and!; [done..| |by apply arr_set_Some; lia].
      apply pack_words; [unfold LETTUCE_SHARED_BUFFER_COUNT in Hk; lia|by apply gen_ok_u16].
  - intros l [-> Hall]. split; [done|]. intros j x Hx. pose proof (arr_get_Some_range _ _ _ Hx).
    rewrite Z2Nat.id in Hall by done. eapply Hall; [|done]. lia.
  - cbn [mbind option_bind]. destruct f as [l|l|h l]; [|done|].
    + right. by destruct Hf as [-> Hall].
    + left. destruct Hf as (i & b & ? & ? & ? & -> & ?). by exists i, b, l.
Qed.

(** ** Revocation *)

Definition revoked_buffer (b : SharedBuffer) : SharedBuffer :=
  {| size := size b; resource := resource b; read_capability := read_capability b;
     write_capability := write_capability b; owner := owner b; generation := gen_next (generation b);
     active := false; data := data_zero |}.

Lemma buf_revoke_served (bs : list SharedBuffer) (h slot : Z) (b : SharedBuffer) :
  buf_inv bs → buf_designates bs h slot b →
  ∃ bs', lettuce_shared_buffer_revoke (owner b) h bs = Some (LETTUCE_STATUS_OK, bs') ∧
    arr_set bs slot (revoked_buffer b) = Some bs' ∧ buf_inv bs'.
Proof.
  intros Hinv (Hd & Hb & Ha). pose proof (bi_ok _ Hinv _ _ Hb) as [Hg Hlen _].
  unfold lettuce_shared_buffer_revoke. rewrite Hd, Hb. cbn [mbind option_bind].
  rewrite Ha, !Z.eqb_refl, zero_payload_spec by done. cbn [negb orb mbind option_bind].
  pose proof (arr_get_Some_range _ _ _ Hb) as Hr. rewrite arr_set_Some by done.
  eexists. split; [done|]. split; [by apply arr_set_Some|].
  eapply buf_inv_set; [done|by apply arr_set_Some|]. split; cbn; [by apply gen_next_ok|apply data_zero_len|done].
Qed.

Lemma buf_revoke_refused (bs : list SharedBuffer) (caller h : Z) :
  buf_inv bs → (∀ slot b, buf_designates bs h slot b → owner b ≠ caller) →
  ∃ s, lettuce_shared_buffer_revoke caller h bs = Some (s, bs) ∧ s ≠ LETTUCE_STATUS_OK.
Proof.
  intros Hinv Hno. unfold lettuce_shared_buffer_revoke.
  destruct (decode_handle h) as [[slot gen]|] eqn:Hd; [|eauto].
  destruct (buf_get bs slot Hinv) as (b & Hb & _); [by eapply buffer_decode_range|]. rewrite Hb.
  cbn [mbind option_bind].
  destruct (negb (active b) || negb (generation b =? gen)) eqn:H1; [eauto|].
  destruct (negb (caller =? owner b)) eqn:H2; [eauto|]. b2p.
  exfalso. apply (Hno slot b); [|done]. split_and!; congruence.
Qed.

(** ** Sequences of calls *)

(** One call leaves a slot's generation alone or advances it once. *)
Lemma buf_exec_step (c : buf_call) (bs bs' : list SharedBuffer) :
  buf_inv bs → (match c with CreateBuffer _ _ _ sz _ _ => 0 ≤ sz | _ => True end) →
  buf_exec c bs = Some bs' →
  buf_inv bs' ∧ ∀ i b, arr_get bs i = Some b → ∃ b', arr_get bs' i = Some b' ∧
    (generation b' = generation b ∨ generation b' = gen_next (generation b)).
Proof.
  intros Hinv Hwf Hrun.
  assert (∀ i b x, arr_get bs i = Some b → arr_set bs i x = Some bs' →
    (generation x = generation b ∨ generation x = gen_next (generation b)) →
    ∀ j y, arr_get bs j = Some y → ∃ y', arr_get bs' j = Some y' ∧
      (generation y' = generation y ∨ generation y' = gen_next (generation y))) as Hupd.
  { intros i b x Hb Hset Hg j y Hy. rewrite (arr_get_set _ _ _ _ _ Hset).
    case_decide; simplify_eq; eauto. }
  destruct c as [caller own res sz rc wc|caller h|slot off v]; cbn in Hrun.
  - destruct (decide (create_args_ok caller own res sz)) as [Hok|Hbad].
    + destruct (create_search bs caller own res sz rc wc Hinv Hok)
        as [(i & b & bs1 & Hb & Ha & _ & Hc & Hset)|[_ Hc]]; rewrite Hc in Hrun; simplify_eq/=; [|eauto].
      split; [|by eapply Hupd; eauto].
      eapply buf_inv_set; [done..|]. destruct Hok as (_ & _ & ? & _).
      split; [by apply (bo_gen _ (bi_ok _ Hinv _ _ Hb))|apply data_zero_len|done].
    + destruct (create_rejected bs caller own res sz rc wc Hwf Hbad) as (s & Hc & _).
      rewrite Hc in Hrun. simplify_eq/=. eauto.
  - destruct (decide (∃ slot b, buf_designates bs h slot b)) as [(slot & b & Hb)|Hno];
      [destruct (decide (caller = owner b)) as [->|Hne]|].
    + destruct (buf_revoke_served bs h slot b Hinv Hb) as (bs1 & Hr & Hset & Hinv'). rewrite Hr in Hrun.
      simplify_eq/=. split; [done|]. destruct Hb as (_ & Hb & _). by eapply Hupd; eauto.
    + destruct (buf_revoke_refused bs caller h Hinv) as (s & Hr & _).
      { intros s2 b2 (Hd2 & Hb2 & _). destruct Hb as (Hd & Hb & _). congruence. }
      rewrite Hr in Hrun. simplify_eq/=. eauto.
    + destruct (buf_revoke_refused bs caller h Hinv) as (s & Hr & _); [naive_solver|].
      rewrite Hr in Hrun. simplify_eq/=. eauto.
  - unfold payload_store in Hrun. destruct (arr_get bs slot) as [b|] eqn:Hb; [|done]. cbn in Hrun.
    destruct (arr_set (data b) off v) as [d|] eqn:Hd; [|done]. cbn in Hrun.
    split; [|by eapply Hupd; eauto]. eapply buf_inv_set; [done..|].
    destruct (bi_ok _ Hinv _ _ Hb) as [? Hlen ?].
    split; cbn; [done| |done]. by rewrite (arr_set_length _ _ _ _ Hd).
Qed.

Definition buf_call_wf (c : buf_call) : Prop :=
  match c with CreateBuffer _ _ _ sz _ _ => 0 ≤ sz | _ => True end.

Lemma buf_run_generation (cs : list buf_call) (bs bs' : list SharedBuffer) (i : Z) b :
  buf_inv bs → Forall buf_call_wf cs → buf_run cs bs = Some bs' → arr_get bs i = Some b →
  buf_inv bs' ∧ ∃ b' n, arr_get bs' i = Some b' ∧ (n ≤ length cs)%nat ∧
    generation b' = gen_iter n (generation b).
Proof.
  intros Hinv Hwf. revert bs b Hinv. induction Hwf as [|c cs Hc _ IH]; intros bs b Hinv Hrun Hb; cbn in Hrun.
  - simplify_eq. split; [done|]. by exists b, 0%nat.
  - destruct (buf_exec c bs) as [bs1|] eqn:Hx; [|done]. cbn in Hrun.
    destruct (buf_exec_step c bs bs1 Hinv Hc Hx) as [Hinv1 Hstep].
    destruct (Hstep _ _ Hb) as (b1 & Hb1 & Hg).
    destruct (IH bs1 b1 Hinv1 Hrun Hb1) as (Hinv' & b' & n & Hb' & Hn & Hge). split; [done|].
    destruct Hg as [Hg|Hg]; rewrite Hg in Hge.
    + exists b', n. split_and!; [done|cbn; lia|done].
    + exists b', (S n). rewrite gen_iter_next in Hge. split_and!; [done|cbn; lia|done].
Qed.

(** A handle that designates nothing gives no access. *)
Lemma access_undesignated (bs : list SharedBuffer) (caps : cap_state) (caller h cap : Z) (w : bool) :
  buf_inv bs → (∀ slot b, ¬ buf_designates bs h slot b) →
  ∃ s, lettuce_shared_buffer_access caller h cap w true caps bs = Some (s, None) ∧ s ≠ LETTUCE_STATUS_OK.
Proof.
  intros Hinv Hno. unfold lettuce_shared_buffer_access.
  destruct (decode_handle h) as [[slot gen]|] eqn:Hd; [|eauto].
  destruct (buf_get bs slot Hinv) as (b & Hb & _); [by eapply buffer_decode_range|].
  rewrite Hb. cbn [mbind option_bind].
  destruct (negb (active b) || negb (generation b =? gen)) eqn:H1; [eauto|]. b2p.
  exfalso. apply (Hno slot b). split_and!; congruence.
Qed.

(** ** Claims *)

(** The rights an access in the given direction needs. *)
Definition access_operation (w : bool) : Z :=
  if w then LETTUCE_SHARED_WRITE_OPERATION else LETTUCE_SHARED_READ_OPERATION.
Definition access_permission (w : bool) : Z := if w then LETTUCE_CAP_WRITE else LETTUCE_CAP_READ.
Definition access_capability (w : bool) (b : SharedBuffer) : Z :=
  if w then write_capability b else read_capability b.

(** C15: access to a shared buffer is exactly authorised: it succeeds if and only if
    the handle designates an active buffer, the capability presented is the one
    configured for the direction, and that capability is live and lets the running
    service read (write) the buffer's resource of the owner; the payload exposed is the
    designated buffer's, with a size of at most 4096 bytes.  Everything else is an error
    that exposes nothing. *)
Theorem shared_access_exact (bs : list SharedBuffer) (caps : cap_state) (caller h cap : Z) (w : bool) :
  buf_inv bs → cap_inv caps →
  (∃ slot b e, buf_designates bs h slot b ∧ cap = access_capability w b ∧
     caller ≠ LETTUCE_SERVICE_ID_INVALID ∧ cap_designates caps cap e ∧
     entry_authorizes e caller (owner b) (access_operation w) (access_permission w) (resource b) ∧
     0 < size b ≤ LETTUCE_SHARED_BUFFER_SIZE ∧
     lettuce_shared_buffer_access caller h cap w true caps bs = Some (LETTUCE_STATUS_OK, Some (slot, size b))) ∨
  ((∀ slot b e, buf_designates bs h slot b → cap = access_capability w b →
      caller ≠ LETTUCE_SERVICE_ID_INVALID → cap_designates caps cap e →
      ¬ entry_authorizes e caller (owner b) (access_operation w) (access_permission w) (resource b)) ∧
   ∃ s, lettuce_shared_buffer_access caller h cap w true caps bs = Some (s, None) ∧ s ≠ LETTUCE_STATUS_OK).
Proof.
  intros Hinv Hcaps.
  destruct (decide (∃ slot b, buf_designates bs h slot b)) as [(slot & b & Hdes)|Hno].
  2:{ right. split; [naive_solver|]. apply access_undesignated; naive_solver. }
  assert (∀ s x, buf_designates bs h s x → x = b) as Huniq.
  { intros s x (Hd1 & Hb1 & _). destruct Hdes as (Hd2 & Hb2 & _). congruence. }
  pose proof Hdes as (Hd & Hb & Ha). unfold lettuce_shared_buffer_access. rewrite Hd, Hb.
  cbn [mbind option_bind]. rewrite Ha, Z.eqb_refl. cbn [negb orb].
  change (if w then write_capability b else read_capability b) with (access_capability w b).
  destruct (Z.eqb_spec cap (access_capability w b)) as [->|Hne]; cbn [negb].
  2:{ right. split; [|cbn; eauto]. intros s x e Hx%Huniq Hc. congruence. }
  destruct (check_spec caps caller (access_capability w b) (owner b) (access_operation w)
    (access_permission w) (resource b) Hcaps) as (g & Hg & Hiff).
  unfold access_operation, access_permission in Hg. rewrite Hg. cbn [mbind option_bind].
  destruct g; cbn [negb].
  - left. destruct (proj1 Hiff eq_refl) as (_ & Hcaller & e & He & Hau). exists slot, b, e.
    split_and!; try done; by apply (bo_size _ (bi_ok _ Hinv _ _ Hb)).
  - right. split; [|eauto]. intros s x e ->%Huniq _ Hcaller He Hau.
    assert (false = true) as H; [|done]. apply Hiff. split; [by destruct w|]. eauto.
Qed.

(** A created buffer is fresh.  With a free slot and good arguments the owner
    gets the lowest free slot, a handle that designates it, and a payload of 4096 zero
    bytes whatever the previous user of the slot left there; no other buffer changes. *)
Theorem created_buffer_is_fresh (bs : list SharedBuffer) (caller own res sz rcap wcap : Z) :
  buf_inv bs → create_args_ok caller own res sz →
  (∃ i b, arr_get bs i = Some b ∧ active b = false) →
  ∃ i h bs' b', lettuce_shared_buffer_create caller own res sz rcap wcap true bs =
      Some (LETTUCE_STATUS_OK, Some h, bs') ∧ buf_inv bs' ∧
    (∀ j x, 0 ≤ j < i → arr_get bs j = Some x → active x = true) ∧
    buf_designates bs' h i b' ∧ owner b' = own ∧ resource b' = res ∧ size b' = sz ∧
    data b' = replicate 4096 0 ∧ ∀ j, j ≠ i → arr_get bs' j = arr_get bs j.
Proof.
  intros Hinv Hok (i0 & b0 & Hb0 & Hfree).
  destruct (create_search bs caller own res sz rcap wcap Hinv Hok)
    as [(i & b & bs1 & Hb & Ha & Hlow & Hc & Hset)|[Hfull _]]; [|by rewrite (Hfull _ _ Hb0) in Hfree].
  pose proof (bo_gen _ (bi_ok _ Hinv _ _ Hb)) as Hg. pose proof (arr_get_Some_range _ _ _ Hb) as Hr.
  rewrite (bi_len _ Hinv) in Hr.
  exists i, (pack (generation b) (i + 1)), bs1, (granted_buffer own res sz rcap wcap (generation b)).
  split_and!; try done.
  - eapply buf_inv_set; [done..|]. destruct Hok as (_ & _ & ? & _). split; [done|apply data_zero_len|done].
  - split; [apply buffer_decode_pack; [done|by apply gen_ok_u16]|]. split; [|done].
    rewrite (arr_get_set _ _ _ _ _ Hset). by rewrite decide_True.
  - intros j Hj. rewrite (arr_get_set _ _ _ _ _ Hset). by rewrite decide_False by congruence.
Qed.

(** C17: a revoked buffer is gone.  The owner's revocation clears the whole payload;
    after it, and after any sequence of fewer than 65534 further creations, revocations
    and payload stores, the handle gives no access to anyone with any capability in any
    direction. *)
Theorem revoked_buffer_is_gone (bs bs1 bs2 : list SharedBuffer) (caller h : Z) cs :
  buf_inv bs → lettuce_shared_buffer_revoke caller h bs = Some (LETTUCE_STATUS_OK, bs1) →
  Forall buf_call_wf cs → buf_run cs bs1 = Some bs2 → Z.of_nat (length cs) < 65534 →
  (∃ slot b b1, buf_designates bs h slot b ∧ arr_get bs1 slot = Some b1 ∧ data b1 = replicate 4096 0) ∧
  ∀ c cap w caps, ∃ s, lettuce_shared_buffer_access c h cap w true caps bs2 = Some (s, None) ∧
                       s ≠ LETTUCE_STATUS_OK.
Proof.
  intros Hinv Hrev Hwf Hrun Hlen.
  destruct (decide (∃ slot b, buf_designates bs h slot b)) as [(slot & b & Hdes)|Hno].
  2:{ destruct (buf_revoke_refused bs caller h Hinv) as (s & Hr & Hs); [naive_solver|congruence]. }
  destruct (decide (caller = owner b)) as [->|Hne].
  2:{ destruct (buf_revoke_refused bs caller h Hinv) as (s & Hr & Hs); [|by simplify_eq].
      intros s2 b2 (Hd2 & Hb2 & _). destruct Hdes as (Hd & Hb & _). congruence. }
  destruct (buf_revoke_served bs h slot b Hinv Hdes) as (bs1' & Hr & Hset & Hinv1). simplify_eq.
  assert (arr_get bs1 slot = Some (revoked_buffer b)) as Hb1.
  { rewrite (arr_get_set _ _ _ _ _ Hset). by rewrite decide_True. }
  pose proof Hdes as (Hd & Hb & _). split.
  { by exists slot, b, (revoked_buffer b). }
  destruct (buf_run_generation cs bs1 bs2 slot _ Hinv1 Hwf Hrun Hb1) as (Hinv2 & b2 & n & Hb2 & Hn & Hge).
  intros c cap w caps. apply access_undesignated; [done|]. intros s x (Hd' & Hx & _). simplify_eq.
  cbn in Hge. rewrite gen_iter_next in Hge.
  apply (gen_iter_ne (S n) (generation b)); [by apply (bo_gen _ (bi_ok _ Hinv _ _ Hb))|lia|congruence].
Qed.

(** ** Witnesses *)

(** The state after [lettuce_shared_buffer_init] at boot. *)
Definition buf_fresh : list SharedBuffer :=
  replicate (Z.to_nat LETTUCE_SHARED_BUFFER_COUNT) (buffer_with_generation 1).

Lemma buffers_boot_init : lettuce_shared_buffer_init buffers_boot = Some (LETTUCE_STATUS_OK, buf_fresh).
Proof. vm_compute. reflexivity. Qed.

Lemma buf_fresh_inv : buf_inv buf_fresh.
Proof.
  unfold buf_fresh. split; [by rewrite length_replicate|]. intros i b Hb.
  pose proof (arr_get_Some_range _ _ _ Hb) as Hr. rewrite length_replicate in Hr.
  rewrite arr_get_replicate in Hb by exact Hr. injection Hb as <-.
  split; [unfold gen_ok; cbn [generation buffer_with_generation]; lia|apply data_zero_len|discriminate].
Qed.

Lemma buf_fresh_slot : ∃ i b, arr_get buf_fresh i = Some b ∧ active b = false.
Proof. exists 0, (buffer_with_generation 1). split; reflexivity. Qed.

Lemma buf_demo_args : create_args_ok 20 20 7 100.
Proof. unfold create_args_ok, LETTUCE_SHARED_BUFFER_SIZE. repeat split; try discriminate; lia. Qed.

Lemma created_buffer_is_fresh_witness :
  ∃ h bs', lettuce_shared_buffer_create 20 20 7 100 65537 65538 true buf_fresh =
    Some (LETTUCE_STATUS_OK, Some h, bs') ∧ buf_inv bs'.
Proof.
  destruct (created_buffer_is_fresh buf_fresh 20 20 7 100 65537 65538 buf_fresh_inv buf_demo_args
    buf_fresh_slot) as (i & h & bs' & b' & Hc & Hinv & _).
  exists h, bs'. split; [exact Hc|exact Hinv].
Defined.

(** A system in which service 20 owns buffer 0 and service 10 may read it. *)
Definition buf_demo : list SharedBuffer :=
  <[0%nat := granted_buffer 20 7 100 65537 0 1]> buf_fresh.

Lemma buf_demo_inv : buf_inv buf_demo.
Proof.
  apply (buf_inv_set buf_fresh _ 0 (granted_buffer 20 7 100 65537 0 1) buf_fresh_inv); [reflexivity|].
  split; [unfold gen_ok; cbn; lia|apply data_zero_len|cbn; unfold LETTUCE_SHARED_BUFFER_SIZE; lia].
Qed.

Definition buf_demo_caps : cap_state :=
  match lettuce_capability_create 10 20 LETTUCE_SHARED_READ_OPERATION LETTUCE_CAP_READ 7 cap_fresh with
  | Some (_, st) => st
  | None => cap_fresh
  end.

Lemma buf_demo_caps_inv : cap_inv buf_demo_caps.
Proof.
  destruct (cap_exec_inv (CreateCall 10 20 LETTUCE_SHARED_READ_OPERATION LETTUCE_CAP_READ 7) cap_fresh
    cap_fresh_inv) as (r & st & Hx & Hinv).
  unfold buf_demo_caps. cbn [cap_exec] in Hx.
  destruct (lettuce_capability_create 10 20 LETTUCE_SHARED_READ_OPERATION LETTUCE_CAP_READ 7 cap_fresh)
    as [[h st']|]; [|discriminate]. cbn in Hx. injection Hx as _ <-. exact Hinv.
Qed.

Lemma shared_access_exact_witness :
  lettuce_shared_buffer_access 10 65537 65537 false true buf_demo_caps buf_demo =
    Some (LETTUCE_STATUS_OK, Some (0, 100)) ∧
  ∃ s, lettuce_shared_buffer_access 10 65537 65537 true true buf_demo_caps buf_demo = Some (s, None) ∧
       s ≠ LETTUCE_STATUS_OK.
Proof.
  split.
  - destruct (shared_access_exact buf_demo buf_demo_caps 10 65537 65537 false buf_demo_inv buf_demo_caps_inv)
      as [(slot & b & e & (Hd & Hb & _) & _ & _ & _ & _ & _ & Hr)|[Hno _]].
    + rewrite Hr. vm_compute in Hd. injection Hd as <- _. vm_compute in Hb. injection Hb as <-. reflexivity.
    + exfalso. apply (Hno 0 (granted_buffer 20 7 100 65537 0 1)
        (entry_grant cap_entry_fresh 10 20 LETTUCE_SHARED_READ_OPERATION LETTUCE_CAP_READ 7)).
      * split; [reflexivity|split; reflexivity].
      * reflexivity.
      * discriminate.
      * exists 0, 1. vm_compute. repeat split; reflexivity.
      * repeat split.
  - destruct (shared_access_exact buf_demo buf_demo_caps 10 65537 65537 true buf_demo_inv buf_demo_caps_inv)
      as [(slot & b & e & Hd & Hc & _)|[_ (s & Hr & Hs)]].
    + exfalso. destruct Hd as (Hd & Hb & _). vm_compute in Hd. injection Hd as <- _.
      vm_compute in Hb. injection Hb as <-. discriminate Hc.
    + exists s. split; [exact Hr|exact Hs].
Defined.

Lemma revoked_buffer_is_gone_witness :
  ∃ bs1, lettuce_shared_buffer_revoke 20 65537 buf_demo = Some (LETTUCE_STATUS_OK, bs1) ∧
    ∀ c cap w caps, ∃ s, lettuce_shared_buffer_access c 65537 cap w true caps bs1 = Some (s, None) ∧
                         s ≠ LETTUCE_STATUS_OK.
Proof.
  assert (buf_designates buf_demo 65537 0 (granted_buffer 20 7 100 65537 0 1)) as Hdes
    by (split; [reflexivity|split; reflexivity]).
  destruct (buf_revoke_served buf_demo 65537 0 _ buf_demo_inv Hdes) as (bs1 & Hr & _).
  exists bs1. split; [exact Hr|].
  apply (revoked_buffer_is_gone buf_demo bs1 bs1 20 65537 [] buf_demo_inv Hr); [constructor|reflexivity..].
Defined.

End SharedBuffer.
