(* ===== verification/Task.v ===== *)
(** * The task table: [kernel/main/task.c], [kernel/include/task.h]

    16 task records with generational identifiers: 16 bits of generation over 16 bits
    of slot (the slot itself, so slot 0 of generation [g] is [g << 16]).  A
    [LettuceTask *] into the table is its slot; [None] is [NULL].  Writing a field
    through such a pointer is [task_update]. *)

From S2P Require Import Prelude Types Generation.

Definition LETTUCE_MAX_TASKS : Z := 16.
Definition LETTUCE_EEVDF_BASE_WEIGHT : Z := 1024.
Definition LETTUCE_EEVDF_DEFAULT_SLICE : Z := 5.

Inductive LettuceTaskState :=
  | LETTUCE_TASK_STATE_UNUSED
  | LETTUCE_TASK_STATE_READY
  | LETTUCE_TASK_STATE_RUNNING
  | LETTUCE_TASK_STATE_SLEEPING
  | LETTUCE_TASK_STATE_BLOCKED
  | LETTUCE_TASK_STATE_TERMINATED.

#[export] Instance LettuceTaskState_eq_dec : EqDecision LettuceTaskState.
Proof. solve_decision. Defined.

(** [state == s] *)
Definition state_is (s s' : LettuceTaskState) : bool := bool_decide (s = s').

Record LettuceTaskContext := {
  ctx_x : list Z;
  ctx_sp_el0 : Z;
  ctx_elr_el1 : Z;
  ctx_spsr_el1 : Z
}.

Record LettuceTask := mkTask {
  tk_id : Z;
  tk_generation : Z;
  tk_priority : Z;
  tk_padding1 : Z;
  tk_service_id : Z;
  tk_domain_id : Z;
  tk_state : LettuceTaskState;
  tk_weight : Z;
  tk_requested_slice_ticks : Z;
  tk_padding2 : Z;
  tk_time_slice_ticks : Z;
  tk_quantum_ticks : Z;
  tk_vruntime : Z;
  tk_vdeadline : Z;
  tk_sleep_deadline_ticks : Z;
  tk_total_ticks_run : Z;
  tk_stack_base : Z;
  tk_stack_size : Z;
  tk_name : Z;
  tk_context : LettuceTaskContext
}.

Record task_state := {
  g_task_table : list LettuceTask;
  g_current_task : option Z
}.

(** ** Stores to one field *)

Definition set_state (s : LettuceTaskState) (t : LettuceTask) : LettuceTask :=
  let '(mkTask a b c d e f _ h i j k l m n o p q r u v) := t in
  mkTask a b c d e f s h i j k l m n o p q r u v.

Definition set_generation (g : Z) (t : LettuceTask) : LettuceTask :=
  let '(mkTask a _ c d e f s h i j k l m n o p q r u v) := t in
  mkTask a g c d e f s h i j k l m n o p q r u v.

Definition set_weight (w : Z) (t : LettuceTask) : LettuceTask :=
  let '(mkTask a b c d e f s _ i j k l m n o p q r u v) := t in
  mkTask a b c d e f s w i j k l m n o p q r u v.

Definition set_slice_quantum (n' : Z) (t : LettuceTask) : LettuceTask :=
  let '(mkTask a b c d e f s h _ j k _ m n o p q r u v) := t in
  mkTask a b c d e f s h n' j k n' m n o p q r u v.

Definition set_sleep_deadline (x : Z) (t : LettuceTask) : LettuceTask :=
  let '(mkTask a b c d e f s h i j k l m n _ p q r u v) := t in
  mkTask a b c d e f s h i j k l m n x p q r u v.

Definition set_context (x : LettuceTaskContext) (t : LettuceTask) : LettuceTask :=
  let '(mkTask a b c d e f s h i j k l m n o p q r u _) := t in
  mkTask a b c d e f s h i j k l m n o p q r u x.

(** The four fields a scheduling policy accounts in. *)
Definition set_accounting (slice vrun vdead total : Z) (t : LettuceTask) : LettuceTask :=
  let '(mkTask a b c d e f s h i j _ l _ _ o _ q r u v) := t in
  mkTask a b c d e f s h i j slice l vrun vdead o total q r u v.

Definition set_time_slice (x : Z) (t : LettuceTask) : LettuceTask :=
  set_accounting x (tk_vruntime t) (tk_vdeadline t) (tk_total_ticks_run t) t.

Definition set_vruntime (x : Z) (t : LettuceTask) : LettuceTask :=
  set_accounting (tk_time_slice_ticks t) x (tk_vdeadline t) (tk_total_ticks_run t) t.

Definition set_vdeadline (x : Z) (t : LettuceTask) : LettuceTask :=
  set_accounting (tk_time_slice_ticks t) (tk_vruntime t) x (tk_total_ticks_run t) t.

Definition set_total_ticks (x : Z) (t : LettuceTask) : LettuceTask :=
  set_accounting (tk_time_slice_ticks t) (tk_vruntime t) (tk_vdeadline t) x t.

(** [t->... = ...] through a pointer into the table. *)
Definition task_update (slot : Z) (f : LettuceTask → LettuceTask) (table : list LettuceTask)
    : option (list LettuceTask) :=
  t ← arr_get table slot; arr_set table slot (f t).

(** ** Operations *)

Definition context_zero : LettuceTaskContext :=
  {| ctx_x := replicate 31 0; ctx_sp_el0 := 0; ctx_elr_el1 := 0; ctx_spsr_el1 := 0 |}.

Definition task_unused : LettuceTask :=
  mkTask 0 1 0 0 0 0 LETTUCE_TASK_STATE_UNUSED LETTUCE_EEVDF_BASE_WEIGHT LETTUCE_EEVDF_DEFAULT_SLICE
    0 0 LETTUCE_EEVDF_DEFAULT_SLICE 0 0 0 0 0 0 0 context_zero.

Definition lettuce_task_init_subsystem (st : task_state) : option task_state :=
  table ← for_range (Z.to_nat LETTUCE_MAX_TASKS) 0 (λ i tb, arr_set tb i task_unused) (g_task_table st);
  Some {| g_task_table := table; g_current_task := None |}.

(** The stores of [lettuce_task_create] into the chosen record; the stack fields
    keep their values. *)
Definition task_fresh (i service_id domain_id entry_pc stack_top name : Z) (t : LettuceTask) : LettuceTask :=
  let gen := if tk_generation t =? 0 then 1 else tk_generation t in
  mkTask (u32 (gen .<< 16) .| i) gen 0 0 service_id domain_id LETTUCE_TASK_STATE_READY
    LETTUCE_EEVDF_BASE_WEIGHT LETTUCE_EEVDF_DEFAULT_SLICE 0 LETTUCE_EEVDF_DEFAULT_SLICE
    LETTUCE_EEVDF_DEFAULT_SLICE 0 0 0 0 (tk_stack_base t) (tk_stack_size t) name
    {| ctx_x := replicate 31 0; ctx_sp_el0 := stack_top; ctx_elr_el1 := entry_pc; ctx_spsr_el1 := 0 |}.

Definition lettuce_task_create (service_id domain_id entry_pc stack_top name : Z) (st : task_state)
    : option (option Z * task_state) :=
  f ← for_flow (Z.to_nat LETTUCE_MAX_TASKS) 0
        (λ i tb,
           t ← arr_get tb i;
           if state_is (tk_state t) LETTUCE_TASK_STATE_UNUSED || state_is (tk_state t) LETTUCE_TASK_STATE_TERMINATED
           then tb' ← arr_set tb i (task_fresh i service_id domain_id entry_pc stack_top name t);
                Some (Return i tb')
           else Some (Next tb)) (g_task_table st);
  match f with
  | Return i tb => Some (Some i, {| g_task_table := tb; g_current_task := g_current_task st |})
  | Next tb | Break tb => Some (None, {| g_task_table := tb; g_current_task := g_current_task st |})
  end.

Definition lettuce_task_get (id : Z) (table : list LettuceTask) : option (option Z) :=
  let slot := id .& 65535 in
  let gen := u16 (id .>> 16) in
  if LETTUCE_MAX_TASKS <=? slot then Some None else
  t ← arr_get table slot;
  if negb (tk_generation t =? gen) then Some None else
  if state_is (tk_state t) LETTUCE_TASK_STATE_UNUSED then Some None else
  Some (Some slot).

Definition lettuce_task_current (st : task_state) : option Z := g_current_task st.

Definition lettuce_task_set_current (task : option Z) (st : task_state) : task_state :=
  {| g_task_table := g_task_table st; g_current_task := task |}.

Definition lettuce_task_terminate (id : Z) (st : task_state) : option task_state :=
  t ← lettuce_task_get id (g_task_table st);
  match t with
  | None => Some st
  | Some slot =>
      tb ← task_update slot (λ t, set_generation (gen_next (tk_generation t))
                                    (set_state LETTUCE_TASK_STATE_TERMINATED t)) (g_task_table st);
      Some {| g_task_table := tb;
              g_current_task := if bool_decide (g_current_task st = Some slot) then None else g_current_task st |}
  end.

Definition task_is_active (t : LettuceTask) : bool :=
  negb (state_is (tk_state t) LETTUCE_TASK_STATE_UNUSED) &&
  negb (state_is (tk_state t) LETTUCE_TASK_STATE_TERMINATED).

Definition lettuce_task_active_count (table : list LettuceTask) : option Z :=
  for_range (Z.to_nat LETTUCE_MAX_TASKS) 0
    (λ i count, t ← arr_get table i; Some (if task_is_active t then u32 (count + 1) else count)) 0.

Definition lettuce_task_set_weight (task : option Z) (weight : Z) (table : list LettuceTask)
    : option (list LettuceTask) :=
  match task with
  | None => Some table
  | Some slot =>
      task_update slot (set_weight (if weight =? 0 then 1 else if 10240 <? weight then 10240 else weight)) table
  end.

Definition lettuce_task_get_weight (task : option Z) (table : list LettuceTask) : option Z :=
  match task with
  | None => Some LETTUCE_EEVDF_BASE_WEIGHT
  | Some slot => t ← arr_get table slot; Some (tk_weight t)
  end.

Definition lettuce_task_set_slice (task : option Z) (slice_ticks : Z) (table : list LettuceTask)
    : option (list LettuceTask) :=
  match task with
  | None => Some table
  | Some slot => task_update slot (set_slice_quantum (if slice_ticks =? 0 then 1 else slice_ticks)) table
  end.

Definition lettuce_task_get_slice (task : option Z) (table : list LettuceTask) : option Z :=
  match task with
  | None => Some LETTUCE_EEVDF_DEFAULT_SLICE
  | Some slot => t ← arr_get table slot; Some (tk_requested_slice_ticks t)
  end.

(** The scan every user of the table repeats: try generations 1 to 10 of a slot and
    stop at the first identifier that resolves,
    [for (gen = 1; gen <= 10; ++gen) { t = lettuce_task_get((gen << 16) | slot); if (t != 0) { ...; break; } }]. *)
Definition task_scan (slot : Z) (table : list LettuceTask) : option (option Z) :=
  f ← for_flow 10 1
        (λ gen (_ : unit),
           t ← lettuce_task_get (u32 (gen .<< 16) .| slot) table;
           Some (match t with Some p => Return p tt | None => Next tt end)) tt;
  Some (match f with Return p _ => Some p | _ => None end).

(** ** The invariant *)

(** A task past creation carries its own identifier, unless it is terminated; register
    files have 31 registers. *)
Record task_ok (i : Z) (t : LettuceTask) : Prop := {
  to_gen : gen_ok (tk_generation t);
  to_id : task_is_active t = true → tk_id t = pack (tk_generation t) i;
  to_regs : length (ctx_x (tk_context t)) = 31%nat
}.

Record task_inv (st : task_state) : Prop := {
  ti_len : Z.of_nat (length (g_task_table st)) = LETTUCE_MAX_TASKS;
  ti_task : ∀ i t, arr_get (g_task_table st) i = Some t → task_ok i t;
  ti_current : ∀ c, g_current_task st = Some c → 0 ≤ c < LETTUCE_MAX_TASKS
}.

(** The scan finds exactly the used slots of generation at most 10. *)
Definition task_visible (t : LettuceTask) : bool :=
  negb (state_is (tk_state t) LETTUCE_TASK_STATE_UNUSED) && (tk_generation t <=? 10).

(** ** Facts *)

Lemma state_is_true (s s' : LettuceTaskState) : state_is s s' = true ↔ s = s'.
Proof. apply bool_decide_eq_true. Qed.

Lemma state_is_false (s s' : LettuceTaskState) : state_is s s' = false ↔ s ≠ s'.
Proof. apply bool_decide_eq_false. Qed.

Lemma state_is_refl (s : LettuceTaskState) : state_is s s = true.
Proof. by apply state_is_true. Qed.

Lemma task_update_Some (table : list LettuceTask) (slot : Z) f t :
  arr_get table slot = Some t →
  ∃ table', task_update slot f table = Some table' ∧ arr_set table slot (f t) = Some table' ∧
    length table' = length table ∧
    ∀ i, arr_get table' i = if decide (slot = i) then Some (f t) else arr_get table i.
Proof.
  intros Ht. unfold task_update. rewrite Ht. cbn [mbind option_bind].
  pose proof (arr_get_Some_range _ _ _ Ht) as Hr. rewrite arr_set_Some by done.
  eexists. split; [done|]. split; [done|]. rewrite length_insert. split; [done|].
  intros i. by rewrite arr_get_insert.
Qed.

Lemma task_get_pack (table : list LettuceTask) (slot gen : Z) t :
  0 ≤ slot < LETTUCE_MAX_TASKS → is_u16 gen → arr_get table slot = Some t →
  lettuce_task_get (pack gen slot) table =
  Some (if (tk_generation t =? gen) && negb (state_is (tk_state t) LETTUCE_TASK_STATE_UNUSED)
        then Some slot else None).
Proof.
  unfold LETTUCE_MAX_TASKS. intros Hs Hg Ht. unfold lettuce_task_get, LETTUCE_MAX_TASKS.
  rewrite pack_field, pack_gen by (done || lia). rewrite (proj2 (Z.leb_gt _ _)) by lia.
  rewrite Ht. cbn. by destruct (tk_generation t =? gen), (state_is (tk_state t) LETTUCE_TASK_STATE_UNUSED).
Qed.

Lemma task_get_range (id : Z) (table : list LettuceTask) (slot : Z) :
  lettuce_task_get id table = Some (Some slot) →
  ∃ t, arr_get table slot = Some t ∧ slot = id .& 65535 ∧ slot < LETTUCE_MAX_TASKS ∧
    tk_generation t = u16 (id .>> 16) ∧ tk_state t ≠ LETTUCE_TASK_STATE_UNUSED.
Proof.
  unfold lettuce_task_get. destruct (Z.leb_spec LETTUCE_MAX_TASKS (id .& 65535)); [done|].
  destruct (arr_get table (id .& 65535)) as [t|] eqn:Ht; [|done]. cbn.
  destruct (Z.eqb_spec (tk_generation t) (u16 (id .>> 16))); cbn; [|done].
  destruct (state_is (tk_state t) LETTUCE_TASK_STATE_UNUSED) eqn:Hs; [done|]. intros [= <-].
  apply state_is_false in Hs. by exists t.
Qed.

(** The scan resolves a slot by its generation, but only up to 10. *)
Lemma task_scan_spec (table : list LettuceTask) (slot : Z) t :
  0 ≤ slot < LETTUCE_MAX_TASKS → arr_get table slot = Some t → gen_ok (tk_generation t) →
  task_scan slot table = Some (if task_visible t then Some slot else None).
Proof.
  intros Hs Ht Hg. unfold task_scan, task_visible.
  assert (∀ gen, 1 ≤ gen ≤ 10 → lettuce_task_get (u32 (gen .<< 16) .| slot) table =
    Some (if (tk_generation t =? gen) && negb (state_is (tk_state t) LETTUCE_TASK_STATE_UNUSED)
          then Some slot else None)) as Hget.
  { intros gen Hgen. rewrite u32_small.
    - apply task_get_pack; [done|unfold is_u16; lia|done].
    - unfold is_u32. rewrite Z.shiftl_mul_pow2 by lia. lia. }
  destruct (state_is (tk_state t) LETTUCE_TASK_STATE_UNUSED) eqn:Hu; cbn [negb andb] in *.
  - destruct (for_flow_inv (λ _ _, True) (λ f : flow unit Z, match f with Next _ => True | _ => False end) 10 1
      (λ gen (_ : unit), t ← lettuce_task_get (u32 (gen .<< 16) .| slot) table;
         Some (match t with Some p => Return p tt | None => Next tt end)) tt) as (f & -> & Hf); [done| |done|].
    { intros k s Hk _. rewrite Hget by lia. rewrite andb_false_r. by eexists. }
    by destruct f.
  - destruct (for_flow_inv (λ k _, k ≤ tk_generation t) (λ f : flow unit Z, match f with
        | Next _ => 10 < tk_generation t | Break _ => False
        | Return p _ => p = slot ∧ tk_generation t ≤ 10 end) 10 1
      (λ gen (_ : unit), t ← lettuce_task_get (u32 (gen .<< 16) .| slot) table;
         Some (match t with Some p => Return p tt | None => Next tt end)) tt) as (f & -> & Hf).
    + unfold gen_ok in Hg. lia.
    + intros k s Hk Hle. rewrite Hget, andb_true_r by lia. cbn [mbind option_bind].
      destruct (Z.eqb_spec (tk_generation t) k); eexists; (split; [done|]); cbn; lia.
    + intros _ H. lia.
    + cbn. destruct f as [?|?|p ?]; cbn in Hf; [|done|].
      * by rewrite (proj2 (Z.leb_gt _ _)) by lia.
      * destruct Hf as [-> ?]. by rewrite (proj2 (Z.leb_le _ _)) by lia.
Qed.

Lemma task_inv_set (st : task_state) (i : Z) (t : LettuceTask) table' cur' :
  task_inv st → arr_set (g_task_table st) i t = Some table' → task_ok i t →
  (∀ c, cur' = Some c → 0 ≤ c < LETTUCE_MAX_TASKS) →
  task_inv {| g_task_table := table'; g_current_task := cur' |}.
Proof.
  intros Hinv Hset Ht Hcur. split; cbn; [|..|done].
  - rewrite (arr_set_length _ _ _ _ Hset). apply Hinv.
  - intros j x. rewrite (arr_get_set _ _ _ _ _ Hset). case_decide; [|apply (ti_task _ Hinv)].
    intros [= <-]. by subst.
Qed.

Lemma task_get_slot (st : task_state) (i : Z) :
  task_inv st → 0 ≤ i < LETTUCE_MAX_TASKS → ∃ t, arr_get (g_task_table st) i = Some t ∧ task_ok i t.
Proof.
  intros Hinv Hi. destruct (arr_get_is_Some (g_task_table st) i) as [t Ht]; [by rewrite (ti_len _ Hinv)|].
  exists t. split; [done|]. by apply (ti_task _ Hinv).
Qed.

(** ** Creation *)

Lemma task_create_spec (st : task_state) (svc dom pc sp name : Z) :
  task_inv st →
  (∃ i t st', arr_get (g_task_table st) i = Some t ∧ task_is_active t = false ∧
     (∀ j x, 0 ≤ j < i → arr_get (g_task_table st) j = Some x → task_is_active x = true) ∧
     lettuce_task_create svc dom pc sp name st = Some (Some i, st') ∧
     arr_set (g_task_table st) i (task_fresh i svc dom pc sp name t) = Some (g_task_table st') ∧
     g_current_task st' = g_current_task st) ∨
  ((∀ j x, arr_get (g_task_table st) j = Some x → task_is_active x = true) ∧
   lettuce_task_create svc dom pc sp name st = Some (None, st)).
Proof.
  intros Hinv. pose proof (ti_len _ Hinv) as Hlen. unfold lettuce_task_create.
  match goal with |- context [for_flow ?n 0 ?body ?tb] =>
    destruct (for_flow_inv (λ k l, l = tb ∧ ∀ j x, 0 ≤ j < k → arr_get tb j = Some x → task_is_active x = true)
      (λ f, match f with
       | Next l => l = tb ∧ ∀ j x, arr_get tb j = Some x → task_is_active x = true
       | Break _ => False
       | Return i l => ∃ t, arr_get tb i = Some t ∧ task_is_active t = false ∧
           (∀ j x, 0 ≤ j < i → arr_get tb j = Some x → task_is_active x = true) ∧
           arr_set tb i (task_fresh i svc dom pc sp name t) = Some l end) n 0 body tb) as (f & -> & Hf)
  end.
  - split; [done|]. intros; lia.
  - intros k l Hk [-> Hpre]. rewrite Z2Nat.id in Hk by done.
    destruct (task_get_slot st k Hinv) as (t & Ht & _); [lia|]. rewrite Ht. cbn [mbind option_bind].
    destruct (state_is (tk_state t) _ || state_is (tk_state t) _) eqn:Hfree.
    + rewrite arr_set_Some by lia. cbn [mbind option_bind]. eexists. split; [done|]. exists t.
      split_and!; [done| |done|apply arr_set_Some; lia].
      unfold task_is_active. b2p. destruct Hfree as [-> | ->]; [done|]. by rewrite andb_false_r.
    + eexists. split; [done|]. split; [done|]. intros j x Hj Hx.
      destruct (decide (j = k)) as [->|]; [|eapply Hpre; [|done]; lia].
      simplify_eq. unfold task_is_active. b2p. by rewrite H, H0.
  - intros l [-> Hall]. split; [done|]. intros j x Hx. pose proof (arr_get_Some_range _ _ _ Hx).
    rewrite Z2Nat.id in Hall by done. eapply Hall; [|done]. lia.
  - cbn [mbind option_bind]. destruct f as [l|l|i l]; [|done|].
    + right. destruct Hf as [-> Hall]. split; [done|]. by destruct st.
    + left. destruct Hf as (t & ? & ? & ? & ?). by exists i, t, {| g_task_table := l; g_current_task := g_current_task st |}.
Qed.

Lemma task_fresh_ok (i svc dom pc sp name : Z) (t : LettuceTask) :
  0 ≤ i < LETTUCE_MAX_TASKS → gen_ok (tk_generation t) →
  task_ok i (task_fresh i svc dom pc sp name t) ∧
  tk_generation (task_fresh i svc dom pc sp name t) = tk_generation t.
Proof.
  unfold LETTUCE_MAX_TASKS. intros Hi Hg. unfold task_fresh, gen_ok in *.
  rewrite (proj2 (Z.eqb_neq _ _)) by lia. split; [|done]. split; cbn; [done| |done].
  intros _. rewrite u32_small; [done|]. unfold is_u32. rewrite Z.shiftl_mul_pow2 by lia. lia.
Qed.

(** ** Termination *)

Definition task_terminated (t : LettuceTask) : LettuceTask :=
  set_generation (gen_next (tk_generation t)) (set_state LETTUCE_TASK_STATE_TERMINATED t).

Lemma task_terminated_ok (i : Z) (t : LettuceTask) :
  task_ok i t → task_ok i (task_terminated t) ∧
  tk_generation (task_terminated t) = gen_next (tk_generation t) ∧ task_is_active (task_terminated t) = false.
Proof.
  intros [Hg Hid Hr]. destruct t; cbn in *. split_and!; [|done|done].
  split; cbn; [by apply gen_next_ok|done|done].
Qed.

Lemma task_terminate_spec (st : task_state) (id : Z) :
  task_inv st →
  (∃ slot t st', lettuce_task_get id (g_task_table st) = Some (Some slot) ∧
     arr_get (g_task_table st) slot = Some t ∧ lettuce_task_terminate id st = Some st' ∧
     arr_set (g_task_table st) slot (task_terminated t) = Some (g_task_table st') ∧
     g_current_task st' = (if bool_decide (g_current_task st = Some slot) then None else g_current_task st) ∧
     task_inv st') ∨
  (lettuce_task_get id (g_task_table st) = Some None ∧ lettuce_task_terminate id st = Some st).
Proof.
  intros Hinv. unfold lettuce_task_terminate.
  destruct (lettuce_task_get id (g_task_table st)) as [[slot|]|] eqn:Hget.
  - left. destruct (task_get_range _ _ _ Hget) as (t & Ht & _).
    destruct (task_update_Some (g_task_table st) slot task_terminated t Ht) as (tb & Hup & Hset & _).
    change (λ t, set_generation _ _) with task_terminated. cbn [mbind option_bind]. rewrite Hup.
    cbn [mbind option_bind]. do 3 eexists. split_and!; [done..|].
    eapply task_inv_set; [done..| |].
    + by apply task_terminated_ok, (ti_task _ Hinv).
    + intros c Hc. apply (ti_current _ Hinv). by case_bool_decide.
  - by right.
  - exfalso. unfold lettuce_task_get in Hget. destruct (Z.leb_spec LETTUCE_MAX_TASKS (id .& 65535)); [done|].
    destruct (task_get_slot st (id .& 65535) Hinv) as (t & Ht & _).
    { rewrite land_mask16 in *. pose proof (Z.mod_pos_bound id (2 ^ 16)). lia. }
    rewrite Ht in Hget. cbn in Hget. by repeat case_match.
Qed.

(** ** Sequences of creations and terminations *)

Inductive task_call :=
  | TaskCreate (service_id domain_id entry_pc stack_top name : Z)
  | TaskTerminate (id : Z).

Definition task_exec (c : task_call) (st : task_state) : option task_state :=
  match c with
  | TaskCreate s d e p n => '(_, st') ← lettuce_task_create s d e p n st; Some st'
  | TaskTerminate id => lettuce_task_terminate id st
  end.

Fixpoint task_run (cs : list task_call) (st : task_state) : option task_state :=
  match cs with
  | [] => Some st
  | c :: cs' => st1 ← task_exec c st; task_run cs' st1
  end.

(** Every call returns, keeps the invariant, and leaves the generation of a slot
    alone or advances it once. *)
Lemma task_exec_step (c : task_call) (st : task_state) :
  task_inv st →
  ∃ st', task_exec c st = Some st' ∧ task_inv st' ∧
    ∀ i t, arr_get (g_task_table st) i = Some t → ∃ t', arr_get (g_task_table st') i = Some t' ∧
      (tk_generation t' = tk_generation t ∨ tk_generation t' = gen_next (tk_generation t)).
Proof.
  intros Hinv.
  assert (∀ i t x st', arr_get (g_task_table st) i = Some t →
    arr_set (g_task_table st) i x = Some (g_task_table st') →
    (tk_generation x = tk_generation t ∨ tk_generation x = gen_next (tk_generation t)) →
    ∀ j y, arr_get (g_task_table st) j = Some y → ∃ y', arr_get (g_task_table st') j = Some y' ∧
      (tk_generation y' = tk_generation y ∨ tk_generation y' = gen_next (tk_generation y))) as Hupd.
  { intros i t x st' Ht Hset Hg j y Hy. rewrite (arr_get_set _ _ _ _ _ Hset). case_decide; simplify_eq; eauto. }
  destruct c as [s d e p n|id]; cbn.
  - destruct (task_create_spec st s d e p n Hinv) as [(i & t & st' & Ht & Ha & _ & -> & Hset & Hcur)|[_ ->]];
      cbn; [|eauto 10].
    pose proof (arr_get_Some_range _ _ _ Ht) as Hr. rewrite (ti_len _ Hinv) in Hr.
    destruct (task_fresh_ok i s d e p n t Hr) as [Hok Hg]; [by apply (ti_task _ Hinv _ _ Ht)|].
    exists st'. split; [done|]. split; [|by eapply Hupd; eauto].
    destruct st' as [tb cur]. cbn in *. subst cur. eapply task_inv_set; [done..|apply (ti_current _ Hinv)].
  - destruct (task_terminate_spec st id Hinv) as [(slot & t & st' & _ & Ht & -> & Hset & _ & Hinv')|[_ ->]];
      [|eauto 10].
    destruct (task_terminated_ok slot t) as (_ & Hg & _); [by apply (ti_task _ Hinv)|].
    exists st'. split_and!; [done..|]. by eapply Hupd; eauto.
Qed.

Lemma task_run_generation (cs : list task_call) (st : task_state) :
  task_inv st →
  ∃ st', task_run cs st = Some st' ∧ task_inv st' ∧
    ∀ i t, arr_get (g_task_table st) i = Some t → ∃ t' n, arr_get (g_task_table st') i = Some t' ∧
      (n ≤ length cs)%nat ∧ tk_generation t' = gen_iter n (tk_generation t).
Proof.
  revert st. induction cs as [|c cs IH]; intros st Hinv; cbn.
  - exists st. split_and!; [done..|]. intros i t Ht. by exists t, 0%nat.
  - destruct (task_exec_step c st Hinv) as (st1 & -> & Hinv1 & Hstep). cbn.
    destruct (IH st1 Hinv1) as (st' & -> & Hinv' & Hrun). exists st'. split_and!; [done..|].
    intros i t Ht. destruct (Hstep i t Ht) as (t1 & Ht1 & Hg).
    destruct (Hrun i t1 Ht1) as (t' & n & Ht' & Hn & Hge). destruct Hg as [Hg|Hg]; rewrite Hg in Hge.
    + exists t', n. split_and!; [done|lia|done].
    + exists t', (S n). rewrite gen_iter_next in Hge. split_and!; [done|lia|done].
Qed.

(** ** Initialisation *)

Definition task_table_fresh : list LettuceTask := replicate (Z.to_nat LETTUCE_MAX_TASKS) task_unused.

Lemma task_init_spec (st : task_state) :
  Z.of_nat (length (g_task_table st)) = LETTUCE_MAX_TASKS →
  lettuce_task_init_subsystem st = Some {| g_task_table := task_table_fresh; g_current_task := None |}.
Proof.
  intros Hlen. unfold lettuce_task_init_subsystem.
  destruct (for_range_inv (λ i l, Z.of_nat (length l) = LETTUCE_MAX_TASKS ∧
      ∀ k, 0 ≤ k < i → arr_get l k = Some task_unused)
    (Z.to_nat LETTUCE_MAX_TASKS) 0 (λ i tb, arr_set tb i task_unused) (g_task_table st)) as (l & -> & Hl & Hk).
  - split; [done|]. intros; lia.
  - intros k l Hk [Hl Hpre]. rewrite Z2Nat.id in Hk by done. rewrite arr_set_Some by lia.
    eexists. split; [done|]. rewrite length_insert. split; [done|]. intros j Hj.
    rewrite arr_get_insert by lia. case_decide; [done|]. apply Hpre. lia.
  - cbn [mbind option_bind]. rewrite Z2Nat.id in Hk by done. do 2 f_equal. unfold task_table_fresh. apply arr_eq.
    + rewrite length_replicate. lia.
    + intros i Hi. rewrite Hl in Hi. rewrite arr_get_replicate by (rewrite Z2Nat.id; done). by apply Hk.
Qed.

Lemma task_fresh_inv : task_inv {| g_task_table := task_table_fresh; g_current_task := None |}.
Proof.
  split; cbn; [done| |done]. intros i t Ht. pose proof (arr_get_Some_range _ _ _ Ht) as Hr.
  unfold task_table_fresh in *. rewrite length_replicate in Hr. rewrite arr_get_replicate in Ht by done.
  injection Ht as <-. split; cbn; [unfold gen_ok; lia|done|done].
Qed.

(** ** Claims *)

(** C18: creating a task takes the lowest slot whose task is unused or terminated (all
    lower slots are in use, and it keeps its generation); the new task is ready, its
    identifier resolves to its slot, it starts at the given entry point and stack with
    zeroed registers and the default weight and slice, and no other slot nor the current
    task changes.  Exactly when all 16 slots are in use the creation fails, and then
    changes nothing. *)
Theorem created_task_resolves (st : task_state) (svc dom pc sp name : Z) :
  task_inv st →
  (∃ i t0 t st', arr_get (g_task_table st) i = Some t0 ∧ task_is_active t0 = false ∧
     (∀ j x, 0 ≤ j < i → arr_get (g_task_table st) j = Some x → task_is_active x = true) ∧
     lettuce_task_create svc dom pc sp name st = Some (Some i, st') ∧ task_inv st' ∧
     arr_get (g_task_table st') i = Some t ∧ tk_state t = LETTUCE_TASK_STATE_READY ∧
     tk_generation t = tk_generation t0 ∧ lettuce_task_get (tk_id t) (g_task_table st') = Some (Some i) ∧
     tk_service_id t = svc ∧ tk_domain_id t = dom ∧ tk_weight t = LETTUCE_EEVDF_BASE_WEIGHT ∧
     tk_requested_slice_ticks t = LETTUCE_EEVDF_DEFAULT_SLICE ∧
     tk_context t = {| ctx_x := replicate 31 0; ctx_sp_el0 := sp; ctx_elr_el1 := pc; ctx_spsr_el1 := 0 |} ∧
     g_current_task st' = g_current_task st ∧
     ∀ j, j ≠ i → arr_get (g_task_table st') j = arr_get (g_task_table st) j) ∨
  ((∀ j x, arr_get (g_task_table st) j = Some x → task_is_active x = true) ∧
   lettuce_task_create svc dom pc sp name st = Some (None, st)).
Proof.
  intros Hinv. destruct (task_create_spec st svc dom pc sp name Hinv)
    as [(i & t & st' & Ht & Ha & Hlow & Hc & Hset & Hcur)|Hfull]; [left|by right].
  destruct (task_exec_step (TaskCreate svc dom pc sp name) st Hinv) as (st2 & Hx & Hinv' & _).
  cbn in Hx. rewrite Hc in Hx. cbn in Hx. simplify_eq.
  pose proof (arr_get_Some_range _ _ _ Ht) as Hr. rewrite (ti_len _ Hinv) in Hr.
  destruct (task_fresh_ok i svc dom pc sp name t Hr) as [Hok Hg]; [by apply (ti_task _ Hinv _ _ Ht)|].
  assert (arr_get (g_task_table st2) i = Some (task_fresh i svc dom pc sp name t)) as Ht'.
  { rewrite (arr_get_set _ _ _ _ _ Hset). by rewrite decide_True. }
  exists i, t, (task_fresh i svc dom pc sp name t), st2. split_and!; try done.
  - rewrite (to_id _ _ Hok) by done. rewrite (task_get_pack _ _ _ _ Hr (gen_ok_u16 _ (to_gen _ _ Hok)) Ht').
    by rewrite Z.eqb_refl.
  - intros j Hj. rewrite (arr_get_set _ _ _ _ _ Hset). by rewrite decide_False by congruence.
Qed.

(** C19: a terminated task's identifier is dead: it does not resolve after the
    termination, nor after any sequence of fewer than 65534 further creations and
    terminations, and the task is no longer the current one. *)
Theorem terminated_task_is_stale (st : task_state) (id slot : Z) cs :
  task_inv st → lettuce_task_get id (g_task_table st) = Some (Some slot) →
  Z.of_nat (length cs) < 65534 →
  ∃ st1 st2, lettuce_task_terminate id st = Some st1 ∧ g_current_task st1 ≠ Some slot ∧
    task_run cs st1 = Some st2 ∧ task_inv st2 ∧ lettuce_task_get id (g_task_table st2) = Some None.
Proof.
  intros Hinv Hget Hlen.
  destruct (task_terminate_spec st id Hinv) as [(s & t & st1 & Hget' & Ht & Hterm & Hset & Hcur & Hinv1)|[? _]];
    [|congruence].
  rewrite Hget in Hget'. injection Hget' as <-.
  destruct (task_get_range _ _ _ Hget) as (t' & Ht' & Hslot & Hs & Hg & _). simplify_eq.
  destruct (task_terminated_ok (id .& 65535) t) as (_ & Hg1 & _); [by apply (ti_task _ Hinv)|].
  destruct (task_run_generation cs st1 Hinv1) as (st2 & Hrun & Hinv2 & Hgen).
  destruct (Hgen (id .& 65535) (task_terminated t)) as (t2 & n & Ht2 & Hn & Hge).
  { rewrite (arr_get_set _ _ _ _ _ Hset). by rewrite decide_True. }
  exists st1, st2. split_and!; [done| |done|done|].
  - rewrite Hcur. case_bool_decide; congruence.
  - destruct (lettuce_task_get id (g_task_table st2)) as [[s|]|] eqn:Hget2; [|done|].
    + exfalso. destruct (task_get_range _ _ _ Hget2) as (t3 & Ht3 & Hs3 & _ & Hg3 & _). simplify_eq.
      rewrite Hg1, gen_iter_next in Hge.
      apply (gen_iter_ne (S n) (tk_generation t)); [by apply (ti_task _ Hinv _ _ Ht)|lia|congruence].
    + destruct (task_terminate_spec st2 id Hinv2) as [(? & ? & ? & ? & _)|[? _]]; congruence.
Qed.

(** ** Witnesses *)

Definition task_demo : task_state :=
  match lettuce_task_create 10 100 4096 8192 0
          {| g_task_table := task_table_fresh; g_current_task := None |} with
  | Some (_, st) => st
  | None => {| g_task_table := []; g_current_task := None |}
  end.

Lemma created_task_resolves_witness :
  ∃ i st', lettuce_task_create 10 100 4096 8192 0
    {| g_task_table := task_table_fresh; g_current_task := None |} = Some (Some i, st') ∧ task_inv st'.
Proof.
  destruct (created_task_resolves _ 10 100 4096 8192 0 task_fresh_inv)
    as [(i & t0 & t & st' & _ & _ & _ & Hc & Hinv & _)|[Hfull _]].
  - exists i, st'. split; [exact Hc|exact Hinv].
  - discriminate (Hfull 0 task_unused eq_refl).
Defined.

Lemma task_demo_inv : task_inv task_demo.
Proof.
  destruct (task_exec_step (TaskCreate 10 100 4096 8192 0) _ task_fresh_inv) as (st & Hx & Hinv & _).
  vm_compute in Hx. injection Hx as <-. exact Hinv.
Qed.

Lemma terminated_task_is_stale_witness :
  ∃ st1 st2, lettuce_task_terminate 65536 task_demo = Some st1 ∧
    task_run [TaskCreate 11 100 4096 8192 0] st1 = Some st2 ∧
    lettuce_task_get 65536 (g_task_table st2) = Some None.
Proof.
  destruct (terminated_task_is_stale task_demo 65536 0 [TaskCreate 11 100 4096 8192 0] task_demo_inv)
    as (st1 & st2 & Ht & _ & Hr & _ & Hg); [vm_compute; reflexivity|reflexivity|].
  exists st1, st2. split; [exact Ht|split; [exact Hr|exact Hg]].
Defined.
