(* ===== verification/Policy.v ===== *)
(** * The scheduling-policy interface: [kernel/scheduler/policy.h]

    A policy is a table of functions over the task table and the policies' static
    variables.  [PolicyLaws] is the contract the header states: a policy chooses which
    ready task runs next and updates scheduling metadata, nothing else.  The scheduler
    mechanism is proved against the contract, the policies discharge it. *)

From S2P Require Import Prelude Types Generation Task.

(** The static variables of [rr.c] and [eevdf.c]. *)
Record policy_vars := {
  g_rr_last_idx : Z;
  g_eevdf_vsys : Z
}.

(** What a policy reads and writes. *)
Record sched_mem := {
  sm_tasks : list LettuceTask;
  sm_vars : policy_vars
}.

Definition with_tasks (tb : list LettuceTask) (m : sched_mem) : sched_mem :=
  {| sm_tasks := tb; sm_vars := sm_vars m |}.

Definition sm_update (slot : Z) (f : LettuceTask → LettuceTask) (m : sched_mem) : option sched_mem :=
  tb ← task_update slot f (sm_tasks m); Some (with_tasks tb m).

Record LettuceSchedPolicyOps := {
  op_init : policy_vars → policy_vars;
  op_on_tick : option Z → Z → sched_mem → option sched_mem;
  op_pick_next : option Z → sched_mem → option (option Z * sched_mem);
  op_on_task_ready : option Z → sched_mem → option sched_mem;
  op_on_task_sleep : option Z → sched_mem → option sched_mem;
  op_on_task_wake : option Z → sched_mem → option sched_mem;
  op_on_task_block : option Z → sched_mem → option sched_mem;
  op_on_task_exit : option Z → sched_mem → option sched_mem
}.

(** ** Metadata *)

(** A task without the four fields a policy accounts in. *)
Definition task_core (t : LettuceTask) : LettuceTask := set_accounting 0 0 0 0 t.

(** Two tables that differ in scheduling metadata only. *)
Definition same_core (tb tb' : list LettuceTask) : Prop := task_core <$> tb' = task_core <$> tb.

#[export] Instance same_core_equiv : Equivalence same_core.
Proof. split; [done|by intros x y H; symmetry|]. intros x y z H1 H2. unfold same_core in *. congruence. Qed.

Record sm_ok (m : sched_mem) : Prop := {
  so_len : Z.of_nat (length (sm_tasks m)) = LETTUCE_MAX_TASKS;
  so_gen : ∀ i t, arr_get (sm_tasks m) i = Some t → gen_ok (tk_generation t)
}.

(** ** The contract *)

Definition ready_visible (t : LettuceTask) : Prop :=
  tk_state t = LETTUCE_TASK_STATE_READY ∧ task_visible t = true.

(** [policy_skips t]: a ready task the policy may overlook (virtual time at its
    maximum). *)
Class PolicyLaws (ops : LettuceSchedPolicyOps) := {
  policy_skips : LettuceTask → Prop;
  law_on_tick (slot d : Z) (m : sched_mem) :
    sm_ok m → 0 ≤ slot < LETTUCE_MAX_TASKS →
    ∃ m', op_on_tick ops (Some slot) d m = Some m' ∧ same_core (sm_tasks m) (sm_tasks m');
  law_on_task_ready (slot : Z) (m : sched_mem) :
    sm_ok m → 0 ≤ slot < LETTUCE_MAX_TASKS →
    ∃ m', op_on_task_ready ops (Some slot) m = Some m' ∧ same_core (sm_tasks m) (sm_tasks m');
  law_on_task_sleep (slot : Z) (m : sched_mem) :
    sm_ok m → 0 ≤ slot < LETTUCE_MAX_TASKS →
    ∃ m', op_on_task_sleep ops (Some slot) m = Some m' ∧ same_core (sm_tasks m) (sm_tasks m');
  law_on_task_wake (slot : Z) (m : sched_mem) :
    sm_ok m → 0 ≤ slot < LETTUCE_MAX_TASKS →
    ∃ m', op_on_task_wake ops (Some slot) m = Some m' ∧ same_core (sm_tasks m) (sm_tasks m');
  law_pick_next (curr : option Z) (m : sched_mem) :
    sm_ok m → (∀ c, curr = Some c → 0 ≤ c < LETTUCE_MAX_TASKS) →
    ∃ p m', op_pick_next ops curr m = Some (p, m') ∧ same_core (sm_tasks m) (sm_tasks m') ∧
      match p with
      | Some s => ∃ t, arr_get (sm_tasks m) s = Some t ∧
          (ready_visible t ∨ (curr = Some s ∧ tk_state t = LETTUCE_TASK_STATE_RUNNING))
      | None => ∀ i t, arr_get (sm_tasks m) i = Some t → ready_visible t → policy_skips t
      end
}.

(** ** Facts *)

Lemma task_core_accounting (a b c d : Z) (t : LettuceTask) : task_core (set_accounting a b c d t) = task_core t.
Proof. by destruct t. Qed.

Lemma task_core_fields (t t' : LettuceTask) :
  task_core t' = task_core t →
  tk_state t' = tk_state t ∧ tk_generation t' = tk_generation t ∧ tk_context t' = tk_context t ∧
  tk_id t' = tk_id t ∧ tk_service_id t' = tk_service_id t ∧ tk_domain_id t' = tk_domain_id t ∧
  tk_quantum_ticks t' = tk_quantum_ticks t ∧ tk_weight t' = tk_weight t ∧
  tk_sleep_deadline_ticks t' = tk_sleep_deadline_ticks t ∧
  tk_requested_slice_ticks t' = tk_requested_slice_ticks t.
Proof. destruct t, t'. cbn. intros [= *]. by subst. Qed.

Lemma same_core_length (tb tb' : list LettuceTask) : same_core tb tb' → length tb' = length tb.
Proof. intros H. apply (f_equal length) in H. by rewrite !length_fmap in H. Qed.

Lemma same_core_get (tb tb' : list LettuceTask) (i : Z) :
  same_core tb tb' → task_core <$> arr_get tb' i = task_core <$> arr_get tb i.
Proof.
  intros H. unfold arr_get. destruct (0 <=? i); [|done].
  rewrite <- !list_lookup_fmap. by rewrite H.
Qed.

Lemma same_core_Some (tb tb' : list LettuceTask) (i : Z) (t : LettuceTask) :
  same_core tb tb' → arr_get tb i = Some t → ∃ t', arr_get tb' i = Some t' ∧ task_core t' = task_core t.
Proof.
  intros H Ht. pose proof (same_core_get _ _ i H) as Hi. rewrite Ht in Hi. cbn in Hi.
  destruct (arr_get tb' i) as [t'|]; [|done]. cbn in Hi. exists t'. split; [done|]. congruence.
Qed.

Lemma same_core_ok (m m' : sched_mem) : same_core (sm_tasks m) (sm_tasks m') → sm_ok m → sm_ok m'.
Proof.
  intros H [Hlen Hgen]. split; [by rewrite (same_core_length _ _ H)|].
  intros i t' Ht'. symmetry in H. destruct (same_core_Some _ _ i t' H Ht') as (t & Ht & Hc).
  apply task_core_fields in Hc as (_ & <- & _). by eapply Hgen.
Qed.

Lemma same_core_update (m : sched_mem) (slot : Z) f :
  sm_ok m → 0 ≤ slot < LETTUCE_MAX_TASKS → (∀ t, task_core (f t) = task_core t) →
  ∃ t m', arr_get (sm_tasks m) slot = Some t ∧ sm_update slot f m = Some m' ∧ sm_vars m' = sm_vars m ∧
    same_core (sm_tasks m) (sm_tasks m') ∧
    ∀ i, arr_get (sm_tasks m') i = if decide (slot = i) then Some (f t) else arr_get (sm_tasks m) i.
Proof.
  intros Hok Hs Hf. destruct (arr_get_is_Some (sm_tasks m) slot) as [t Ht]; [by rewrite (so_len _ Hok)|].
  destruct (task_update_Some (sm_tasks m) slot f t Ht) as (tb & Hup & Hset & Hlen & Hget).
  exists t, (with_tasks tb m). unfold sm_update. rewrite Hup. cbn. split_and!; try done.
  unfold same_core. apply list_eq. intros i. rewrite !list_lookup_fmap, <- !arr_get_nat, Hget.
  case_decide as Hi; [|done]. rewrite <- Hi, Ht. cbn. by rewrite Hf.
Qed.

Lemma sm_scan (m : sched_mem) (slot : Z) :
  sm_ok m → 0 ≤ slot < LETTUCE_MAX_TASKS →
  ∃ t, arr_get (sm_tasks m) slot = Some t ∧
    task_scan slot (sm_tasks m) = Some (if task_visible t then Some slot else None).
Proof.
  intros Hok Hs. destruct (arr_get_is_Some (sm_tasks m) slot) as [t Ht]; [by rewrite (so_len _ Hok)|].
  exists t. split; [done|]. apply task_scan_spec; [done..|]. by apply (so_gen _ Hok _ _ Ht).
Qed.

Lemma task_inv_sm_ok (st : task_state) (v : policy_vars) :
  task_inv st → sm_ok {| sm_tasks := g_task_table st; sm_vars := v |}.
Proof. intros Hinv. split; cbn; [apply Hinv|]. intros i t Ht. by apply (ti_task _ Hinv _ _ Ht). Qed.

#[export] Hint Resolve same_core_ok task_core_accounting : lettuce.
