(* ===== verification/RoundRobin.v ===== *)
(** * The round-robin policy: [kernel/scheduler/rr.c] *)

From S2P Require Import Prelude Types Generation Task Policy.

Definition rr_init (v : policy_vars) : policy_vars :=
  {| g_rr_last_idx := 0; g_eevdf_vsys := g_eevdf_vsys v |}.

(** [if (slice >= delta) slice -= delta; else slice = 0;] *)
Definition slice_after (slice delta : Z) : Z := if delta <=? slice then slice - delta else 0.

Definition rr_on_tick (curr : option Z) (tick_delta : Z) (m : sched_mem) : option sched_mem :=
  match curr with
  | None => Some m
  | Some c =>
      t ← arr_get (sm_tasks m) c;
      if negb (state_is (tk_state t) LETTUCE_TASK_STATE_RUNNING) then Some m else
      sm_update c (λ t, set_time_slice (slice_after (tk_time_slice_ticks t) tick_delta)
                          (set_total_ticks (u64 (tk_total_ticks_run t + tick_delta)) t)) m
  end.

Definition rr_set_last (idx : Z) (m : sched_mem) : sched_mem :=
  {| sm_tasks := sm_tasks m;
     sm_vars := {| g_rr_last_idx := idx; g_eevdf_vsys := g_eevdf_vsys (sm_vars m) |} |}.

Definition renew_quantum (t : LettuceTask) : LettuceTask := set_time_slice (tk_quantum_ticks t) t.

Definition rr_pick_next (curr : option Z) (m : sched_mem) : option (option Z * sched_mem) :=
  let start_offset := match curr with None => 0 | Some _ => 1 end in
  f ← for_flow (Z.to_nat LETTUCE_MAX_TASKS) start_offset
        (λ i m,
           let candidate := u32 (g_rr_last_idx (sm_vars m) + i) mod LETTUCE_MAX_TASKS in
           found ← task_scan candidate (sm_tasks m);
           match found with
           | None => Some (Next m)
           | Some p =>
               t ← arr_get (sm_tasks m) p;
               if state_is (tk_state t) LETTUCE_TASK_STATE_READY
               then m' ← sm_update p renew_quantum (rr_set_last candidate m); Some (Return p m')
               else Some (Next m)
           end) m;
  match f with
  | Return p m' => Some (Some p, m')
  | Next m' | Break m' =>
      match curr with
      | None => Some (None, m')
      | Some c =>
          t ← arr_get (sm_tasks m') c;
          if state_is (tk_state t) LETTUCE_TASK_STATE_RUNNING
          then m'' ← sm_update c renew_quantum m'; Some (Some c, m'')
          else Some (None, m')
      end
  end.

Definition rr_on_task_ready (task : option Z) (m : sched_mem) : option sched_mem := Some m.
Definition rr_on_task_sleep (task : option Z) (m : sched_mem) : option sched_mem := Some m.
Definition rr_on_task_wake (task : option Z) (m : sched_mem) : option sched_mem := Some m.
Definition rr_on_task_block (task : option Z) (m : sched_mem) : option sched_mem := Some m.
Definition rr_on_task_exit (task : option Z) (m : sched_mem) : option sched_mem := Some m.

Definition g_lettuce_sched_rr_ops : LettuceSchedPolicyOps := {|
  op_init := rr_init;
  op_on_tick := rr_on_tick;
  op_pick_next := rr_pick_next;
  op_on_task_ready := rr_on_task_ready;
  op_on_task_sleep := rr_on_task_sleep;
  op_on_task_wake := rr_on_task_wake;
  op_on_task_block := rr_on_task_block;
  op_on_task_exit := rr_on_task_exit
|}.

(** ** The rotation *)

(** The [i]-th slot after [last], counting circularly. *)
Definition rr_slot (last i : Z) : Z := (last + i) mod LETTUCE_MAX_TASKS.

Lemma rr_slot_range (last i : Z) : 0 ≤ rr_slot last i < LETTUCE_MAX_TASKS.
Proof. apply Z.mod_pos_bound. done. Qed.

Lemma rr_slot_u32 (last i : Z) : u32 (last + i) mod LETTUCE_MAX_TASKS = rr_slot last i.
Proof.
  apply Z.mod_mod_divide. exists (2 ^ 28). reflexivity.
Qed.

(** A turn of the rotation meets every slot. *)
Lemma rr_slot_onto (last o j : Z) :
  0 ≤ j < LETTUCE_MAX_TASKS → ∃ i, o ≤ i < o + LETTUCE_MAX_TASKS ∧ rr_slot last i = j.
Proof.
  intros Hj. exists (o + (j - last - o) mod LETTUCE_MAX_TASKS).
  pose proof (Z.mod_pos_bound (j - last - o) LETTUCE_MAX_TASKS ltac:(done)). split; [lia|].
  unfold rr_slot. rewrite Z.add_assoc, Zplus_mod_idemp_r. replace (last + o + (j - last - o)) with j by lia.
  by rewrite Z.mod_small.
Qed.

(** The outcome of a pick: the first ready task in rotation order becomes the new
    rotation point with a full quantum; with none, a running caller keeps the
    processor. *)
Definition rr_offset (curr : option Z) : Z := match curr with None => 0 | Some _ => 1 end.

Lemma rr_pick_exact (curr : option Z) (m : sched_mem) :
  sm_ok m → (∀ c, curr = Some c → 0 ≤ c < LETTUCE_MAX_TASKS) →
  let cand i := rr_slot (g_rr_last_idx (sm_vars m)) i in
  let o := rr_offset curr in
  (∃ i t m', o ≤ i < o + LETTUCE_MAX_TASKS ∧ arr_get (sm_tasks m) (cand i) = Some t ∧ ready_visible t ∧
     (∀ j x, o ≤ j < i → arr_get (sm_tasks m) (cand j) = Some x → ¬ ready_visible x) ∧
     rr_pick_next curr m = Some (Some (cand i), m') ∧ g_rr_last_idx (sm_vars m') = cand i ∧
     same_core (sm_tasks m) (sm_tasks m') ∧ arr_get (sm_tasks m') (cand i) = Some (renew_quantum t)) ∨
  ((∀ j x, arr_get (sm_tasks m) j = Some x → ¬ ready_visible x) ∧
   ∃ p m', rr_pick_next curr m = Some (p, m') ∧ same_core (sm_tasks m) (sm_tasks m') ∧
     match p with
     | Some s => curr = Some s ∧ ∃ t, arr_get (sm_tasks m) s = Some t ∧ tk_state t = LETTUCE_TASK_STATE_RUNNING
     | None => True
     end).
Proof.
  intros Hok Hcurr cand o. unfold rr_pick_next.
  change (match curr with None => 0 | Some _ => 1 end) with o.
  match goal with |- context [for_flow ?n ?o ?body m] =>
    destruct (for_flow_inv
      (λ k l, l = m ∧ ∀ j x, o ≤ j < k → arr_get (sm_tasks m) (cand j) = Some x → ¬ ready_visible x)
      (λ f, match f with
       | Next l => l = m ∧ ∀ j x, o ≤ j < o + LETTUCE_MAX_TASKS →
                     arr_get (sm_tasks m) (cand j) = Some x → ¬ ready_visible x
       | Break _ => False
       | Return p m' => ∃ i t, p = cand i ∧ o ≤ i < o + LETTUCE_MAX_TASKS ∧
           arr_get (sm_tasks m) (cand i) = Some t ∧ ready_visible t ∧
           (∀ j x, o ≤ j < i → arr_get (sm_tasks m) (cand j) = Some x → ¬ ready_visible x) ∧
           g_rr_last_idx (sm_vars m') = cand i ∧ same_core (sm_tasks m) (sm_tasks m') ∧
           arr_get (sm_tasks m') (cand i) = Some (renew_quantum t) end) n o body m) as (f & -> & Hf)
  end.
  - split; [done|]. intros; lia.
  - intros k l Hk [-> Hpre]. rewrite Z2Nat.id in Hk by done. rewrite rr_slot_u32. fold (cand k).
    destruct (sm_scan m (cand k) Hok) as (t & Ht & ->); [apply rr_slot_range|]. cbn [mbind option_bind].
    assert (¬ ready_visible t → ∀ j x, o ≤ j < k + 1 → arr_get (sm_tasks m) (cand j) = Some x →
      ¬ ready_visible x) as Hskip.
    { intros Hn j x Hj Hx. destruct (decide (j = k)) as [->|]; [congruence|]. eapply Hpre; [|done]. lia. }
    destruct (task_visible t) eqn:Hv.
    2:{ eexists. split; [done|]. split; [done|]. apply Hskip. intros [_ ?]. congruence. }
    rewrite Ht. cbn [mbind option_bind]. destruct (state_is (tk_state t) LETTUCE_TASK_STATE_READY) eqn:Hs.
    + apply state_is_true in Hs.
      destruct (same_core_update (rr_set_last (cand k) m) (cand k) renew_quantum) as
        (t' & m' & Ht' & -> & Hv' & Hc & Hget); [by destruct Hok|apply rr_slot_range|intros; apply task_core_accounting|].
      cbn in Ht', Hc, Hget. rewrite Ht in Ht'. injection Ht' as <-. cbn [mbind option_bind].
      eexists. split; [done|]. exists k, t. split_and!; try done; try lia; [by rewrite Hv'|]. rewrite Hget. by rewrite decide_True.
    + apply state_is_false in Hs. eexists. split; [done|]. split; [done|]. apply Hskip. by intros [? _].
  - intros l [-> Hall]. split; [done|]. by rewrite Z2Nat.id in Hall.
  - cbn [mbind option_bind]. destruct f as [l|l|p m']; [|done|].
    2:{ left. destruct Hf as (i & t & -> & ? & ? & ? & ? & ? & ? & ?). by exists i, t, m'. }
    right. destruct Hf as [-> Hall]. split.
    + intros j x Hx. pose proof (arr_get_Some_range _ _ _ Hx) as Hr. rewrite (so_len _ Hok) in Hr.
      destruct (rr_slot_onto (g_rr_last_idx (sm_vars m)) o j Hr) as (i & Hi & <-). by apply (Hall i).
    + destruct curr as [c|]; [|by exists None, m].
      destruct (same_core_update m c renew_quantum) as (t & m' & Ht & Hup & _ & Hc & _);
        [done|by apply Hcurr|intros; apply task_core_accounting|].
      rewrite Ht. cbn [mbind option_bind].
      destruct (state_is (tk_state t) LETTUCE_TASK_STATE_RUNNING) eqn:Hs; [|by exists None, m].
      rewrite Hup. exists (Some c), m'. split_and!; try done. exists t. by rewrite <- (state_is_true (tk_state t)).
Qed.

#[export] Instance rr_laws : PolicyLaws g_lettuce_sched_rr_ops.
Proof.
  refine {| policy_skips := λ _, False |}; cbn.
  - intros c d m Hok Hc. unfold rr_on_tick.
    destruct (same_core_update m c (λ t, set_time_slice (slice_after (tk_time_slice_ticks t) d)
      (set_total_ticks (u64 (tk_total_ticks_run t + d)) t))) as (t & m' & -> & Hup & _ & Hcore & _);
      [done..|by intros []|].
    cbn [mbind option_bind]. destruct (negb _); [by exists m|]. by exists m'.
  - intros slot m _ _. by exists m.
  - intros slot m _ _. by exists m.
  - intros slot m _ _. by exists m.
  - intros curr m Hok Hcurr.
    destruct (rr_pick_exact curr m Hok Hcurr) as
      [(i & t & m' & _ & Ht & Hr & _ & Hp & _ & Hc & _)|(Hnone & p & m' & Hp & Hc & Hm)].
    + exists (Some (rr_slot (g_rr_last_idx (sm_vars m)) i)), m'. split_and!; [done..|]. exists t. auto.
    + exists p, m'. split_and!; [done..|]. destruct p as [s|]; [|done].
      destruct Hm as [-> (t & Ht & Hs)]. exists t. auto.
Defined.

(** ** Bounded waiting *)

(** How many slots the rotation passes before it reaches [j]. *)
Definition rr_wait (last j : Z) : Z := (j - last - 1) mod LETTUCE_MAX_TASKS.

Lemma rr_wait_range (last j : Z) : 0 ≤ rr_wait last j < LETTUCE_MAX_TASKS.
Proof. apply Z.mod_pos_bound. done. Qed.

Lemma rr_slot_wait (last j : Z) :
  0 ≤ j < LETTUCE_MAX_TASKS → rr_slot last (1 + rr_wait last j) = j.
Proof.
  intros Hj. unfold rr_slot, rr_wait. rewrite Z.add_assoc, Zplus_mod_idemp_r.
  replace (last + 1 + (j - last - 1)) with j by lia. by apply Z.mod_small.
Qed.

(** A pick while [j] is ready either chooses [j] or brings it strictly closer. *)
Lemma rr_pick_progress (c j : Z) (m : sched_mem) (t : LettuceTask) :
  sm_ok m → 0 ≤ c < LETTUCE_MAX_TASKS → arr_get (sm_tasks m) j = Some t → ready_visible t →
  ∃ s m', rr_pick_next (Some c) m = Some (Some s, m') ∧ g_rr_last_idx (sm_vars m') = s ∧
    (s = j ∨ rr_wait s j < rr_wait (g_rr_last_idx (sm_vars m)) j).
Proof.
  intros Hok Hc Ht Hr. set (last := g_rr_last_idx (sm_vars m)).
  pose proof (arr_get_Some_range _ _ _ Ht) as Hj. rewrite (so_len _ Hok) in Hj.
  destruct (rr_pick_exact (Some c) m Hok) as
    [(i & x & m' & Hi & Hx & Hrx & Hfirst & Hp & Hl & _)|(Hnone & _)]; [by intros ? [= ->]| |by destruct (Hnone j t)].
  fold last in Hp, Hl, Hfirst. cbn [rr_offset] in *.
  exists (rr_slot last i), m'. split_and!; [done..|].
  pose proof (rr_wait_range last j) as Hw. pose proof (rr_slot_wait last j Hj) as Hsw.
  destruct (Z.lt_trichotomy i (1 + rr_wait last j)) as [Hlt|[->|Hgt]].
  - right.
    assert (rr_wait (rr_slot last i) j = (rr_wait last j - i) mod LETTUCE_MAX_TASKS) as ->.
    { unfold rr_wait, rr_slot. rewrite Zminus_mod_idemp_l.
      replace (j - (last + i) mod LETTUCE_MAX_TASKS - 1) with (j - 1 - (last + i) mod LETTUCE_MAX_TASKS) by lia.
      rewrite Zminus_mod_idemp_r. f_equal. lia. }
    rewrite Z.mod_small; unfold LETTUCE_MAX_TASKS in *; lia.
  - by left.
  - exfalso. apply (Hfirst (1 + rr_wait last j) t); [lia|by rewrite Hsw|done].
Qed.
