(* ===== verification/Eevdf.v ===== *)
(** * The EEVDF policy: [kernel/scheduler/eevdf.c]

    Virtual times are 64-bit and wrap.  A pointer to a task is its slot; the functions
    that only read a task take its record, [None] being [NULL]. *)

From S2P Require Import Prelude Types Generation Task Policy RoundRobin.

Definition LETTUCE_EEVDF_SCALE : Z := 65536.
Definition UINT64_MAX : Z := 2 ^ 64 - 1.

(** [(w > 0) ? w : LETTUCE_EEVDF_BASE_WEIGHT] *)
Definition effective_weight (w : Z) : Z := if 0 <? w then w else LETTUCE_EEVDF_BASE_WEIGHT.

Definition calc_vslice (task : option LettuceTask) : Z :=
  let weight := match task with Some t => effective_weight (tk_weight t) | None => LETTUCE_EEVDF_BASE_WEIGHT end in
  let slice := match task with
               | Some t => if 0 <? tk_requested_slice_ticks t then tk_requested_slice_ticks t
                           else LETTUCE_EEVDF_DEFAULT_SLICE
               | None => LETTUCE_EEVDF_DEFAULT_SLICE
               end in
  u64 (slice * LETTUCE_EEVDF_SCALE) / weight.

Definition lettuce_eevdf_calc_deadline (task : option LettuceTask) : Z :=
  match task with
  | None => 0
  | Some t => u64 (tk_vruntime t + calc_vslice task)
  end.

Definition lettuce_eevdf_get_vsys (v : policy_vars) : Z := g_eevdf_vsys v.

Definition lettuce_eevdf_is_eligible (task : option LettuceTask) (v : policy_vars) : bool :=
  match task with
  | None => false
  | Some t => if negb (state_is (tk_state t) LETTUCE_TASK_STATE_READY) then false
              else tk_vruntime t <=? g_eevdf_vsys v
  end.

(** The conversion of a 64-bit word to [int64_t]. *)
Definition to_i64 (x : Z) : Z := if x <? 2 ^ 63 then x else x - 2 ^ 64.

(** [None] is the signed overflow of the subtraction. *)
Definition lettuce_eevdf_get_lag (task : option LettuceTask) (v : policy_vars) : option Z :=
  match task with
  | None => Some 0
  | Some t =>
      let d := to_i64 (g_eevdf_vsys v) - to_i64 (tk_vruntime t) in
      if (- 2 ^ 63 <=? d) && (d <? 2 ^ 63) then Some d else None
  end.

Definition get_active_weight_sum (tb : list LettuceTask) : option Z :=
  total_weight ← for_range (Z.to_nat LETTUCE_MAX_TASKS) 0
    (λ slot total,
       found ← task_scan slot tb;
       match found with
       | None => Some total
       | Some p =>
           t ← arr_get tb p;
           Some (if state_is (tk_state t) LETTUCE_TASK_STATE_READY || state_is (tk_state t) LETTUCE_TASK_STATE_RUNNING
                 then u32 (total + effective_weight (tk_weight t)) else total)
       end) 0;
  Some (if 0 <? total_weight then total_weight else LETTUCE_EEVDF_BASE_WEIGHT).

Definition set_vsys (x : Z) (m : sched_mem) : sched_mem :=
  {| sm_tasks := sm_tasks m;
     sm_vars := {| g_rr_last_idx := g_rr_last_idx (sm_vars m); g_eevdf_vsys := x |} |}.

Definition eevdf_init (v : policy_vars) : policy_vars :=
  {| g_rr_last_idx := g_rr_last_idx v; g_eevdf_vsys := 0 |}.

Definition eevdf_on_tick (curr : option Z) (tick_delta : Z) (m : sched_mem) : option sched_mem :=
  match curr with
  | None => Some m
  | Some c =>
      t ← arr_get (sm_tasks m) c;
      if negb (state_is (tk_state t) LETTUCE_TASK_STATE_RUNNING) then Some m else
      m1 ← sm_update c (λ t,
             let weight := effective_weight (tk_weight t) in
             let delta_v := u64 (tick_delta * LETTUCE_EEVDF_SCALE) / weight in
             set_vruntime (u64 (tk_vruntime t + delta_v))
               (set_total_ticks (u64 (tk_total_ticks_run t + tick_delta)) t)) m;
      active_weight ← get_active_weight_sum (sm_tasks m1);
      let delta_vsys := u64 (tick_delta * LETTUCE_EEVDF_SCALE) / active_weight in
      let m2 := set_vsys (u64 (g_eevdf_vsys (sm_vars m1) + delta_vsys)) m1 in
      sm_update c (λ t, set_time_slice (slice_after (tk_time_slice_ticks t) tick_delta) t) m2
  end.

(** The local variables of [eevdf_pick_next]'s scan. *)
Record pick_acc := {
  pa_mem : sched_mem;
  best_eligible : option Z;
  earliest_deadline : Z;
  min_vruntime_task : option Z;
  min_vruntime : Z;
  ready_count : Z
}.

(** [if (t->vdeadline < t->vruntime) t->vdeadline = lettuce_eevdf_calc_deadline(t);] *)
Definition refresh_deadline (t : LettuceTask) : LettuceTask :=
  if tk_vdeadline t <? tk_vruntime t then set_vdeadline (lettuce_eevdf_calc_deadline (Some t)) t else t.

Definition eevdf_scan_slot (slot : Z) (a : pick_acc) : option pick_acc :=
  found ← task_scan slot (sm_tasks (pa_mem a));
  match found with
  | None => Some a
  | Some p =>
      t ← arr_get (sm_tasks (pa_mem a)) p;
      if negb (state_is (tk_state t) LETTUCE_TASK_STATE_READY) then Some a else
      let ready_count' := u32 (ready_count a + 1) in
      let '(min_task, min_vr) :=
        if tk_vruntime t <? min_vruntime a then (Some p, tk_vruntime t)
        else (min_vruntime_task a, min_vruntime a) in
      if negb (tk_vruntime t <=? g_eevdf_vsys (sm_vars (pa_mem a))) then
        Some {| pa_mem := pa_mem a; best_eligible := best_eligible a;
                earliest_deadline := earliest_deadline a; min_vruntime_task := min_task;
                min_vruntime := min_vr; ready_count := ready_count' |}
      else
        m' ← sm_update p refresh_deadline (pa_mem a);
        t' ← arr_get (sm_tasks m') p;
        let '(best, earliest) :=
          if tk_vdeadline t' <? earliest_deadline a then (Some p, tk_vdeadline t')
          else (best_eligible a, earliest_deadline a) in
        Some {| pa_mem := m'; best_eligible := best; earliest_deadline := earliest;
                min_vruntime_task := min_task; min_vruntime := min_vr; ready_count := ready_count' |}
  end.

(** [t->time_slice_ticks = t->requested_slice_ticks; t->vdeadline = calc_deadline(t);] *)
Definition eevdf_grant (t : LettuceTask) : LettuceTask :=
  let t1 := set_time_slice (tk_requested_slice_ticks t) t in
  set_vdeadline (lettuce_eevdf_calc_deadline (Some t1)) t1.

Definition eevdf_pick_next (curr : option Z) (m : sched_mem) : option (option Z * sched_mem) :=
  a ← for_range (Z.to_nat LETTUCE_MAX_TASKS) 0 eevdf_scan_slot
        {| pa_mem := m; best_eligible := None; earliest_deadline := UINT64_MAX;
           min_vruntime_task := None; min_vruntime := UINT64_MAX; ready_count := 0 |};
  match best_eligible a with
  | Some b => m' ← sm_update b eevdf_grant (pa_mem a); Some (Some b, m')
  | None =>
      match (if 0 <? ready_count a then min_vruntime_task a else None) with
      | Some b => m' ← sm_update b eevdf_grant (set_vsys (min_vruntime a) (pa_mem a)); Some (Some b, m')
      | None =>
          match curr with
          | None => Some (None, pa_mem a)
          | Some c =>
              t ← arr_get (sm_tasks (pa_mem a)) c;
              if state_is (tk_state t) LETTUCE_TASK_STATE_RUNNING
              then m' ← sm_update c eevdf_grant (pa_mem a); Some (Some c, m')
              else Some (None, pa_mem a)
          end
      end
  end.

(** Catch a task up with the system's virtual time. *)
Definition align (vsys : Z) (t : LettuceTask) : LettuceTask :=
  let t1 := if tk_vruntime t <? vsys then set_vruntime vsys t else t in
  set_vdeadline (lettuce_eevdf_calc_deadline (Some t1)) t1.

Definition eevdf_on_task_ready (task : option Z) (m : sched_mem) : option sched_mem :=
  match task with
  | None => Some m
  | Some s => sm_update s (align (g_eevdf_vsys (sm_vars m))) m
  end.

Definition eevdf_on_task_wake (task : option Z) (m : sched_mem) : option sched_mem :=
  match task with
  | None => Some m
  | Some s => sm_update s (align (g_eevdf_vsys (sm_vars m))) m
  end.

Definition eevdf_on_task_sleep (task : option Z) (m : sched_mem) : option sched_mem := Some m.
Definition eevdf_on_task_block (task : option Z) (m : sched_mem) : option sched_mem := Some m.
Definition eevdf_on_task_exit (task : option Z) (m : sched_mem) : option sched_mem := Some m.

Definition g_lettuce_sched_eevdf_ops : LettuceSchedPolicyOps := {|
  op_init := eevdf_init;
  op_on_tick := eevdf_on_tick;
  op_pick_next := eevdf_pick_next;
  op_on_task_ready := eevdf_on_task_ready;
  op_on_task_sleep := eevdf_on_task_sleep;
  op_on_task_wake := eevdf_on_task_wake;
  op_on_task_block := eevdf_on_task_block;
  op_on_task_exit := eevdf_on_task_exit
|}.

(** ** The scan computes two minima *)

(** [o] is the lowest slot below [k] that satisfies [Q] and has the least key [v];
    only keys below the maximum count, as the code compares with [UINT64_MAX]. *)
Definition is_argmin (Q : Z → LettuceTask → Prop) (key : LettuceTask → Z) (k : Z) (o : option Z) (v : Z) : Prop :=
  match o with
  | None => v = UINT64_MAX ∧ ∀ i t, 0 ≤ i < k → Q i t → UINT64_MAX ≤ key t
  | Some s => ∃ t, 0 ≤ s < k ∧ Q s t ∧ key t = v ∧ v < UINT64_MAX ∧
      ∀ i x, 0 ≤ i < k → Q i x → v ≤ key x ∧ (i < s → v < key x)
  end.

Lemma argmin_max (Q : Z → LettuceTask → Prop) key k o v : is_argmin Q key k o v → v ≤ UINT64_MAX.
Proof. destruct o as [s|]; [intros (t & _ & _ & _ & ? & _); lia|intros [-> _]; lia]. Qed.

(** Slot [k] is skipped. *)
Lemma argmin_skip (Q : Z → LettuceTask → Prop) key k o v :
  (∀ t, ¬ Q k t) → is_argmin Q key k o v → is_argmin Q key (k + 1) o v.
Proof.
  intros Hk. assert (∀ i t, 0 ≤ i < k + 1 → Q i t → 0 ≤ i < k) as Hlt.
  { intros i t Hi HQ. destruct (decide (i = k)) as [->|]; [by destruct (Hk t)|lia]. }
  destruct o as [s|]; cbn.
  - intros (t & Hs & HQ & Hv & Hm & Hall). exists t. split_and!; try done; try lia.
    intros i x Hi Hx. apply Hall; [by eapply Hlt|done].
  - intros [-> Hall]. split; [done|]. intros i t Hi Ht. apply (Hall i); [by eapply Hlt|done].
Qed.

(** Slot [k] is compared with the minimum so far. *)
Lemma argmin_step (Q : Z → LettuceTask → Prop) key k o v t :
  0 ≤ k → Q k t → (∀ x, Q k x → x = t) → is_argmin Q key k o v →
  is_argmin Q key (k + 1) (if key t <? v then Some k else o) (if key t <? v then key t else v).
Proof.
  intros Hk HQ Huniq Harg. pose proof (argmin_max _ _ _ _ _ Harg) as Hmax.
  assert (∀ i x, 0 ≤ i < k + 1 → Q i x → (i = k ∧ x = t) ∨ 0 ≤ i < k) as Hsplit.
  { intros i x Hi Hx. destruct (decide (i = k)) as [->|]; [left; auto|right; lia]. }
  destruct (Z.ltb_spec (key t) v) as [Hlt|Hge]; cbn.
  - exists t. split_and!; try done; try lia. intros i x Hi Hx.
    destruct (Hsplit i x Hi Hx) as [[-> ->]|Hik]; [lia|].
    destruct o as [s|]; cbn in Harg.
    + destruct Harg as (y & _ & _ & _ & _ & Hall). destruct (Hall i x Hik Hx). lia.
    + destruct Harg as [-> Hall]. specialize (Hall i x Hik Hx). lia.
  - destruct o as [s|]; cbn in *.
    + destruct Harg as (y & Hs & HQs & Hv & Hm & Hall). exists y. split_and!; try done; try lia.
      intros i x Hi Hx. destruct (Hsplit i x Hi Hx) as [[-> ->]|Hik]; [lia|by apply Hall].
    + destruct Harg as [-> Hall]. split; [done|]. intros i x Hi Hx.
      destruct (Hsplit i x Hi Hx) as [[-> ->]|Hik]; [done|by apply (Hall i)].
Qed.

Section pick.
Context (m : sched_mem) (Hok : sm_ok m).

Definition ready_at (i : Z) (t : LettuceTask) : Prop := arr_get (sm_tasks m) i = Some t ∧ ready_visible t.
Definition eligible_at (i : Z) (t : LettuceTask) : Prop :=
  ready_at i t ∧ tk_vruntime t ≤ g_eevdf_vsys (sm_vars m).

(** The deadline a pick compares: the stored one, recomputed when it is stale. *)
Definition pick_deadline (t : LettuceTask) : Z := tk_vdeadline (refresh_deadline t).

Record scan_inv (k : Z) (a : pick_acc) : Prop := {
  sc_core : same_core (sm_tasks m) (sm_tasks (pa_mem a));
  sc_vars : sm_vars (pa_mem a) = sm_vars m;
  sc_rest : ∀ i, k ≤ i → arr_get (sm_tasks (pa_mem a)) i = arr_get (sm_tasks m) i;
  sc_best : is_argmin eligible_at pick_deadline k (best_eligible a) (earliest_deadline a);
  sc_min : is_argmin ready_at tk_vruntime k (min_vruntime_task a) (min_vruntime a);
  sc_count : 0 ≤ ready_count a ≤ k ∧ (is_Some (min_vruntime_task a) → 0 < ready_count a)
}.

Lemma refresh_core (t : LettuceTask) : task_core (refresh_deadline t) = task_core t.
Proof. unfold refresh_deadline. destruct (_ <? _); [apply task_core_accounting|done]. Qed.

Lemma scan_step (k : Z) (a : pick_acc) :
  0 ≤ k < LETTUCE_MAX_TASKS → scan_inv k a → ∃ a', eevdf_scan_slot k a = Some a' ∧ scan_inv (k + 1) a'.
Proof using Hok.
  intros Hk [Hcore Hvars Hrest Hbest Hmin [Hcount Hsome]]. unfold eevdf_scan_slot.
  assert (sm_ok (pa_mem a)) as Hok' by by eapply same_core_ok.
  destruct (sm_scan (pa_mem a) k Hok' Hk) as (t & Ht & ->). cbn [mbind option_bind].
  assert (arr_get (sm_tasks m) k = Some t) as Htm by (rewrite <- Hrest by lia; done).
  assert (∀ x, ready_at k x → x = t) as Huniq by (intros x [Hx _]; congruence).
  assert (¬ ready_visible t → scan_inv (k + 1) a) as Hskip.
  { intros Hn. split; try done; [intros i Hi; apply Hrest; lia|..|split; [lia|done]];
      (apply argmin_skip; [|done]); intros x Hx; [destruct Hx as [Hx _]|];
      (assert (x = t) as -> by auto); by destruct Hx. }
  destruct (task_visible t) eqn:Hv; [|exists a; split; [done|]; apply Hskip; intros [_ ?]; congruence].
  rewrite Ht. cbn [mbind option_bind].
  destruct (state_is (tk_state t) LETTUCE_TASK_STATE_READY) eqn:Hs; cbn [negb].
  2:{ apply state_is_false in Hs. exists a. split; [done|]. apply Hskip. by intros [? _]. }
  apply state_is_true in Hs. assert (ready_at k t) as Hready by done.
  pose proof (argmin_step ready_at tk_vruntime k _ _ t ltac:(lia) Hready Huniq Hmin) as Hmin'.
  assert (0 ≤ u32 (ready_count a + 1) ≤ k + 1 ∧ 0 < u32 (ready_count a + 1)) as Hcount'.
  { unfold LETTUCE_MAX_TASKS in Hk. rewrite u32_small by (unfold is_u32; lia). lia. }
  rewrite (surjective_pairing (if tk_vruntime t <? min_vruntime a then _ else _)).
  assert (∀ b : bool, (if b then (Some k, tk_vruntime t) else (min_vruntime_task a, min_vruntime a)) =
    (if b then Some k else min_vruntime_task a, if b then tk_vruntime t else min_vruntime a)) as Hpair by by intros [].
  rewrite Hpair. cbn [fst snd]. rewrite Hvars.
  destruct (Z.leb_spec (tk_vruntime t) (g_eevdf_vsys (sm_vars m))) as [Hel|Hnel]; cbn [negb].
  - destruct (same_core_update (pa_mem a) k refresh_deadline Hok' Hk refresh_core)
      as (t0 & m' & Ht0 & -> & Hv' & Hc' & Hget). rewrite Ht in Ht0. injection Ht0 as <-.
    cbn [mbind option_bind]. rewrite Hget, decide_True by done. cbn [mbind option_bind].
    fold (pick_deadline t).
    pose proof (argmin_step eligible_at pick_deadline k _ _ t ltac:(lia) (conj Hready Hel)
      ltac:(intros x [Hx _]; auto) Hbest) as Hbest'.
    destruct (pick_deadline t <? earliest_deadline a);
      (eexists; split; [done|]; split; cbn; [by etrans|by rewrite Hv'| |done|done|split; [lia|intros; lia]];
       intros i Hi; rewrite Hget, decide_False by lia; apply Hrest; lia).
  - eexists. split; [done|]. split; cbn; [done|done| | |done|split; [lia|intros; lia]].
    + intros i Hi. apply Hrest. lia.
    + apply argmin_skip; [|done]. intros x [Hx%Huniq Hx']. subst x. lia.
Qed.

Lemma scan_spec :
  ∃ a, for_range (Z.to_nat LETTUCE_MAX_TASKS) 0 eevdf_scan_slot
    {| pa_mem := m; best_eligible := None; earliest_deadline := UINT64_MAX;
       min_vruntime_task := None; min_vruntime := UINT64_MAX; ready_count := 0 |} = Some a ∧
    scan_inv LETTUCE_MAX_TASKS a.
Proof using Hok.
  apply (for_range_inv scan_inv).
  - split; cbn; [done|done|done|split; [done|intros; lia]|split; [done|intros; lia]|split; [lia|by intros [? ?]]].
  - intros k a Hk. rewrite Z2Nat.id in Hk by done. apply scan_step. lia.
Qed.

Lemma eevdf_grant_core (t : LettuceTask) : task_core (eevdf_grant t) = task_core t.
Proof. by destruct t. Qed.

Lemma ready_at_range (i : Z) (t : LettuceTask) : ready_at i t → 0 ≤ i < LETTUCE_MAX_TASKS.
Proof using Hok. intros [Ht _]. rewrite <- (so_len _ Hok). by eapply arr_get_Some_range. Qed.

(** What [eevdf_pick_next] chooses. *)
Inductive eevdf_choice (curr : option Z) : option Z → Z → Prop :=
  | ChooseEligible s t :
      eligible_at s t → pick_deadline t < UINT64_MAX →
      (∀ i x, eligible_at i x → pick_deadline t ≤ pick_deadline x ∧ (i < s → pick_deadline t < pick_deadline x)) →
      eevdf_choice curr (Some s) (g_eevdf_vsys (sm_vars m))
  | ChooseMinimal s t :
      (∀ i x, eligible_at i x → UINT64_MAX ≤ pick_deadline x) →
      ready_at s t → tk_vruntime t < UINT64_MAX →
      (∀ i x, ready_at i x → tk_vruntime t ≤ tk_vruntime x ∧ (i < s → tk_vruntime t < tk_vruntime x)) →
      eevdf_choice curr (Some s) (tk_vruntime t)
  | ChooseCurrent c t :
      (∀ i x, ready_at i x → UINT64_MAX ≤ tk_vruntime x) → curr = Some c →
      arr_get (sm_tasks m) c = Some t → tk_state t = LETTUCE_TASK_STATE_RUNNING →
      eevdf_choice curr (Some c) (g_eevdf_vsys (sm_vars m))
  | ChooseNone :
      (∀ i x, ready_at i x → UINT64_MAX ≤ tk_vruntime x) →
      (∀ c t, curr = Some c → arr_get (sm_tasks m) c = Some t → tk_state t ≠ LETTUCE_TASK_STATE_RUNNING) →
      eevdf_choice curr None (g_eevdf_vsys (sm_vars m)).

Lemma eevdf_pick_exact (curr : option Z) :
  (∀ c, curr = Some c → 0 ≤ c < LETTUCE_MAX_TASKS) →
  ∃ p m', eevdf_pick_next curr m = Some (p, m') ∧ same_core (sm_tasks m) (sm_tasks m') ∧
    eevdf_choice curr p (g_eevdf_vsys (sm_vars m')).
Proof using Hok.
  intros Hcurr. unfold eevdf_pick_next. destruct scan_spec as (a & -> & [Hcore Hvars _ Hbest Hmin [_ Hcnt]]).
  cbn [mbind option_bind]. assert (sm_ok (pa_mem a)) as Hok' by by eapply same_core_ok.
  assert (∀ s vs, 0 ≤ s < LETTUCE_MAX_TASKS → ∃ m', sm_update s eevdf_grant (set_vsys vs (pa_mem a)) = Some m' ∧
    same_core (sm_tasks m) (sm_tasks m') ∧ g_eevdf_vsys (sm_vars m') = vs) as Hgrant.
  { intros s vs Hs. destruct (same_core_update (set_vsys vs (pa_mem a)) s eevdf_grant) as
      (t & m' & _ & Hup & Hv & Hc & _); [by destruct Hok'|done|apply eevdf_grant_core|].
    exists m'. split_and!; [done|by etrans|by rewrite Hv]. }
  assert (set_vsys (g_eevdf_vsys (sm_vars m)) (pa_mem a) = pa_mem a) as Hsame.
  { rewrite <- Hvars. by destruct (pa_mem a) as [? []]. }
  destruct (best_eligible a) as [b|].
  { destruct Hbest as (t & Hb & HQ & Hv & Hm & Hall).
    destruct (Hgrant b (g_eevdf_vsys (sm_vars m)) Hb) as (m' & Hup & Hc & Hvs). rewrite Hsame in Hup.
    rewrite Hup. exists (Some b), m'. split_and!; [done..|]. rewrite Hvs.
    apply (ChooseEligible curr b t); [done|by rewrite Hv|]. intros i x Hx. rewrite Hv.
    apply Hall; [|done]. destruct Hx. by eapply ready_at_range. }
  destruct Hbest as [_ Hbest].
  destruct (min_vruntime_task a) as [b|].
  { destruct Hmin as (t & Hb & HQ & Hv & Hm & Hall). rewrite (proj2 (Z.ltb_lt _ _)) by (apply Hcnt; eauto).
    destruct (Hgrant b (min_vruntime a) Hb) as (m' & -> & Hc & Hvs).
    exists (Some b), m'. split_and!; [done..|]. rewrite Hvs, <- Hv.
    apply (ChooseMinimal curr b t); [|done|by rewrite Hv|].
    - intros i x Hx. eapply Hbest; [|done]. destruct Hx. by eapply ready_at_range.
    - intros i x Hx. rewrite Hv. apply Hall; [by eapply ready_at_range|done]. }
  assert (∀ i x, ready_at i x → UINT64_MAX ≤ tk_vruntime x) as Hnone.
  { destruct Hmin as [_ Hmin]. intros i x Hx. eapply Hmin; [by eapply ready_at_range|done]. }
  assert ((if 0 <? ready_count a then None else None) = @None Z) as -> by by destruct (0 <? ready_count a).
  destruct curr as [c|].
  2:{ exists None, (pa_mem a). split_and!; [done..|]. rewrite Hvars. by apply ChooseNone. }
  destruct (arr_get_is_Some (sm_tasks m) c) as [t Ht]; [rewrite (so_len _ Hok); by apply Hcurr|].
  destruct (same_core_Some _ _ c t Hcore Ht) as (t' & Ht' & Hcc).
  apply task_core_fields in Hcc as (Hst & _). rewrite Ht'. cbn [mbind option_bind]. rewrite Hst.
  destruct (state_is (tk_state t) LETTUCE_TASK_STATE_RUNNING) eqn:Hs.
  - apply state_is_true in Hs.
    destruct (Hgrant c (g_eevdf_vsys (sm_vars m)) (Hcurr c eq_refl)) as (m' & Hup & Hc & Hvs). rewrite Hsame in Hup.
    rewrite Hup. exists (Some c), m'. split_and!; [done..|]. rewrite Hvs. by apply (ChooseCurrent _ c t).
  - apply state_is_false in Hs. exists None, (pa_mem a). split_and!; [done..|]. rewrite Hvars.
    apply ChooseNone; [done|]. intros c' t0 [= <-] ?. by simplify_eq.
Qed.

End pick.

(** ** Accounting *)

Lemma weight_sum_step (m : sched_mem) (k : Z) (total : Z) :
  sm_ok m → 0 ≤ k < LETTUCE_MAX_TASKS → ∃ total',
  (found ← task_scan k (sm_tasks m);
   match found with
   | None => Some total
   | Some p =>
       t ← arr_get (sm_tasks m) p;
       Some (if state_is (tk_state t) LETTUCE_TASK_STATE_READY || state_is (tk_state t) LETTUCE_TASK_STATE_RUNNING
             then u32 (total + effective_weight (tk_weight t)) else total)
   end) = Some total'.
Proof.
  intros Hok Hk. destruct (sm_scan m k Hok Hk) as (t & Ht & ->). cbn [mbind option_bind].
  destruct (task_visible t); [rewrite Ht; cbn|]; eauto.
Qed.

Lemma weight_sum_total (m : sched_mem) : sm_ok m → ∃ w, get_active_weight_sum (sm_tasks m) = Some w.
Proof.
  intros Hok. unfold get_active_weight_sum.
  match goal with |- context [for_range ?n 0 ?body 0] =>
    destruct (for_range_inv (λ _ _, True) n 0 body 0) as (total & -> & _); [done| |by eexists]
  end.
  intros k total Hk _. rewrite Z2Nat.id in Hk by done.
  destruct (weight_sum_step m k total Hok) as (total' & ->); [lia|]. by eexists.
Qed.

Lemma align_core (v : Z) (t : LettuceTask) : task_core (align v t) = task_core t.
Proof. unfold align. destruct (_ <? _), t; done. Qed.

#[export] Instance eevdf_laws : PolicyLaws g_lettuce_sched_eevdf_ops.
Proof.
  refine {| policy_skips := λ t, UINT64_MAX ≤ tk_vruntime t |}; cbn.
  - intros c d m Hok Hc. unfold eevdf_on_tick.
    match goal with |- context [sm_update c ?f m] =>
      destruct (same_core_update m c f Hok Hc) as (t & m1 & -> & -> & _ & Hc1 & _); [by intros []|] end.
    cbn [mbind option_bind]. destruct (negb _); [by exists m|].
    assert (sm_ok m1) as Hok1 by by eapply same_core_ok.
    destruct (weight_sum_total m1 Hok1) as [w ->]. cbn [mbind option_bind].
    match goal with |- context [sm_update c ?f ?m2] =>
      destruct (same_core_update m2 c f) as (t2 & m3 & _ & -> & _ & Hc2 & _);
        [by destruct Hok1|done|intros; apply task_core_accounting|] end.
    exists m3. split; [done|]. by etrans.
  - intros s m Hok Hs.
    destruct (same_core_update m s (align (g_eevdf_vsys (sm_vars m))) Hok Hs (align_core _))
      as (t & m' & _ & Hup & _ & Hc & _). by exists m'.
  - intros s m _ _. by exists m.
  - intros s m Hok Hs.
    destruct (same_core_update m s (align (g_eevdf_vsys (sm_vars m))) Hok Hs (align_core _))
      as (t & m' & _ & Hup & _ & Hc & _). by exists m'.
  - intros curr m Hok Hcurr. destruct (eevdf_pick_exact m Hok curr Hcurr) as (p & m' & Hp & Hc & Hch).
    exists p, m'. split_and!; [done..|].
    destruct Hch as [s t [[? ?] _] _ _|s t _ [? ?] _ _|c t _ ? ? ?|Hnone _]; [exists t; auto..|].
    intros i t Ht Hr. by apply (Hnone i).
Defined.

(** The weight a task contributes to the active weight: ready or running, and found
    by the scan. *)
Definition active_weight_of (t : LettuceTask) : Z :=
  if task_visible t && (state_is (tk_state t) LETTUCE_TASK_STATE_READY ||
                        state_is (tk_state t) LETTUCE_TASK_STATE_RUNNING)
  then effective_weight (tk_weight t) else 0.

Fixpoint active_weight (tb : list LettuceTask) : Z :=
  match tb with
  | [] => 0
  | t :: tb' => active_weight_of t + active_weight tb'
  end.

(** The weights [lettuce_task_set_weight] and [lettuce_task_create] store. *)
Definition weights_bounded (tb : list LettuceTask) : Prop :=
  ∀ i t, arr_get tb i = Some t → 1 ≤ tk_weight t ≤ 10240.

Lemma active_weight_app (l k : list LettuceTask) : active_weight (l ++ k) = active_weight l + active_weight k.
Proof. induction l as [|t l IH]; cbn [app active_weight]; [lia|]. rewrite IH. lia. Qed.

Lemma active_weight_of_bounds (t : LettuceTask) : 1 ≤ tk_weight t ≤ 10240 → 0 ≤ active_weight_of t ≤ 10240.
Proof.
  intros Ht. unfold active_weight_of, effective_weight. destruct (_ && _); [|lia].
  destruct (Z.ltb_spec 0 (tk_weight t)); lia.
Qed.

Lemma weight_sum_exact (m : sched_mem) :
  sm_ok m → weights_bounded (sm_tasks m) →
  get_active_weight_sum (sm_tasks m) =
  Some (if 0 <? active_weight (sm_tasks m) then active_weight (sm_tasks m) else LETTUCE_EEVDF_BASE_WEIGHT).
Proof.
  intros Hok Hw. unfold get_active_weight_sum. pose proof (so_len _ Hok) as Hlen.
  match goal with |- context [for_range ?n 0 ?body 0] =>
    destruct (for_range_inv (λ k total, total = active_weight (take (Z.to_nat k) (sm_tasks m)) ∧
      0 ≤ total ≤ 10240 * k) n 0 body 0) as (total & -> & Htotal & _); [done| |] end.
  - intros k total Hk [-> Hb]. rewrite Z2Nat.id in Hk by done.
    destruct (sm_scan m k Hok) as (t & Ht & ->); [lia|]. cbn [mbind option_bind].
    pose proof (active_weight_of_bounds t (Hw _ _ Ht)) as Hbt.
    assert (active_weight (take (Z.to_nat (k + 1)) (sm_tasks m)) =
            active_weight (take (Z.to_nat k) (sm_tasks m)) + active_weight_of t) as Hnext.
    { replace (Z.to_nat (k + 1)) with (S (Z.to_nat k)) by lia.
      rewrite (take_S_r _ _ t) by (by rewrite <- arr_get_lookup by lia).
      rewrite active_weight_app. cbn [active_weight]. lia. }
    unfold active_weight_of in Hnext, Hbt.
    destruct (task_visible t); cbn [andb] in *; [rewrite Ht; cbn [mbind option_bind]|].
    + revert Hnext Hbt. destruct (_ || _); intros Hnext Hbt; (eexists; split; [done|]; rewrite Hnext).
      * rewrite u32_small by (unfold is_u32, LETTUCE_MAX_TASKS in *; lia). lia.
      * split; lia.
    + eexists. split; [done|]. rewrite Hnext. split; lia.
  - cbn [mbind option_bind]. unfold LETTUCE_MAX_TASKS in *. rewrite take_ge in Htotal by lia. by rewrite Htotal.
Qed.

Lemma active_weight_member (tb : list LettuceTask) (i : Z) (t : LettuceTask) :
  weights_bounded tb → arr_get tb i = Some t → active_weight_of t ≤ active_weight tb.
Proof.
  intros Hw Ht. pose proof (arr_get_Some_range _ _ _ Ht) as Hr. rewrite arr_get_lookup in Ht by lia.
  pose proof (take_drop_middle _ _ _ Ht) as Hsplit.
  set (l := take (Z.to_nat i) tb) in *. set (k := drop (S (Z.to_nat i)) tb) in *. clearbody l k. subst tb.
  assert (∀ j, (∀ x, x ∈ j → 0 ≤ active_weight_of x) → 0 ≤ active_weight j) as Hpos.
  { induction j as [|x j IH]; cbn [active_weight]; [lia|]. intros Hj. pose proof (Hj x ltac:(left)).
    assert (0 ≤ active_weight j) by (apply IH; intros y Hy; apply Hj; by right). lia. }
  assert (∀ x, x ∈ l ++ t :: k → 0 ≤ active_weight_of x) as Hall.
  { intros x [n Hn]%list_elem_of_lookup. apply active_weight_of_bounds, (Hw (Z.of_nat n)).
    by rewrite arr_get_nat. }
  rewrite active_weight_app. cbn [active_weight].
  assert (0 ≤ active_weight l) by (apply Hpos; intros; apply Hall; set_solver).
  assert (0 ≤ active_weight k) by (apply Hpos; intros; apply Hall; set_solver). lia.
Qed.

Lemma active_weight_core (tb tb' : list LettuceTask) : same_core tb tb' → active_weight tb' = active_weight tb.
Proof.
  assert (∀ l, active_weight (task_core <$> l) = active_weight l) as Hl.
  { induction l as [|t l IH]; [done|]. rewrite fmap_cons. cbn [active_weight]. rewrite IH.
    f_equal. by destruct t. }
  intros H. by rewrite <- (Hl tb'), <- (Hl tb), H.
Qed.

Lemma weights_bounded_core (tb tb' : list LettuceTask) : same_core tb tb' → weights_bounded tb → weights_bounded tb'.
Proof.
  intros H Hw i t' Ht'. symmetry in H. destruct (same_core_Some _ _ i t' H Ht') as (t & Ht & Hc).
  apply task_core_fields in Hc as (_ & _ & _ & _ & _ & _ & _ & <- & _). by eapply Hw.
Qed.

(** ** Claims *)

(** C20: EEVDF picks right.  Among the ready tasks the scan finds, which are those whose
    slot has a generation of at most 10, it chooses the eligible one (virtual runtime not
    past the system's) with the earliest virtual deadline, the lowest slot among equals;
    with none eligible, the one with the least virtual runtime, to which the system's
    virtual time is advanced; with no ready task, a still running caller; it touches
    nothing but scheduling metadata, and virtual time does not go back unless an eligible
    deadline sits at the 64-bit maximum. *)
Theorem eevdf_pick_is_earliest_eligible_deadline (m : sched_mem) (curr : option Z) :
  sm_ok m → (∀ c, curr = Some c → 0 ≤ c < LETTUCE_MAX_TASKS) →
  ∃ p m', eevdf_pick_next curr m = Some (p, m') ∧ same_core (sm_tasks m) (sm_tasks m') ∧
    eevdf_choice m curr p (g_eevdf_vsys (sm_vars m')) ∧
    ((∀ i t, eligible_at m i t → pick_deadline t < UINT64_MAX) →
     g_eevdf_vsys (sm_vars m) ≤ g_eevdf_vsys (sm_vars m')).
Proof.
  intros Hok Hcurr. destruct (eevdf_pick_exact m Hok curr Hcurr) as (p & m' & Hp & Hc & Hch).
  exists p, m'. split_and!; [done..|]. intros Hsat.
  destruct Hch as [s t _ _ _|s t Hnone Hr _ _|c t _ _ _ _|_ _]; [lia| |lia|lia].
  destruct (decide (tk_vruntime t ≤ g_eevdf_vsys (sm_vars m))) as [He|]; [|lia].
  specialize (Hnone s t (conj Hr He)). specialize (Hsat s t (conj Hr He)). lia.
Qed.

(** A running task after a tick. *)
Definition tick_charge (t : LettuceTask) : LettuceTask :=
  set_time_slice (slice_after (tk_time_slice_ticks t) 1)
    (set_vruntime (tk_vruntime t + 65536 / tk_weight t) (set_total_ticks (u64 (tk_total_ticks_run t + 1)) t)).

(** The tick touches the running task and the system's virtual time. *)
Lemma eevdf_tick_exact (m : sched_mem) (c : Z) (t : LettuceTask) :
  sm_ok m → weights_bounded (sm_tasks m) →
  arr_get (sm_tasks m) c = Some t → tk_state t = LETTUCE_TASK_STATE_RUNNING → task_visible t = true →
  0 ≤ tk_vruntime t < 2 ^ 64 - 65536 → 0 ≤ g_eevdf_vsys (sm_vars m) < 2 ^ 64 - 65536 →
  tk_weight t ≤ active_weight (sm_tasks m) ∧
  ∃ m', eevdf_on_tick (Some c) 1 m = Some m' ∧ same_core (sm_tasks m) (sm_tasks m') ∧
    g_eevdf_vsys (sm_vars m') = g_eevdf_vsys (sm_vars m) + 65536 / active_weight (sm_tasks m) ∧
    ∀ i, arr_get (sm_tasks m') i = if decide (c = i) then Some (tick_charge t) else arr_get (sm_tasks m) i.
Proof.
  intros Hok Hw Ht Hs Hv Hvr Hvs. unfold eevdf_on_tick.
  pose proof (arr_get_Some_range _ _ _ Ht) as Hc. rewrite (so_len _ Hok) in Hc.
  pose proof (Hw _ _ Ht) as Hwt. pose proof (active_weight_member _ _ _ Hw Ht) as Hmem.
  assert (active_weight_of t = tk_weight t) as Hwo.
  { unfold active_weight_of, effective_weight. rewrite Hv, Hs, state_is_refl, orb_true_r. cbn.
    by rewrite (proj2 (Z.ltb_lt _ _)) by lia. }
  rewrite Hwo in Hmem. set (W := active_weight (sm_tasks m)) in *. split; [done|].
  assert (0 ≤ 65536 / W ≤ 65536 / tk_weight t ∧ 65536 / tk_weight t ≤ 65536) as Hdiv.
  { split; [split; [apply Z.div_pos; lia|apply Z.div_le_compat_l; lia]|].
    apply Z.div_le_upper_bound; lia. }
  match goal with |- context [sm_update c ?f m] =>
    destruct (same_core_update m c f Hok Hc) as (t0 & m1 & Ht0 & -> & Hv1 & Hc1 & Hget1); [by intros []|] end.
  rewrite Ht in Ht0. injection Ht0 as <-. rewrite Ht. cbn [mbind option_bind].
  rewrite Hs, state_is_refl. cbn [negb].
  assert (sm_ok m1) as Hok1 by by eapply same_core_ok.
  rewrite (weight_sum_exact m1 Hok1) by by eapply weights_bounded_core.
  rewrite (active_weight_core _ _ Hc1). fold W. rewrite (proj2 (Z.ltb_lt 0 W)) by lia. cbn [mbind option_bind].
  match goal with |- context [sm_update c ?f ?m2] =>
    destruct (same_core_update m2 c f) as (t2 & m3 & Ht2 & -> & Hv3 & Hc3 & Hget3);
      [by destruct Hok1|done|intros; apply task_core_accounting|] end.
  cbn in Ht2. rewrite Hget1, decide_True in Ht2 by done. injection Ht2 as <-.
  exists m3. split; [done|]. split; [by etrans|]. rewrite Hv3. cbn [set_vsys sm_vars g_eevdf_vsys]. rewrite Hv1.
  change (u64 (1 * LETTUCE_EEVDF_SCALE)) with 65536. split; [apply u64_small; unfold is_u64; lia|].
  assert (effective_weight (tk_weight t) = tk_weight t) as Hew.
  { unfold effective_weight. by rewrite (proj2 (Z.ltb_lt _ _)) by lia. }
  intros i. rewrite Hget3. cbn [set_vsys sm_tasks]. rewrite Hget1. case_decide as Hi; [|done]. f_equal.
  unfold tick_charge. change (u64 (1 * LETTUCE_EEVDF_SCALE)) with 65536. rewrite Hew, (u64_small (tk_vruntime t + _)) by (unfold is_u64; lia). by destruct t.
Qed.

(** Tick accounting.  While no 64-bit virtual time is about to wrap, one tick
    charges the running task 65536 divided by its weight and advances the system's
    virtual time by 65536 divided by the sum of all active weights, so the running
    task's lag never grows; its slice shrinks by one and stops at zero. *)
Theorem eevdf_tick_charges_the_running_task (m : sched_mem) (c : Z) (t : LettuceTask) :
  sm_ok m → weights_bounded (sm_tasks m) →
  arr_get (sm_tasks m) c = Some t → tk_state t = LETTUCE_TASK_STATE_RUNNING → task_visible t = true →
  0 ≤ tk_vruntime t < 2 ^ 64 - 65536 → 0 ≤ g_eevdf_vsys (sm_vars m) < 2 ^ 64 - 65536 →
  0 ≤ tk_time_slice_ticks t →
  ∃ m' t', eevdf_on_tick (Some c) 1 m = Some m' ∧ arr_get (sm_tasks m') c = Some t' ∧
    tk_vruntime t' = tk_vruntime t + 65536 / tk_weight t ∧
    g_eevdf_vsys (sm_vars m') = g_eevdf_vsys (sm_vars m) + 65536 / active_weight (sm_tasks m) ∧
    g_eevdf_vsys (sm_vars m') - tk_vruntime t' ≤ g_eevdf_vsys (sm_vars m) - tk_vruntime t ∧
    tk_time_slice_ticks t' = Z.max 0 (tk_time_slice_ticks t - 1).
Proof.
  intros Hok Hw Ht Hs Hv Hvr Hvs Hsl. pose proof (Hw _ _ Ht) as Hwt.
  destruct (eevdf_tick_exact m c t Hok Hw Ht Hs Hv Hvr Hvs) as (Hle & m' & Hx & _ & Hvs' & Hget).
  assert (65536 / active_weight (sm_tasks m) ≤ 65536 / tk_weight t) by (apply Z.div_le_compat_l; lia).
  exists m', (tick_charge t). split; [done|]. rewrite Hget, decide_True by done. split; [done|]. rewrite Hvs'.
  unfold tick_charge, slice_after. destruct t; cbn in *. split_and!; [done|done|lia|]. case_match; b2p; lia.
Qed.

(** No credit for sleeping.  A woken task's virtual runtime is raised to the
    system's virtual time if it was behind, its deadline is recomputed, and no other
    task and no policy variable changes: its lag is at most zero however long it slept. *)
Theorem eevdf_wakeup_gets_no_credit (m : sched_mem) (s : Z) (t : LettuceTask) :
  sm_ok m → arr_get (sm_tasks m) s = Some t →
  ∃ m' t', eevdf_on_task_wake (Some s) m = Some m' ∧ arr_get (sm_tasks m') s = Some t' ∧
    tk_vruntime t' = Z.max (tk_vruntime t) (g_eevdf_vsys (sm_vars m)) ∧
    tk_vdeadline t' = u64 (tk_vruntime t' + calc_vslice (Some t)) ∧ task_core t' = task_core t ∧
    sm_vars m' = sm_vars m ∧ ∀ i, i ≠ s → arr_get (sm_tasks m') i = arr_get (sm_tasks m) i.
Proof.
  intros Hok Ht. pose proof (arr_get_Some_range _ _ _ Ht) as Hs. rewrite (so_len _ Hok) in Hs.
  destruct (same_core_update m s (align (g_eevdf_vsys (sm_vars m))) Hok Hs (align_core _))
    as (t0 & m' & Ht0 & Hup & Hv & _ & Hget).
  rewrite Ht in Ht0. injection Ht0 as <-. exists m', (align (g_eevdf_vsys (sm_vars m)) t).
  split; [done|]. split; [by rewrite Hget, decide_True|]. split_and!; try done.
  - unfold align. destruct (Z.ltb_spec (tk_vruntime t) (g_eevdf_vsys (sm_vars m))); destruct t; cbn in *; lia.
  - unfold align. destruct (_ <? _); by destruct t.
  - apply align_core.
  - intros i Hi. by rewrite Hget, decide_False by congruence.
Qed.

(** ** Witnesses *)

(** Two tasks, slot 0 running and slot 1 ready, in a system whose virtual time is 100. *)
Definition eevdf_demo_tasks : list LettuceTask :=
  match task_run [TaskCreate 10 100 4096 8192 0; TaskCreate 20 200 4096 8192 0]
          {| g_task_table := task_table_fresh; g_current_task := None |} with
  | Some st => match task_update 0 (set_state LETTUCE_TASK_STATE_RUNNING) (g_task_table st) with
               | Some tb => tb
               | None => []
               end
  | None => []
  end.

Definition eevdf_demo : sched_mem :=
  {| sm_tasks := eevdf_demo_tasks; sm_vars := {| g_rr_last_idx := 0; g_eevdf_vsys := 100 |} |}.

Lemma eevdf_demo_ok : sm_ok eevdf_demo.
Proof.
  split; [reflexivity|]. intros i t Ht.
  assert ((1 <=? tk_generation t) && (tk_generation t <? 2 ^ 16) = true) as Hg.
  { apply (arr_forall (λ t, (1 <=? tk_generation t) && (tk_generation t <? 2 ^ 16)) _ i _) in Ht; [exact Ht|].
    vm_compute. reflexivity. }
  b2p. unfold gen_ok. lia.
Qed.

Lemma eevdf_demo_weights : weights_bounded (sm_tasks eevdf_demo).
Proof.
  intros i t Ht.
  assert ((1 <=? tk_weight t) && (tk_weight t <=? 10240) = true) as Hg.
  { apply (arr_forall (λ t, (1 <=? tk_weight t) && (tk_weight t <=? 10240)) _ i _) in Ht; [exact Ht|].
    vm_compute. reflexivity. }
  b2p. lia.
Qed.

Lemma eevdf_pick_is_earliest_eligible_deadline_witness :
  ∃ m', eevdf_pick_next (Some 0) eevdf_demo = Some (Some 1, m') ∧
    same_core (sm_tasks eevdf_demo) (sm_tasks m').
Proof.
  destruct (eevdf_pick_is_earliest_eligible_deadline eevdf_demo (Some 0) eevdf_demo_ok)
    as (p & m' & Hp & Hc & _).
  - intros c Hc. injection Hc as <-. unfold LETTUCE_MAX_TASKS. lia.
  - exists m'. split; [|exact Hc]. rewrite Hp. vm_compute in Hp. injection Hp as <- _. reflexivity.
Defined.

Lemma eevdf_tick_charges_the_running_task_witness :
  ∃ m' t', eevdf_on_tick (Some 0) 1 eevdf_demo = Some m' ∧ arr_get (sm_tasks m') 0 = Some t' ∧
    tk_vruntime t' = 64 ∧ g_eevdf_vsys (sm_vars m') = 132.
Proof.
  destruct (arr_get_is_Some (sm_tasks eevdf_demo) 0) as [t Ht]; [split; [lia|reflexivity]|].
  assert (Hcopy := Ht). vm_compute in Hcopy. injection Hcopy as Ht0.
  destruct (eevdf_tick_charges_the_running_task eevdf_demo 0 t eevdf_demo_ok eevdf_demo_weights Ht)
    as (m' & t' & Hm & Ht' & Hv & Hs & _).
  - rewrite <- Ht0. reflexivity.
  - rewrite <- Ht0. reflexivity.
  - rewrite <- Ht0. cbn. lia.
  - cbn. lia.
  - rewrite <- Ht0. cbn. lia.
  - exists m', t'. split; [exact Hm|]. split; [exact Ht'|]. split.
    + rewrite Hv, <- Ht0. reflexivity.
    + rewrite Hs. reflexivity.
Defined.

Lemma eevdf_wakeup_gets_no_credit_witness :
  ∃ m' t', eevdf_on_task_wake (Some 1) eevdf_demo = Some m' ∧ arr_get (sm_tasks m') 1 = Some t' ∧
    tk_vruntime t' = 100.
Proof.
  destruct (arr_get_is_Some (sm_tasks eevdf_demo) 1) as [t Ht]; [split; [lia|reflexivity]|].
  assert (Hcopy := Ht). vm_compute in Hcopy. injection Hcopy as Ht0.
  destruct (eevdf_wakeup_gets_no_credit eevdf_demo 1 t eevdf_demo_ok Ht) as (m' & t' & Hm & Ht' & Hv & _).
  exists m', t'. split; [exact Hm|]. split; [exact Ht'|]. rewrite Hv, <- Ht0. reflexivity.
Defined.
