(* ===== verification/Scheduler.v ===== *)
(** * The scheduler mechanism: [kernel/scheduler/scheduler.c]

    [do_schedule] wakes sleepers, lets the policy account and choose, and switches
    tasks by exchanging the exception frame with task contexts.  The tick counter
    [lettuce_timer_get_ticks()] is the argument [now].  The ARM64 build also switches
    the address space; [arch_enter] stands for that ([lettuce_mmu_enter], or nothing on
    the host), on a backend state [P].  A [NULL] frame is [None]. *)

From S2P Require Import Prelude Types Generation Task Policy RoundRobin Eevdf.

Inductive LettuceSchedPolicyType := LETTUCE_SCHED_POLICY_RR | LETTUCE_SCHED_POLICY_EEVDF.

Record LettuceTrapFrame := {
  tf_x : list Z;
  tf_lr : Z;
  tf_elr : Z;
  tf_spsr : Z;
  tf_sp_el0 : Z
}.

(** [g_policy_ops] always points to the table of [g_current_policy_type]. *)
Definition policy_ops_of (p : LettuceSchedPolicyType) : LettuceSchedPolicyOps :=
  match p with
  | LETTUCE_SCHED_POLICY_EEVDF => g_lettuce_sched_eevdf_ops
  | LETTUCE_SCHED_POLICY_RR => g_lettuce_sched_rr_ops
  end.

Section scheduler.
Context {P : Type} (arch_enter : Z → P → P).

Record scheduler_state := {
  ss_tasks : task_state;
  ss_vars : policy_vars;
  g_scheduler_active : bool;
  g_switch_count : Z;
  g_preempt_count : Z;
  g_same_domain_switches : Z;
  g_cross_domain_switches : Z;
  g_preempt_limit : Z;
  g_current_policy_type : LettuceSchedPolicyType;
  ss_service : Z;
  ss_arch : P
}.

(** ** State updates *)

Definition ss_mem (st : scheduler_state) : sched_mem :=
  {| sm_tasks := g_task_table (ss_tasks st); sm_vars := ss_vars st |}.

Definition with_mem (m : sched_mem) (st : scheduler_state) : scheduler_state :=
  {| ss_tasks := {| g_task_table := sm_tasks m; g_current_task := g_current_task (ss_tasks st) |};
     ss_vars := sm_vars m; g_scheduler_active := g_scheduler_active st;
     g_switch_count := g_switch_count st; g_preempt_count := g_preempt_count st;
     g_same_domain_switches := g_same_domain_switches st;
     g_cross_domain_switches := g_cross_domain_switches st; g_preempt_limit := g_preempt_limit st;
     g_current_policy_type := g_current_policy_type st; ss_service := ss_service st; ss_arch := ss_arch st |}.

Definition set_active (b : bool) (st : scheduler_state) : scheduler_state :=
  {| ss_tasks := ss_tasks st; ss_vars := ss_vars st; g_scheduler_active := b;
     g_switch_count := g_switch_count st; g_preempt_count := g_preempt_count st;
     g_same_domain_switches := g_same_domain_switches st;
     g_cross_domain_switches := g_cross_domain_switches st; g_preempt_limit := g_preempt_limit st;
     g_current_policy_type := g_current_policy_type st; ss_service := ss_service st; ss_arch := ss_arch st |}.

(** ** Control operations *)

Definition lettuce_scheduler_init (st : scheduler_state) : option scheduler_state :=
  tasks ← lettuce_task_init_subsystem (ss_tasks st);
  Some {| ss_tasks := tasks; ss_vars := op_init (policy_ops_of (g_current_policy_type st)) (ss_vars st);
          g_scheduler_active := false; g_switch_count := 0; g_preempt_count := 0;
          g_same_domain_switches := 0; g_cross_domain_switches := 0; g_preempt_limit := 0;
          g_current_policy_type := g_current_policy_type st; ss_service := ss_service st;
          ss_arch := ss_arch st |}.

Definition lettuce_scheduler_start (st : scheduler_state) : scheduler_state := set_active true st.
Definition lettuce_scheduler_stop (st : scheduler_state) : scheduler_state := set_active false st.
Definition lettuce_scheduler_is_active (st : scheduler_state) : bool := g_scheduler_active st.

Definition lettuce_scheduler_switch_count (st : scheduler_state) : Z := g_switch_count st.
Definition lettuce_scheduler_preempt_count (st : scheduler_state) : Z := g_preempt_count st.
Definition lettuce_scheduler_same_domain_switches (st : scheduler_state) : Z := g_same_domain_switches st.
Definition lettuce_scheduler_cross_domain_switches (st : scheduler_state) : Z := g_cross_domain_switches st.

Definition lettuce_scheduler_set_policy (policy : LettuceSchedPolicyType) (st : scheduler_state)
    : scheduler_state :=
  {| ss_tasks := ss_tasks st; ss_vars := op_init (policy_ops_of policy) (ss_vars st);
     g_scheduler_active := g_scheduler_active st; g_switch_count := g_switch_count st;
     g_preempt_count := g_preempt_count st; g_same_domain_switches := g_same_domain_switches st;
     g_cross_domain_switches := g_cross_domain_switches st; g_preempt_limit := g_preempt_limit st;
     g_current_policy_type := policy; ss_service := ss_service st; ss_arch := ss_arch st |}.

Definition lettuce_scheduler_get_policy (st : scheduler_state) : LettuceSchedPolicyType :=
  g_current_policy_type st.

Definition lettuce_scheduler_set_preempt_limit (max_preempts : Z) (st : scheduler_state) : scheduler_state :=
  {| ss_tasks := ss_tasks st; ss_vars := ss_vars st; g_scheduler_active := g_scheduler_active st;
     g_switch_count := g_switch_count st; g_preempt_count := g_preempt_count st;
     g_same_domain_switches := g_same_domain_switches st;
     g_cross_domain_switches := g_cross_domain_switches st; g_preempt_limit := max_preempts;
     g_current_policy_type := g_current_policy_type st; ss_service := ss_service st; ss_arch := ss_arch st |}.

(** ** Frames and contexts *)

(** [for (r = 0; r < 30; ++r) context.x[r] = tf->x[r]; context.x[30] = tf->lr; ...] *)
Definition save_frame (tf : LettuceTrapFrame) (c : LettuceTaskContext) : option LettuceTaskContext :=
  x ← for_range 30 0 (λ r x, v ← arr_get (tf_x tf) r; arr_set x r v) (ctx_x c);
  x ← arr_set x 30 (tf_lr tf);
  Some {| ctx_x := x; ctx_sp_el0 := tf_sp_el0 tf; ctx_elr_el1 := tf_elr tf; ctx_spsr_el1 := tf_spsr tf |}.

(** [for (r = 0; r < 30; ++r) tf->x[r] = context.x[r]; tf->lr = context.x[30]; ...] *)
Definition restore_frame (c : LettuceTaskContext) (tf : LettuceTrapFrame) : option LettuceTrapFrame :=
  x ← for_range 30 0 (λ r x, v ← arr_get (ctx_x c) r; arr_set x r v) (tf_x tf);
  lr ← arr_get (ctx_x c) 30;
  Some {| tf_x := x; tf_lr := lr; tf_elr := ctx_elr_el1 c; tf_spsr := ctx_spsr_el1 c; tf_sp_el0 := ctx_sp_el0 c |}.

(** ** Scheduling *)

Section do_schedule.
Context (ops : LettuceSchedPolicyOps).

(** Step 1: wake the sleepers whose deadline has passed. *)
Definition wake_slot (now slot : Z) (m : sched_mem) : option sched_mem :=
  found ← task_scan slot (sm_tasks m);
  match found with
  | None => Some m
  | Some p =>
      t ← arr_get (sm_tasks m) p;
      if state_is (tk_state t) LETTUCE_TASK_STATE_SLEEPING && (tk_sleep_deadline_ticks t <=? now)
      then m' ← sm_update p (set_state LETTUCE_TASK_STATE_READY) m; op_on_task_wake ops (Some p) m'
      else Some m
  end.

Definition wake_sleepers (now : Z) (m : sched_mem) : option sched_mem :=
  for_range (Z.to_nat LETTUCE_MAX_TASKS) 0 (wake_slot now) m.

(** Step 2: account for the running task; save it and make it ready unless its
    quantum lasts.  [true] is the early [return]. *)
Definition account_current (curr : option Z) (is_preemption : bool) (tf : LettuceTrapFrame) (m : sched_mem)
    : option (bool * sched_mem) :=
  match curr with
  | None => Some (false, m)
  | Some c =>
      t ← arr_get (sm_tasks m) c;
      if negb (state_is (tk_state t) LETTUCE_TASK_STATE_RUNNING) then Some (false, m) else
      m1 ← op_on_tick ops (Some c) 1 m;
      t1 ← arr_get (sm_tasks m1) c;
      if (0 <? tk_time_slice_ticks t1) && is_preemption then Some (true, m1) else
      ctx ← save_frame tf (tk_context t1);
      m2 ← sm_update c (λ t, set_state LETTUCE_TASK_STATE_READY (set_context ctx t)) m1;
      m3 ← op_on_task_ready ops (Some c) m2;
      Some (false, m3)
  end.

(** [curr->state = RUNNING; curr->time_slice_ticks = curr->quantum_ticks;] *)
Definition keep_running (t : LettuceTask) : LettuceTask :=
  renew_quantum (set_state LETTUCE_TASK_STATE_RUNNING t).

End do_schedule.

(** [curr != 0 && next_task->domain_id == curr->domain_id] *)
Definition shares_domain (n : LettuceTask) (curr : option Z) (m : sched_mem) : option bool :=
  match curr with
  | None => Some false
  | Some c => t ← arr_get (sm_tasks m) c; Some (tk_domain_id n =? tk_domain_id t)
  end.

(** Steps 4 and 5: hand the processor to [next].  The [bool] tells that the
    preemption limit is reached, where the ARM64 build leaves for the kernel. *)
Definition switch_to (next : Z) (curr : option Z) (is_preemption : bool) (tf : LettuceTrapFrame)
    (m : sched_mem) (st : scheduler_state) : option (bool * LettuceTrapFrame * scheduler_state) :=
  n ← arr_get (sm_tasks m) next;
  shares_domain n curr m ≫= λ same_domain : bool,
  m' ← sm_update next (set_state LETTUCE_TASK_STATE_RUNNING) m;
  tf' ← restore_frame (tk_context n) tf;
  let preempts := if is_preemption then u64 (g_preempt_count st + 1) else g_preempt_count st in
  let limit_hit := is_preemption && (0 <? g_preempt_limit st) && (g_preempt_limit st <=? preempts) in
  Some (limit_hit, tf',
        {| ss_tasks := {| g_task_table := sm_tasks m'; g_current_task := Some next |};
           ss_vars := sm_vars m';
           g_scheduler_active := if limit_hit then false else g_scheduler_active st;
           g_switch_count := u64 (g_switch_count st + 1);
           g_preempt_count := preempts;
           g_same_domain_switches :=
             if same_domain then u64 (g_same_domain_switches st + 1) else g_same_domain_switches st;
           g_cross_domain_switches :=
             if same_domain then g_cross_domain_switches st else u64 (g_cross_domain_switches st + 1);
           g_preempt_limit := g_preempt_limit st;
           g_current_policy_type := g_current_policy_type st;
           ss_service := tk_service_id n;
           ss_arch := if same_domain then ss_arch st else arch_enter (tk_domain_id n) (ss_arch st) |}).

Definition do_schedule (now : Z) (trap_frame : option LettuceTrapFrame) (is_preemption : bool)
    (st : scheduler_state) : option (bool * option LettuceTrapFrame * scheduler_state) :=
  match trap_frame with
  | None => Some (false, None, st)
  | Some tf =>
  if negb (g_scheduler_active st) then Some (false, Some tf, st) else
  let ops := policy_ops_of (g_current_policy_type st) in
  let curr := lettuce_task_current (ss_tasks st) in
  m1 ← wake_sleepers ops now (ss_mem st);
  '(continue, m2) ← account_current ops curr is_preemption tf m1;
  if (continue : bool) then Some (false, Some tf, with_mem m2 st) else
  '(next_task, m3) ← op_pick_next ops curr m2;
  match next_task with
  | None =>
      match curr with
      | None => Some (false, Some tf, with_mem m3 st)
      | Some c =>
          t ← arr_get (sm_tasks m3) c;
          if state_is (tk_state t) LETTUCE_TASK_STATE_READY
          then m4 ← sm_update c keep_running m3; Some (false, Some tf, with_mem m4 st)
          else Some (false, Some tf, with_mem m3 st)
      end
  | Some next =>
      if bool_decide (curr = Some next)
      then m4 ← sm_update next keep_running m3; Some (false, Some tf, with_mem m4 st)
      else '(limit_hit, tf', st') ← switch_to next curr is_preemption tf m3 st;
           Some (limit_hit, Some tf', st')
  end
  end.

Definition lettuce_scheduler_tick (now : Z) (trap_frame : option LettuceTrapFrame) (st : scheduler_state)
    : option (bool * option LettuceTrapFrame * scheduler_state) :=
  do_schedule now trap_frame true st.

Definition lettuce_scheduler_sleep_current (now ticks : Z) (trap_frame : option LettuceTrapFrame)
    (st : scheduler_state) : option (bool * option LettuceTrapFrame * scheduler_state) :=
  match lettuce_task_current (ss_tasks st) with
  | None => Some (false, trap_frame, st)
  | Some c =>
      m ← sm_update c (λ t, set_state LETTUCE_TASK_STATE_SLEEPING (set_sleep_deadline (u64 (now + ticks)) t))
            (ss_mem st);
      m ← op_on_task_sleep (policy_ops_of (g_current_policy_type st)) (Some c) m;
      do_schedule now trap_frame false (with_mem m st)
  end.

Definition lettuce_scheduler_yield (now : Z) (trap_frame : option LettuceTrapFrame) (st : scheduler_state)
    : option (bool * option LettuceTrapFrame * scheduler_state) :=
  match lettuce_task_current (ss_tasks st) with
  | None => Some (false, trap_frame, st)
  | Some c =>
      m ← sm_update c (set_time_slice 0) (ss_mem st);
      do_schedule now trap_frame false (with_mem m st)
  end.

(** ** Frames and contexts: facts *)

Definition frame_ok (tf : LettuceTrapFrame) : Prop := length (tf_x tf) = 30%nat.

Definition context_of_frame (tf : LettuceTrapFrame) : LettuceTaskContext :=
  {| ctx_x := tf_x tf ++ [tf_lr tf]; ctx_sp_el0 := tf_sp_el0 tf; ctx_elr_el1 := tf_elr tf;
     ctx_spsr_el1 := tf_spsr tf |}.

Definition frame_of_context (c : LettuceTaskContext) : LettuceTrapFrame :=
  {| tf_x := take 30 (ctx_x c); tf_lr := default 0 (ctx_x c !! 30%nat); tf_elr := ctx_elr_el1 c;
     tf_spsr := ctx_spsr_el1 c; tf_sp_el0 := ctx_sp_el0 c |}.

(** Copying the first [n] entries of one array over another. *)
Lemma copy_prefix (n : nat) (src dst : list Z) :
  (n ≤ length src)%nat → (n ≤ length dst)%nat →
  for_range n 0 (λ r x, v ← arr_get src r; arr_set x r v) dst = Some (take n src ++ drop n dst).
Proof.
  intros Hs Hd.
  destruct (for_range_inv (λ k x, length x = length dst ∧
      ∀ i, arr_get x i = if decide (i < k) then arr_get src i else arr_get dst i) n 0
    (λ r x, v ← arr_get src r; arr_set x r v) dst) as (x & -> & Hlen & Hget).
  - split; [done|]. intros i. case_decide; [|done]. unfold arr_get. by rewrite (proj2 (Z.leb_gt 0 i)).
  - intros k x Hk [Hlen Hget]. destruct (arr_get_is_Some src k) as [v Hv]; [lia|]. rewrite Hv. cbn.
    rewrite arr_set_Some by lia. eexists. split; [done|]. rewrite length_insert. split; [done|].
    intros i. rewrite arr_get_insert by lia. rewrite Hget. repeat case_decide; subst; try done; lia.
  - f_equal. apply arr_eq; [rewrite length_app, length_take, length_drop; lia|].
    intros i Hi. rewrite Hget, !arr_get_lookup by lia.
    case_decide.
    + rewrite lookup_app_l by (rewrite length_take; lia). by rewrite lookup_take_lt by lia.
    + rewrite lookup_app_r by (rewrite length_take; lia). rewrite lookup_drop, length_take.
      f_equal. lia.
Qed.

Lemma save_frame_spec (tf : LettuceTrapFrame) (c : LettuceTaskContext) :
  frame_ok tf → length (ctx_x c) = 31%nat → save_frame tf c = Some (context_of_frame tf).
Proof.
  intros Htf Hc. unfold save_frame, frame_ok, context_of_frame in *.
  rewrite copy_prefix by lia. cbn [mbind option_bind].
  rewrite take_ge by lia. rewrite arr_set_Some by (rewrite length_app, length_drop; lia).
  cbn [mbind option_bind]. do 2 f_equal. change (Z.to_nat 30) with (30 + 0)%nat. rewrite <- Htf at 1.
  rewrite insert_app_r. f_equal.
  destruct (drop 30 (ctx_x c)) as [|v [|]] eqn:Hd; [..|]; apply (f_equal length) in Hd as Hl;
    rewrite length_drop in Hl; cbn in Hl; try lia. done.
Qed.

Lemma restore_frame_spec (tf : LettuceTrapFrame) (c : LettuceTaskContext) :
  frame_ok tf → length (ctx_x c) = 31%nat → restore_frame c tf = Some (frame_of_context c).
Proof.
  intros Htf Hc. unfold restore_frame, frame_ok, frame_of_context in *.
  rewrite copy_prefix by lia. rewrite drop_ge, app_nil_r by lia. cbn [mbind option_bind].
  destruct (lookup_lt_is_Some_2 (ctx_x c) 30) as [v Hv]; [lia|].
  rewrite arr_get_lookup by lia. change (Z.to_nat 30) with 30%nat. by rewrite Hv.
Qed.

(** What is saved is what is restored. *)
Lemma frame_context_frame (tf : LettuceTrapFrame) : frame_ok tf → frame_of_context (context_of_frame tf) = tf.
Proof.
  unfold frame_ok, frame_of_context, context_of_frame. destruct tf as [x lr elr spsr sp]. cbn. intros Hx.
  rewrite take_app_length' by done. rewrite lookup_app_r by lia. rewrite Hx. done.
Qed.

Lemma frame_of_context_ok (c : LettuceTaskContext) : length (ctx_x c) = 31%nat → frame_ok (frame_of_context c).
Proof. intros Hc. unfold frame_ok, frame_of_context. cbn. rewrite length_take. lia. Qed.

(** ** How a scheduling step changes the table *)

(** A task without its scheduling metadata, state and context. *)
Definition task_ident (t : LettuceTask) : LettuceTask :=
  set_context context_zero (set_state LETTUCE_TASK_STATE_UNUSED (task_core t)).

(** Every task keeps its identity; every task but [c] keeps its context and its
    state, up to waking. *)
Definition evolves (c : option Z) (tb tb' : list LettuceTask) : Prop :=
  length tb' = length tb ∧
  ∀ i t, arr_get tb i = Some t → ∃ t', arr_get tb' i = Some t' ∧ task_ident t' = task_ident t ∧
    (c ≠ Some i → tk_context t' = tk_context t ∧
       (tk_state t' = tk_state t ∨ (tk_state t = LETTUCE_TASK_STATE_SLEEPING ∧ tk_state t' = LETTUCE_TASK_STATE_READY))).

Lemma task_ident_core (t t' : LettuceTask) :
  task_core t' = task_core t →
  task_ident t' = task_ident t ∧ tk_context t' = tk_context t ∧ tk_state t' = tk_state t.
Proof. intros H. unfold task_ident. rewrite H. by apply task_core_fields in H as (? & _ & ? & _). Qed.

Lemma task_ident_fields (t t' : LettuceTask) :
  task_ident t' = task_ident t →
  tk_id t' = tk_id t ∧ tk_generation t' = tk_generation t ∧ tk_service_id t' = tk_service_id t ∧
  tk_domain_id t' = tk_domain_id t ∧ tk_quantum_ticks t' = tk_quantum_ticks t ∧ tk_weight t' = tk_weight t.
Proof. destruct t, t'. cbn. intros [= *]. by subst. Qed.

Lemma evolves_refl (c : option Z) (tb : list LettuceTask) : evolves c tb tb.
Proof. split; [done|]. intros i t Ht. exists t. auto. Qed.

Lemma evolves_trans (c : option Z) (tb1 tb2 tb3 : list LettuceTask) :
  evolves c tb1 tb2 → evolves c tb2 tb3 → evolves c tb1 tb3.
Proof.
  intros [Hl1 H1] [Hl2 H2]. split; [congruence|]. intros i t Ht.
  destruct (H1 i t Ht) as (t2 & Ht2 & Hi2 & Hn2). destruct (H2 i t2 Ht2) as (t3 & Ht3 & Hi3 & Hn3).
  exists t3. split_and!; [done|congruence|]. intros Hc.
  destruct (Hn2 Hc) as [Hx2 Hs2]. destruct (Hn3 Hc) as [Hx3 Hs3]. split; [congruence|].
  destruct Hs2 as [Hs2|[? Hs2]], Hs3 as [Hs3|[? Hs3]]; try congruence; [left|right|right]; split_and?; congruence.
Qed.

Lemma evolves_weaken (c : option Z) (tb tb' : list LettuceTask) : evolves None tb tb' → evolves c tb tb'.
Proof.
  intros [Hl H]. split; [done|]. intros i t Ht. destruct (H i t Ht) as (t' & ? & ? & Hn). exists t'.
  split_and!; [done..|]. intros _. by apply Hn.
Qed.

Lemma evolves_core (c : option Z) (tb tb' : list LettuceTask) : same_core tb tb' → evolves c tb tb'.
Proof.
  intros H. apply evolves_weaken. split; [by apply same_core_length|]. intros i t Ht.
  destruct (same_core_Some _ _ i t H Ht) as (t' & Ht' & Hc). exists t'.
  apply task_ident_core in Hc as (? & ? & ?). split_and!; auto.
Qed.

Lemma evolves_ok (c : option Z) (m m' : sched_mem) : evolves c (sm_tasks m) (sm_tasks m') → sm_ok m → sm_ok m'.
Proof.
  intros [Hl H] [Hlen Hgen]. split; [by rewrite Hl|]. intros i t' Ht'.
  destruct (arr_get_is_Some (sm_tasks m) i) as [t Ht]; [rewrite <- Hl; by eapply arr_get_Some_range|].
  destruct (H i t Ht) as (t2 & Ht2 & Hi & _). simplify_eq.
  apply task_ident_fields in Hi as (_ & -> & _). by eapply Hgen.
Qed.

(** A write to slot [s] that keeps the identity. *)
Lemma evolves_update (m : sched_mem) (s : Z) f :
  sm_ok m → 0 ≤ s < LETTUCE_MAX_TASKS → (∀ t, task_ident (f t) = task_ident t) →
  ∃ t m', arr_get (sm_tasks m) s = Some t ∧ sm_update s f m = Some m' ∧ sm_vars m' = sm_vars m ∧
    evolves (Some s) (sm_tasks m) (sm_tasks m') ∧
    ∀ i, arr_get (sm_tasks m') i = if decide (s = i) then Some (f t) else arr_get (sm_tasks m) i.
Proof.
  intros Hok Hs Hf. destruct (arr_get_is_Some (sm_tasks m) s) as [t Ht]; [by rewrite (so_len _ Hok)|].
  destruct (task_update_Some (sm_tasks m) s f t Ht) as (tb & Hup & Hset & Hlen & Hget).
  exists t, (with_tasks tb m). unfold sm_update. rewrite Hup. cbn. split_and!; try done.
  split; [done|]. intros i x Hx. rewrite Hget. case_decide as Hi.
  - subst i. rewrite Ht in Hx. injection Hx as <-. exists (f t). split_and!; [done|by rewrite Hf|done].
  - exists x. auto.
Qed.

(** ** The steps of [do_schedule] *)

Section steps.
Context (ops : LettuceSchedPolicyOps) `{!PolicyLaws ops}.

Lemma wake_slot_spec (now k : Z) (m : sched_mem) :
  sm_ok m → 0 ≤ k < LETTUCE_MAX_TASKS →
  ∃ m', wake_slot ops now k m = Some m' ∧ evolves None (sm_tasks m) (sm_tasks m').
Proof.
  intros Hok Hk. unfold wake_slot. destruct (sm_scan m k Hok Hk) as (t & Ht & ->). cbn [mbind option_bind].
  destruct (task_visible t); [|exists m; split; [done|apply evolves_refl]].
  rewrite Ht. cbn [mbind option_bind].
  destruct (state_is (tk_state t) LETTUCE_TASK_STATE_SLEEPING && _) eqn:Hs;
    [|exists m; split; [done|apply evolves_refl]].
  b2p. match goal with H : state_is _ _ = true |- _ => apply state_is_true in H; rename H into Hsl end.
  destruct (evolves_update m k (set_state LETTUCE_TASK_STATE_READY) Hok Hk) as
    (t0 & m1 & Ht0 & -> & _ & He & Hget); [by intros []|]. rewrite Ht in Ht0. injection Ht0 as <-.
  cbn [mbind option_bind]. assert (sm_ok m1) as Hok1 by by eapply evolves_ok.
  destruct (law_on_task_wake k m1 Hok1 Hk) as (m2 & -> & Hc).
  exists m2. split; [done|]. eapply evolves_trans; [|by apply evolves_core].
  split; [apply He|]. intros i x Hx. rewrite Hget. case_decide as Hi; [|exists x; auto].
  subst i. rewrite Ht in Hx. injection Hx as <-. eexists. split; [done|].
  destruct t; cbn in *. subst. auto.
Qed.

Lemma wake_sleepers_spec (now : Z) (m : sched_mem) :
  sm_ok m → ∃ m', wake_sleepers ops now m = Some m' ∧ evolves None (sm_tasks m) (sm_tasks m').
Proof.
  intros Hok. unfold wake_sleepers.
  destruct (for_range_inv (λ _ m', evolves None (sm_tasks m) (sm_tasks m')) (Z.to_nat LETTUCE_MAX_TASKS) 0
    (wake_slot ops now) m) as (m' & -> & He); [apply evolves_refl| |by exists m'].
  intros k m1 Hk He1. rewrite Z2Nat.id in Hk by done. assert (sm_ok m1) as Hok1 by by eapply evolves_ok.
  destruct (wake_slot_spec now k m1 Hok1) as (m2 & -> & He2); [lia|].
  exists m2. split; [done|]. by eapply evolves_trans.
Qed.

(** Accounting: the running task goes on, or is saved and ready. *)
Lemma account_spec (curr : option Z) (pre : bool) (tf : LettuceTrapFrame) (m : sched_mem) :
  sm_ok m → frame_ok tf → (∀ c, curr = Some c → 0 ≤ c < LETTUCE_MAX_TASKS) →
  (∀ i t, arr_get (sm_tasks m) i = Some t → length (ctx_x (tk_context t)) = 31%nat) →
  ∃ b m', account_current ops curr pre tf m = Some (b, m') ∧ evolves curr (sm_tasks m) (sm_tasks m') ∧
    ∀ c t, curr = Some c → arr_get (sm_tasks m) c = Some t → ∃ t', arr_get (sm_tasks m') c = Some t' ∧
      if decide (tk_state t = LETTUCE_TASK_STATE_RUNNING) then
        if b then pre = true ∧ task_core t' = task_core t
        else tk_state t' = LETTUCE_TASK_STATE_READY ∧ tk_context t' = context_of_frame tf
      else b = false ∧ t' = t.
Proof.
  intros Hok Htf Hcurr Hregs. unfold account_current. destruct curr as [c|].
  2:{ exists false, m. split_and!; [done|apply evolves_refl|done]. }
  pose proof (Hcurr c eq_refl) as Hc.
  destruct (arr_get_is_Some (sm_tasks m) c) as [t Ht]; [by rewrite (so_len _ Hok)|].
  rewrite Ht. cbn [mbind option_bind].
  destruct (state_is (tk_state t) LETTUCE_TASK_STATE_RUNNING) eqn:Hs; cbn [negb].
  2:{ apply state_is_false in Hs. exists false, m. split_and!; [done|apply evolves_refl|].
      intros c' t' [= <-] Ht'. simplify_eq. eexists. split; [done|]. by rewrite decide_False. }
  apply state_is_true in Hs.
  destruct (law_on_tick c 1 m Hok Hc) as (m1 & -> & Hc1). cbn [mbind option_bind].
  destruct (same_core_Some _ _ c t Hc1 Ht) as (t1 & Ht1 & Hcore1). rewrite Ht1. cbn [mbind option_bind].
  destruct (_ && pre) eqn:Hcont.
  - b2p. exists true, m1. split_and!; [done|by apply evolves_core|].
    intros c' t' [= <-] Ht'. simplify_eq. exists t1. split; [done|]. by rewrite decide_True.
  - apply task_core_fields in Hcore1 as (_ & _ & Hctx1 & _).
    rewrite save_frame_spec by (done || (rewrite Hctx1; by eapply Hregs)). cbn [mbind option_bind].
    assert (sm_ok m1) as Hok1 by by eapply same_core_ok.
    destruct (evolves_update m1 c (λ t, set_state LETTUCE_TASK_STATE_READY (set_context (context_of_frame tf) t))
      Hok1 Hc) as (t1' & m2 & Ht1' & -> & _ & He2 & Hget2); [by intros []|].
    cbn [mbind option_bind]. assert (sm_ok m2) as Hok2 by by eapply evolves_ok.
    destruct (law_on_task_ready c m2 Hok2 Hc) as (m3 & -> & Hc3). cbn [mbind option_bind].
    exists false, m3. split_and!; [done|eapply evolves_trans, evolves_core, Hc3; eapply evolves_trans, He2;
      by apply evolves_core|].
    intros c' t' [= <-] Ht'. simplify_eq.
    destruct (same_core_Some _ _ c (set_state LETTUCE_TASK_STATE_READY (set_context (context_of_frame tf) t1)) Hc3)
      as (t3 & Ht3 & Hcore3).
    { rewrite Hget2. by rewrite decide_True. }
    exists t3. split; [done|]. rewrite decide_True by done.
    apply task_core_fields in Hcore3 as (Hs3 & _ & Hx3 & _). rewrite Hs3, Hx3. by destruct t1.
Qed.

End steps.

(** ** The invariant of the scheduler *)

(** The task table is well formed, the current task is alive, and no other task is
    running. *)
Record sched_inv (st : scheduler_state) : Prop := {
  si_tasks : task_inv (ss_tasks st);
  si_running : ∀ i t, arr_get (g_task_table (ss_tasks st)) i = Some t →
    tk_state t = LETTUCE_TASK_STATE_RUNNING → g_current_task (ss_tasks st) = Some i;
  si_alive : ∀ c t, g_current_task (ss_tasks st) = Some c → arr_get (g_task_table (ss_tasks st)) c = Some t →
    task_is_active t = true
}.

#[local] Abbreviation table st := (g_task_table (ss_tasks st)).
#[local] Abbreviation current st := (g_current_task (ss_tasks st)).

(** The tasks other than the old and the new current one are untouched, up to
    waking. *)
Definition sched_evolves (st st' : scheduler_state) : Prop :=
  length (table st') = length (table st) ∧
  ∀ i t, arr_get (table st) i = Some t → ∃ t', arr_get (table st') i = Some t' ∧ task_ident t' = task_ident t ∧
    (current st ≠ Some i → tk_context t' = tk_context t ∧
       (current st' ≠ Some i → tk_state t' = tk_state t ∨
          (tk_state t = LETTUCE_TASK_STATE_SLEEPING ∧ tk_state t' = LETTUCE_TASK_STATE_READY))).

(** The task memory right before the policy is asked, and what it answers. *)
Definition asked (now : Z) (pre : bool) (tf : LettuceTrapFrame) (st : scheduler_state) (m2 : sched_mem)
    (p : option Z) (m3 : sched_mem) : Prop :=
  ∃ m1, wake_sleepers (policy_ops_of (g_current_policy_type st)) now (ss_mem st) = Some m1 ∧
    account_current (policy_ops_of (g_current_policy_type st)) (current st) pre tf m1 = Some (false, m2) ∧
    op_pick_next (policy_ops_of (g_current_policy_type st)) (current st) m2 = Some (p, m3) ∧
    evolves (current st) (table st) (sm_tasks m2).

(** The address-space state after a switch to a task of domain [d]: entered, unless
    the old current task has the same domain. *)
Definition arch_after (st : scheduler_state) (d : Z) : P :=
  match current st ≫= arr_get (table st) with
  | Some t => if d =? tk_domain_id t then ss_arch st else arch_enter d (ss_arch st)
  | None => arch_enter d (ss_arch st)
  end.

(** The ways a scheduling step ends. *)
Inductive schedule_outcome (now : Z) (pre : bool) (tf : LettuceTrapFrame) (st : scheduler_state)
    : LettuceTrapFrame → scheduler_state → Prop :=
  | QuantumLeft c t st' :
      pre = true → current st = Some c → arr_get (table st) c = Some t →
      tk_state t = LETTUCE_TASK_STATE_RUNNING → current st' = Some c →
      ss_service st' = ss_service st → ss_arch st' = ss_arch st →
      schedule_outcome now pre tf st tf st'
  | Kept m2 p m3 st' :
      asked now pre tf st m2 p m3 → (p = None ∨ p = current st) → current st' = current st →
      ss_vars st' = sm_vars m3 → ss_service st' = ss_service st → ss_arch st' = ss_arch st →
      schedule_outcome now pre tf st tf st'
  | Switched m2 n m3 tn st' :
      asked now pre tf st m2 (Some n) m3 → current st ≠ Some n → current st' = Some n →
      ss_vars st' = sm_vars m3 → arr_get (table st) n = Some tn → task_visible tn = true →
      tk_state tn = LETTUCE_TASK_STATE_READY ∨ tk_state tn = LETTUCE_TASK_STATE_SLEEPING →
      ss_service st' = tk_service_id tn →
      ss_arch st' = arch_after st (tk_domain_id tn) →
      (∀ c t, current st = Some c → arr_get (table st) c = Some t → ∃ t', arr_get (table st') c = Some t' ∧
         task_is_active t' = true ∧
         if decide (tk_state t = LETTUCE_TASK_STATE_RUNNING)
         then tk_state t' = LETTUCE_TASK_STATE_READY ∧ tk_context t' = context_of_frame tf
         else tk_context t' = tk_context t) →
      (∃ t', arr_get (table st') n = Some t' ∧ tk_state t' = LETTUCE_TASK_STATE_RUNNING) →
      schedule_outcome now pre tf st (frame_of_context (tk_context tn)) st'.

Lemma task_visible_ident (t t' : LettuceTask) :
  task_ident t' = task_ident t → tk_state t' ≠ LETTUCE_TASK_STATE_UNUSED → task_visible t' = true →
  tk_state t ≠ LETTUCE_TASK_STATE_UNUSED → task_visible t = true.
Proof.
  intros Hi _ Hv Hu. apply task_ident_fields in Hi as (_ & Hg & _). unfold task_visible in *. b2p.
  rewrite Hg in *. rewrite (proj2 (state_is_false _ _) Hu). cbn. by apply Z.leb_le.
Qed.

(** The invariant from what a step leaves. *)
Lemma sched_inv_step (st st' : scheduler_state) :
  sched_inv st → sched_evolves st st' →
  (∀ c, current st' = Some c → 0 ≤ c < LETTUCE_MAX_TASKS) →
  (∀ i t', arr_get (table st') i = Some t' → current st = Some i → current st' ≠ Some i →
     tk_state t' ≠ LETTUCE_TASK_STATE_RUNNING) →
  (∀ i t t', arr_get (table st) i = Some t → arr_get (table st') i = Some t' →
     length (ctx_x (tk_context t')) = 31%nat ∧ (task_is_active t' = true → task_is_active t = true) ∧
     (current st' = Some i → task_is_active t' = true)) →
  sched_inv st'.
Proof.
  intros Hinv [Hlen Hev] Hcur Hold Hctx. pose proof (si_tasks _ Hinv) as Hti.
  assert (∀ i t', arr_get (table st') i = Some t' → ∃ t, arr_get (table st) i = Some t) as Hback.
  { intros i t' Ht'. destruct (arr_get_is_Some (table st) i) as [t Ht]; [|by exists t].
    rewrite <- Hlen. by eapply arr_get_Some_range. }
  split.
  - split; [rewrite Hlen; apply Hti| |done]. intros i t' Ht'. destruct (Hback i t' Ht') as [t Ht].
    destruct (Hev i t Ht) as (x & Hx & Hid & _). rewrite Ht' in Hx. injection Hx as <-.
    apply task_ident_fields in Hid as (Hid & Hg & _). destruct (ti_task _ Hti _ _ Ht) as [Hg0 Hid0 _].
    destruct (Hctx i t t' Ht Ht') as (Hr & Ha & _). split; [by rewrite Hg| |done].
    intros Hact. rewrite Hid, Hg. auto.
  - intros i t' Ht' Hs. destruct (decide (current st' = Some i)) as [|Hne]; [done|exfalso].
    destruct (Hback i t' Ht') as [t Ht]. destruct (decide (current st = Some i)) as [Hci|Hci].
    { by apply (Hold i t' Ht' Hci Hne). }
    destruct (Hev i t Ht) as (x & Hx & _ & Hn). rewrite Ht' in Hx. injection Hx as <-.
    destruct (Hn Hci) as [_ Hst]. destruct (Hst Hne) as [Heq|[_ Heq]]; [|congruence].
    apply Hci. eapply (si_running _ Hinv); [done|congruence].
  - intros c t' Hc Ht'. destruct (Hback c t' Ht') as [t Ht]. by apply (Hctx c t t' Ht Ht').
Qed.

#[export] Instance policy_ops_laws (p : LettuceSchedPolicyType) : PolicyLaws (policy_ops_of p).
Proof. destruct p; cbn; apply _. Defined.

Lemma ss_mem_ok (st : scheduler_state) : sched_inv st → sm_ok (ss_mem st).
Proof. intros Hinv. apply (task_inv_sm_ok (ss_tasks st)), Hinv. Qed.

(** Up to the question to the policy: a quantum that lasts, or a saved and ready
    current task. *)
Lemma before_pick (now : Z) (pre : bool) (tf : LettuceTrapFrame) (st : scheduler_state) :
  sched_inv st → frame_ok tf →
  let ops := policy_ops_of (g_current_policy_type st) in
  ∃ m1 b m2, wake_sleepers ops now (ss_mem st) = Some m1 ∧
    account_current ops (current st) pre tf m1 = Some (b, m2) ∧
    evolves (current st) (table st) (sm_tasks m2) ∧ sm_ok m2 ∧
    (b = true → pre = true ∧ is_Some (current st)) ∧
    ∀ c t, current st = Some c → arr_get (table st) c = Some t → ∃ t', arr_get (sm_tasks m2) c = Some t' ∧
      task_ident t' = task_ident t ∧
      if decide (tk_state t = LETTUCE_TASK_STATE_RUNNING) then
        if b then tk_state t' = LETTUCE_TASK_STATE_RUNNING ∧ tk_context t' = tk_context t
        else tk_state t' = LETTUCE_TASK_STATE_READY ∧ tk_context t' = context_of_frame tf
      else b = false ∧ tk_context t' = tk_context t ∧
           (tk_state t' = tk_state t ∨
            (tk_state t = LETTUCE_TASK_STATE_SLEEPING ∧ tk_state t' = LETTUCE_TASK_STATE_READY)).
Proof.
  intros Hinv Htf ops. pose proof (si_tasks _ Hinv) as Hti. pose proof (ss_mem_ok _ Hinv) as Hok.
  destruct (wake_sleepers_spec ops now (ss_mem st) Hok) as (m1 & Hw & He1).
  assert (sm_ok m1) as Hok1 by by eapply evolves_ok.
  assert (∀ i t, arr_get (sm_tasks m1) i = Some t → length (ctx_x (tk_context t)) = 31%nat) as Hregs.
  { intros i t1 Ht1. destruct (arr_get_is_Some (table st) i) as [t Ht].
    { destruct He1 as [Hl _]. cbn in Hl. rewrite <- Hl. by eapply arr_get_Some_range. }
    destruct (proj2 He1 i t Ht) as (x & Hx & _ & Hn). simplify_eq. destruct (Hn ltac:(done)) as [-> _].
    by apply (ti_task _ Hti _ _ Ht). }
  destruct (account_spec ops (current st) pre tf m1 Hok1 Htf (ti_current _ Hti) Hregs)
    as (b & m2 & Ha & He2 & Hcur).
  assert (evolves (current st) (table st) (sm_tasks m2)) as He
    by (eapply evolves_trans, He2; by apply evolves_weaken).
  exists m1, b, m2. split_and!; [done..|by eapply (evolves_ok _ (ss_mem st))| |].
  - intros ->. destruct (current st) as [c|] eqn:Hc; [|done]. split; [|done].
    destruct (task_get_slot _ c Hti) as (t & Ht & _); [by apply (ti_current _ Hti)|].
    destruct (proj2 He1 c t Ht) as (t1 & Ht1 & _). destruct (Hcur c t1 eq_refl Ht1) as (t' & _ & Hb).
    case_decide; naive_solver.
  - intros c t Hc Ht. destruct (proj2 He1 c t Ht) as (t1 & Ht1 & Hi1 & Hn1).
    destruct (Hn1 ltac:(done)) as [Hx1 Hs1]. destruct (Hcur c t1 Hc Ht1) as (t' & Ht' & Hb).
    destruct (proj2 He c t Ht) as (t'' & Ht'' & Hi & _). rewrite Ht' in Ht''. injection Ht'' as <-.
    exists t'. split_and!; [done..|].
    destruct (decide (tk_state t = LETTUCE_TASK_STATE_RUNNING)) as [Hr|Hr].
    + destruct Hs1 as [Hs1|[? _]]; [|congruence]. rewrite decide_True in Hb by congruence. destruct b; [|done].
      destruct Hb as [_ Hb]. apply task_ident_core in Hb as (_ & ? & ?). split; congruence.
    + rewrite decide_False in Hb by (destruct Hs1 as [Hs1|[_ Hs1]]; congruence). by destruct Hb as [-> ->].
Qed.

(** Writing back a memory that evolved from the table, with the current task kept. *)
Lemma kept_inv (st : scheduler_state) (m : sched_mem) :
  sched_inv st → evolves (current st) (table st) (sm_tasks m) →
  (∀ c t t', current st = Some c → arr_get (table st) c = Some t → arr_get (sm_tasks m) c = Some t' →
     length (ctx_x (tk_context t')) = 31%nat ∧ task_is_active t' = true) →
  sched_inv (with_mem m st) ∧ sched_evolves st (with_mem m st).
Proof.
  intros Hinv [Hl He] Hcur.
  assert (sched_evolves st (with_mem m st)) as Hev.
  { split; [done|]. cbn. intros i t Ht. destruct (He i t Ht) as (t' & Ht' & Hi & Hn). exists t'. naive_solver. }
  split; [|done]. apply (sched_inv_step st); [done|done|apply (ti_current _ (si_tasks _ Hinv))|by cbn|].
  cbn. intros i t t' Ht Ht'. destruct (decide (current st = Some i)) as [Hc|Hc].
  { destruct (Hcur i t t' Hc Ht Ht'). split_and!; [done| |done]. intros _. by eapply si_alive. }
  destruct (He i t Ht) as (x & Hx & _ & Hn). simplify_eq. destruct (Hn Hc) as [-> Hs]. split_and!; [| |done].
  - by apply (ti_task _ (si_tasks _ Hinv) _ _ Ht).
  - unfold task_is_active. destruct Hs as [->|[-> ->]]; done.
Qed.

(** Switching to a ready task. *)
Lemma switch_spec (n : Z) (pre : bool) (tf : LettuceTrapFrame) (m : sched_mem) (st : scheduler_state) tn :
  sched_inv st → frame_ok tf → evolves (current st) (table st) (sm_tasks m) → sm_ok m →
  current st ≠ Some n → arr_get (sm_tasks m) n = Some tn → tk_state tn = LETTUCE_TASK_STATE_READY →
  (∀ c t t', current st = Some c → arr_get (table st) c = Some t → arr_get (sm_tasks m) c = Some t' →
     length (ctx_x (tk_context t')) = 31%nat ∧ task_is_active t' = true ∧
     tk_state t' ≠ LETTUCE_TASK_STATE_RUNNING) →
  ∃ hit st', switch_to n (current st) pre tf m st = Some (hit, frame_of_context (tk_context tn), st') ∧
    sched_inv st' ∧ sched_evolves st st' ∧ current st' = Some n ∧ ss_vars st' = sm_vars m ∧
    ss_service st' = tk_service_id tn ∧ ss_arch st' = arch_after st (tk_domain_id tn) ∧
    g_current_policy_type st' = g_current_policy_type st ∧
    (pre = false → g_scheduler_active st' = g_scheduler_active st) ∧
    (∀ i, arr_get (table st') i = if decide (n = i) then Some (set_state LETTUCE_TASK_STATE_RUNNING tn)
                                  else arr_get (sm_tasks m) i).
Proof.
  intros Hinv Htf [Hl He] Hok Hne Htn Hs Hcur. unfold switch_to. rewrite Htn. cbn [mbind option_bind].
  pose proof (si_tasks _ Hinv) as Hti. pose proof (arr_get_Some_range _ _ _ Htn) as Hn. rewrite (so_len _ Hok) in Hn.
  assert (∃ b, shares_domain tn (current st) m = Some b ∧
    (if b then ss_arch st else arch_enter (tk_domain_id tn) (ss_arch st)) = arch_after st (tk_domain_id tn))
    as (b & -> & Harch).
  { unfold shares_domain, arch_after. destruct (current st) as [c|] eqn:Hc; [|eauto]. cbn.
    destruct (task_get_slot _ c Hti) as (t & Ht & _); [by apply (ti_current _ Hti)|]. rewrite Ht.
    destruct (He c t Ht) as (t' & -> & Hi & _). apply task_ident_fields in Hi as (_ & _ & _ & Hd & _).
    cbn. rewrite Hd. eauto. }
  cbn [mbind option_bind].
  destruct (task_get_slot _ n Hti Hn) as (t0 & Ht0 & Hok0). destruct (He n t0 Ht0) as (x & Hx & Hid & Hx').
  rewrite Htn in Hx. injection Hx as <-. destruct (Hx' Hne) as [Hctx Hst].
  destruct (evolves_update m n (set_state LETTUCE_TASK_STATE_RUNNING) Hok Hn) as
    (y & m' & Hy & Hup & Hv & He' & Hget); [by intros []|]. rewrite Htn in Hy. injection Hy as <-.
  rewrite Hup. cbn [mbind option_bind].
  rewrite restore_frame_spec by (done || (rewrite Hctx; apply Hok0)). cbn [mbind option_bind].
  do 2 eexists. split; [done|].
  match goal with |- sched_inv ?s ∧ _ => assert (sched_evolves st s) as Hev end.
  { split; [cbn; destruct He' as [Hl' _]; congruence|]. cbn. intros i t Ht. rewrite Hget.
    destruct (He i t Ht) as (t' & Ht' & Hi' & Hn'). case_decide as Hin.
    - subst i. simplify_eq. eexists. split; [done|]. split; [by destruct tn|]. intros Hc.
      destruct (Hn' Hc) as [? _]. split; [by destruct tn|]. done.
    - exists t'. naive_solver. }
  split_and!; try done; [|by intros ->].
  apply (sched_inv_step st); [done|done|..].
  - cbn. by intros c [= <-].
  - cbn. intros i t' Ht' Hc Hni. rewrite Hget, decide_False in Ht' by congruence.
    destruct (task_get_slot _ i Hti) as (t & Ht & _); [by apply (ti_current _ Hti)|].
    by apply (Hcur i t t' Hc Ht Ht').
  - cbn. intros i t t' Ht Ht'. rewrite Hget in Ht'. case_decide as Hin.
    + subst i. injection Ht' as <-. simplify_eq. split_and!; [destruct tn; cbn in *; rewrite Hctx; apply Hok0| |].
      * intros _. unfold task_is_active. destruct Hst as [Hst|[Hst _]]; rewrite ?Hst; try done. by rewrite <- Hst, Hs.
      * intros _. by destruct tn.
    + destruct (decide (current st = Some i)) as [Hc|Hc].
      { destruct (Hcur i t t' Hc Ht Ht') as (? & ? & _). split_and!; [done| |done]. intros _. by eapply si_alive. }
      destruct (He i t Ht) as (z & Hz & _ & Hz'). simplify_eq. destruct (Hz' Hc) as [-> Hsz].
      split_and!; [| |intros [= ->]; done].
      * by apply (ti_task _ Hti _ _ Ht).
      * unfold task_is_active. destruct Hsz as [->|[-> ->]]; done.
Qed.

(** The current task when the policy answers. *)
Lemma current_at_pick (st : scheduler_state) (tf : LettuceTrapFrame) (m2 m3 : sched_mem) :
  sched_inv st → frame_ok tf → same_core (sm_tasks m2) (sm_tasks m3) →
  (∀ c t, current st = Some c → arr_get (table st) c = Some t → ∃ t', arr_get (sm_tasks m2) c = Some t' ∧
      task_ident t' = task_ident t ∧
      if decide (tk_state t = LETTUCE_TASK_STATE_RUNNING)
      then tk_state t' = LETTUCE_TASK_STATE_READY ∧ tk_context t' = context_of_frame tf
      else false = false ∧ tk_context t' = tk_context t ∧
           (tk_state t' = tk_state t ∨
            (tk_state t = LETTUCE_TASK_STATE_SLEEPING ∧ tk_state t' = LETTUCE_TASK_STATE_READY))) →
  ∀ c t t3, current st = Some c → arr_get (table st) c = Some t → arr_get (sm_tasks m3) c = Some t3 →
    length (ctx_x (tk_context t3)) = 31%nat ∧ task_is_active t3 = true ∧
    tk_state t3 ≠ LETTUCE_TASK_STATE_RUNNING ∧
    if decide (tk_state t = LETTUCE_TASK_STATE_RUNNING)
    then tk_state t3 = LETTUCE_TASK_STATE_READY ∧ tk_context t3 = context_of_frame tf
    else tk_context t3 = tk_context t.
Proof.
  intros Hinv Htf Hc3 Hcur c t t3 Hc Ht Ht3. destruct (Hcur c t Hc Ht) as (t2 & Ht2 & _ & Hb).
  destruct (same_core_Some _ _ c t2 Hc3 Ht2) as (x & Hx & Hcore). rewrite Ht3 in Hx. injection Hx as <-.
  apply task_core_fields in Hcore as (Hs & _ & Hctx & _). pose proof (si_alive _ Hinv c t Hc Ht) as Hal.
  unfold task_is_active in *. rewrite Hs, Hctx. case_decide as Hr.
  - destruct Hb as [Hs2 Hx2]. rewrite Hs2, Hx2. split_and!; try done. cbn. by rewrite length_app, Htf.
  - destruct Hb as (_ & Hx2 & Hs2). rewrite Hx2. split_and!; [|destruct Hs2 as [->|[_ ->]]; done| |done].
    + by apply (ti_task _ (si_tasks _ Hinv) _ _ Ht).
    + destruct Hs2 as [->|[_ ->]]; done.
Qed.

(** What a step that returns [r] guarantees. *)
Definition step_ok (now : Z) (pre : bool) (tf : LettuceTrapFrame) (st : scheduler_state)
    (r : option (bool * option LettuceTrapFrame * scheduler_state)) : Prop :=
  ∃ hit tf' st', r = Some (hit, Some tf', st') ∧
    sched_inv st' ∧ sched_evolves st st' ∧ g_current_policy_type st' = g_current_policy_type st ∧
    (pre = false → g_scheduler_active st' = g_scheduler_active st) ∧
    schedule_outcome now pre tf st tf' st'.

Section answered.
Context (now : Z) (pre : bool) (tf : LettuceTrapFrame) (st : scheduler_state) (m2 m3 : sched_mem) (p : option Z).
Context (Hinv : sched_inv st) (Htf : frame_ok tf) (Hasked : asked now pre tf st m2 p m3).
Context (Hok3 : sm_ok m3) (Hc3 : same_core (sm_tasks m2) (sm_tasks m3)).
Context (He3 : evolves (current st) (table st) (sm_tasks m3)).
Context (Hcur3 : ∀ c t t3, current st = Some c → arr_get (table st) c = Some t → arr_get (sm_tasks m3) c = Some t3 →
    length (ctx_x (tk_context t3)) = 31%nat ∧ task_is_active t3 = true ∧
    tk_state t3 ≠ LETTUCE_TASK_STATE_RUNNING ∧
    if decide (tk_state t = LETTUCE_TASK_STATE_RUNNING)
    then tk_state t3 = LETTUCE_TASK_STATE_READY ∧ tk_context t3 = context_of_frame tf
    else tk_context t3 = tk_context t).

(** The current task stays as the policy left it. *)
Lemma kept_outcome :
  p = None ∨ p = current st → step_ok now pre tf st (Some (false, Some tf, with_mem m3 st)).
Proof.
  intros Hp. destruct (kept_inv st m3 Hinv He3) as [Hinv' Hev]; [naive_solver|].
  do 3 eexists. split_and!; [done..|]. by apply (Kept _ _ _ _ m2 p m3).
Qed.

(** The current task runs on with a new quantum. *)
Lemma renewed_outcome (c : Z) (t3 : LettuceTask) :
  p = None ∨ p = current st → current st = Some c → arr_get (sm_tasks m3) c = Some t3 →
  tk_state t3 = LETTUCE_TASK_STATE_READY →
  step_ok now pre tf st (m4 ← sm_update c keep_running m3; Some (false, Some tf, with_mem m4 st)).
Proof.
  intros Hp Hc Ht3 Hs3. pose proof (ti_current _ (si_tasks _ Hinv) c Hc) as Hcr.
  destruct (evolves_update m3 c keep_running Hok3 Hcr) as (x & m4 & Hx & -> & Hv4 & He4 & Hget4); [by intros []|].
  rewrite Ht3 in Hx. injection Hx as <-. cbn [mbind option_bind].
  destruct (kept_inv st m4 Hinv) as [Hinv' Hev].
  - eapply evolves_trans; [done|]. by rewrite Hc.
  - intros c' t t' Hc' Ht Ht'. rewrite Hc in Hc'. injection Hc' as <-.
    rewrite Hget4, decide_True in Ht' by done. injection Ht' as <-.
    destruct (Hcur3 c t t3 Hc Ht Ht3) as (Hr & Ha' & _). split; by destruct t3.
  - do 3 eexists. split_and!; [done..|]. by apply (Kept _ _ _ _ m2 p m3).
Qed.

(** The processor goes to another task. *)
Lemma switched_outcome (n : Z) (t2 : LettuceTask) :
  p = Some n → current st ≠ Some n → arr_get (sm_tasks m2) n = Some t2 → ready_visible t2 →
  step_ok now pre tf st
    ('(limit_hit, tf', st') ← switch_to n (current st) pre tf m3 st; Some (limit_hit, Some tf', st')).
Proof.
  intros Hp Hcn Ht2 [Hs2 Hv2]. destruct (same_core_Some _ _ n t2 Hc3 Ht2) as (t3 & Ht3 & Hcore).
  pose proof (task_core_fields _ _ Hcore) as (Hst & Hg & _). pose proof (si_tasks _ Hinv) as Hti.
  destruct (switch_spec n pre tf m3 st t3 Hinv Htf He3 Hok3 Hcn Ht3) as
    (hit & st' & Hsw & Hinv' & Hev & Hcur' & Hvars & Hsvc & Harch & Hpol & Hact & Hget); [congruence|naive_solver|].
  rewrite Hsw. cbn [mbind option_bind].
  destruct (task_get_slot _ n Hti) as (tn & Htn & _).
  { rewrite <- (so_len _ Hok3). by eapply arr_get_Some_range. }
  destruct (proj2 He3 n tn Htn) as (x & Hx & Hid & Hn). rewrite Ht3 in Hx. injection Hx as <-.
  destruct (Hn Hcn) as [Hctx Hs]. rewrite Hctx. do 3 eexists. split_and!; [done..|].
  apply (Switched _ _ _ _ m2 n m3 tn); try done; [by rewrite <- Hp|..].
  - apply (task_visible_ident tn t3); [done|congruence| |destruct Hs as [<-|[-> _]]; congruence].
    unfold task_visible in *. by rewrite Hst, Hg.
  - destruct Hs as [<-|[-> _]]; [left; congruence|by right].
  - rewrite Hsvc. apply task_ident_fields in Hid. tauto.
  - rewrite Harch. apply task_ident_fields in Hid as (_ & _ & _ & -> & _). done.
  - intros c t Hc Ht. destruct (proj2 He3 c t Ht) as (t' & Ht' & _). exists t'.
    rewrite Hget, decide_False by congruence. split; [done|].
    by destruct (Hcur3 c t t' Hc Ht Ht') as (_ & ? & _ & ?).
  - eexists. split; [by rewrite Hget, decide_True|]. by destruct t3.
Qed.

End answered.

(** The quantum lasts. *)
Lemma quantum_left_outcome (now : Z) (tf : LettuceTrapFrame) (st : scheduler_state) (m2 : sched_mem) c t t' :
  sched_inv st → evolves (current st) (table st) (sm_tasks m2) → current st = Some c →
  arr_get (table st) c = Some t → arr_get (sm_tasks m2) c = Some t' →
  tk_state t = LETTUCE_TASK_STATE_RUNNING → tk_state t' = LETTUCE_TASK_STATE_RUNNING →
  tk_context t' = tk_context t →
  step_ok now true tf st (Some (false, Some tf, with_mem m2 st)).
Proof.
  intros Hinv He Hc Ht Ht' Hrun Hrun' Hctx. destruct (kept_inv st m2 Hinv He) as [Hinv' Hev].
  - intros c' x x' Hc' Hx Hx'. simplify_eq. rewrite Hctx. split.
    + by apply (ti_task _ (si_tasks _ Hinv) _ _ Ht).
    + unfold task_is_active. by rewrite Hrun'.
  - do 3 eexists. split_and!; [done..|]. by apply (QuantumLeft _ _ _ _ c t).
Qed.

(** A scheduling step always returns, keeps the invariant, and ends in one of the
    outcomes. *)
Lemma do_schedule_spec (now : Z) (pre : bool) (tf : LettuceTrapFrame) (st : scheduler_state) :
  sched_inv st → g_scheduler_active st = true → frame_ok tf →
  step_ok now pre tf st (do_schedule now (Some tf) pre st).
Proof.
  intros Hinv Hact Htf. unfold do_schedule. rewrite Hact. cbn [negb]. unfold lettuce_task_current.
  pose proof (si_tasks _ Hinv) as Hti.
  destruct (before_pick now pre tf st Hinv Htf) as (m1 & b & m2 & Hw & Ha & He & Hok & Hb & Hcur).
  cbv zeta. rewrite Hw. cbn [mbind option_bind]. rewrite Ha. cbn [mbind option_bind].
  destruct b.
  { destruct (Hb eq_refl) as [-> [c Hc]].
    destruct (task_get_slot _ c Hti) as (t & Ht & _); [by apply (ti_current _ Hti)|].
    destruct (Hcur c t Hc Ht) as (t' & Ht' & _ & Hr). case_decide as Hrun; [|by destruct Hr].
    destruct Hr. by eapply quantum_left_outcome. }
  destruct (law_pick_next (ops := policy_ops_of (g_current_policy_type st)) (current st) m2 Hok (ti_current _ Hti))
    as (p & m3 & Hp & Hc3 & Hpick).
  rewrite Hp. cbn [mbind option_bind].
  assert (asked now pre tf st m2 p m3) as Hasked by (exists m1; done).
  assert (evolves (current st) (table st) (sm_tasks m3)) as He3 by (eapply evolves_trans, evolves_core, Hc3; done).
  assert (sm_ok m3) as Hok3 by by eapply same_core_ok.
  pose proof (current_at_pick st tf m2 m3 Hinv Htf Hc3 Hcur) as Hcur3.
  assert (∀ c, current st = Some c → ∃ t t3, arr_get (table st) c = Some t ∧ arr_get (sm_tasks m3) c = Some t3) as Hc.
  { intros c Hc. destruct (task_get_slot _ c Hti) as (t & Ht & _); [by apply (ti_current _ Hti)|].
    destruct (proj2 He3 c t Ht) as (t3 & Ht3 & _). by exists t, t3. }
  destruct p as [n|].
  - destruct Hpick as (t2 & Ht2 & Hpick). case_bool_decide as Hcn.
    + destruct (Hc n Hcn) as (t & t3 & Ht & Ht3).
      apply (renewed_outcome now pre tf st m2 m3 (Some n) Hinv Hasked Hok3 He3 Hcur3 n t3); [by right|done|done|].
      destruct (same_core_Some _ _ n t2 Hc3 Ht2) as (x & Hx & Hcore%task_core_fields). simplify_eq.
      destruct (Hcur3 n t t3 Hcn Ht Ht3) as (_ & _ & Hnr & _).
      destruct Hpick as [[? _]|[_ ?]]; destruct Hcore; congruence.
    + destruct Hpick as [Hr|[? _]]; [|done].
      by apply (switched_outcome now pre tf st m2 m3 (Some n) Hinv Htf Hasked Hok3 Hc3 He3 Hcur3 n t2).
  - pose proof (kept_outcome now pre tf st m2 m3 None Hinv Hasked He3 Hcur3 (or_introl eq_refl)) as Hkept.
    pose proof (λ c t3, renewed_outcome now pre tf st m2 m3 None Hinv Hasked Hok3 He3 Hcur3 c t3
      (or_introl eq_refl)) as Hrenew.
    destruct (current st) as [c|]; [|done].
    destruct (Hc c eq_refl) as (t & t3 & Ht & Ht3). rewrite Ht3. cbn [mbind option_bind].
    destruct (state_is (tk_state t3) LETTUCE_TASK_STATE_READY) eqn:Hs; [|done].
    apply state_is_true in Hs. by apply (Hrenew c t3).
Qed.

End scheduler.

Arguments scheduler_state : clear implicits.
