(* ===== verification/SchedulerSpec.v ===== *)
(** * What the scheduler guarantees

    The kernel drives the scheduler with ticks, yields and sleeps of whatever runs,
    interleaved with task creation, termination and control calls.  The claims here are
    about all such sequences; the frames the running tasks present are arbitrary. *)

From S2P Require Import Prelude Types Generation Task Policy RoundRobin Eevdf Scheduler.

Section events.
Context {P : Type} (arch_enter : Z → P → P).

(** Events of the running system. *)
Inductive sched_event :=
  | EvTick (now : Z) (tf : LettuceTrapFrame)
  | EvYield (now : Z) (tf : LettuceTrapFrame)
  | EvSleep (now ticks : Z) (tf : LettuceTrapFrame).

(** Calls of the kernel between events. *)
Inductive sched_control :=
  | CtlTask (c : task_call)
  | CtlInit
  | CtlStart
  | CtlStop
  | CtlPolicy (p : LettuceSchedPolicyType)
  | CtlLimit (n : Z).

Definition event_frame (e : sched_event) : LettuceTrapFrame :=
  match e with EvTick _ tf | EvYield _ tf | EvSleep _ _ tf => tf end.

(** The frame and the state an event leaves. *)
Definition event_exec (e : sched_event) (st : scheduler_state P)
    : option (option LettuceTrapFrame * scheduler_state P) :=
  '(_, tf, st') ←
    match e with
    | EvTick now tf => lettuce_scheduler_tick arch_enter now (Some tf) st
    | EvYield now tf => lettuce_scheduler_yield arch_enter now (Some tf) st
    | EvSleep now ticks tf => lettuce_scheduler_sleep_current arch_enter now ticks (Some tf) st
    end;
  Some (tf, st').

Definition with_task_state (ts : task_state) (st : scheduler_state P) : scheduler_state P :=
  {| ss_tasks := ts; ss_vars := ss_vars st; g_scheduler_active := g_scheduler_active st;
     g_switch_count := g_switch_count st; g_preempt_count := g_preempt_count st;
     g_same_domain_switches := g_same_domain_switches st;
     g_cross_domain_switches := g_cross_domain_switches st; g_preempt_limit := g_preempt_limit st;
     g_current_policy_type := g_current_policy_type st; ss_service := ss_service st; ss_arch := ss_arch st |}.

Definition control_exec (c : sched_control) (st : scheduler_state P) : option (scheduler_state P) :=
  match c with
  | CtlTask c => ts ← task_exec c (ss_tasks st); Some (with_task_state ts st)
  | CtlInit => lettuce_scheduler_init st
  | CtlStart => Some (lettuce_scheduler_start st)
  | CtlStop => Some (lettuce_scheduler_stop st)
  | CtlPolicy p => Some (lettuce_scheduler_set_policy p st)
  | CtlLimit n => Some (lettuce_scheduler_set_preempt_limit n st)
  end.

Fixpoint sched_run (es : list (sched_event + sched_control)) (st : scheduler_state P)
    : option (scheduler_state P) :=
  match es with
  | [] => Some st
  | inl e :: es' => '(_, st1) ← event_exec e st; sched_run es' st1
  | inr c :: es' => st1 ← control_exec c st; sched_run es' st1
  end.

Definition event_wf (e : sched_event + sched_control) : Prop :=
  match e with inl e => frame_ok (event_frame e) | inr _ => True end.

#[local] Abbreviation table st := (g_task_table (ss_tasks st)).
#[local] Abbreviation current st := (g_current_task (ss_tasks st)).

(** ** Events *)

Definition event_now (e : sched_event) : Z :=
  match e with EvTick now _ | EvYield now _ | EvSleep now _ _ => now end.

Definition event_preempts (e : sched_event) : bool := match e with EvTick _ _ => true | _ => false end.

(** The current task when the scheduling step starts: as it was, or asleep. *)
Definition start_task (e : sched_event) (t t' : LettuceTask) : Prop :=
  tk_context t' = tk_context t ∧ tk_generation t' = tk_generation t ∧ tk_id t' = tk_id t ∧
  tk_domain_id t' = tk_domain_id t ∧ tk_service_id t' = tk_service_id t ∧
  tk_state t' = match e with EvSleep _ _ _ => LETTUCE_TASK_STATE_SLEEPING | _ => tk_state t end.

(** A write to the current task before the scheduling step. *)
Lemma start_update (e : sched_event) (st : scheduler_state P) (c : Z) f :
  sched_inv st → current st = Some c → (∀ t, start_task e t (f t)) →
  ∃ t m, arr_get (table st) c = Some t ∧ sm_update c f (ss_mem st) = Some m ∧ sm_vars m = ss_vars st ∧
    length (sm_tasks m) = length (table st) ∧ sched_inv (with_mem m st) ∧
    ∀ i, arr_get (sm_tasks m) i = if decide (c = i) then Some (f t) else arr_get (table st) i.
Proof.
  intros Hinv Hc Hf. pose proof (si_tasks _ Hinv) as Hti.
  destruct (task_get_slot _ c Hti) as (t & Ht & Hok); [by apply (ti_current _ Hti)|].
  destruct (task_update_Some (table st) c f t Ht) as (tb & Hup & Hset & Hlen & Hget).
  exists t, (with_tasks tb (ss_mem st)). unfold sm_update, ss_mem. cbn [sm_tasks]. rewrite Hup. cbn.
  split_and!; try done. destruct (Hf t) as (Hx & Hg & Hid & _ & _ & Hs).
  assert (task_is_active (f t) = true) as Hal.
  { pose proof (si_alive _ Hinv c t Hc Ht) as Ha. unfold task_is_active in *. rewrite Hs. by destruct e. }
  destruct Hok as [Hgok Hidok Hr]. split; cbn.
  - rewrite Hc. eapply (task_inv_set (ss_tasks st)); [done|done| |intros c' [= <-]; by apply (ti_current _ Hti)].
    split; [by rewrite Hg| |by rewrite Hx]. intros _. rewrite Hid, Hg. apply Hidok. by eapply si_alive.
  - intros i x. rewrite Hget. case_decide; [intros; congruence|]. apply (si_running _ Hinv).
  - intros c' x Hc' Hx'. simplify_eq. rewrite Hget, decide_True in Hx' by done. by injection Hx' as <-.
Qed.

Definition started (e : sched_event) (st st1 : scheduler_state P) : Prop :=
  sched_inv st1 ∧ current st1 = current st ∧ ss_vars st1 = ss_vars st ∧
  g_scheduler_active st1 = g_scheduler_active st ∧ g_current_policy_type st1 = g_current_policy_type st ∧
  ss_service st1 = ss_service st ∧ ss_arch st1 = ss_arch st ∧
  ∀ i t, arr_get (table st) i = Some t → ∃ t', arr_get (table st1) i = Some t' ∧
    if decide (current st = Some i) then start_task e t t' else t' = t.

Lemma event_start_spec (e : sched_event) (st : scheduler_state P) :
  sched_inv st →
  (current st = None ∧ event_exec e st = Some (Some (event_frame e), st)) ∨
  (∃ st1, started e st st1 ∧
     event_exec e st = ('(_, tf, st') ← do_schedule arch_enter (event_now e) (Some (event_frame e))
                                          (event_preempts e) st1; Some (tf, st'))).
Proof.
  intros Hinv.
  assert (∀ c f, current st = Some c → (∀ t, start_task e t (f t)) →
    ∃ m, sm_update c f (ss_mem st) = Some m ∧ started e st (with_mem m st)) as Hup.
  { intros c f Hc Hf. destruct (start_update e st c f Hinv Hc Hf) as (t & m & Ht & Hu & Hv & Hl & Hinv' & Hget).
    exists m. split; [done|]. unfold started. cbn. split_and!; try done. intros i x Hx. rewrite Hget.
    destruct (decide (c = i)) as [->|Hci].
    - simplify_eq. eexists. split; [done|]. by rewrite decide_True.
    - exists x. split; [done|]. by rewrite decide_False by congruence. }
  unfold event_exec, lettuce_scheduler_tick, lettuce_scheduler_yield, lettuce_scheduler_sleep_current,
    lettuce_task_current.
  destruct e as [now tf|now tf|now ticks tf]; cbn [event_frame event_now event_preempts].
  - right. exists st. split; [|done]. unfold started. split_and!; try done.
    intros i t Ht. exists t. split; [done|]. case_decide; [|done]. unfold start_task. done.
  - destruct (current st) as [c|] eqn:Hc; [right|by left].
    destruct (Hup c (set_time_slice 0) eq_refl) as (m & -> & Hs); [by intros []|].
    exists (with_mem m st). done.
  - destruct (current st) as [c|] eqn:Hc; [right|by left].
    destruct (Hup c (λ t, set_state LETTUCE_TASK_STATE_SLEEPING (set_sleep_deadline (u64 (now + ticks)) t)) eq_refl)
      as (m & -> & Hs); [by intros []|].
    exists (with_mem m st). split; [done|]. cbn [mbind option_bind].
    by destruct (g_current_policy_type st).
Qed.

(** What an event does to the system: every task that is not current keeps its
    context and, up to waking, its state, unless it becomes the current one. *)
Lemma event_step (e : sched_event) (st : scheduler_state P) :
  sched_inv st → frame_ok (event_frame e) →
  ∃ tf' st', event_exec e st = Some (Some tf', st') ∧ sched_inv st' ∧
    (∀ i t, arr_get (table st) i = Some t → ∃ t', arr_get (table st') i = Some t' ∧
       tk_generation t' = tk_generation t ∧ tk_service_id t' = tk_service_id t ∧ tk_domain_id t' = tk_domain_id t ∧
       (current st ≠ Some i → tk_context t' = tk_context t ∧
          (current st' ≠ Some i → tk_state t' = tk_state t ∨
             (tk_state t = LETTUCE_TASK_STATE_SLEEPING ∧ tk_state t' = LETTUCE_TASK_STATE_READY)))) ∧
    ((current st = None ∧ st' = st ∧ tf' = event_frame e) ∨
     ∃ st1, started e st st1 ∧ g_current_policy_type st' = g_current_policy_type st ∧
       (event_preempts e = false → g_scheduler_active st' = g_scheduler_active st) ∧
       ((g_scheduler_active st = false ∧ st' = st1 ∧ tf' = event_frame e) ∨
        schedule_outcome arch_enter (event_now e) (event_preempts e) (event_frame e) st1 tf' st')).
Proof.
  intros Hinv Htf. destruct (event_start_spec e st Hinv) as [[Hc ->]|(st1 & Hst & ->)].
  { exists (event_frame e), st. split_and!; try done; [|by left]. intros i t Ht. exists t. auto 10. }
  pose proof Hst as (Hinv1 & Hc1 & _ & Ha1 & Hp1 & _ & _ & Htab).
  destruct (g_scheduler_active st1) eqn:Hact.
  - destruct (do_schedule_spec arch_enter (event_now e) (event_preempts e) (event_frame e) st1 Hinv1 Hact Htf)
      as (hit & tf' & st' & -> & Hinv' & [_ Hev] & Hpol & Hact' & Hout).
    exists tf', st'. split_and!; [done|done| |right; exists st1; split_and!; try done; congruence||auto].
    + intros i t Ht. destruct (Htab i t Ht) as (t1 & Ht1 & H1). destruct (Hev i t1 Ht1) as (t' & Ht' & Hid & Hn).
      apply task_ident_fields in Hid as (_ & Hg & Hsv & Hd & _). exists t'. split; [done|].
      rewrite Hg, Hsv, Hd. case_decide as Hci.
      * destruct H1 as (_ & -> & _ & -> & -> & _). split_and!; try done.
      * subst t1. split_and!; try done. rewrite Hc1 in Hn. by apply Hn.
    + intros Hpre. rewrite (Hact' Hpre). congruence.
  - unfold do_schedule. rewrite Hact. cbn. exists (event_frame e), st1. split_and!; [done|done| |].
    + intros i t Ht. destruct (Htab i t Ht) as (t1 & Ht1 & H1). exists t1. split; [done|].
      case_decide; [destruct H1 as (_ & ? & _ & ? & ? & _); split_and!; done|subst t1; auto 10].
    + right. exists st1. split_and!; try done; [congruence|]. left. split_and!; congruence.
Qed.

(** ** Control calls *)

Lemma task_exec_keeps (c : task_call) (st : scheduler_state P) :
  sched_inv st → ∃ ts, task_exec c (ss_tasks st) = Some ts ∧ sched_inv (with_task_state ts st).
Proof.
  intros Hinv. pose proof (si_tasks _ Hinv) as Hti.
  destruct (task_exec_step c _ Hti) as (ts & Hx & Hti' & _). exists ts. split; [done|].
  destruct c as [s d e p n|id]; cbn in Hx.
  - destruct (task_create_spec (ss_tasks st) s d e p n Hti) as
      [(i & t & ts' & Ht & Hfree & _ & Hc & Hset & Hcur)|[_ Hc]]; rewrite Hc in Hx; cbn in Hx; simplify_eq.
    + split; cbn; [done|..].
      * intros j x. rewrite (arr_get_set _ _ _ _ _ Hset), Hcur. case_decide; [by intros [= <-]|].
        apply (si_running _ Hinv).
      * intros j x Hj. rewrite (arr_get_set _ _ _ _ _ Hset). rewrite Hcur in Hj. case_decide; [by intros [= <-]|].
        by apply (si_alive _ Hinv).
    + by destruct Hinv.
  - destruct (task_terminate_spec (ss_tasks st) id Hti) as
      [(i & t & ts' & _ & Ht & Hterm & Hset & Hcur & _)|[_ Hterm]]; rewrite Hterm in Hx; simplify_eq.
    2:{ by destruct Hinv. }
    destruct (task_terminated_ok i t) as (_ & _ & Hdead); [by apply (ti_task _ Hti)|].
    split; cbn; [done|..]; intros j x.
    + rewrite (arr_get_set _ _ _ _ _ Hset), Hcur. destruct (decide (i = j)); [intros Hx; injection Hx as <-; by destruct t|].
      intros Hx Hs. pose proof (si_running _ Hinv j x Hx Hs) as Hj. rewrite Hj.
      by rewrite bool_decide_eq_false_2 by congruence.
    + rewrite (arr_get_set _ _ _ _ _ Hset), Hcur. destruct (bool_decide _) eqn:Hci; [done|].
      apply bool_decide_eq_false in Hci. intros Hj. rewrite decide_False by congruence. by apply (si_alive _ Hinv).
Qed.

Lemma scheduler_init_inv (st : scheduler_state P) :
  Z.of_nat (length (table st)) = LETTUCE_MAX_TASKS →
  ∃ st', lettuce_scheduler_init st = Some st' ∧ sched_inv st'.
Proof.
  intros Hlen. unfold lettuce_scheduler_init. rewrite task_init_spec by done. cbn.
  eexists. split; [done|]. split; cbn; [apply task_fresh_inv| |done].
  intros i t Ht. pose proof (arr_get_Some_range _ _ _ Ht) as Hr. unfold task_table_fresh in *.
  rewrite length_replicate in Hr. rewrite arr_get_replicate in Ht by done. by injection Ht as <-.
Qed.

Lemma control_keeps (c : sched_control) (st : scheduler_state P) :
  sched_inv st → ∃ st', control_exec c st = Some st' ∧ sched_inv st'.
Proof.
  intros Hinv. destruct c as [c| | | |p|n]; cbn.
  - destruct (task_exec_keeps c st Hinv) as (ts & -> & Hinv'). cbn. eauto.
  - apply scheduler_init_inv, (si_tasks _ Hinv).
  - eexists. split; [done|]. by destruct Hinv.
  - eexists. split; [done|]. by destruct Hinv.
  - eexists. split; [done|]. by destruct Hinv.
  - eexists. split; [done|]. by destruct Hinv.
Qed.

Lemma sched_run_keeps (es : list (sched_event + sched_control)) (st : scheduler_state P) :
  sched_inv st → Forall event_wf es → ∃ st', sched_run es st = Some st' ∧ sched_inv st'.
Proof.
  intros Hinv Hwf. revert st Hinv. induction Hwf as [|e es He _ IH]; intros st Hinv; cbn; [eauto|].
  destruct e as [e|c].
  - destruct (event_step e st Hinv He) as (tf' & st' & -> & Hinv' & _). cbn. by apply IH.
  - destruct (control_keeps c st Hinv) as (st' & -> & Hinv'). cbn. by apply IH.
Qed.

(** A call that leaves task [c] alone: not a reset, not the termination of [c]. *)
Definition control_spares (c : Z) (ctl : sched_control) : Prop :=
  match ctl with
  | CtlInit => False
  | CtlTask (TaskTerminate id) => id .& 65535 ≠ c
  | _ => True
  end.

Lemma control_spares_task (ctl : sched_control) (st st' : scheduler_state P) (c : Z) t :
  sched_inv st → control_spares c ctl → control_exec ctl st = Some st' → current st ≠ Some c →
  arr_get (table st) c = Some t → task_is_active t = true →
  current st' ≠ Some c ∧ arr_get (table st') c = Some t.
Proof.
  intros Hinv Hsp Hx Hc Ht Hact. pose proof (si_tasks _ Hinv) as Hti.
  destruct ctl as [[s d e p n|id]| | | |p|n]; cbn in Hx; try (injection Hx as <-; done); try done.
  - destruct (task_create_spec (ss_tasks st) s d e p n Hti) as
      [(i & x & ts' & Hx' & Hfree & _ & Hcr & Hset & Hcur)|[_ Hcr]]; rewrite Hcr in Hx; injection Hx as <-; [|done].
    cbn. rewrite Hcur. split; [done|]. rewrite (arr_get_set _ _ _ _ _ Hset). by rewrite decide_False by congruence.
  - destruct (task_terminate_spec (ss_tasks st) id Hti) as
      [(i & x & ts' & Hget & Hx' & Hterm & Hset & Hcur & _)|[_ Hterm]]; rewrite Hterm in Hx; injection Hx as <-; [|done].
    destruct (task_get_range _ _ _ Hget) as (_ & _ & -> & _). cbn. rewrite Hcur. split.
    + by destruct (bool_decide _).
    + rewrite (arr_get_set _ _ _ _ _ Hset). by rewrite decide_False.
Qed.

(** ** Time away from the processor *)

(** Events and calls during all of which task [c] exists and is not the current one. *)
Inductive away (c : Z) : scheduler_state P → scheduler_state P → Prop :=
  | away_refl st : current st ≠ Some c → away c st st
  | away_event st e tf' st1 st' :
      current st ≠ Some c → frame_ok (event_frame e) → event_exec e st = Some (tf', st1) →
      away c st1 st' → away c st st'
  | away_control st ctl st1 st' :
      current st ≠ Some c → control_spares c ctl → control_exec ctl st = Some st1 →
      away c st1 st' → away c st st'.

Lemma away_context (c : Z) (st st' : scheduler_state P) t :
  away c st st' → sched_inv st → arr_get (table st) c = Some t → task_is_active t = true →
  sched_inv st' ∧ current st' ≠ Some c ∧
  ∃ t', arr_get (table st') c = Some t' ∧ tk_context t' = tk_context t ∧ tk_service_id t' = tk_service_id t ∧
    tk_domain_id t' = tk_domain_id t.
Proof.
  intros Haway. revert t.
  induction Haway as [st Hc|st e tf' st1 st' Hc Htf Hx Haway IH|st ctl st1 st' Hc Hsp Hx Haway IH]; intros t Hinv Ht Hact.
  - split_and!; [done..|]. by exists t.
  - destruct (event_step e st Hinv Htf) as (tf2 & st2 & Hx2 & Hinv2 & Hev & _). rewrite Hx in Hx2.
    injection Hx2 as -> ->. destruct (Hev c t Ht) as (t2 & Ht2 & Hg2 & Hsv & Hd & Hn). destruct (Hn Hc) as [Hctx Hs].
    destruct (IH t2 Hinv2 Ht2) as (Hinv' & Hc' & t' & Ht' & ? & ? & ?).
    { destruct (decide (current st2 = Some c)) as [Hc2|Hc2]; [by eapply si_alive|].
      unfold task_is_active in *. destruct (Hs Hc2) as [->|[_ ->]]; done. }
    split_and!; [done..|]. exists t'. split_and!; congruence.
  - destruct (control_keeps ctl st Hinv) as (st2 & Hx2 & Hinv2). rewrite Hx in Hx2. injection Hx2 as ->.
    destruct (control_spares_task ctl st st2 c t Hinv Hsp Hx Hc Ht Hact) as [_ Ht2]. by apply IH.
Qed.

(** What a task holds in its context when it has just lost the processor. *)
Definition left_context (e : sched_event) (t : LettuceTask) : LettuceTaskContext :=
  match e with EvSleep _ _ _ => tk_context t | _ => context_of_frame (event_frame e) end.

Lemma leaving_context (e : sched_event) (st : scheduler_state P) (c : Z) t tf1 st1 :
  sched_inv st → frame_ok (event_frame e) → current st = Some c → arr_get (table st) c = Some t →
  tk_state t = LETTUCE_TASK_STATE_RUNNING → event_exec e st = Some (tf1, st1) → current st1 ≠ Some c →
  sched_inv st1 ∧ ∃ t1, arr_get (table st1) c = Some t1 ∧ tk_context t1 = left_context e t ∧
    tk_service_id t1 = tk_service_id t ∧ tk_domain_id t1 = tk_domain_id t ∧ task_is_active t1 = true.
Proof.
  intros Hinv Htf Hc Ht Hrun Hx Hc1.
  destruct (event_step e st Hinv Htf) as (tf' & st' & Hx' & Hinv' & Hev & Hout).
  rewrite Hx in Hx'. injection Hx' as -> ->. split; [done|].
  destruct (Hev c t Ht) as (t1 & Ht1 & _ & Hsv & Hd & _). exists t1.
  destruct Hout as [(_ & -> & _)|(st0 & Hst & _ & _ & Hout)]; [done|].
  destruct Hst as (_ & Hc0 & _ & _ & _ & _ & _ & Htab).
  destruct (Htab c t Ht) as (t0 & Ht0 & H0). rewrite decide_True in H0 by done.
  destruct H0 as (Hctx0 & _ & _ & _ & _ & Hs0).
  destruct Hout as [(_ & -> & _)|Hout]; [congruence|].
  destruct Hout as [c' ? st' _ ? _ _ ? _ _|m2 p m3 st' _ _ ? _ _ _|m2 n m3 tn st' _ _ _ _ _ _ _ _ _ Hold _];
    [congruence..|].
  destruct (Hold c t0) as (x & Hx' & Hact & Hb); [congruence|done|]. rewrite Ht1 in Hx'. injection Hx' as <-.
  split_and!; [done| |done..]. unfold left_context.
  destruct e; cbn in Hs0, Hb |- *; rewrite Hs0 in Hb; rewrite ?Hrun in Hb; cbn in Hb; [apply Hb..|congruence].
Qed.

(** Becoming the current task means resuming from the stored context. *)
Lemma resuming_frame (e : sched_event) (st : scheduler_state P) (c : Z) t tf1 st1 :
  sched_inv st → frame_ok (event_frame e) → current st ≠ Some c → arr_get (table st) c = Some t →
  event_exec e st = Some (tf1, st1) → current st1 = Some c →
  tf1 = Some (frame_of_context (tk_context t)) ∧ ss_service st1 = tk_service_id t ∧
  ss_arch st1 = arch_after arch_enter st (tk_domain_id t) ∧
  ∃ t1, arr_get (table st1) c = Some t1 ∧ tk_state t1 = LETTUCE_TASK_STATE_RUNNING.
Proof.
  intros Hinv Htf Hc Ht Hx Hc1.
  destruct (event_step e st Hinv Htf) as (tf' & st' & Hx' & Hinv' & Hev & Hout).
  rewrite Hx in Hx'. injection Hx' as -> ->.
  destruct Hout as [(_ & -> & _)|(st0 & Hst & _ & _ & Hout)]; [done|].
  destruct Hst as (_ & Hc0 & _ & _ & _ & Hsv0 & Har0 & Htab).
  destruct Hout as [(_ & -> & _)|Hout]; [congruence|].
  destruct Hout as [c' ? st' _ ? _ _ ? _ _|m2 p m3 st' _ _ ? _ _ _|m2 n m3 tn st' _ _ Hn _ Htn _ _ Hsv Har _ Hrun];
    [congruence..|]. rewrite Hn in Hc1. injection Hc1 as ->.
  destruct (Htab c t Ht) as (t0 & Ht0 & H0). rewrite decide_False in H0 by done. subst t0.
  rewrite Htn in Ht0. injection Ht0 as ->. split_and!; [done..| |done].
  rewrite Har. unfold arch_after. rewrite Hc0, Har0.
  destruct (current st) as [d|] eqn:Hd; [|done]. cbn.
  destruct (task_get_slot _ d (si_tasks _ Hinv)) as (td & Htd & _); [by apply (ti_current _ (si_tasks _ Hinv))|].
  destruct (Htab d td Htd) as (td' & Htd' & H1). rewrite decide_True in H1 by done.
  destruct H1 as (_ & _ & _ & Hdom & _). by rewrite Htd, Htd', Hdom.
Qed.

(** ** Round robin: waiting times *)

Lemma rr_wake_vars (now : Z) (m m' : sched_mem) :
  wake_sleepers g_lettuce_sched_rr_ops now m = Some m' → sm_vars m' = sm_vars m.
Proof.
  intros Hw. apply (for_range_keeps (λ x, sm_vars x = sm_vars m) _ _ _ _ _) in Hw; [done| |done].
  clear m' Hw. intros k x x' Hx <-. unfold wake_slot in Hx.
  destruct (task_scan k (sm_tasks x)) as [[q|]|]; cbn in Hx; [|by injection Hx as <-|done].
  destruct (arr_get (sm_tasks x) q) as [t|]; cbn in Hx; [|done].
  destruct (_ && _); [|by injection Hx as <-]. unfold sm_update in Hx.
  destruct (task_update q _ _); cbn in Hx; [|done]. by injection Hx as <-.
Qed.

Lemma rr_account_vars (curr : option Z) (pre : bool) (tf : LettuceTrapFrame) (m m' : sched_mem) b :
  account_current g_lettuce_sched_rr_ops curr pre tf m = Some (b, m') → sm_vars m' = sm_vars m.
Proof.
  unfold account_current. destruct curr as [c|]; [|by intros [= _ <-]].
  destruct (arr_get (sm_tasks m) c) as [t|] eqn:Ht; cbn [mbind option_bind]; [|done].
  destruct (negb _) eqn:Hs; [by intros [= _ <-]|]. cbn [op_on_tick g_lettuce_sched_rr_ops]. unfold rr_on_tick. rewrite Ht. cbn [mbind option_bind]. rewrite Hs.
  unfold sm_update. destruct (task_update c _ _) as [tb|]; cbn [mbind option_bind]; [|done].
  cbn [sm_tasks with_tasks]. destruct (arr_get tb c) as [t1|]; cbn [mbind option_bind]; [|done]. destruct (_ && pre); [by intros [= _ <-]|].
  destruct (save_frame tf (tk_context t1)) as [x|]; cbn [mbind option_bind]; [|done].
  destruct (task_update c _ tb) as [tb2|]; cbn; [|done]. by intros [= _ <-].
Qed.

(** A state in which round robin owes task [j] the processor. *)
Record rr_owes (j : Z) (st : scheduler_state P) : Prop := {
  ro_inv : sched_inv st;
  ro_policy : g_current_policy_type st = LETTUCE_SCHED_POLICY_RR;
  ro_active : g_scheduler_active st = true;
  ro_current : ∃ c, current st = Some c ∧ c ≠ j;
  ro_ready : ∃ t, arr_get (table st) j = Some t ∧ ready_visible t
}.

Definition rr_distance (j : Z) (st : scheduler_state P) : Z := rr_wait (g_rr_last_idx (ss_vars st)) j.

(** The answer of round robin in a state that owes [j]. *)
Lemma rr_asked (now : Z) (pre : bool) (tf : LettuceTrapFrame) (j : Z) (st : scheduler_state P) m2 p m3 :
  rr_owes j st → asked now pre tf st m2 p m3 →
  ∃ s, p = Some s ∧ (s = j ∨ rr_wait (g_rr_last_idx (sm_vars m3)) j < rr_distance j st).
Proof.
  intros [Hinv Hpol Hact (c & Hc & Hcj) (t & Ht & Hr & Hv)] (m1 & Hw & Ha & Hp & He).
  rewrite Hpol in Hw, Ha, Hp. cbn in Hw, Ha, Hp. rewrite Hc in Hp.
  assert (sm_vars m2 = ss_vars st) as Hvars.
  { rewrite (rr_account_vars _ _ _ _ _ _ Ha). by rewrite (rr_wake_vars _ _ _ Hw). }
  destruct (proj2 He j t Ht) as (t2 & Ht2 & Hid & Hn). destruct Hn as [_ Hs]; [congruence|].
  apply task_ident_fields in Hid as (_ & Hg & _).
  assert (tk_state t2 = tk_state t) as Hst by (destruct Hs as [?|[? _]]; congruence).
  destruct (rr_pick_progress c j m2 t2) as (s & m' & Hpick & Hl & Hor).
  - eapply (evolves_ok _ (ss_mem st)); [done|by apply ss_mem_ok].
  - by apply (ti_current _ (si_tasks _ Hinv)).
  - done.
  - unfold ready_visible, task_visible in *. by rewrite Hst, Hg.
  - rewrite Hpick in Hp. injection Hp as <- <-. exists s. split; [done|].
    unfold rr_distance. rewrite <- Hvars, Hl. done.
Qed.

(** One event that gives up the processor: [j] gets it or is strictly closer. *)
Lemma rr_step (e : sched_event) (j : Z) (st : scheduler_state P) :
  rr_owes j st → event_preempts e = false → frame_ok (event_frame e) →
  ∃ tf' st', event_exec e st = Some (tf', st') ∧
    (current st' = Some j ∨ (rr_owes j st' ∧ rr_distance j st' < rr_distance j st)).
Proof.
  intros Howes Hpre Htf. pose proof Howes as [Hinv Hpol Hact (c & Hc & Hcj) (t & Ht & Hr & Hv)].
  destruct (event_step e st Hinv Htf) as (tf' & st' & Hx & Hinv' & Hev & Hout).
  exists (Some tf'), st'. split; [done|]. destruct (decide (current st' = Some j)) as [|Hnj]; [by left|right].
  destruct Hout as [(? & _)|(st1 & Hst & Hpol' & Hact' & Hout)]; [congruence|].
  destruct Hst as (Hinv1 & Hc1 & Hv1 & Ha1 & Hp1 & _ & _ & Htab).
  destruct (Htab j t Ht) as (t1 & Ht1 & H1). rewrite decide_False in H1 by congruence. subst t1.
  assert (rr_owes j st1) as Howes1.
  { split; [done|congruence|congruence|exists c; split; [congruence|done]|by exists t]. }
  destruct Hout as [(? & _)|Hout]; [congruence|]. rewrite Hpre in Hout.
  destruct (Hev j t Ht) as (t' & Ht' & Hg & _ & _ & Hn). destruct Hn as [_ Hs]; [congruence|]. specialize (Hs Hnj).
  assert (tk_state t' = tk_state t) as Hst' by (destruct Hs as [?|[? _]]; congruence).
  assert (ready_visible t') as Hrv by (unfold ready_visible, task_visible in *; by rewrite Hst', Hg).
  assert (∀ c' m2 p m3, asked (event_now e) false (event_frame e) st1 m2 p m3 → current st' = Some c' →
    p ≠ Some j → ss_vars st' = sm_vars m3 → rr_owes j st' ∧ rr_distance j st' < rr_distance j st) as Hgoal.
  { intros c' m2 p m3 Hasked Hc' Hp Hvars. split.
    - split; [done|congruence|rewrite (Hact' Hpre); congruence|exists c'; split; congruence|by exists t'].
    - destruct (rr_asked _ _ _ _ _ _ _ _ Howes1 Hasked) as (s & -> & [->|Hlt]); [done|].
      unfold rr_distance in *. by rewrite Hvars, <- Hv1. }
  destruct Hout as [c' ? st' Hp _ _ _ _ _ _|m2 p m3 st' Has Hp Hcur Hvars _ _|m2 n m3 tn st' Has _ Hn Hvars _ _ _ _ _ _ _].
  - done.
  - eapply (Hgoal c); [done|congruence| |done]. destruct Hp as [-> | ->]; congruence.
  - eapply (Hgoal n); [done|done|congruence|done].
Qed.

Lemma rr_served (es : list sched_event) (j : Z) (st : scheduler_state P) :
  rr_owes j st → Forall (λ e, event_preempts e = false ∧ frame_ok (event_frame e)) es →
  rr_distance j st < Z.of_nat (length es) →
  ∃ es1 es2 st', es = es1 ++ es2 ∧ es1 ≠ [] ∧ sched_run (inl <$> es1) st = Some st' ∧ current st' = Some j.
Proof.
  intros Howes Hes. revert st Howes. induction Hes as [|e es [Hpre Htf] _ IH]; intros st Howes Hd.
  { pose proof (rr_wait_range (g_rr_last_idx (ss_vars st)) j). unfold rr_distance in Hd. cbn in Hd. lia. }
  destruct (rr_step e j st Howes Hpre Htf) as (tf' & st1 & Hx & [Hj|[Howes1 Hlt]]).
  - exists [e], es, st1. split_and!; [done..| |done]. cbn. by rewrite Hx.
  - destruct (IH st1 Howes1) as (es1 & es2 & st' & -> & _ & Hrun & Hj); [cbn in Hd; lia|].
    exists (e :: es1), es2, st'. split_and!; [done..| |done]. cbn. by rewrite Hx.
Qed.

(** ** Tasks beyond the scanned generations *)

(** The scans try generations 1 to 10 only. *)
Lemma unseen_event (e : sched_event) (st st' : scheduler_state P) tf' (c : Z) t :
  sched_inv st → frame_ok (event_frame e) → current st ≠ Some c → arr_get (table st) c = Some t →
  10 < tk_generation t → event_exec e st = Some (tf', st') →
  current st' ≠ Some c ∧ ∃ t', arr_get (table st') c = Some t' ∧ tk_generation t' = tk_generation t ∧
    (task_is_active t = true → task_is_active t' = true).
Proof.
  intros Hinv Htf Hc Ht Hg Hx. destruct (event_step e st Hinv Htf) as (tf2 & st2 & Hx2 & Hinv' & Hev & Hout).
  rewrite Hx in Hx2. injection Hx2 as -> ->.
  assert (current st2 ≠ Some c) as Hc'.
  { intros Hc'. destruct Hout as [(_ & -> & _)|(st0 & Hst & _ & _ & Hout)]; [done|].
    destruct Hst as (_ & Hc0 & _ & _ & _ & _ & _ & Htab).
    destruct (Htab c t Ht) as (t0 & Ht0 & H0). rewrite decide_False in H0 by done. subst t0.
    destruct Hout as [(_ & -> & _)|Hout]; [congruence|].
    destruct Hout as [c' ? st' _ ? _ _ ? _ _|m2 p m3 st' _ _ ? _ _ _|m2 n m3 tn st' _ _ Hn _ Htn Hv _ _ _ _ _];
      [congruence..|]. rewrite Hn in Hc'. injection Hc' as ->. rewrite Htn in Ht0. injection Ht0 as ->.
    unfold task_visible in Hv. b2p. lia. }
  split; [done|]. destruct (Hev c t Ht) as (t' & Ht' & Hg' & _ & _ & Hn). exists t'. split_and!; [done..|].
  destruct (Hn Hc) as [_ Hs]. unfold task_is_active. destruct (Hs Hc') as [->|[-> ->]]; done.
Qed.

(** Calls and events that leave slot [c] to its task. *)
Definition spares (c : Z) (e : sched_event + sched_control) : Prop :=
  event_wf e ∧ match e with inl _ => True | inr ctl => control_spares c ctl end.

Lemma unseen_run (es : list (sched_event + sched_control)) (st : scheduler_state P) (c : Z) t :
  sched_inv st → Forall (spares c) es → current st ≠ Some c → arr_get (table st) c = Some t →
  10 < tk_generation t → task_is_active t = true →
  ∃ st' t', sched_run es st = Some st' ∧ current st' ≠ Some c ∧ arr_get (table st') c = Some t' ∧
    task_is_active t' = true.
Proof.
  intros Hinv Hes. revert st t Hinv. induction Hes as [|e es [Hwf Hsp] _ IH]; intros st t Hinv Hc Ht Hg Ha.
  { exists st, t. done. }
  destruct e as [e|ctl]; cbn.
  - destruct (event_step e st Hinv Hwf) as (tf' & st1 & Hx & Hinv1 & _).
    destruct (unseen_event e st st1 _ c t Hinv Hwf Hc Ht Hg Hx) as (Hc1 & t1 & Ht1 & Hg1 & Ha1).
    rewrite Hx. cbn. apply (IH st1 t1); [done..|lia|auto].
  - destruct (control_keeps ctl st Hinv) as (st1 & Hx & Hinv1).
    destruct (control_spares_task ctl st st1 c t Hinv Hsp Hx Hc Ht Ha) as [Hc1 Ht1].
    rewrite Hx. cbn. by apply (IH st1 t).
Qed.

(** ** Claims *)

(** C23: after [lettuce_scheduler_init], whatever ticks, yields, sleeps, task
    creations, terminations, policy changes and control calls follow, in any order and
    with any register contents, no access leaves a table, at most one task is in state
    RUNNING, it is the task [lettuce_task_current] returns, and the current task is
    never a dead one. *)
Theorem at_most_one_task_runs (st : scheduler_state P) (es : list (sched_event + sched_control)) :
  Z.of_nat (length (table st)) = LETTUCE_MAX_TASKS → Forall event_wf es →
  ∃ st1 st', lettuce_scheduler_init st = Some st1 ∧ sched_run es st1 = Some st' ∧
    (∀ i j x y, arr_get (table st') i = Some x → arr_get (table st') j = Some y →
       tk_state x = LETTUCE_TASK_STATE_RUNNING → tk_state y = LETTUCE_TASK_STATE_RUNNING → i = j) ∧
    (∀ i x, arr_get (table st') i = Some x → tk_state x = LETTUCE_TASK_STATE_RUNNING →
       lettuce_task_current (ss_tasks st') = Some i) ∧
    (∀ c, lettuce_task_current (ss_tasks st') = Some c →
       ∃ t, arr_get (table st') c = Some t ∧ task_is_active t = true).
Proof.
  intros Hlen Hes. destruct (scheduler_init_inv st Hlen) as (st1 & Hi & Hinv1).
  destruct (sched_run_keeps es st1 Hinv1 Hes) as (st' & Hrun & Hinv). exists st1, st'.
  split_and!; [done..| |apply Hinv|].
  - intros i j x y Hx Hy Hsx Hsy. pose proof (si_running _ Hinv i x Hx Hsx).
    pose proof (si_running _ Hinv j y Hy Hsy). congruence.
  - intros c Hc. destruct (task_get_slot _ c (si_tasks _ Hinv)) as (t & Ht & _).
    { by apply (ti_current _ (si_tasks _ Hinv)). }
    exists t. split; [done|]. by eapply si_alive.
Qed.

(** C24: preemption is transparent.  A running task that loses the processor on a
    timer tick or a yield, with register frame [tf], gets exactly [tf] back whenever it
    is next given the processor, whatever other tasks did, were created or terminated in
    between; the kernel then acts for its service, and its domain's address space is
    entered unless the task it takes over from has the same domain. *)
Theorem preempted_task_resumes_exactly (st st1 st2 st3 : scheduler_state P) (e e' : sched_event) (c : Z) t tf1 tf3 :
  sched_inv st → frame_ok (event_frame e) → (∀ now ticks tf, e ≠ EvSleep now ticks tf) →
  current st = Some c → arr_get (table st) c = Some t → tk_state t = LETTUCE_TASK_STATE_RUNNING →
  event_exec e st = Some (tf1, st1) → away c st1 st2 →
  frame_ok (event_frame e') → event_exec e' st2 = Some (tf3, st3) → current st3 = Some c →
  tf3 = Some (event_frame e) ∧ ss_service st3 = tk_service_id t ∧
  ss_arch st3 = arch_after arch_enter st2 (tk_domain_id t).
Proof.
  intros Hinv Htf Hns Hc Ht Hrun Hx Haway Htf' Hx' Hc3.
  destruct (leaving_context e st c t tf1 st1) as (Hinv1 & t1 & Ht1 & Hctx1 & Hsv1 & Hd1 & Ha1); try done.
  { by destruct Haway. }
  destruct (away_context c st1 st2 t1 Haway Hinv1 Ht1 Ha1) as (Hinv2 & Hc2 & t2 & Ht2 & Hctx2 & Hsv2 & Hd2).
  destruct (resuming_frame e' st2 c t2 tf3 st3 Hinv2 Htf' Hc2 Ht2 Hx' Hc3) as (-> & -> & -> & _).
  rewrite Hctx2, Hctx1, Hsv2, Hsv1, Hd2, Hd1. split_and!; [|done..].
  destruct e; cbn; [by rewrite frame_context_frame..|by destruct (Hns now ticks tf)].
Qed.

(** C25: round robin starves no task it can see.  Once a task is ready, in a slot of
    generation at most 10 (the scans try no others), at most [LETTUCE_MAX_TASKS] yields or sleeps of the other tasks
    pass before it is given the processor. *)
Theorem rr_serves_every_ready_task (st : scheduler_state P) (j c : Z) t (es : list sched_event) :
  sched_inv st → g_current_policy_type st = LETTUCE_SCHED_POLICY_RR → g_scheduler_active st = true →
  current st = Some c → c ≠ j → arr_get (table st) j = Some t → ready_visible t →
  Forall (λ e, event_preempts e = false ∧ frame_ok (event_frame e)) es →
  Z.of_nat (length es) = LETTUCE_MAX_TASKS →
  ∃ es1 es2 st', es = es1 ++ es2 ∧ es1 ≠ [] ∧ sched_run (inl <$> es1) st = Some st' ∧
    lettuce_task_current (ss_tasks st') = Some j.
Proof.
  intros Hinv Hpol Hact Hc Hcj Ht Hr Hes Hlen. apply rr_served; [|done|].
  - split; [done..|by exists c|by exists t].
  - rewrite Hlen. apply rr_wait_range.
Qed.

(** A sleeping task loses its registers.  [lettuce_scheduler_sleep_current] marks
    the task SLEEPING before [do_schedule], which saves the frame of a RUNNING task only:
    whatever the registers were when the task went to sleep, it resumes from the context
    stored at its previous switch (from its entry point, if it was never preempted). *)
Theorem sleeping_task_loses_its_registers (st st1 st2 st3 : scheduler_state P) (e : sched_event) (now ticks : Z)
    (tf : LettuceTrapFrame) (c : Z) t tf1 tf3 :
  sched_inv st → frame_ok tf → current st = Some c → arr_get (table st) c = Some t →
  tk_state t = LETTUCE_TASK_STATE_RUNNING →
  event_exec (EvSleep now ticks tf) st = Some (tf1, st1) → away c st1 st2 →
  frame_ok (event_frame e) → event_exec e st2 = Some (tf3, st3) → current st3 = Some c →
  tf3 = Some (frame_of_context (tk_context t)).
Proof.
  intros Hinv Htf Hc Ht Hrun Hx Haway Htf' Hx' Hc3.
  destruct (leaving_context (EvSleep now ticks tf) st c t tf1 st1 Hinv Htf Hc Ht Hrun Hx) as (Hinv1 & t1 & Ht1 & Hctx1 & _ & _ & Ha1).
  { by destruct Haway. }
  destruct (away_context c st1 st2 t1 Haway Hinv1 Ht1 Ha1) as (Hinv2 & Hc2 & t2 & Ht2 & Hctx2 & _).
  destruct (resuming_frame e st2 c t2 tf3 st3 Hinv2 Htf' Hc2 Ht2 Hx' Hc3) as (-> & _).
  by rewrite Hctx2, Hctx1.
Qed.

(** A task in a slot that was recycled ten times never runs.  The scans of the
    scheduler and of both policies try generations 1 to 10, so a live task with a higher
    generation is never made current, whatever happens to the rest of the system. *)
Theorem recycled_task_never_runs (st : scheduler_state P) (es : list (sched_event + sched_control)) (c : Z) t :
  sched_inv st → Forall (spares c) es → current st ≠ Some c → arr_get (table st) c = Some t →
  10 < tk_generation t → task_is_active t = true →
  ∃ st' t', sched_run es st = Some st' ∧ lettuce_task_current (ss_tasks st') ≠ Some c ∧
    arr_get (table st') c = Some t' ∧ task_is_active t' = true.
Proof. intros. by eapply unseen_run. Qed.

End events.

(** ** A small system *)

(** Two tasks of two services, the address space recorded as the list of entered
    domains; the first tick dispatches task 0. *)
Definition sched_off : scheduler_state (list Z) :=
  {| ss_tasks := {| g_task_table := task_table_fresh; g_current_task := None |};
     ss_vars := {| g_rr_last_idx := 0; g_eevdf_vsys := 0 |}; g_scheduler_active := false;
     g_switch_count := 0; g_preempt_count := 0; g_same_domain_switches := 0; g_cross_domain_switches := 0;
     g_preempt_limit := 0; g_current_policy_type := LETTUCE_SCHED_POLICY_RR; ss_service := 0; ss_arch := [] |}.

Definition frame_of (k : Z) : LettuceTrapFrame :=
  {| tf_x := replicate 30 k; tf_lr := k; tf_elr := k; tf_spsr := 0; tf_sp_el0 := k |}.

Definition demo_events : list (sched_event + sched_control) :=
  [inr (CtlTask (TaskCreate 10 100 4096 8192 0)); inr (CtlTask (TaskCreate 20 200 4096 8192 0));
   inr CtlStart; inl (EvTick 1 (frame_of 7))].

Definition run_or_off (es : list (sched_event + sched_control)) (st : scheduler_state (list Z))
    : scheduler_state (list Z) :=
  default sched_off (sched_run cons es st).

Definition demo : scheduler_state (list Z) := run_or_off demo_events sched_off.

Lemma sched_off_inv : sched_inv sched_off.
Proof.
  split; cbn; [apply task_fresh_inv| |done]. intros i t Ht. pose proof (arr_get_Some_range _ _ _ Ht) as Hr.
  unfold task_table_fresh in *. rewrite length_replicate in Hr. rewrite arr_get_replicate in Ht by exact Hr.
  by injection Ht as <-.
Qed.

Lemma run_or_off_inv (es : list (sched_event + sched_control)) (st : scheduler_state (list Z)) :
  sched_inv st → Forall event_wf es → sched_inv (run_or_off es st).
Proof.
  intros Hinv Hwf. unfold run_or_off. by destruct (sched_run_keeps cons es st Hinv Hwf) as (st' & -> & ?).
Qed.

Lemma demo_inv : sched_inv demo.
Proof. apply run_or_off_inv; [apply sched_off_inv|]. by repeat constructor. Qed.

Lemma at_most_one_task_runs_witness :
  ∃ st1 st', lettuce_scheduler_init sched_off = Some st1 ∧ sched_run cons demo_events st1 = Some st' ∧
    lettuce_task_current (ss_tasks st') = Some 0.
Proof.
  destruct (at_most_one_task_runs cons sched_off demo_events) as (st1 & st' & Hi & Hr & _ & Hcur & _).
  - reflexivity.
  - repeat constructor.
  - exists st1, st'. split; [exact Hi|]. split; [exact Hr|].
    vm_compute in Hi. injection Hi as <-. vm_compute in Hr. injection Hr as <-. reflexivity.
Defined.

(** Task 0 yields with frame 1, task 1 yields with frame 2: task 0 has frame 1 again. *)
Lemma preempted_task_resumes_exactly_witness :
  ∃ st3, event_exec cons (EvYield 3 (frame_of 2)) (run_or_off [inl (EvYield 2 (frame_of 1))] demo) =
    Some (Some (frame_of 1), st3) ∧ ss_service st3 = 10.
Proof.
  destruct (event_exec cons (EvYield 3 (frame_of 2)) (run_or_off [inl (EvYield 2 (frame_of 1))] demo))
    as [[tf3 st3]|] eqn:Hx; [|vm_compute in Hx; discriminate Hx].
  assert (Hc := Hx). vm_compute in Hc. injection Hc as _ Hst3.
  destruct (arr_get_is_Some (g_task_table (ss_tasks demo)) 0) as [t Ht]; [vm_compute; split; [discriminate|reflexivity]|].
  assert (Ht0 := Ht). vm_compute in Ht0. injection Ht0 as Ht0.
  destruct (preempted_task_resumes_exactly cons demo (run_or_off [inl (EvYield 2 (frame_of 1))] demo)
    (run_or_off [inl (EvYield 2 (frame_of 1))] demo) st3 (EvYield 2 (frame_of 1)) (EvYield 3 (frame_of 2)) 0 t
    (Some (frame_of_context (tk_context (task_fresh 1 20 200 4096 8192 0 task_unused)))) tf3) as (Htf & Hsv & _).
  - exact demo_inv.
  - reflexivity.
  - intros now ticks tf Heq. discriminate Heq.
  - vm_compute. reflexivity.
  - exact Ht.
  - rewrite <- Ht0. reflexivity.
  - vm_compute. reflexivity.
  - apply away_refl. vm_compute. discriminate.
  - reflexivity.
  - exact Hx.
  - rewrite <- Hst3. reflexivity.
  - exists st3. rewrite Htf. split; [reflexivity|]. rewrite Hsv, <- Ht0. reflexivity.
Defined.

Lemma rr_serves_every_ready_task_witness :
  ∃ es1 es2 st', replicate 16 (EvYield 2 (frame_of 1)) = es1 ++ es2 ∧
    sched_run cons (inl <$> es1) demo = Some st' ∧ lettuce_task_current (ss_tasks st') = Some 1.
Proof.
  destruct (arr_get_is_Some (g_task_table (ss_tasks demo)) 1) as [t Ht]; [vm_compute; split; [discriminate|reflexivity]|].
  assert (Ht0 := Ht). vm_compute in Ht0. injection Ht0 as Ht0.
  destruct (rr_serves_every_ready_task cons demo 1 0 t (replicate 16 (EvYield 2 (frame_of 1))))
    as (es1 & es2 & st' & He & _ & Hr & Hc).
  - exact demo_inv.
  - reflexivity.
  - reflexivity.
  - vm_compute. reflexivity.
  - discriminate.
  - exact Ht.
  - rewrite <- Ht0. split; reflexivity.
  - apply Forall_replicate. split; reflexivity.
  - reflexivity.
  - exists es1, es2, st'. split; [exact He|]. split; [exact Hr|exact Hc].
Defined.

(** Task 0 sleeps with frame 1 and wakes at its entry point. *)
Lemma sleeping_task_loses_its_registers_witness :
  ∃ tf3 st3, event_exec cons (EvYield 9 (frame_of 2)) (run_or_off [inl (EvSleep 2 5 (frame_of 1))] demo) =
    Some (Some tf3, st3) ∧ tf_elr tf3 = 4096 ∧ frame_of 1 ≠ tf3.
Proof.
  destruct (event_exec cons (EvYield 9 (frame_of 2)) (run_or_off [inl (EvSleep 2 5 (frame_of 1))] demo))
    as [[tf3 st3]|] eqn:Hx; [|vm_compute in Hx; discriminate Hx].
  assert (Hc := Hx). vm_compute in Hc. injection Hc as _ Hst3.
  destruct (arr_get_is_Some (g_task_table (ss_tasks demo)) 0) as [t Ht]; [vm_compute; split; [discriminate|reflexivity]|].
  assert (Ht0 := Ht). vm_compute in Ht0. injection Ht0 as Ht0.
  assert (tf3 = Some (frame_of_context (tk_context t))) as ->.
  { apply (sleeping_task_loses_its_registers cons demo (run_or_off [inl (EvSleep 2 5 (frame_of 1))] demo)
      (run_or_off [inl (EvSleep 2 5 (frame_of 1))] demo) st3 (EvYield 9 (frame_of 2)) 2 5 (frame_of 1) 0 t
      (Some (frame_of_context (tk_context (task_fresh 1 20 200 4096 8192 0 task_unused))))).
    - exact demo_inv.
    - reflexivity.
    - vm_compute. reflexivity.
    - exact Ht.
    - rewrite <- Ht0. reflexivity.
    - vm_compute. reflexivity.
    - apply away_refl. vm_compute. discriminate.
    - reflexivity.
    - exact Hx.
    - rewrite <- Hst3. reflexivity. }
  exists (frame_of_context (tk_context t)), st3. split; [reflexivity|]. rewrite <- Ht0. split; [reflexivity|discriminate].
Defined.

(** A slot used ten times, and once more. *)
Definition recycled_events : list (sched_event + sched_control) :=
  concat ((λ g : nat, [inr (CtlTask (TaskCreate 10 100 4096 8192 0));
                       inr (CtlTask (TaskTerminate (Z.of_nat g .<< 16)))]) <$> seq 1 10) ++
  [inr (CtlTask (TaskCreate 10 100 4096 8192 0)); inr CtlStart].

Lemma recycled_task_never_runs_witness :
  ∃ st' t', sched_run cons (replicate 50 (inl (EvTick 1 (frame_of 7)))) (run_or_off recycled_events sched_off) = Some st' ∧
    lettuce_task_current (ss_tasks st') ≠ Some 0 ∧ arr_get (g_task_table (ss_tasks st')) 0 = Some t' ∧
    task_is_active t' = true.
Proof.
  destruct (arr_get_is_Some (g_task_table (ss_tasks (run_or_off recycled_events sched_off))) 0) as [t Ht];
    [vm_compute; split; [discriminate|reflexivity]|].
  assert (Ht0 := Ht). vm_compute in Ht0. injection Ht0 as Ht0.
  apply (recycled_task_never_runs cons _ _ 0 t).
  - apply run_or_off_inv; [exact sched_off_inv|]. repeat constructor.
  - apply Forall_replicate. split; [reflexivity|exact I].
  - vm_compute. discriminate.
  - exact Ht.
  - rewrite <- Ht0. reflexivity.
  - rewrite <- Ht0. reflexivity.
Defined.

(** With no other task to run, a sleeping task stays current and goes on executing:
    the frame is unchanged and the current task is in state SLEEPING. *)
Example lone_sleeper_keeps_the_processor :
  ∃ st' t, event_exec cons (EvSleep 2 5 (frame_of 1))
      (run_or_off [inr (CtlTask (TaskCreate 10 100 4096 8192 0)); inr CtlStart; inl (EvTick 1 (frame_of 7))] sched_off) =
      Some (Some (frame_of 1), st') ∧
    lettuce_task_current (ss_tasks st') = Some 0 ∧ arr_get (g_task_table (ss_tasks st')) 0 = Some t ∧
    tk_state t = LETTUCE_TASK_STATE_SLEEPING.
Proof. eexists _, _. vm_compute. split; [reflexivity|]. split; [reflexivity|]. split; reflexivity. Qed.
