(* ===== verification/EevdfSpec.v ===== *)
(** * EEVDF starves nobody

    A ready task's claim to the processor is a target in virtual time: its virtual
    runtime and its deadline do not move while it waits, and EEVDF never picks a task
    whose virtual runtime is past them.  Every tick charges the running task, so each
    task passes the target after a bounded number of ticks; the bound is computed from
    the table ([eevdf_wait]). *)

From S2P Require Import Prelude Types Generation Task Policy RoundRobin Eevdf Scheduler SchedulerSpec.

(** ** Times of tasks *)

(** Virtual runtimes up to [H], slices up to [S]. *)
Record times (S H : Z) (t : LettuceTask) : Prop := {
  ti_weight : 0 ≤ tk_weight t ≤ 10240;
  ti_vruntime : 0 ≤ tk_vruntime t ≤ H;
  ti_slice : 0 ≤ tk_time_slice_ticks t ≤ S;
  ti_quantum : 0 ≤ tk_quantum_ticks t ≤ S;
  ti_requested : 0 ≤ tk_requested_slice_ticks t ≤ S
}.

Definition all_times (S H : Z) (m : sched_mem) : Prop :=
  0 ≤ g_eevdf_vsys (sm_vars m) ≤ H ∧ ∀ i t, arr_get (sm_tasks m) i = Some t → times S H t.

(** The same task later: only its virtual runtime matters to the wait, and it grows. *)
Definition time_goes (t t' : LettuceTask) : Prop :=
  task_is_active t' = task_is_active t ∧ tk_weight t' = tk_weight t ∧ tk_vruntime t ≤ tk_vruntime t'.

#[export] Instance time_goes_preorder : PreOrder time_goes.
Proof.
  split; [by intros t|]. intros x y z (? & ? & ?) (? & ? & ?). unfold time_goes. split_and!; [congruence..|lia].
Qed.

Lemma times_weaken (S H H' : Z) (t : LettuceTask) : H ≤ H' → times S H t → times S H' t.
Proof. intros ? []. split; lia. Qed.

(** The virtual time one tick costs the task. *)
Definition tick_cost (t : LettuceTask) : Z := 65536 / effective_weight (tk_weight t).

Lemma tick_cost_range (S H : Z) (t : LettuceTask) : times S H t → 1 ≤ tick_cost t ≤ 65536.
Proof.
  intros [Hw _ _ _ _]. unfold tick_cost, effective_weight, LETTUCE_EEVDF_BASE_WEIGHT.
  destruct (Z.ltb_spec 0 (tk_weight t)); [|done].
  split; [apply Z.div_le_lower_bound; lia|apply Z.div_le_upper_bound; lia].
Qed.

(** ** Inversions *)

Lemma sm_update_inv (s : Z) f (m m' : sched_mem) :
  sm_update s f m = Some m' →
  ∃ t, arr_get (sm_tasks m) s = Some t ∧ sm_vars m' = sm_vars m ∧
    length (sm_tasks m') = length (sm_tasks m) ∧
    ∀ i, arr_get (sm_tasks m') i = if decide (s = i) then Some (f t) else arr_get (sm_tasks m) i.
Proof.
  unfold sm_update. destruct (arr_get (sm_tasks m) s) as [t|] eqn:Ht.
  - destruct (task_update_Some (sm_tasks m) s f t Ht) as (tb & -> & _ & Hlen & Hget).
    intros [= <-]. exists t. split_and!; done.
  - unfold task_update. by rewrite Ht.
Qed.

Lemma active_weight_pos (tb : list LettuceTask) (w : Z) : get_active_weight_sum tb = Some w → 1 ≤ w.
Proof.
  unfold get_active_weight_sum, LETTUCE_EEVDF_BASE_WEIGHT. destruct (for_range _ _ _ _) as [x|]; cbn; [|done].
  destruct (Z.ltb_spec 0 x); intros [= <-]; lia.
Qed.

(** A tick of the policy: the running task is charged, the slice shrinks, the system's
    virtual time grows by at most one tick's worth. *)
Lemma eevdf_tick_inv (S H c : Z) (m m' : sched_mem) (t : LettuceTask) :
  all_times S H m → H + 65536 < 2 ^ 64 → eevdf_on_tick (Some c) 1 m = Some m' →
  arr_get (sm_tasks m) c = Some t → tk_state t = LETTUCE_TASK_STATE_RUNNING →
  g_eevdf_vsys (sm_vars m) ≤ g_eevdf_vsys (sm_vars m') ≤ g_eevdf_vsys (sm_vars m) + 65536 ∧
  (∀ i, i ≠ c → arr_get (sm_tasks m') i = arr_get (sm_tasks m) i) ∧
  ∃ t', arr_get (sm_tasks m') c = Some t' ∧ task_core t' = task_core t ∧
    tk_vruntime t' = tk_vruntime t + tick_cost t ∧ tk_time_slice_ticks t' = slice_after (tk_time_slice_ticks t) 1.
Proof.
  intros [Hvs Ht] HH Hx Hc Hr. pose proof (Ht _ _ Hc) as Htc. unfold eevdf_on_tick in Hx.
  rewrite Hc in Hx. cbn [mbind option_bind] in Hx. rewrite Hr, state_is_refl in Hx. cbn [negb] in Hx.
  match type of Hx with context [sm_update c ?f m] => destruct (sm_update c f m) as [m1|] eqn:H1; cbn [mbind option_bind] in Hx; [|done] end.
  destruct (get_active_weight_sum (sm_tasks m1)) as [w|] eqn:Hw; cbn [mbind option_bind] in Hx; [|done].
  apply active_weight_pos in Hw. apply sm_update_inv in H1 as (t0 & Ht0 & Hv1 & _ & Hg1).
  rewrite Hc in Ht0. injection Ht0 as <-.
  apply sm_update_inv in Hx as (t1 & Ht1 & Hv2 & _ & Hg2). cbn in Ht1, Hv2, Hg2.
  rewrite Hg1, decide_True in Ht1 by done. injection Ht1 as <-.
  change (u64 (1 * LETTUCE_EEVDF_SCALE)) with 65536 in *.
  assert (0 ≤ 65536 / w ≤ 65536) as Hdw by (split; [apply Z.div_pos; lia|apply Z.div_le_upper_bound; lia]).
  pose proof (tick_cost_range _ _ _ Htc). destruct Htc as [_ Hvr _ _ _].
  split; [rewrite Hv2; cbn; rewrite Hv1, u64_small by (unfold is_u64; lia); lia|].
  split; [intros i Hi; by rewrite Hg2, Hg1, !decide_False by congruence|].
  eexists. split; [by rewrite Hg2, decide_True|]. fold (tick_cost t). rewrite u64_small by (unfold is_u64; lia).
  by destruct t.
Qed.

(** ** Before the pick *)

Lemma align_vruntime (v : Z) (t : LettuceTask) : tk_vruntime (align v t) = Z.max (tk_vruntime t) v.
Proof. unfold align. destruct (Z.ltb_spec (tk_vruntime t) v); destruct t; cbn in *; lia. Qed.

Lemma align_slice (v : Z) (t : LettuceTask) : tk_time_slice_ticks (align v t) = tk_time_slice_ticks t.
Proof. unfold align. destruct (_ <? _); by destruct t. Qed.

Lemma align_times (S H v : Z) (t : LettuceTask) :
  0 ≤ v ≤ H → times S H t → times S H (align v t) ∧ time_goes t (align v t).
Proof.
  intros Hv [Hw Hvr Hs Hq Hr]. pose proof (task_core_fields _ _ (align_core v t)) as
    (Hst & _ & _ & _ & _ & _ & Hq' & Hw' & _ & Hr').
  split; [split|split_and!]; rewrite ?align_vruntime, ?align_slice, ?Hq', ?Hw', ?Hr'; try done; try lia.
  unfold task_is_active. by rewrite Hst.
Qed.

(** What waking the sleepers does to the table. *)
Definition wakes (S H : Z) (m m' : sched_mem) : Prop :=
  sm_ok m' ∧ all_times S H m' ∧ sm_vars m' = sm_vars m ∧
  ∀ i t, arr_get (sm_tasks m) i = Some t → ∃ t', arr_get (sm_tasks m') i = Some t' ∧ time_goes t t' ∧
    (tk_state t ≠ LETTUCE_TASK_STATE_SLEEPING → t' = t).

Lemma wakes_refl (S H : Z) (m : sched_mem) : sm_ok m → all_times S H m → wakes S H m m.
Proof. intros Hok Ht. split_and!; try done. intros i t Hi. by exists t. Qed.

Lemma wakes_trans (S H : Z) (m1 m2 m3 : sched_mem) : wakes S H m1 m2 → wakes S H m2 m3 → wakes S H m1 m3.
Proof.
  intros (_ & _ & Hv1 & H1) (Hok & Ht & Hv2 & H2). split_and!; [done|done|congruence|].
  intros i t Hi. destruct (H1 i t Hi) as (t' & Hi' & Hg & Hs). destruct (H2 i t' Hi') as (t'' & Hi'' & Hg' & Hs').
  exists t''. split_and!; [done|by etrans|]. intros Hn. specialize (Hs Hn). subst t'. by apply Hs'.
Qed.

Lemma eevdf_wake_slot (S H now k : Z) (m : sched_mem) :
  sm_ok m → all_times S H m → 0 ≤ k < LETTUCE_MAX_TASKS →
  ∃ m', wake_slot g_lettuce_sched_eevdf_ops now k m = Some m' ∧ wakes S H m m'.
Proof.
  intros Hok Htm Hk. pose proof Htm as [Hvs Ht]. unfold wake_slot.
  destruct (sm_scan m k Hok Hk) as (t & Hkt & ->). cbn [mbind option_bind].
  destruct (task_visible t); [|exists m; split; [done|by apply wakes_refl]].
  rewrite Hkt. cbn [mbind option_bind].
  destruct (state_is (tk_state t) _ && _) eqn:Hs; [|exists m; split; [done|by apply wakes_refl]].
  apply andb_prop in Hs as [Hs%state_is_true _].
  destruct (evolves_update m k (set_state LETTUCE_TASK_STATE_READY) Hok Hk) as
    (t0 & m1 & Ht0 & -> & Hv1 & He & Hg1); [by intros []|]. rewrite Hkt in Ht0. injection Ht0 as <-.
  cbn [mbind option_bind op_on_task_wake g_lettuce_sched_eevdf_ops eevdf_on_task_wake].
  assert (sm_ok m1) as Hok1 by by eapply evolves_ok.
  destruct (same_core_update m1 k (align (g_eevdf_vsys (sm_vars m1))) Hok1 Hk (align_core _))
    as (t1 & m2 & Ht1 & -> & Hv2 & Hc2 & Hg2).
  rewrite Hg1, decide_True in Ht1 by done. injection Ht1 as <-.
  exists m2. split; [done|]. rewrite Hv1 in *.
  destruct (align_times S H (g_eevdf_vsys (sm_vars m)) (set_state LETTUCE_TASK_STATE_READY t) Hvs) as [Htt Htg].
  { destruct (Ht _ _ Hkt). by destruct t. }
  split_and!; [by eapply same_core_ok|split; [by rewrite Hv2|]|congruence|].
  - intros i x. rewrite Hg2, Hg1. case_decide; [by intros [= <-]|apply Ht].
  - intros i x Hx. rewrite Hg2, Hg1. case_decide as Hi; [|by exists x].
    subst i. rewrite Hkt in Hx. injection Hx as <-. eexists. split_and!; [done| |done].
    etrans; [|exact Htg]. unfold time_goes, task_is_active. destruct t; cbn in *. by subst.
Qed.

Lemma eevdf_wake_sleepers (S H now : Z) (m : sched_mem) :
  sm_ok m → all_times S H m → ∃ m', wake_sleepers g_lettuce_sched_eevdf_ops now m = Some m' ∧ wakes S H m m'.
Proof.
  intros Hok Ht. unfold wake_sleepers.
  destruct (for_range_inv (λ _ m', wakes S H m m') (Z.to_nat LETTUCE_MAX_TASKS) 0
    (wake_slot g_lettuce_sched_eevdf_ops now) m) as (m' & -> & Hw); [by apply wakes_refl| |by exists m'].
  intros k m1 Hk Hw1. rewrite Z2Nat.id in Hk by done.
  destruct (eevdf_wake_slot S H now k m1) as (m2 & -> & Hw2); [apply Hw1..|lia|].
  exists m2. split; [done|]. by eapply wakes_trans.
Qed.

(** A task that was charged for a tick. *)
Lemma charged_times (S H : Z) (t t' : LettuceTask) :
  times S H t → task_core t' = task_core t → tk_vruntime t' = tk_vruntime t + tick_cost t →
  tk_time_slice_ticks t' = slice_after (tk_time_slice_ticks t) 1 → times S (H + 65536) t' ∧ time_goes t t'.
Proof.
  intros Ht Hcore Hvr Hsl. pose proof (tick_cost_range _ _ _ Ht) as Hcost.
  pose proof (task_core_fields _ _ Hcore) as (Hst & _ & _ & _ & _ & _ & Hq' & Hw' & _ & Hr').
  destruct Ht as [Hw Hvr' Hs Hq Hrq]. split; [split|split_and!]; rewrite ?Hvr, ?Hsl, ?Hq', ?Hw', ?Hr'; try lia.
  - unfold slice_after. destruct (Z.leb_spec 1 (tk_time_slice_ticks t)); lia.
  - unfold task_is_active. by rewrite Hst.
Qed.

(** Accounting does nothing for a task that does not run. *)
Lemma account_not_running (c : Z) (pre b : bool) tf (m m' : sched_mem) (t : LettuceTask) :
  account_current g_lettuce_sched_eevdf_ops (Some c) pre tf m = Some (b, m') →
  arr_get (sm_tasks m) c = Some t → tk_state t ≠ LETTUCE_TASK_STATE_RUNNING → b = false ∧ m' = m.
Proof.
  intros Ha Ht Hn%state_is_false. unfold account_current in Ha. rewrite Ht in Ha. cbn [mbind option_bind] in Ha.
  rewrite Hn in Ha. cbn [negb] in Ha. by injection Ha as <- <-.
Qed.

(** Accounting for a running task: it is charged; it keeps the processor only on a
    tick that leaves it slice. *)
Lemma eevdf_account_running (S H c : Z) (pre b : bool) tf (m m' : sched_mem) (t : LettuceTask) :
  all_times S H m → H + 65536 < 2 ^ 64 →
  account_current g_lettuce_sched_eevdf_ops (Some c) pre tf m = Some (b, m') →
  arr_get (sm_tasks m) c = Some t → tk_state t = LETTUCE_TASK_STATE_RUNNING →
  all_times S (H + 65536) m' ∧ (∀ i, i ≠ c → arr_get (sm_tasks m') i = arr_get (sm_tasks m) i) ∧
  ∃ t', arr_get (sm_tasks m') c = Some t' ∧ time_goes t t' ∧ tk_vruntime t + tick_cost t ≤ tk_vruntime t' ∧
    (b = true → tk_vruntime t' = tk_vruntime t + tick_cost t ∧ tk_state t' = LETTUCE_TASK_STATE_RUNNING ∧
       tk_time_slice_ticks t' = tk_time_slice_ticks t - 1 ∧ 1 ≤ tk_time_slice_ticks t').
Proof.
  intros Htm HH Hx Hc Hr. pose proof Htm as [Hvs Ht]. pose proof (Ht _ _ Hc) as Htc.
  unfold account_current in Hx. rewrite Hc in Hx. cbn [mbind option_bind] in Hx.
  rewrite Hr, state_is_refl in Hx. cbn [negb op_on_tick g_lettuce_sched_eevdf_ops] in Hx.
  destruct (eevdf_on_tick (Some c) 1 m) as [m1|] eqn:H1; cbn [mbind option_bind] in Hx; [|done].
  destruct (eevdf_tick_inv S H c m m1 t Htm HH H1 Hc Hr) as (Hv1 & Hg1 & t1 & Ht1 & Hcore & Hvr & Hsl).
  rewrite Ht1 in Hx. cbn [mbind option_bind] in Hx.
  pose proof (tick_cost_range _ _ _ Htc) as Hcost.
  destruct (charged_times S H t t1 Htc Hcore Hvr Hsl) as [Htt1 Htg1].
  destruct ((0 <? tk_time_slice_ticks t1) && pre) eqn:Hcont.
  - injection Hx as <- <-. apply andb_prop in Hcont as [Hsp%Z.ltb_lt _].
    split; [split; [lia|]|split; [done|]].
    + intros i x Hx. destruct (decide (i = c)) as [->|Hi]; [by simplify_eq|].
      rewrite Hg1 in Hx by done. eapply times_weaken, Ht, Hx. lia.
    + exists t1. do 2 (split; [done|]). split; [lia|]. intros _. split_and!; [done| | |lia].
      * by apply task_core_fields in Hcore as (-> & _).
      * rewrite Hsl in *. revert Hsp. unfold slice_after. destruct (Z.leb_spec 1 (tk_time_slice_ticks t)); lia.
  - destruct (save_frame tf (tk_context t1)) as [ctx|]; cbn [mbind option_bind] in Hx; [|done].
    match type of Hx with context [sm_update c ?f m1] =>
      destruct (sm_update c f m1) as [m2|] eqn:H2; cbn [mbind option_bind] in Hx; [|done] end.
    apply sm_update_inv in H2 as (t2 & Ht2 & Hv2 & _ & Hg2). rewrite Ht1 in Ht2. injection Ht2 as <-.
    cbn [op_on_task_ready g_lettuce_sched_eevdf_ops eevdf_on_task_ready] in Hx.
    match type of Hx with context [sm_update c ?f m2] =>
      destruct (sm_update c f m2) as [m3|] eqn:H3; cbn [mbind option_bind] in Hx; [|done] end.
    injection Hx as <- <-. apply sm_update_inv in H3 as (t3 & Ht3 & Hv3 & _ & Hg3).
    rewrite Hg2, decide_True in Ht3 by done. injection Ht3 as <-. rewrite Hv2 in *.
    set (t3 := set_state LETTUCE_TASK_STATE_READY (set_context ctx t1)) in *.
    assert (times S (H + 65536) t3 ∧ time_goes t t3 ∧ tk_vruntime t3 = tk_vruntime t1) as (Htt3 & Htg3 & Hv13).
    { split; [by destruct Htt1, t1|]. destruct Htg1 as (Ha & Hw & Hv). split; [|by destruct t1].
      apply task_core_fields in Hcore as (Hst & _). unfold time_goes, task_is_active in *. subst t3. destruct t1; cbn in *.
      split_and!; [|done|done]. by rewrite Hr. }
    destruct (align_times S (H + 65536) (g_eevdf_vsys (sm_vars m1)) t3 ltac:(lia) Htt3) as [Htt4 Htg4].
    split; [split; [rewrite Hv3; lia|]|split].
    + intros i x. rewrite Hg3. case_decide as Hi; [by intros [= <-]|]. rewrite Hg2, decide_False by done.
      rewrite Hg1 by congruence. intros Hx. eapply times_weaken, Ht, Hx. lia.
    + intros i Hi. by rewrite Hg3, Hg2, !decide_False, Hg1 by congruence.
    + eexists. split; [by rewrite Hg3, decide_True|]. split; [by etrans|].
      split; [rewrite align_vruntime; lia|done].
Qed.

(** ** The pick *)

Lemma refresh_idemp (t : LettuceTask) : refresh_deadline (refresh_deadline t) = refresh_deadline t.
Proof.
  unfold refresh_deadline at 2 3. destruct (tk_vdeadline t <? tk_vruntime t) eqn:Hd.
  - unfold refresh_deadline. case_match; [by destruct t|done].
  - unfold refresh_deadline. by rewrite Hd.
Qed.

Lemma grant_refresh (t : LettuceTask) : eevdf_grant (refresh_deadline t) = eevdf_grant t.
Proof. unfold refresh_deadline. case_match; [by destruct t|done]. Qed.

(** The scan stores nothing but refreshed deadlines. *)
Definition refreshes (m m' : sched_mem) : Prop :=
  ∀ i t, arr_get (sm_tasks m) i = Some t →
    arr_get (sm_tasks m') i = Some t ∨ arr_get (sm_tasks m') i = Some (refresh_deadline t).

Lemma refreshes_trans (m1 m2 m3 : sched_mem) : refreshes m1 m2 → refreshes m2 m3 → refreshes m1 m3.
Proof.
  intros H1 H2 i t Hi. destruct (H1 i t Hi) as [Hi2|Hi2]; destruct (H2 i _ Hi2); rewrite ?refresh_idemp in *; auto.
Qed.

Lemma scan_slot_refreshes (k : Z) (a a' : pick_acc) :
  eevdf_scan_slot k a = Some a' → refreshes (pa_mem a) (pa_mem a').
Proof.
  unfold eevdf_scan_slot. intros Hx.
  destruct (task_scan k _) as [[p|]|]; cbn [mbind option_bind] in Hx; [|injection Hx as <-; by left|done].
  destruct (arr_get (sm_tasks (pa_mem a)) p) as [t|] eqn:Ht; cbn [mbind option_bind] in Hx; [|done].
  destruct (negb _); [injection Hx as <-; by left|].
  destruct (if tk_vruntime t <? min_vruntime a then _ else _) as [o v].
  destruct (negb _); [injection Hx as <-; by left|].
  destruct (sm_update p refresh_deadline (pa_mem a)) as [m1|] eqn:H1; cbn [mbind option_bind] in Hx; [|done].
  destruct (arr_get (sm_tasks m1) p) as [t1|]; cbn [mbind option_bind] in Hx; [|done].
  assert (pa_mem a' = m1) as -> by (destruct (_ <? earliest_deadline a); by injection Hx as <-).
  apply sm_update_inv in H1 as (t0 & Ht0 & _ & _ & Hg). intros i x Hi. rewrite Hg.
  case_decide as Hp; [|by left]. right. congruence.
Qed.

(** What a pick stores: refreshed deadlines, and the grant to the chosen task. *)
Lemma eevdf_pick_writes (curr p : option Z) (m m' : sched_mem) (i : Z) (t : LettuceTask) :
  eevdf_pick_next curr m = Some (p, m') → arr_get (sm_tasks m) i = Some t →
  ∃ t', arr_get (sm_tasks m') i = Some t' ∧
    if decide (p = Some i) then t' = eevdf_grant t else t' = t ∨ t' = refresh_deadline t.
Proof.
  unfold eevdf_pick_next. intros Hx Hi.
  destruct (for_range _ _ _ _) as [a|] eqn:Ha; cbn [mbind option_bind] in Hx; [|done].
  apply (for_range_keeps (λ a, refreshes m (pa_mem a))) in Ha;
    [|intros k a1 a2 H1%scan_slot_refreshes H2; by eapply refreshes_trans|by left].
  assert (∀ b vs m2, sm_update b eevdf_grant (set_vsys vs (pa_mem a)) = Some m2 → p = Some b → m2 = m' →
    ∃ t', arr_get (sm_tasks m') i = Some t' ∧
      if decide (p = Some i) then t' = eevdf_grant t else t' = t ∨ t' = refresh_deadline t) as Hgrant.
  { intros b vs m2 (x & Hx' & _ & _ & Hg)%sm_update_inv -> <-. rewrite Hg. cbn in Hx'.
    destruct (decide (b = i)) as [->|Hb].
    - eexists. split; [done|]. rewrite decide_True by done.
      destruct (Ha i t Hi) as [Ht|Ht]; rewrite Ht in Hx'; injection Hx' as <-; by rewrite ?grant_refresh.
    - destruct (Ha i t Hi); eexists; (split; [done|]); rewrite decide_False by congruence; auto. }
  assert (set_vsys (g_eevdf_vsys (sm_vars (pa_mem a))) (pa_mem a) = pa_mem a) as Hsame
    by (by destruct (pa_mem a) as [? []]).
  assert (Some (None, pa_mem a) = Some (p, m') → ∃ t', arr_get (sm_tasks m') i = Some t' ∧
    if decide (p = Some i) then t' = eevdf_grant t else t' = t ∨ t' = refresh_deadline t) as Hrest.
  { intros [= <- <-]. destruct (Ha i t Hi); eexists; (split; [done|]); rewrite decide_False by done; auto. }
  destruct (best_eligible a) as [b|].
  { destruct (sm_update b _ _) as [m2|] eqn:H2; cbn in Hx; [|done]. injection Hx as Hp Hm.
    rewrite <- Hsame in H2. by eapply Hgrant. }
  destruct (if 0 <? ready_count a then min_vruntime_task a else None) as [b|].
  { destruct (sm_update b _ _) as [m2|] eqn:H2; cbn in Hx; [|done]. injection Hx as Hp Hm. by eapply Hgrant. }
  destruct curr as [c|]; [|by eapply Hrest].
  destruct (arr_get (sm_tasks (pa_mem a)) c) as [x|]; cbn [mbind option_bind] in Hx; [|done].
  destruct (state_is _ _); [|by eapply Hrest].
  destruct (sm_update c _ _) as [m2|] eqn:H2; cbn in Hx; [|done]. injection Hx as Hp Hm.
  rewrite <- Hsame in H2. by eapply Hgrant.
Qed.

(** While no virtual time wraps, a compared deadline is not before its task's virtual
    runtime. *)
Lemma pick_deadline_ge (S H : Z) (t : LettuceTask) :
  times S H t → LETTUCE_EEVDF_DEFAULT_SLICE ≤ S → H + 65536 * S < 2 ^ 64 → tk_vruntime t ≤ pick_deadline t.
Proof.
  intros [Hw Hv _ _ Hr] HS HH. unfold LETTUCE_EEVDF_DEFAULT_SLICE in *. unfold pick_deadline, refresh_deadline.
  destruct (Z.ltb_spec (tk_vdeadline t) (tk_vruntime t)); [|lia].
  assert (0 ≤ calc_vslice (Some t) ≤ 65536 * S) as Hc.
  { unfold calc_vslice, LETTUCE_EEVDF_SCALE, LETTUCE_EEVDF_DEFAULT_SLICE, effective_weight, LETTUCE_EEVDF_BASE_WEIGHT.
    set (sl := if 0 <? tk_requested_slice_ticks t then tk_requested_slice_ticks t else 5).
    assert (0 ≤ sl ≤ S) by (subst sl; case_match; lia). rewrite u64_small by (unfold is_u64; lia).
    destruct (Z.ltb_spec 0 (tk_weight t));
      (split; [apply Z.div_pos; lia|apply Z.div_le_upper_bound; nia]). }
  assert (lettuce_eevdf_calc_deadline (Some t) = tk_vruntime t + calc_vslice (Some t)) as Hd
    by (cbn; apply u64_small; unfold is_u64; lia).
  rewrite Hd. destruct t; cbn in *. lia.
Qed.

Lemma refresh_fields (t : LettuceTask) :
  task_core (refresh_deadline t) = task_core t ∧ tk_vruntime (refresh_deadline t) = tk_vruntime t ∧
  tk_time_slice_ticks (refresh_deadline t) = tk_time_slice_ticks t.
Proof. unfold refresh_deadline. case_match; by destruct t. Qed.

(** [j] waits for the processor with target [D]: whoever is picked instead has not
    passed the target. *)
Lemma eevdf_pick_waits (S H j D c : Z) (m : sched_mem) (t : LettuceTask) :
  sm_ok m → all_times S H m → LETTUCE_EEVDF_DEFAULT_SLICE ≤ S → H + 65536 * S < 2 ^ 64 →
  0 ≤ c < LETTUCE_MAX_TASKS → arr_get (sm_tasks m) j = Some t → ready_visible t →
  tk_vruntime t < D → pick_deadline t < D → D ≤ UINT64_MAX →
  ∃ n m', eevdf_pick_next (Some c) m = Some (Some n, m') ∧ all_times S H m' ∧
    (∃ tn, arr_get (sm_tasks m) n = Some tn ∧ tk_state tn = LETTUCE_TASK_STATE_READY ∧ (n = j ∨ tk_vruntime tn < D)) ∧
    ∀ i x, arr_get (sm_tasks m) i = Some x → ∃ x', arr_get (sm_tasks m') i = Some x' ∧
      task_core x' = task_core x ∧ tk_vruntime x' = tk_vruntime x ∧ (i ≠ n → x' = x ∨ x' = refresh_deadline x).
Proof.
  intros Hok Htm HS HH Hc Hj Hr Hv Hd HD. pose proof Htm as [Hvs Ht].
  destruct (eevdf_pick_exact m Hok (Some c)) as (p & m' & Hp & Hsc & Hch); [by intros ? [= <-]|].
  assert (ready_at m j t) as Hrj by done.
  assert (∃ n tn, p = Some n ∧ arr_get (sm_tasks m) n = Some tn ∧ tk_state tn = LETTUCE_TASK_STATE_READY ∧
    (n = j ∨ tk_vruntime tn < D) ∧ 0 ≤ g_eevdf_vsys (sm_vars m') ≤ H) as (n & tn & -> & Htn & Hrn & Hor & Hvs').
  { destruct Hch as [n tn [[Htn [Hrn _]] He] _ Hall|n tn Hnone [Htn [Hrn _]] _ Hall|c' tc Hnone _ _ _|Hnone _].
    - exists n, tn. split_and!; [done|done|done| |lia|lia]. right.
      destruct (decide (tk_vruntime t ≤ g_eevdf_vsys (sm_vars m))) as [Hel|Hel]; [|lia].
      destruct (Hall j t (conj Hrj Hel)) as [Hle _].
      pose proof (pick_deadline_ge _ _ _ (Ht _ _ Htn) HS HH). lia.
    - exists n, tn. pose proof (Ht _ _ Htn) as [_ ? _ _ _]. split_and!; [done|done|done| |lia|lia]. right.
      destruct (Hall j t Hrj). lia.
    - specialize (Hnone j t Hrj). lia.
    - specialize (Hnone j t Hrj). lia. }
  assert (∀ i x, arr_get (sm_tasks m) i = Some x → ∃ x', arr_get (sm_tasks m') i = Some x' ∧
      times S H x' ∧ task_core x' = task_core x ∧ tk_vruntime x' = tk_vruntime x ∧
      (i ≠ n → x' = x ∨ x' = refresh_deadline x)) as Hall.
  { intros i x Hx. pose proof (Ht _ _ Hx) as Htx.
    destruct (eevdf_pick_writes _ _ _ _ i x Hp Hx) as (x' & Hx' & Hw'). exists x'. split; [done|].
    case_decide as Hn; [subst x'|destruct Hw' as [-> | ->]].
    - split_and!; [destruct Htx; by destruct x|by destruct x|by destruct x|]. intros Hi. congruence.
    - by auto.
    - destruct (refresh_fields x) as (Hcx & Hvx & Hsx). pose proof (task_core_fields _ _ Hcx) as
        (_ & _ & _ & _ & _ & _ & Hq' & Hw' & _ & Hr'). destruct Htx.
      split; [|by auto]. split; rewrite ?Hvx, ?Hsx, ?Hq', ?Hw', ?Hr'; done. }
  exists n, m'. split_and!; [done| |by exists tn|].
  - split; [done|]. intros i x' Hx'. destruct (arr_get_is_Some (sm_tasks m) i) as [x Hx].
    { rewrite <- (same_core_length _ _ Hsc). by eapply arr_get_Some_range. }
    destruct (Hall i x Hx) as (y & Hy & Hty & _). congruence.
  - intros i x Hx. destruct (Hall i x Hx) as (x' & ? & _ & ?). by exists x'.
Qed.

(** ** The wait *)

Definition sum_of (f : LettuceTask → Z) (tb : list LettuceTask) : Z := foldr (λ t s, f t + s) 0 tb.
#[local] Arguments sum_of : simpl never.

(** Sums that do not grow anywhere and fall by [d] at [c]. *)
Lemma sum_of_drop (f : LettuceTask → Z) (c : nat) (d : Z) (tb tb' : list LettuceTask) :
  length tb' = length tb → (c < length tb)%nat →
  (∀ n t, tb !! n = Some t → ∃ t', tb' !! n = Some t' ∧ f t' + (if decide (n = c) then d else 0) ≤ f t) →
  sum_of f tb' + d ≤ sum_of f tb.
Proof.
  intros Hl Hc. enough (∀ c, (∀ n t, tb !! n = Some t → ∃ t', tb' !! n = Some t' ∧
    f t' + (if decide (n = c) then d else 0) ≤ f t) →
    sum_of f tb' + (if decide (c < length tb)%nat then d else 0) ≤ sum_of f tb) as H.
  { intros Hn. specialize (H c Hn). by rewrite decide_True in H. }
  clear c Hc. revert tb' Hl. induction tb as [|t tb IH]; intros [|t' tb'] Hl c Hn; cbn in Hl; try lia.
  - rewrite decide_False by (cbn; lia). cbn. lia.
  - destruct (Hn 0%nat t eq_refl) as (x & [= <-] & Hx). cbn [length].
    destruct c as [|c].
    + rewrite decide_True in Hx by done. specialize (IH tb' ltac:(lia) (length tb)).
      rewrite decide_False in IH by lia. rewrite decide_True by lia.
      change (f t' + sum_of f tb' + d ≤ f t + sum_of f tb). enough (sum_of f tb' + 0 ≤ sum_of f tb) by lia.
      apply IH. intros n y Hy. destruct (Hn (Datatypes.S n) y Hy) as (y' & Hy' & Hle). exists y'. split; [done|].
      rewrite decide_False in Hle by done. rewrite decide_False; [done|]. apply lookup_lt_Some in Hy. lia.
    + rewrite decide_False in Hx by done.
      change (f t' + sum_of f tb' + (if decide (Datatypes.S c < Datatypes.S (length tb))%nat then d else 0) ≤ f t + sum_of f tb).
      enough (sum_of f tb' + (if decide (c < length tb)%nat then d else 0) ≤ sum_of f tb) as Hle.
      { destruct (decide (c < length tb)%nat); [rewrite decide_True by lia|rewrite decide_False by lia]; lia. }
      apply IH; [lia|]. intros n y Hy. destruct (Hn (Datatypes.S n) y Hy) as (y' & Hy' & Hle). exists y'. split; [done|].
      destruct (decide (n = c)); destruct (decide (Datatypes.S n = _)); simplify_eq; done.
Qed.

Section wait.
Context (S D : Z) (HS : LETTUCE_EEVDF_DEFAULT_SLICE ≤ S).

(** The ticks a task can still hold the processor before it is past the target and
    its last slice is over. *)
Definition pass_time (t : LettuceTask) : Z :=
  if task_is_active t && (tk_vruntime t <? D)
  then (D - tk_vruntime t + (tick_cost t - 1)) / tick_cost t + S + 1
  else 0.

(** The rest of the slice of a running task that is past the target. *)
Definition overrun (t : LettuceTask) : Z := if D <=? tk_vruntime t then tk_time_slice_ticks t + 1 else 0.

Lemma pass_time_later (H : Z) (t t' : LettuceTask) :
  times S H t → time_goes t t' → 0 ≤ pass_time t' ≤ pass_time t.
Proof using HS.
  intros Ht (Ha & Hw & Hv). pose proof (tick_cost_range _ _ _ Ht) as Hc. unfold LETTUCE_EEVDF_DEFAULT_SLICE in HS.
  unfold pass_time. rewrite Ha. assert (tick_cost t' = tick_cost t) as -> by (unfold tick_cost; by rewrite Hw).
  destruct (task_is_active t); cbn [andb]; [|lia].
  destruct (Z.ltb_spec (tk_vruntime t') D); destruct (Z.ltb_spec (tk_vruntime t) D); try lia.
  - assert (0 ≤ (D - tk_vruntime t' + (tick_cost t - 1)) / tick_cost t) by (apply Z.div_pos; lia).
    assert ((D - tk_vruntime t' + (tick_cost t - 1)) / tick_cost t ≤ (D - tk_vruntime t + (tick_cost t - 1)) / tick_cost t)
      by (apply Z.div_le_mono; lia). lia.
  - assert (0 ≤ (D - tk_vruntime t + (tick_cost t - 1)) / tick_cost t) by (apply Z.div_pos; lia). lia.
Qed.

(** A charged task before the target: one tick less, or the target is passed. *)
Lemma pass_time_charged (H : Z) (t t' : LettuceTask) :
  times S H t → time_goes t t' → task_is_active t = true → tk_vruntime t < D →
  tk_vruntime t + tick_cost t ≤ tk_vruntime t' →
  pass_time t' + (if D <=? tk_vruntime t' then S + 2 else 1) ≤ pass_time t.
Proof using HS.
  intros Ht (Ha & Hw & Hv) Hact HD Hch. pose proof (tick_cost_range _ _ _ Ht) as Hc.
  unfold LETTUCE_EEVDF_DEFAULT_SLICE in HS.
  unfold pass_time. rewrite Ha, Hact. assert (tick_cost t' = tick_cost t) as -> by (unfold tick_cost; by rewrite Hw).
  rewrite (proj2 (Z.ltb_lt _ _) HD). cbn [andb].
  assert (1 ≤ (D - tk_vruntime t + (tick_cost t - 1)) / tick_cost t) by (apply Z.div_le_lower_bound; lia).
  destruct (Z.leb_spec D (tk_vruntime t')); [rewrite (proj2 (Z.ltb_ge _ _)) by lia; lia|].
  rewrite (proj2 (Z.ltb_lt _ _)) by lia.
  assert ((D - tk_vruntime t' + (tick_cost t - 1)) / tick_cost t + 1 ≤ (D - tk_vruntime t + (tick_cost t - 1)) / tick_cost t);
    [|lia].
  rewrite <- (Z.div_add _ 1) by lia. apply Z.div_le_mono; lia.
Qed.

End wait.

(** ** One event *)

Section events.
Context {P : Type} (arch_enter : Z → P → P).

#[local] Abbreviation table st := (g_task_table (ss_tasks st)).
#[local] Abbreviation current st := (g_current_task (ss_tasks st)).

(** How a scheduling step that returns has gone. *)
Lemma do_schedule_inv (now : Z) (pre hit : bool) tf tf' (st st' : scheduler_state P) :
  g_scheduler_active st = true → do_schedule arch_enter now (Some tf) pre st = Some (hit, tf', st') →
  g_preempt_limit st' = g_preempt_limit st ∧ g_current_policy_type st' = g_current_policy_type st ∧
  (g_preempt_limit st ≤ 0 → g_scheduler_active st' = true) ∧
  ∃ m1 b m2, let ops := policy_ops_of (g_current_policy_type st) in
    wake_sleepers ops now (ss_mem st) = Some m1 ∧
    account_current ops (current st) pre tf m1 = Some (b, m2) ∧
    if b : bool then st' = with_mem m2 st
    else ∃ p m3, op_pick_next ops (current st) m2 = Some (p, m3) ∧
      ∀ n, p = Some n → current st' = Some n ∧ ss_vars st' = sm_vars m3 ∧
        ∃ f tn, (f = keep_running ∨ f = set_state LETTUCE_TASK_STATE_RUNNING) ∧ arr_get (sm_tasks m3) n = Some tn ∧
          length (table st') = length (sm_tasks m3) ∧
          ∀ i, arr_get (table st') i = if decide (n = i) then Some (f tn) else arr_get (sm_tasks m3) i.
Proof.
  intros Hact Hx. unfold do_schedule, lettuce_task_current in Hx. rewrite Hact in Hx. cbn [negb] in Hx.
  destruct (wake_sleepers _ now (ss_mem st)) as [m1|] eqn:Hw; cbn [mbind option_bind] in Hx; [|done].
  destruct (account_current _ _ pre tf m1) as [[b m2]|] eqn:Ha; cbn [mbind option_bind] in Hx; [|done].
  destruct b.
  { injection Hx as <- <- <-. split_and!; [done..|]. by exists m1, true, m2. }
  destruct (op_pick_next _ _ m2) as [[p m3]|] eqn:Hp; cbn [mbind option_bind] in Hx; [|done].
  destruct p as [n|].
  2:{ assert (∃ m, st' = with_mem m st) as [m ->].
      { destruct (current st) as [c|]; [|injection Hx as <- <- <-; by exists m3].
        destruct (arr_get (sm_tasks m3) c) as [t|]; cbn [mbind option_bind] in Hx; [|done].
        destruct (state_is _ _); [|injection Hx as <- <- <-; by exists m3].
        destruct (sm_update c keep_running m3) as [m4|]; cbn in Hx; [|done]. injection Hx as <- <- <-. by exists m4. }
      split_and!; [done..|]. exists m1, false, m2. split_and!; [done..|]. exists None, m3. by split_and!. }
  case_bool_decide as Hcn.
  - destruct (sm_update n keep_running m3) as [m4|] eqn:H4; cbn [mbind option_bind] in Hx; [|done].
    injection Hx as <- <- <-. split_and!; [done..|]. exists m1, false, m2. split_and!; [done..|].
    apply sm_update_inv in H4 as (tn & Htn & Hv & Hl & Hg).
    exists (Some n), m3. split; [done|]. intros n' [= <-]. split_and!; [done|done|].
    exists keep_running, tn. split_and!; [by left|done..].
  - unfold switch_to in Hx. destruct (arr_get (sm_tasks m3) n) as [tn|] eqn:Htn; cbn [mbind option_bind] in Hx; [|done].
    destruct (shares_domain tn (current st) m3) as [b|]; cbn [mbind option_bind] in Hx; [|done].
    destruct (sm_update n _ m3) as [m4|] eqn:H4; cbn [mbind option_bind] in Hx; [|done].
    destruct (restore_frame _ tf) as [tf1|]; cbn [mbind option_bind] in Hx; [|done].
    injection Hx as <- <- <-. cbn. split_and!; [done|done| |].
    { intros Hlim. rewrite (proj2 (Z.ltb_ge 0 _)) by done. by rewrite andb_false_r. }
    exists m1, false, m2. split_and!; [done..|].
    apply sm_update_inv in H4 as (tn' & Htn' & Hv & Hl & Hg). rewrite Htn in Htn'. injection Htn' as <-.
    exists (Some n), m3. split; [done|]. intros n' [= <-]. split_and!; [done|done|].
    eexists (set_state LETTUCE_TASK_STATE_RUNNING), tn. split_and!; [by right|done..].
Qed.

(** What an event does to the current task before the scheduling step. *)
Definition event_mark (e : sched_event) (t : LettuceTask) : LettuceTask :=
  match e with
  | EvTick _ _ => t
  | EvYield _ _ => set_time_slice 0 t
  | EvSleep now ticks _ => set_state LETTUCE_TASK_STATE_SLEEPING (set_sleep_deadline (u64 (now + ticks)) t)
  end.

Lemma event_marked (e : sched_event) (st : scheduler_state P) (c : Z) :
  sched_inv st → current st = Some c →
  ∃ t st1, arr_get (table st) c = Some t ∧ sched_inv st1 ∧ current st1 = Some c ∧ ss_vars st1 = ss_vars st ∧
    g_current_policy_type st1 = g_current_policy_type st ∧ g_scheduler_active st1 = g_scheduler_active st ∧
    g_preempt_limit st1 = g_preempt_limit st ∧
    (∀ i, arr_get (table st1) i = if decide (c = i) then Some (event_mark e t) else arr_get (table st) i) ∧
    event_exec arch_enter e st = ('(_, tf, st') ← do_schedule arch_enter (event_now e) (Some (event_frame e))
                                                    (event_preempts e) st1; Some (tf, st')).
Proof.
  intros Hinv Hc. destruct e as [now tf|now tf|now ticks tf].
  - destruct (task_get_slot _ c (si_tasks _ Hinv)) as (t & Ht & _); [by apply (ti_current _ (si_tasks _ Hinv))|].
    exists t, st. split_and!; try done. intros i. by case_decide as Hi; [subst i|].
  - destruct (start_update (EvYield now tf) st c (set_time_slice 0) Hinv Hc) as (t & m & Ht & Hu & Hv & _ & Hinv1 & Hg);
      [by intros []|].
    exists t, (with_mem m st). split_and!; try done. unfold event_exec, lettuce_scheduler_yield, lettuce_task_current.
    by rewrite Hc, Hu.
  - destruct (start_update (EvSleep now ticks tf) st c (λ t, set_state LETTUCE_TASK_STATE_SLEEPING
      (set_sleep_deadline (u64 (now + ticks)) t)) Hinv Hc) as (t & m & Ht & Hu & Hv & _ & Hinv1 & Hg); [by intros []|].
    exists t, (with_mem m st). split_and!; try done. unfold event_exec, lettuce_scheduler_sleep_current, lettuce_task_current.
    rewrite Hc, Hu. cbn [mbind option_bind]. by destruct (g_current_policy_type st).
Qed.

(** A yield is charged a tick like a tick; a sleep is not charged. *)
Definition event_charge (e : sched_event) : Z := match e with EvSleep _ _ _ => 0 | _ => 1 end.

Definition all_go (tb tb' : list LettuceTask) : Prop :=
  ∀ i t, arr_get tb i = Some t → ∃ t', arr_get tb' i = Some t' ∧ time_goes t t'.

Lemma all_go_trans (tb1 tb2 tb3 : list LettuceTask) : all_go tb1 tb2 → all_go tb2 tb3 → all_go tb1 tb3.
Proof.
  intros H1 H2 i t Hi. destruct (H1 i t Hi) as (t' & Hi' & Hg). destruct (H2 i t' Hi') as (t'' & Hi'' & Hg').
  exists t''. split; [done|]. by etrans.
Qed.

(** The marked state: same times, a waiting task untouched. *)
Lemma marked_times (S H : Z) (e : sched_event) (t : LettuceTask) :
  task_is_active t = true → times S H t → times S H (event_mark e t) ∧ time_goes t (event_mark e t).
Proof.
  intros Ha Ht. unfold time_goes, task_is_active in *. destruct Ht, e, t; cbn in *;
    (split; [split; cbn; lia|split_and!; [by rewrite ?Ha|done|lia]]).
Qed.

(** Up to the pick: everybody's time goes on, the waiting task is untouched, a tick or
    a yield charges the current task. *)
Lemma eevdf_before_pick (S H j c : Z) (e : sched_event) (st st1 : scheduler_state P) (m1 m2 : sched_mem) b tc tj :
  all_times S H (ss_mem st) → H + 65536 < 2 ^ 64 → c ≠ j →
  arr_get (table st) c = Some tc → tk_state tc = LETTUCE_TASK_STATE_RUNNING →
  arr_get (table st) j = Some tj → tk_state tj = LETTUCE_TASK_STATE_READY →
  ss_vars st1 = ss_vars st → sm_ok (ss_mem st1) →
  (∀ i, arr_get (table st1) i = if decide (c = i) then Some (event_mark e tc) else arr_get (table st) i) →
  wake_sleepers g_lettuce_sched_eevdf_ops (event_now e) (ss_mem st1) = Some m1 →
  account_current g_lettuce_sched_eevdf_ops (Some c) (event_preempts e) (event_frame e) m1 = Some (b, m2) →
  all_times S (H + 65536 * event_charge e) m2 ∧ arr_get (sm_tasks m2) j = Some tj ∧ all_go (table st) (sm_tasks m2) ∧
  ∃ tc', arr_get (sm_tasks m2) c = Some tc' ∧
    (event_charge e = 1 → tk_vruntime tc + tick_cost tc ≤ tk_vruntime tc') ∧
    (b = true → event_charge e = 1 ∧ tk_state tc' = LETTUCE_TASK_STATE_RUNNING ∧
       tk_time_slice_ticks tc' = tk_time_slice_ticks tc - 1).
Proof.
  intros [Hvs Ht] HH Hcj Hc Hrun Hj Hready Hvars Hok1 Hg1 Hw Ha.
  assert (task_is_active tc = true) as Hact by (unfold task_is_active; by rewrite Hrun).
  destruct (marked_times S H e tc Hact (Ht _ _ Hc)) as [Hmt Hmg].
  assert (all_times S H (ss_mem st1)) as Htm1.
  { split; [cbn; by rewrite Hvars|]. cbn. intros i t. rewrite Hg1. case_decide; [by intros [= <-]|apply Ht]. }
  assert (all_go (table st) (table st1)) as Hgo1.
  { intros i t Hi. rewrite Hg1. case_decide as Hd; [subst i|by exists t].
    rewrite Hc in Hi. injection Hi as <-. by eexists. }
  destruct (eevdf_wake_sleepers S H (event_now e) (ss_mem st1) Hok1 Htm1) as (m & Hm & Hokm & Htm & Hvm & Hwk).
  rewrite Hw in Hm. injection Hm as <-.
  assert (all_go (table st1) (sm_tasks m1)) as Hgo2.
  { intros i t Hi. destruct (Hwk i t Hi) as (t' & ? & ? & _). by exists t'. }
  destruct (Hwk c (event_mark e tc)) as (t1 & Ht1 & Htg1 & Hsame); [cbn; by rewrite Hg1, decide_True|].
  assert (arr_get (sm_tasks m1) j = Some tj) as Hj1.
  { destruct (Hwk j tj) as (x & Hx & _ & Hxs); [cbn; by rewrite Hg1, decide_False|].
    rewrite Hxs in Hx by congruence. done. }
  assert (event_charge e = 0 ∨ (event_charge e = 1 ∧ tk_state (event_mark e tc) = LETTUCE_TASK_STATE_RUNNING ∧
    tk_vruntime (event_mark e tc) = tk_vruntime tc ∧ tick_cost (event_mark e tc) = tick_cost tc)) as [He|(He & Hmr & Hmv & Hmc)].
  { destruct e; [right|right|by left]; split_and!; try done; by destruct tc. }
  - destruct e as [| |now ticks tf]; try done. cbn [event_mark event_now event_preempts event_frame] in *.
    destruct (wake_sleepers_spec g_lettuce_sched_eevdf_ops now (ss_mem st1) Hok1) as (m' & Hm' & He').
    rewrite Hw in Hm'. injection Hm' as <-.
    assert (tk_state t1 ≠ LETTUCE_TASK_STATE_RUNNING) as Hnr.
    { destruct (proj2 He' c (event_mark (EvSleep now ticks tf) tc)) as (x & Hx & _ & Hn);
        [cbn; by rewrite Hg1, decide_True|].
      rewrite Ht1 in Hx. injection Hx as <-. destruct (Hn ltac:(done)) as [_ [->|[_ ->]]]; [by destruct tc|done]. }
    destruct (account_not_running _ _ _ _ _ _ _ Ha Ht1 Hnr) as [-> ->].
    rewrite He, Z.add_0_r. split; [exact Htm|]. split; [done|]. split; [by eapply all_go_trans|].
    exists t1. split_and!; [done|done|by intros].
  - rewrite Hsame in Ht1 by congruence.
    destruct (eevdf_account_running S H c _ b _ m1 m2 (event_mark e tc) Htm HH Ha Ht1 Hmr) as
      (Htm2 & Hrest & tc' & Htc' & Hg & Hch & Hb).
    rewrite He, Z.mul_1_r. split; [exact Htm2|]. split; [by rewrite Hrest by congruence|]. split.
    + eapply all_go_trans; [eapply all_go_trans; [exact Hgo1|exact Hgo2]|].
      intros i t Hi. destruct (decide (i = c)) as [->|Hi'].
      * rewrite Ht1 in Hi. injection Hi as <-. by exists tc'.
      * exists t. by rewrite Hrest.
    + exists tc'. split_and!; [done|by rewrite <- Hmv, <- Hmc|]. intros Hbt.
      destruct (Hb Hbt) as (_ & Hr' & Hsl & Hpos). split_and!; [done|done|].
      destruct e; cbn [event_mark] in *; [done| |done]. destruct tc; cbn in *. lia.
Qed.

(** A state in which EEVDF owes task [j] the processor: [D] is past the task's virtual
    runtime and past its deadline. *)
Record eevdf_owes (S H D j : Z) (st : scheduler_state P) : Prop := {
  eo_inv : sched_inv st;
  eo_policy : g_current_policy_type st = LETTUCE_SCHED_POLICY_EEVDF;
  eo_active : g_scheduler_active st = true;
  eo_limit : g_preempt_limit st ≤ 0;
  eo_current : ∃ c tc, current st = Some c ∧ c ≠ j ∧ arr_get (table st) c = Some tc ∧
    tk_state tc = LETTUCE_TASK_STATE_RUNNING;
  eo_ready : ∃ t, arr_get (table st) j = Some t ∧ ready_visible t ∧ tk_vruntime t < D ∧ pick_deadline t < D;
  eo_times : all_times S H (ss_mem st)
}.

Definition current_overrun (D : Z) (st : scheduler_state P) : Z :=
  match current st ≫= arr_get (table st) with Some t => overrun D t | None => 0 end.

(** The ticks that can pass before [j] runs: what every task has left before the target
    [D], and the rest of the slice of a current task past the target. *)
Definition eevdf_wait (S D : Z) (st : scheduler_state P) : Z :=
  sum_of (pass_time S D) (table st) + current_overrun D st.

Section step.
Context (S H D : Z) (HS : LETTUCE_EEVDF_DEFAULT_SLICE ≤ S) (HH : H + 65536 + 65536 * S < 2 ^ 64) (HD : D ≤ UINT64_MAX).

(** The sum over the table falls by what the current task's share falls. *)
Lemma wait_drop (st : scheduler_state P) (c d : Z) (tb : list LettuceTask) tc tc' :
  all_times S H (ss_mem st) → all_go (table st) tb → length tb = length (table st) →
  arr_get (table st) c = Some tc → arr_get tb c = Some tc' →
  (time_goes tc tc' → pass_time S D tc' + d ≤ pass_time S D tc) →
  sum_of (pass_time S D) tb + d ≤ sum_of (pass_time S D) (table st).
Proof using HS.
  intros [_ Ht] Hgo Hl Hc Hc' Hd. pose proof (arr_get_Some_range _ _ _ Hc) as Hr.
  apply (sum_of_drop _ (Z.to_nat c)); [done|lia|]. intros n t Hn.
  pose proof Hn as Hi. rewrite <- arr_get_nat in Hi. destruct (Hgo _ _ Hi) as (t' & Hi' & Hg).
  exists t'. split; [by rewrite <- arr_get_nat|].
  destruct (decide (n = Z.to_nat c)) as [->|Hnc].
  - rewrite Z2Nat.id in * by lia. simplify_eq. by apply Hd.
  - pose proof (pass_time_later S D HS H t t' (Ht _ _ Hi) Hg). lia.
Qed.

(** A charged current task lets the wait fall by one, whether or not it runs on. *)
Lemma charged_drop (st : scheduler_state P) (c : Z) (tb : list LettuceTask) (e : sched_event) tc tc' :
  all_times S H (ss_mem st) → all_go (table st) tb → length tb = length (table st) →
  arr_get (table st) c = Some tc → tk_state tc = LETTUCE_TASK_STATE_RUNNING → arr_get tb c = Some tc' →
  (event_charge e = 1 → tk_vruntime tc + tick_cost tc ≤ tk_vruntime tc') →
  sum_of (pass_time S D) tb + event_charge e ≤ sum_of (pass_time S D) (table st) + overrun D tc ∧
  (tk_vruntime tc < D → D ≤ tk_vruntime tc' → event_charge e = 1 →
     sum_of (pass_time S D) tb + S + 2 ≤ sum_of (pass_time S D) (table st)) ∧
  (sum_of (pass_time S D) tb ≤ sum_of (pass_time S D) (table st)).
Proof using HS.
  intros Htm Hgo Hl Hc Hr Hc' Hch. pose proof (proj2 Htm _ _ Hc) as Htc.
  assert (task_is_active tc = true) as Hact by (unfold task_is_active; by rewrite Hr).
  assert (∀ d, (time_goes tc tc' → pass_time S D tc' + d ≤ pass_time S D tc) →
    sum_of (pass_time S D) tb + d ≤ sum_of (pass_time S D) (table st)) as Hdrop by (intros d; by apply (wait_drop st c)).
  assert (sum_of (pass_time S D) tb + 0 ≤ sum_of (pass_time S D) (table st)) as H0.
  { apply Hdrop. intros Hg. pose proof (pass_time_later S D HS H tc tc' Htc Hg). lia. }
  assert (event_charge e = 1 → tk_vruntime tc < D →
    sum_of (pass_time S D) tb + (if D <=? tk_vruntime tc' then S + 2 else 1) ≤ sum_of (pass_time S D) (table st)) as H1.
  { intros He Hv. apply Hdrop. intros Hg. apply (pass_time_charged S D HS H); auto. }
  unfold LETTUCE_EEVDF_DEFAULT_SLICE in HS. destruct Htc as [_ _ Hsl _ _].
  assert (event_charge e = 0 ∨ event_charge e = 1) as He by (destruct e; auto). unfold overrun.
  destruct (Z.leb_spec D (tk_vruntime tc)), (Z.leb_spec D (tk_vruntime tc')); (split_and!; [|intros|]); lia.
Qed.

(** The processor goes to [n], which is not past the target. *)
Lemma eevdf_picked (e : sched_event) (j c n : Z) (st st' : scheduler_state P) (m2 m3 : sched_mem) f tc tc' tj tn tn' :
  all_times S H (ss_mem st) → all_times S (H + 65536 * event_charge e) m3 → current st = Some c → n ≠ j →
  arr_get (table st) c = Some tc → tk_state tc = LETTUCE_TASK_STATE_RUNNING →
  all_go (table st) (sm_tasks m2) → arr_get (sm_tasks m2) c = Some tc' →
  (event_charge e = 1 → tk_vruntime tc + tick_cost tc ≤ tk_vruntime tc') →
  arr_get (sm_tasks m2) j = Some tj → ready_visible tj → tk_vruntime tj < D → pick_deadline tj < D →
  arr_get (sm_tasks m2) n = Some tn → tk_state tn = LETTUCE_TASK_STATE_READY → tk_vruntime tn < D →
  (∀ i x, arr_get (sm_tasks m2) i = Some x → ∃ x', arr_get (sm_tasks m3) i = Some x' ∧
      task_core x' = task_core x ∧ tk_vruntime x' = tk_vruntime x ∧ (i ≠ n → x' = x ∨ x' = refresh_deadline x)) →
  current st' = Some n → ss_vars st' = sm_vars m3 → f = keep_running ∨ f = set_state LETTUCE_TASK_STATE_RUNNING →
  arr_get (sm_tasks m3) n = Some tn' → length (table st') = length (table st) →
  (∀ i, arr_get (table st') i = if decide (n = i) then Some (f tn') else arr_get (sm_tasks m3) i) →
  sched_inv st' → g_current_policy_type st' = LETTUCE_SCHED_POLICY_EEVDF → g_scheduler_active st' = true →
  g_preempt_limit st' ≤ 0 →
  eevdf_owes S (H + 65536 * event_charge e) D j st' ∧
  eevdf_wait S D st' + event_charge e ≤ eevdf_wait S D st.
Proof using HS.
  intros Htm Htm3 Hc Hnj Htc Hrun Hgo2 Htc' Hch Hj [Hrj Hvj] Hjv Hjd Hn Hrn Hvn Hm3 Hcur' Hvars' Hf Hn3 Hlen Hg' Hinv' Hpol' Hact' Hlim'.
  destruct (Hm3 n tn Hn) as (x & Hx & Hcore & Hvx & _). rewrite Hn3 in Hx. injection Hx as <-.
  pose proof (proj2 Htm3 _ _ Hn3) as Htn'. apply task_core_fields in Hcore as (Hsn & _ & _ & _ & _ & _ & _ & Hwn & _).
  assert (tk_state (f tn') = LETTUCE_TASK_STATE_RUNNING ∧ tk_vruntime (f tn') = tk_vruntime tn ∧
    times S (H + 65536 * event_charge e) (f tn') ∧ time_goes tn' (f tn')) as (Hrf & Hvf & Htf & Hgf).
  { unfold time_goes, task_is_active. rewrite Hsn, Hrn. destruct Htn'. destruct Hf as [-> | ->]; destruct tn'; cbn in *;
      (split_and!; [done|done|split; cbn; lia|done|done|lia]). }
  assert (all_go (sm_tasks m2) (table st')) as Hgo'.
  { intros i y Hy. destruct (Hm3 i y Hy) as (y' & Hy' & Hcy & Hvy & _).
    apply task_core_fields in Hcy as (Hsy & _ & _ & _ & _ & _ & _ & Hwy & _).
    assert (time_goes y y') as Hgy by (unfold time_goes, task_is_active; rewrite Hsy; split_and!; [done|done|lia]).
    rewrite Hg'. case_decide as Hi; [|by exists y']. subst i. rewrite Hn3 in Hy'. injection Hy' as <-.
    eexists. split; [done|]. by etrans. }
  split.
  - split; try done.
    + exists n, (f tn'). split_and!; [done|done|by rewrite Hg', decide_True|done].
    + destruct (Hm3 j tj Hj) as (y & Hy & Hcy & Hvy & Hor). exists y. rewrite Hg', decide_False by done.
      apply task_core_fields in Hcy as (Hsy & Hgy & _). split; [done|]. split.
      * unfold ready_visible, task_visible in *. by rewrite Hsy, Hgy.
      * rewrite Hvy. split; [done|]. destruct (Hor ltac:(done)) as [-> | ->]; [done|].
        unfold pick_deadline in *. by rewrite refresh_idemp.
    + split; [cbn; rewrite Hvars'; apply Htm3|]. cbn. intros i y. rewrite Hg'.
      case_decide; [by intros [= <-]|apply Htm3].
  - assert (∃ tc'', arr_get (table st') c = Some tc'' ∧ (event_charge e = 1 → tk_vruntime tc + tick_cost tc ≤ tk_vruntime tc''))
      as (tc'' & Htc'' & Hch'').
    { destruct (Hgo' c tc' Htc') as (y & Hy & _ & _ & Hvy). exists y. split; [done|]. intros He. specialize (Hch He). lia. }
    destruct (charged_drop st c (table st') e tc tc'' Htm ltac:(by eapply all_go_trans) Hlen Htc Hrun Htc'' Hch'')
      as (Hdrop & _ & _).
    unfold eevdf_wait, current_overrun. rewrite Hc, Hcur'. cbn [mbind option_bind]. rewrite Htc, Hg', decide_True by done.
    unfold overrun at 1. rewrite Hvf, (proj2 (Z.leb_gt _ _)) by done. lia.
Qed.

(** One event: [j] runs, or the wait is shorter by what the event charges. *)
Lemma eevdf_step (e : sched_event) (j : Z) (st : scheduler_state P) :
  eevdf_owes S H D j st → frame_ok (event_frame e) →
  ∃ tf' st', event_exec arch_enter e st = Some (tf', st') ∧
    (current st' = Some j ∨
     (eevdf_owes S (H + 65536 * event_charge e) D j st' ∧
      eevdf_wait S D st' + event_charge e ≤ eevdf_wait S D st)).
Proof using HS HH HD.
  intros [Hinv Hpol Hact Hlim (c & tc & Hc & Hcj & Htc & Hrun) (tj & Hj & Hr & Hv & Hd) Htm] Htf.
  destruct (event_step arch_enter e st Hinv Htf) as (tf' & st' & Hx & Hinv' & Hev & _).
  exists (Some tf'), st'. split; [done|]. destruct (decide (current st' = Some j)) as [|Hnj]; [by left|right].
  assert (0 ≤ S) as HS0 by (unfold LETTUCE_EEVDF_DEFAULT_SLICE in HS; lia).
  destruct (event_marked e st c Hinv Hc) as (t0 & st1 & Ht0 & Hinv1 & Hc1 & Hv1 & Hp1 & Ha1 & Hl1 & Hg1 & He).
  rewrite Htc in Ht0. injection Ht0 as <-. rewrite Hx in He. symmetry in He.
  destruct (do_schedule _ _ _ _ st1) as [[[hit tf1] st1']|] eqn:Hdo; cbn in He; [|done]. injection He as -> ->.
  apply do_schedule_inv in Hdo as (Hl' & Hp' & Ha' & m1 & b & m2 & Hw & Hacc & Hb); [|congruence].
  rewrite Hp1, Hpol in Hw, Hacc, Hb. rewrite Hc1 in Hacc, Hb. cbn [policy_ops_of] in *.
  pose proof (ss_mem_ok _ Hinv1) as Hok1.
  destruct (eevdf_before_pick S H j c e st st1 m1 m2 b tc tj Htm ltac:(lia) Hcj Htc Hrun Hj (proj1 Hr) Hv1 Hok1 Hg1 Hw Hacc)
    as (Htm2 & Hj2 & Hgo2 & tc' & Htc' & Hch & Hleft).
  assert (g_current_policy_type st' = LETTUCE_SCHED_POLICY_EEVDF ∧ g_scheduler_active st' = true ∧
    g_preempt_limit st' ≤ 0) as (Hpol' & Hact' & Hlim') by (split_and!; [congruence|apply Ha'; lia|lia]).
  assert (length (table st') = length (table st)) as Hlen.
  { pose proof (so_len _ (ss_mem_ok _ Hinv')). pose proof (so_len _ (ss_mem_ok _ Hinv)). cbn in *. lia. }
  destruct b.
  - destruct (Hleft eq_refl) as (Hone & Hrun' & Hsl). subst st'. cbn in Hlen. split.
    + split; try done; [by exists c, tc'|by exists tj].
    + destruct (charged_drop st c (sm_tasks m2) e tc tc' Htm Hgo2 Hlen Htc Hrun Htc' Hch) as (H1 & H2 & H3).
      rewrite Hone in *. unfold eevdf_wait, current_overrun. cbn. rewrite Hc, Hc1. cbn. rewrite Htc, Htc'.
      specialize (Hch eq_refl). pose proof (proj2 Htm2 _ _ Htc') as [_ _ Hsl' _ _].
      pose proof (tick_cost_range _ _ _ (proj2 Htm _ _ Htc)). revert H1. unfold overrun.
      destruct (Z.leb_spec D (tk_vruntime tc)), (Z.leb_spec D (tk_vruntime tc')); lia.
  - destruct Hb as (p & m3 & Hp & Hn).
    assert (0 ≤ event_charge e ≤ 1) as Hce by (destruct e; cbn; lia).
    destruct (before_pick arch_enter (event_now e) (event_preempts e) (event_frame e) st1 Hinv1 Htf)
      as (m1' & b' & m2' & Hw' & Hacc' & _ & Hok2 & _).
    rewrite Hp1, Hpol in Hw', Hacc'. rewrite Hc1 in Hacc'. cbn [policy_ops_of] in *.
    rewrite Hw in Hw'. injection Hw' as <-. rewrite Hacc in Hacc'. injection Hacc' as <- <-.
    destruct (eevdf_pick_waits S (H + 65536 * event_charge e) j D c m2 tj Hok2 Htm2 HS) as
      (n & m3' & Hp3 & Htm3 & (tn & Htn & Hrn & Hor) & Hm3); [lia|by apply (ti_current _ (si_tasks _ Hinv))|done..|].
    cbn [op_pick_next g_lettuce_sched_eevdf_ops] in Hp. rewrite Hp3 in Hp. injection Hp as <- <-.
    destruct (Hn n eq_refl) as (Hcur' & Hvars' & f & tn' & Hf & Hn3 & _ & Hg').
    assert (n ≠ j) as Hnj' by congruence. destruct Hor as [|Hvn]; [done|].
    by apply (eevdf_picked e j c n st st' m2 m3' f tc tc' tj tn tn').
Qed.

End step.

(** Enough charged events let [j] run. *)
Lemma eevdf_served (S D j : Z) (es : list sched_event) (H : Z) (st : scheduler_state P) :
  LETTUCE_EEVDF_DEFAULT_SLICE ≤ S → D ≤ UINT64_MAX → eevdf_owes S H D j st →
  H + 65536 * (eevdf_wait S D st + S + 1) < 2 ^ 64 →
  Forall (λ e, frame_ok (event_frame e)) es →
  eevdf_wait S D st < foldr (λ e n, event_charge e + n) 0 es →
  ∃ es1 es2 st', es = es1 ++ es2 ∧ es1 ≠ [] ∧ sched_run arch_enter (inl <$> es1) st = Some st' ∧
    current st' = Some j.
Proof.
  intros HS HD Howes HH Hes. revert H st Howes HH.
  assert (∀ st H, eevdf_owes S H D j st → 0 ≤ eevdf_wait S D st) as Hpos.
  { intros st H [_ _ _ _ (c & tc & Hc & _ & Htc & _) _ [_ Ht]].
    unfold eevdf_wait, current_overrun. rewrite Hc. cbn. rewrite Htc.
    pose proof (Ht _ _ Htc) as [_ _ ? _ _].
    assert (0 ≤ overrun D tc) by (unfold overrun; case_match; lia).
    enough (∀ tb, (∀ n t, tb !! n = Some t → 0 ≤ pass_time S D t) → 0 ≤ sum_of (pass_time S D) tb) as Hsum.
    { assert (0 ≤ sum_of (pass_time S D) (table st)); [|lia]. apply Hsum. intros n t Hn.
      rewrite <- arr_get_nat in Hn. by eapply (pass_time_later S D HS H t t), (reflexivity (R := time_goes)); apply (Ht _ _ Hn). }
    induction tb as [|t tb IH]; intros Hn; unfold sum_of; cbn; [lia|]. pose proof (Hn 0%nat t eq_refl).
    assert (0 ≤ sum_of (pass_time S D) tb) by (apply IH; intros n; apply (Hn (Datatypes.S n))). unfold sum_of in *. lia. }
  induction Hes as [|e es Htf _ IH]; intros H st Howes HH Hlen.
  { specialize (Hpos st H Howes). cbn in Hlen. lia. }
  pose proof (Hpos st H Howes) as Hw. unfold LETTUCE_EEVDF_DEFAULT_SLICE in HS.
  destruct (eevdf_step S H D HS ltac:(lia) HD e j st Howes Htf) as (tf' & st1 & Hx & [Hj|[Howes1 Hle]]).
  - exists [e], es, st1. split_and!; [done..| |done]. cbn. by rewrite Hx.
  - cbn in Hlen. destruct (IH _ st1 Howes1) as (es1 & es2 & st' & -> & _ & Hrun & Hj); [lia|lia|].
    exists (e :: es1), es2, st'. split_and!; [done..| |done]. cbn. by rewrite Hx.
Qed.

(** ** The claim *)

(** The target of a waiting task: past its virtual runtime and the deadline the picks
    compare. *)
Definition eevdf_target (t : LettuceTask) : Z := Z.max (tk_vruntime t) (pick_deadline t) + 1.

Definition charged (es : list sched_event) : Z := foldr (λ e n, event_charge e + n) 0 es.

(** C27: EEVDF starves no task it can see.  With no preemption limit set, a ready task in
    a slot of generation at most 10 (the scans try no others) is given the processor after at most [eevdf_wait] ticks and yields, whatever mix of
    ticks, yields, sleeps and wake-ups of the other tasks makes up the events: for each
    task behind the waiting task's deadline the ticks that take it there plus one slice,
    and the rest of the running slice.  [S] bounds the slices and [H] the virtual times,
    so that no 64-bit virtual time wraps meanwhile. *)
Theorem eevdf_serves_every_ready_task (st : scheduler_state P) (j c S H : Z) tj tc (es : list sched_event) :
  sched_inv st → g_current_policy_type st = LETTUCE_SCHED_POLICY_EEVDF → g_scheduler_active st = true →
  g_preempt_limit st = 0 →
  current st = Some c → c ≠ j → arr_get (table st) c = Some tc → tk_state tc = LETTUCE_TASK_STATE_RUNNING →
  arr_get (table st) j = Some tj → ready_visible tj → eevdf_target tj ≤ UINT64_MAX →
  all_times S H (ss_mem st) → LETTUCE_EEVDF_DEFAULT_SLICE ≤ S →
  H + 65536 * (eevdf_wait S (eevdf_target tj) st + S + 1) < 2 ^ 64 →
  Forall (λ e, frame_ok (event_frame e)) es → eevdf_wait S (eevdf_target tj) st < charged es →
  ∃ es1 es2 st', es = es1 ++ es2 ∧ es1 ≠ [] ∧ sched_run arch_enter (inl <$> es1) st = Some st' ∧
    lettuce_task_current (ss_tasks st') = Some j.
Proof.
  intros Hinv Hpol Hact Hlim Hc Hcj Htc Hrun Hj Hr HD Htm HS HH Hes Hlen.
  apply (eevdf_served S (eevdf_target tj) j es H); try done.
  split; try done; [lia|by exists c, tc|exists tj]. unfold eevdf_target. split_and!; [done|done|lia|lia].
Qed.

End events.

(** ** A small system *)

(** The two tasks of [SchedulerSpec.demo] under EEVDF; the first tick dispatches task 0. *)
Definition eevdf_demo_system : scheduler_state (list Z) :=
  run_or_off (inr (CtlPolicy LETTUCE_SCHED_POLICY_EEVDF) :: demo_events) sched_off.

(** A busy mix of events. *)
Definition eevdf_demo_load : list sched_event :=
  concat (replicate 16 [EvTick 2 (frame_of 1); EvSleep 2 0 (frame_of 2); EvYield 2 (frame_of 3)]).

Definition times_b (S H : Z) (t : LettuceTask) : bool :=
  (0 <=? tk_weight t) && (tk_weight t <=? 10240) && (0 <=? tk_vruntime t) && (tk_vruntime t <=? H) &&
  (0 <=? tk_time_slice_ticks t) && (tk_time_slice_ticks t <=? S) && (0 <=? tk_quantum_ticks t) &&
  (tk_quantum_ticks t <=? S) && (0 <=? tk_requested_slice_ticks t) && (tk_requested_slice_ticks t <=? S).

Lemma all_times_dec (S H : Z) (m : sched_mem) :
  0 ≤ g_eevdf_vsys (sm_vars m) ≤ H → forallb (times_b S H) (sm_tasks m) = true → all_times S H m.
Proof.
  intros Hv Hall. split; [done|]. intros i t Ht. apply (arr_forall _ _ _ _ Hall) in Ht.
  unfold times_b in Ht. b2p. split; lia.
Qed.

Lemma eevdf_serves_every_ready_task_witness :
  ∃ es1 es2 st', eevdf_demo_load = es1 ++ es2 ∧
    sched_run cons (inl <$> es1) eevdf_demo_system = Some st' ∧ lettuce_task_current (ss_tasks st') = Some 1.
Proof.
  destruct (arr_get_is_Some (g_task_table (ss_tasks eevdf_demo_system)) 1) as [tj Hj];
    [vm_compute; split; [discriminate|reflexivity]|].
  destruct (arr_get_is_Some (g_task_table (ss_tasks eevdf_demo_system)) 0) as [tc Hc];
    [vm_compute; split; [discriminate|reflexivity]|].
  assert (Hj0 := Hj). vm_compute in Hj0. injection Hj0 as Hj0.
  assert (Hc0 := Hc). vm_compute in Hc0. injection Hc0 as Hc0.
  destruct (eevdf_serves_every_ready_task cons eevdf_demo_system 1 0 5 65536 tj tc eevdf_demo_load)
    as (es1 & es2 & st' & He & _ & Hr & Hcur).
  - apply run_or_off_inv; [apply sched_off_inv|]. repeat constructor.
  - reflexivity.
  - reflexivity.
  - reflexivity.
  - reflexivity.
  - discriminate.
  - exact Hc.
  - rewrite <- Hc0. reflexivity.
  - exact Hj.
  - rewrite <- Hj0. split; reflexivity.
  - rewrite <- Hj0. vm_compute. discriminate.
  - apply all_times_dec; [|vm_compute; reflexivity]. vm_compute. split; discriminate.
  - discriminate.
  - rewrite <- Hj0. vm_compute. reflexivity.
  - vm_compute. repeat constructor.
  - rewrite <- Hj0. vm_compute. reflexivity.
  - exists es1, es2, st'. split; [exact He|]. split; [exact Hr|exact Hcur].
Defined.
