(* ===== verification/EevdfFair.v ===== *)
(** * EEVDF's shares of the processor

    Slices in proportion to weights are worth one virtual time [D].  EEVDF then goes in
    rounds: in each round every ready task runs for its slice once, in some order, so
    that at all times the ticks of a task are within one of its slices of the share its
    weight entitles it to.

    With other slices the shares are not those of the weights: a task at the end of its
    slice loses the time it is still owed ([eevdf_share_depends_on_the_slice]). *)

From S2P Require Import Prelude Types Generation Task Policy RoundRobin Eevdf Scheduler SchedulerSpec EevdfSpec.

(** ** Sums over the table *)

#[local] Arguments sum_of : simpl never.

Lemma sum_of_cons (f : LettuceTask → Z) (t : LettuceTask) (tb : list LettuceTask) :
  sum_of f (t :: tb) = f t + sum_of f tb.
Proof. done. Qed.

Lemma arr_get_tail (t x : LettuceTask) (tb : list LettuceTask) (i : Z) :
  arr_get tb i = Some x → arr_get (t :: tb) (i + 1) = Some x.
Proof.
  intros Hx. pose proof (arr_get_Some_range _ _ _ Hx). rewrite arr_get_lookup in * by (cbn; lia).
  by replace (Z.to_nat (i + 1)) with (S (Z.to_nat i)) by lia.
Qed.

Lemma sum_of_pointwise (f g : LettuceTask → Z) (tb tb' : list LettuceTask) :
  length tb' = length tb → (∀ i t t', arr_get tb i = Some t → arr_get tb' i = Some t' → f t ≤ g t') →
  sum_of f tb ≤ sum_of g tb'.
Proof.
  revert tb'. induction tb as [|t tb IH]; intros [|t' tb'] Hl H; cbn in Hl; try lia; [done|].
  rewrite !sum_of_cons. pose proof (H 0 t t' eq_refl eq_refl).
  enough (sum_of f tb ≤ sum_of g tb') by lia. apply IH; [lia|]. eauto using arr_get_tail.
Qed.

(** Sums that differ by [d] at slot [c]. *)
Lemma sum_of_gap (f g : LettuceTask → Z) (c d : Z) (tb tb' : list LettuceTask) :
  length tb' = length tb → 0 ≤ c < Z.of_nat (length tb) →
  (∀ i t t', arr_get tb i = Some t → arr_get tb' i = Some t' → f t + (if decide (i = c) then d else 0) ≤ g t') →
  sum_of f tb + d ≤ sum_of g tb'.
Proof.
  revert c tb'. induction tb as [|t tb IH]; intros c [|t' tb'] Hl Hc H; cbn in Hl, Hc; try lia.
  rewrite !sum_of_cons. pose proof (H 0 t t' eq_refl eq_refl) as H0.
  destruct (decide (c = 0)) as [->|Hc0].
  - rewrite decide_True in H0 by done. enough (sum_of f tb ≤ sum_of g tb') by lia. apply sum_of_pointwise; [lia|].
    intros i x x' Hx Hx'. pose proof (arr_get_Some_range _ _ _ Hx).
    specialize (H (i + 1) x x' (arr_get_tail _ _ _ _ Hx) (arr_get_tail _ _ _ _ Hx')). rewrite decide_False in H by lia. lia.
  - rewrite decide_False in H0 by lia. enough (sum_of f tb + d ≤ sum_of g tb') by lia.
    apply (IH (c - 1)); [lia|lia|]. intros i x x' Hx Hx'.
    specialize (H (i + 1) x x' (arr_get_tail _ _ _ _ Hx) (arr_get_tail _ _ _ _ Hx')). repeat case_decide; lia.
Qed.

Lemma sum_of_at (f g : LettuceTask → Z) (c d : Z) (tb tb' : list LettuceTask) :
  length tb' = length tb → 0 ≤ c < Z.of_nat (length tb) →
  (∀ i t t', arr_get tb i = Some t → arr_get tb' i = Some t' → g t' = f t + (if decide (i = c) then d else 0)) →
  sum_of g tb' = sum_of f tb + d.
Proof.
  intros Hl Hc H. apply Z.le_antisymm.
  - enough (sum_of g tb' + - d ≤ sum_of f tb) by lia. apply (sum_of_gap _ _ c); [lia|lia|].
    intros i t' t Ht' Ht. rewrite (H i t t' Ht Ht'). case_decide; lia.
  - apply (sum_of_gap _ _ c); [lia|lia|]. intros i t t' Ht Ht'. rewrite (H i t t' Ht Ht'). lia.
Qed.

Lemma sum_of_same (f g : LettuceTask → Z) (tb tb' : list LettuceTask) :
  length tb' = length tb → (∀ i t t', arr_get tb i = Some t → arr_get tb' i = Some t' → g t' = f t) →
  sum_of g tb' = sum_of f tb.
Proof.
  intros Hl H. apply Z.le_antisymm; apply sum_of_pointwise; try lia; intros i t t' Ht Ht'.
  - by rewrite (H i t' t Ht' Ht).
  - by rewrite (H i t t' Ht Ht').
Qed.

Lemma sum_of_scale (f : LettuceTask → Z) (a : Z) (tb : list LettuceTask) : sum_of (λ t, a * f t) tb = a * sum_of f tb.
Proof. induction tb as [|t tb IH]; [unfold sum_of; cbn; lia|]. rewrite !sum_of_cons, IH. lia. Qed.

Lemma active_weight_sum (tb : list LettuceTask) : active_weight tb = sum_of active_weight_of tb.
Proof. induction tb as [|t tb IH]; [done|]. rewrite sum_of_cons, <- IH. done. Qed.

(** ** Rounds *)

(** The tasks [active_weight] counts. *)
Definition competes (t : LettuceTask) : bool :=
  task_visible t && (state_is (tk_state t) LETTUCE_TASK_STATE_READY || state_is (tk_state t) LETTUCE_TASK_STATE_RUNNING).

(** The ticks a task has had. *)
Definition served (t : LettuceTask) : Z := if competes t then tk_total_ticks_run t else 0.
Definition slice_of (t : LettuceTask) : Z := if competes t then tk_requested_slice_ticks t else 0.

(** Virtual time past [base], weighted. *)
Definition ahead (base : Z) (t : LettuceTask) : Z := active_weight_of t * (tk_vruntime t - base).

Lemma competes_ready (t : LettuceTask) : ready_visible t → competes t = true.
Proof. intros [Hs Hv]. unfold competes. by rewrite Hv, Hs, state_is_refl. Qed.

Lemma competes_running (t : LettuceTask) : tk_state t = LETTUCE_TASK_STATE_RUNNING → task_visible t = true → competes t = true.
Proof. intros Hs Hv. unfold competes. by rewrite Hv, Hs, state_is_refl, orb_true_r. Qed.

Section rounds.
Context (D : Z).

(** A task whose slice is worth the virtual time [D]; its weight divides 65536. *)
Record quota (t : LettuceTask) : Prop := {
  qu_cost : tk_weight t * tick_cost t = 65536;
  qu_slice : 1 ≤ tk_requested_slice_ticks t ∧ tk_requested_slice_ticks t * tick_cost t = D;
  qu_quantum : tk_quantum_ticks t = tk_requested_slice_ticks t;
  qu_paid : tk_vruntime t = tick_cost t * tk_total_ticks_run t
}.

(** A task of a table in which nobody sleeps. *)
Record entrant (t : LettuceTask) : Prop := {
  en_weight : 1 ≤ tk_weight t ≤ 10240;
  en_awake : tk_state t ≠ LETTUCE_TASK_STATE_SLEEPING;
  en_visible : task_is_active t = true → tk_state t = LETTUCE_TASK_STATE_BLOCKED ∨ task_visible t = true;
  en_quota : competes t = true → quota t
}.

(** A ready task in round [k]: before or after its slice. *)
Definition in_round (k : Z) (t : LettuceTask) : Prop :=
  tk_state t = LETTUCE_TASK_STATE_READY → tk_vruntime t = k * D ∨ tk_vruntime t = (k + 1) * D.

(** [N] ticks have been charged, the system's virtual time is not past the average of
    the round. *)
Record on_course (k N : Z) (m : sched_mem) : Prop := {
  oc_ok : sm_ok m;
  oc_round : 0 ≤ k;
  oc_entrant : ∀ i t, arr_get (sm_tasks m) i = Some t → entrant t;
  oc_served : sum_of served (sm_tasks m) = N;
  oc_vsys : k * D ≤ g_eevdf_vsys (sm_vars m);
  oc_lag : active_weight (sm_tasks m) * (g_eevdf_vsys (sm_vars m) - k * D) ≤ sum_of (ahead (k * D)) (sm_tasks m)
}.

(** Between two slices. *)
Record between (k N : Z) (m : sched_mem) : Prop := {
  bw_course : on_course k N m;
  bw_all : ∀ i t, arr_get (sm_tasks m) i = Some t → tk_state t ≠ LETTUCE_TASK_STATE_RUNNING ∧ in_round k t;
  bw_some : ∃ i t, arr_get (sm_tasks m) i = Some t ∧ ready_visible t
}.

(** [c] runs, with [r] ticks left. *)
Record within (k N c r : Z) (m : sched_mem) : Prop := {
  wi_course : on_course k N m;
  wi_others : ∀ i t, arr_get (sm_tasks m) i = Some t → i ≠ c → tk_state t ≠ LETTUCE_TASK_STATE_RUNNING ∧ in_round k t;
  wi_current : ∃ t, arr_get (sm_tasks m) c = Some t ∧ tk_state t = LETTUCE_TASK_STATE_RUNNING ∧ task_visible t = true ∧
    1 ≤ r ≤ tk_requested_slice_ticks t ∧ tk_time_slice_ticks t = r ∧ tk_vruntime t + r * tick_cost t = (k + 1) * D
}.

Lemma entrant_visible (t : LettuceTask) : entrant t → tk_state t = LETTUCE_TASK_STATE_READY → ready_visible t.
Proof.
  intros [_ _ Hv _] Hr. split; [done|]. destruct Hv as [Hb|]; [unfold task_is_active; by rewrite Hr|congruence|done].
Qed.

Lemma quota_pos (t : LettuceTask) : 1 ≤ tk_weight t → quota t → 1 ≤ tick_cost t ∧ 1 ≤ D.
Proof. intros Hw [Hc [Hs Hd] _ _]. assert (1 ≤ tick_cost t) by nia. split; [done|nia]. Qed.

Lemma weight_competes (t : LettuceTask) : entrant t → active_weight_of t = if competes t then tk_weight t else 0.
Proof.
  intros [Hw _ _ _]. unfold active_weight_of, competes, effective_weight. destruct (_ && _); [|done].
  by rewrite (proj2 (Z.ltb_lt _ _)) by lia.
Qed.

Lemma on_course_weights (k N : Z) (m : sched_mem) : on_course k N m → weights_bounded (sm_tasks m).
Proof. intros Hoc i t Ht. by apply (oc_entrant _ _ _ Hoc) in Ht as []. Qed.

(** Somebody has not run yet: the system is not at the end of the round. *)
Lemma course_before_end (k N i : Z) (m : sched_mem) (t : LettuceTask) :
  on_course k N m → (∀ i t, arr_get (sm_tasks m) i = Some t → competes t = true → tk_vruntime t ≤ (k + 1) * D) →
  arr_get (sm_tasks m) i = Some t → competes t = true → tk_vruntime t < (k + 1) * D →
  g_eevdf_vsys (sm_vars m) < (k + 1) * D.
Proof.
  intros Hoc Hall Ht Hct Hlt. pose proof Hoc as [Hok Hk Hen HN Hvs Hlag].
  pose proof (arr_get_Some_range _ _ _ Ht) as Hr.
  assert (sum_of (ahead (k * D)) (sm_tasks m) + 1 ≤ D * active_weight (sm_tasks m)) as Hsum.
  { rewrite active_weight_sum, <- sum_of_scale. apply (sum_of_gap _ _ i); [done|done|].
    intros j x x' Hx Hx'. rewrite Hx in Hx'. injection Hx' as <-. unfold ahead.
    pose proof (Hen _ _ Hx) as Hex. pose proof (en_weight _ Hex). rewrite (weight_competes _ Hex).
    pose proof (Hall _ _ Hx). case_decide as Hj.
    - subst j. rewrite Ht in Hx. injection Hx as <-. rewrite Hct. nia.
    - destruct (competes x); [specialize (H0 eq_refl); nia|lia]. }
  pose proof (active_weight_member _ _ _ (on_course_weights _ _ _ Hoc) Ht) as Hmem.
  rewrite (weight_competes _ (Hen _ _ Ht)), Hct in Hmem. pose proof (en_weight _ (Hen _ _ Ht)).
  assert (g_eevdf_vsys (sm_vars m) - k * D < D); [|lia]. nia.
Qed.

(** Nobody is past the round, so neither is the system. *)
Lemma course_to_end (k N i : Z) (m : sched_mem) (t : LettuceTask) :
  on_course k N m → (∀ i t, arr_get (sm_tasks m) i = Some t → competes t = true → tk_vruntime t ≤ (k + 1) * D) →
  arr_get (sm_tasks m) i = Some t → competes t = true → g_eevdf_vsys (sm_vars m) ≤ (k + 1) * D.
Proof.
  intros Hoc Hall Ht Hct. pose proof Hoc as [Hok Hk Hen HN Hvs Hlag].
  assert (sum_of (ahead (k * D)) (sm_tasks m) ≤ D * active_weight (sm_tasks m)) as Hsum.
  { rewrite active_weight_sum, <- sum_of_scale. apply sum_of_pointwise; [done|].
    intros j x x' Hx Hx'. rewrite Hx in Hx'. injection Hx' as <-. unfold ahead.
    pose proof (Hen _ _ Hx) as Hex. pose proof (en_weight _ Hex). rewrite (weight_competes _ Hex).
    pose proof (Hall _ _ Hx). destruct (competes x); [specialize (H0 eq_refl); nia|lia]. }
  pose proof (active_weight_member _ _ _ (on_course_weights _ _ _ Hoc) Ht) as Hmem.
  rewrite (weight_competes _ (Hen _ _ Ht)), Hct in Hmem. pose proof (en_weight _ (Hen _ _ Ht)).
  assert (g_eevdf_vsys (sm_vars m) - k * D ≤ D); [|lia]. nia.
Qed.

(** ** Tables that differ in what the shares do not depend on *)

Record alike (t t' : LettuceTask) : Prop := {
  al_competes : competes t' = competes t;
  al_visible : task_visible t' = task_visible t;
  al_active : task_is_active t' = task_is_active t;
  al_awake : tk_state t' = LETTUCE_TASK_STATE_SLEEPING → tk_state t = LETTUCE_TASK_STATE_SLEEPING;
  al_blocked : tk_state t = LETTUCE_TASK_STATE_BLOCKED → tk_state t' = LETTUCE_TASK_STATE_BLOCKED;
  al_weight : tk_weight t' = tk_weight t;
  al_requested : tk_requested_slice_ticks t' = tk_requested_slice_ticks t;
  al_quantum : tk_quantum_ticks t' = tk_quantum_ticks t;
  al_vruntime : tk_vruntime t' = tk_vruntime t;
  al_total : tk_total_ticks_run t' = tk_total_ticks_run t
}.

Definition alike_tables (m m' : sched_mem) : Prop :=
  length (sm_tasks m') = length (sm_tasks m) ∧
  ∀ i t t', arr_get (sm_tasks m) i = Some t → arr_get (sm_tasks m') i = Some t' → alike t t'.

Lemma alike_refl (t : LettuceTask) : alike t t.
Proof. by split. Qed.

Lemma alike_entrant (t t' : LettuceTask) : alike t t' → entrant t → entrant t'.
Proof.
  intros [Hc Hv Ha Hs Hb Hw Hr Hq Hvr Ht] [Ew Es Ev Eq]. split.
  - by rewrite Hw.
  - auto.
  - rewrite Ha, Hv. intros Hact. destruct (Ev Hact); auto.
  - rewrite Hc. intros Hct. destruct (Eq Hct). unfold tick_cost in *. split; unfold tick_cost; rewrite ?Hw, ?Hr, ?Hq, ?Hvr, ?Ht; done.
Qed.

Lemma alike_active (t t' : LettuceTask) : alike t t' → active_weight_of t' = active_weight_of t.
Proof. intros [Hc _ _ _ _ Hw _ _ _ _]. unfold active_weight_of, competes in *. by rewrite Hc, Hw. Qed.

Lemma alike_sums (m m' : sched_mem) (base : Z) :
  alike_tables m m' → sum_of served (sm_tasks m') = sum_of served (sm_tasks m) ∧
    sum_of (ahead base) (sm_tasks m') = sum_of (ahead base) (sm_tasks m) ∧
    active_weight (sm_tasks m') = active_weight (sm_tasks m).
Proof.
  intros [Hl Ha]. rewrite !active_weight_sum. split_and!; apply sum_of_same; try done; intros i t t' Ht Ht';
    pose proof (Ha i t t' Ht Ht') as Hal; unfold served, ahead;
    by rewrite ?(alike_active t t' Hal), ?(al_competes t t' Hal), ?(al_total t t' Hal), ?(al_vruntime t t' Hal).
Qed.

Lemma alike_entrants (m m' : sched_mem) :
  alike_tables m m' → (∀ i t, arr_get (sm_tasks m) i = Some t → entrant t) →
  ∀ i t, arr_get (sm_tasks m') i = Some t → entrant t.
Proof.
  intros [Hl Hal] Hen i t' Ht'. destruct (arr_get_is_Some (sm_tasks m) i) as [t Ht].
  { rewrite <- Hl. by eapply arr_get_Some_range. }
  eapply alike_entrant; [by apply (Hal i t t')|by eapply Hen].
Qed.

(** The same tasks compete, with the same weights. *)
Definition same_entry (m m' : sched_mem) : Prop :=
  length (sm_tasks m') = length (sm_tasks m) ∧
  ∀ i t, arr_get (sm_tasks m) i = Some t →
    ∃ t', arr_get (sm_tasks m') i = Some t' ∧ competes t' = competes t ∧ tk_weight t' = tk_weight t.

#[local] Instance same_entry_preorder : PreOrder same_entry.
Proof.
  split.
  - intros m. split; [done|]. intros i t Ht. by exists t.
  - intros m1 m2 m3 [Hl1 H1] [Hl2 H2]. split; [congruence|]. intros i t Ht. destruct (H1 i t Ht) as (t' & Ht' & Hc & Hw).
    destruct (H2 i t' Ht') as (t'' & ? & ? & ?). exists t''. split_and!; congruence.
Qed.

Lemma alike_same_entry (m m' : sched_mem) : alike_tables m m' → same_entry m m'.
Proof.
  intros [Hl Hal]. split; [done|]. intros i t Ht. destruct (arr_get_is_Some (sm_tasks m') i) as [t' Ht'].
  { rewrite Hl. by eapply arr_get_Some_range. }
  exists t'. destruct (Hal i t t' Ht Ht'). done.
Qed.

(** The course does not depend on anything else. *)
Lemma alike_course (k N : Z) (m m' : sched_mem) :
  on_course k N m → sm_ok m' → alike_tables m m' → g_eevdf_vsys (sm_vars m') = g_eevdf_vsys (sm_vars m) → on_course k N m'.
Proof.
  intros [Hok Hk Hen HN Hvs Hlag] Hok' Hal Hv. destruct (alike_sums m m' (k * D) Hal) as (H1 & H2 & H3).
  split; [done|done|by eapply alike_entrants|by rewrite H1|by rewrite Hv|by rewrite H2, H3, Hv].
Qed.

(** The system's virtual time goes to the start of round [k'], where no task is behind. *)
Lemma course_restart (k k' N : Z) (m m' : sched_mem) :
  on_course k N m → sm_ok m' → alike_tables m m' → 0 ≤ k' →
  (∀ i t, arr_get (sm_tasks m) i = Some t → competes t = true → k' * D ≤ tk_vruntime t) →
  g_eevdf_vsys (sm_vars m') = k' * D → on_course k' N m'.
Proof.
  intros [Hok Hk Hen HN Hvs Hlag] Hok' Hal Hk' Hall Hv. destruct (alike_sums m m' (k' * D) Hal) as (H1 & H2 & H3).
  split; [done|done|by eapply alike_entrants|by rewrite H1|lia|]. rewrite H2, H3, Hv.
  enough (0 * sum_of active_weight_of (sm_tasks m) ≤ sum_of (ahead (k' * D)) (sm_tasks m)) by lia.
  rewrite <- sum_of_scale. apply sum_of_pointwise; [done|]. intros i t t' Ht Ht'. rewrite Ht in Ht'. injection Ht' as <-.
  unfold ahead. rewrite (weight_competes _ (Hen _ _ Ht)). pose proof (en_weight _ (Hen _ _ Ht)).
  destruct (competes t) eqn:Hc; [|lia]. specialize (Hall _ _ Ht Hc). nia.
Qed.

(** ** The pick *)

Lemma grant_alike (t : LettuceTask) : alike t (eevdf_grant t).
Proof. by destruct t. Qed.

Lemma refresh_alike (t : LettuceTask) : alike t (refresh_deadline t).
Proof. unfold refresh_deadline. case_match; by destruct t. Qed.

Lemma pick_alike (curr p : option Z) (m m' : sched_mem) :
  eevdf_pick_next curr m = Some (p, m') → same_core (sm_tasks m) (sm_tasks m') → alike_tables m m'.
Proof.
  intros Hp Hc. split; [by apply same_core_length|]. intros i t t' Ht Ht'.
  destruct (eevdf_pick_writes _ _ _ _ i t Hp Ht) as (x & Hx & Hor). rewrite Ht' in Hx. injection Hx as <-.
  destruct (decide (p = Some i)); [subst t'; apply grant_alike|]. destruct Hor as [-> | ->]; [apply alike_refl|apply refresh_alike].
Qed.

(** Where the tasks of a round are. *)
Lemma between_round (k N i : Z) (m : sched_mem) (t : LettuceTask) :
  between k N m → arr_get (sm_tasks m) i = Some t → competes t = true →
  ready_at m i t ∧ 1 ≤ D ∧ (tk_vruntime t = k * D ∨ tk_vruntime t = (k + 1) * D).
Proof.
  intros [Hoc Hall _] Ht Hc. destruct (Hall i t Ht) as [Hnr Hin]. pose proof (oc_entrant _ _ _ Hoc _ _ Ht) as [Hw _ _ Hq].
  destruct (quota_pos t (proj1 Hw) (Hq Hc)) as [_ HD]. unfold competes in Hc.
  apply andb_prop in Hc as [Hv [Hs%state_is_true|Hs%state_is_true]%orb_prop]; [|done].
  split; [by split_and!|]. split; [done|by apply Hin].
Qed.

(** The chosen task is at the start of the round, or everybody has finished it. *)
Lemma pick_course (k N : Z) (curr p : option Z) (m m' : sched_mem) :
  between k N m → (k + 2) * D < 2 ^ 64 → sm_ok m' → alike_tables m m' →
  eevdf_choice m curr p (g_eevdf_vsys (sm_vars m')) →
  ∃ n t k', p = Some n ∧ ready_at m n t ∧ tk_vruntime t = k' * D ∧ k ≤ k' ≤ k + 1 ∧ on_course k' N m' ∧
    (k' = k + 1 → ∀ i t, arr_get (sm_tasks m) i = Some t → competes t = true → tk_vruntime t = (k + 1) * D).
Proof.
  intros Hb HD Hok' Hal Hch. pose proof Hb as [Hoc _ (i0 & t0 & Ht0 & Hr0)]. pose proof (oc_round _ _ _ Hoc) as Hk.
  destruct (between_round k N i0 m t0 Hb Ht0 (competes_ready _ Hr0)) as (_ & HD1 & Hv0).
  assert (∀ i t, arr_get (sm_tasks m) i = Some t → competes t = true → k * D ≤ tk_vruntime t ≤ (k + 1) * D) as Hmax.
  { intros i t Ht Hc. destruct (between_round k N i m t Hb Ht Hc) as (_ & _ & [-> | ->]); lia. }
  assert (∀ i t, arr_get (sm_tasks m) i = Some t → competes t = true → tk_vruntime t ≤ (k + 1) * D) as Hle
    by (intros i t Ht Hc; apply (Hmax i t Ht Hc)).
  assert (tk_vruntime t0 < UINT64_MAX) as Hmx by (unfold UINT64_MAX; lia).
  remember (g_eevdf_vsys (sm_vars m')) as v eqn:Hvs. symmetry in Hvs.
  destruct Hch as [n t [[Ht Hr] He] _ _|n t _ [Ht Hr] _ Hmin|c t Hnone _ _ _|Hnone _];
    [| |specialize (Hnone i0 t0 (conj Ht0 Hr0)); lia..]; pose proof (competes_ready _ Hr) as Hc;
    destruct (between_round k N n m t Hb Ht Hc) as (_ & _ & [Hv|Hv]).
  - exists n, t, k. split_and!; try done; try lia. by apply (alike_course k N m).
  - assert (∀ i x, arr_get (sm_tasks m) i = Some x → competes x = true → tk_vruntime x = (k + 1) * D) as Hend.
    { intros i x Hx Hcx. destruct (decide (tk_vruntime x < (k + 1) * D)) as [Hlt|]; [|specialize (Hmax i x Hx Hcx); lia].
      pose proof (course_before_end k N i m x Hoc Hle Hx Hcx Hlt). lia. }
    pose proof (course_to_end k N n m t Hoc Hle Ht Hc).
    exists n, t, (k + 1). split_and!; try done; try lia. apply (course_restart k _ N m); try done; try lia.
    intros i x Hx Hcx. rewrite (Hend i x Hx Hcx). lia.
  - exists n, t, k. split_and!; try done; try lia. apply (course_restart k _ N m); try done; try lia. by apply Hmax.
  - assert (∀ i x, arr_get (sm_tasks m) i = Some x → competes x = true → tk_vruntime x = (k + 1) * D) as Hend.
    { intros i x Hx Hcx. destruct (between_round k N i m x Hb Hx Hcx) as (Hrx & _ & _).
      destruct (Hmin i x Hrx). specialize (Hmax i x Hx Hcx). lia. }
    exists n, t, (k + 1). split_and!; try done; try lia. apply (course_restart k _ N m); try done; try lia.
    intros i x Hx Hcx. rewrite (Hend i x Hx Hcx). lia.
Qed.

(** A pick between two slices gives a slice to a task at the start of its round. *)
Lemma between_picks (k N : Z) (curr : option Z) (m : sched_mem) :
  between k N m → (k + 2) * D < 2 ^ 64 → (∀ c, curr = Some c → 0 ≤ c < LETTUCE_MAX_TASKS) →
  ∃ n m' k' t, eevdf_pick_next curr m = Some (Some n, m') ∧ k ≤ k' ≤ k + 1 ∧ on_course k' N m' ∧
    arr_get (sm_tasks m') n = Some t ∧ ready_visible t ∧ tk_vruntime t = k' * D ∧
    tk_time_slice_ticks t = tk_requested_slice_ticks t ∧ same_entry m m' ∧
    ∀ i t, arr_get (sm_tasks m') i = Some t → tk_state t ≠ LETTUCE_TASK_STATE_RUNNING ∧ in_round k' t.
Proof.
  intros Hb HD Hcurr. pose proof Hb as [Hoc Hall _]. pose proof (oc_ok _ _ _ Hoc) as Hok.
  destruct (eevdf_pick_exact m Hok curr Hcurr) as (p & m' & Hp & Hc & Hch).
  pose proof (pick_alike _ _ _ _ Hp Hc) as Hal. pose proof (same_core_ok _ _ Hc Hok) as Hok'.
  destruct (pick_course k N curr p m m' Hb HD Hok' Hal Hch) as (n & t & k' & -> & [Ht Hrt] & Hvt & Hkk & Hoc' & Hend).
  destruct (eevdf_pick_writes _ _ _ _ n t Hp Ht) as (t' & Ht' & Hg). rewrite decide_True in Hg by done. subst t'.
  exists n, m', k', (eevdf_grant t). split; [done|]. split; [done|]. split; [done|]. split; [done|].
  split; [by destruct Hrt, t|]. split; [by destruct t|]. split; [by destruct t|]. split; [by apply alike_same_entry|].
  { intros i x' Hx'. destruct (arr_get_is_Some (sm_tasks m) i) as [x Hx].
    { rewrite <- (proj1 Hal). by eapply arr_get_Some_range. }
    destruct (same_core_Some _ _ i x Hc Hx) as (y & Hy & Hcy). rewrite Hx' in Hy. injection Hy as <-.
    apply task_core_fields in Hcy as (Hs & _). pose proof (proj2 Hal i x x' Hx Hx') as Hax.
    destruct (Hall i x Hx) as [Hnr Hin]. rewrite Hs. split; [done|]. intros Hrx. rewrite Hs in Hrx.
    rewrite (al_vruntime _ _ Hax). destruct (decide (k' = k)) as [->|]; [by apply Hin|].
    left. assert (k' = k + 1) as Hk1 by lia. rewrite (Hend Hk1 i x Hx), Hk1; [done|].
    by apply competes_ready, entrant_visible; [by eapply Hoc|]. }
Qed.

(** The task a pick gave its slice to starts to run. *)
Lemma slice_begins (k N n : Z) (m m' : sched_mem) (t : LettuceTask) f :
  on_course k N m → arr_get (sm_tasks m) n = Some t → ready_visible t → tk_vruntime t = k * D →
  tk_time_slice_ticks t = tk_requested_slice_ticks t →
  (∀ i t, arr_get (sm_tasks m) i = Some t → tk_state t ≠ LETTUCE_TASK_STATE_RUNNING ∧ in_round k t) →
  f = keep_running ∨ f = set_state LETTUCE_TASK_STATE_RUNNING →
  sm_ok m' → sm_vars m' = sm_vars m → length (sm_tasks m') = length (sm_tasks m) →
  (∀ i, arr_get (sm_tasks m') i = if decide (n = i) then Some (f t) else arr_get (sm_tasks m) i) →
  within k N n (tk_requested_slice_ticks t) m' ∧ same_entry m m'.
Proof.
  intros Hoc Hn Hr Hv Hsl Hall Hf Hok' Hvars Hlen Hget.
  pose proof (oc_entrant _ _ _ Hoc _ _ Hn) as [_ _ _ Hq]. destruct (Hq (competes_ready _ Hr)) as [Hqc [Hs1 Hsd] Hqq _].
  destruct Hr as [Hst Hvis]. assert (alike t (f t)) as Hal.
  { unfold task_visible in Hvis. destruct Hf as [-> | ->]; destruct t; cbn in *; subst; split; done. }
  assert (alike_tables m m') as Halt.
  { split; [done|]. intros i x x' Hx Hx'. rewrite Hget in Hx'.
    case_decide; [|rewrite Hx in Hx'; injection Hx' as <-; apply alike_refl]. subst i. congruence. }
  split; [|by apply alike_same_entry]. split.
  - apply (alike_course k N m); [done..|by rewrite Hvars].
  - intros i x Hx Hi. rewrite Hget, decide_False in Hx by congruence. by apply (Hall i).
  - exists (f t). rewrite Hget, decide_True by done. split; [done|].
    destruct Hal as [_ -> _ _ _ Hw Hrq Hqt Hvr _]. rewrite Hrq, Hvr.
    assert (tick_cost (f t) = tick_cost t) as -> by (unfold tick_cost; by rewrite Hw).
    split_and!; [|done|done|done| |lia].
    + destruct Hf as [-> | ->]; by destruct t.
    + destruct Hf as [-> | ->]; destruct t; cbn in *; lia.
Qed.

(** A tick in the course of a slice. *)
Lemma tick_course (k N c r : Z) (m : sched_mem) :
  within k N c r m → (k + 2) * D + 65536 < 2 ^ 64 →
  ∃ t m', arr_get (sm_tasks m) c = Some t ∧ eevdf_on_tick (Some c) 1 m = Some m' ∧ on_course k (N + 1) m' ∧
    tk_state t = LETTUCE_TASK_STATE_RUNNING ∧ task_visible t = true ∧
    tk_time_slice_ticks (tick_charge t) = r - 1 ∧ tk_vruntime (tick_charge t) + (r - 1) * tick_cost t = (k + 1) * D ∧
    same_entry m m' ∧
    (∀ i, arr_get (sm_tasks m') i = if decide (c = i) then Some (tick_charge t) else arr_get (sm_tasks m) i).
Proof.
  intros [Hoc Hothers (t & Ht & Hr & Hvis & Hrr & Hsl & Hv)] HD. pose proof Hoc as [Hok Hk Hen HN Hvs Hlag].
  pose proof (Hen _ _ Ht) as [Hw _ _ Hq]. specialize (Hq (competes_running _ Hr Hvis)).
  pose proof Hq as [Hcost [Hs1 Hsd] Hqq Hpaid]. destruct (quota_pos t (proj1 Hw) Hq) as [Hc1 HD1].
  assert (tick_cost t = 65536 / tk_weight t) as Hce.
  { unfold tick_cost, effective_weight. by rewrite (proj2 (Z.ltb_lt 0 (tk_weight t))) by lia. }
  assert (0 ≤ k * D) by nia.
  assert (r * tick_cost t ≤ D) by nia. assert (0 ≤ tk_total_ticks_run t ≤ (k + 1) * D) as Htot by nia.
  assert (∀ i x, arr_get (sm_tasks m) i = Some x → competes x = true → tk_vruntime x ≤ (k + 1) * D) as Hle.
  { intros i x Hx Hcx. destruct (decide (i = c)) as [->|Hi]; [rewrite Ht in Hx; injection Hx as <-; nia|].
    destruct (Hothers i x Hx Hi) as [Hnr Hin]. unfold competes in Hcx.
    apply andb_prop in Hcx as [_ [Hs%state_is_true|Hs%state_is_true]%orb_prop]; [|done]. destruct (Hin Hs); lia. }
  pose proof (course_to_end k N c m t Hoc Hle Ht (competes_running _ Hr Hvis)) as Hve.
  destruct (eevdf_tick_exact m c t Hok (on_course_weights _ _ _ Hoc) Ht Hr Hvis) as (Hwle & m' & Hx & Hc & Hvs' & Hget); [nia|nia|].
  assert (competes (tick_charge t) = true ∧ active_weight_of (tick_charge t) = tk_weight t ∧
    tk_vruntime (tick_charge t) = tk_vruntime t + tick_cost t ∧ tk_total_ticks_run (tick_charge t) = tk_total_ticks_run t + 1 ∧
    tk_time_slice_ticks (tick_charge t) = r - 1 ∧ entrant (tick_charge t)) as (Hct & Hwt & Hvt & Htt & Hst & Het).
  { assert (active_weight_of t = tk_weight t) as Hwo
      by (by rewrite (weight_competes t (Hen _ _ Ht)), (competes_running _ Hr Hvis)).
    pose proof (Hen _ _ Ht) as [_ Ha Hb _]. rewrite <- (competes_running _ Hr Hvis).
    assert (slice_after (tk_time_slice_ticks t) 1 = r - 1) as Hsa
      by (unfold slice_after; rewrite (proj2 (Z.leb_le _ _)) by lia; lia).
    assert (u64 (tk_total_ticks_run t + 1) = tk_total_ticks_run t + 1) as Hu by (apply u64_small; unfold is_u64; lia).
    unfold tick_charge. rewrite Hsa, Hu, <- Hce.
    destruct t; cbn in *. split_and!; try done. split; try done. intros _. split; cbn; try done.
    rewrite Hpaid. unfold tick_cost. cbn. lia. }
  pose proof (same_core_length _ _ Hc) as Hlen.
  exists t, m'. split; [done|]. split; [done|]. split.
  2:{ do 3 (split; [done|]). split; [rewrite Hvt; lia|]. split; [split; [done|]|done].
      intros i x Hi. rewrite Hget. case_decide; [subst i|by exists x]. rewrite Ht in Hi. injection Hi as <-.
      exists (tick_charge t). rewrite Hct, (competes_running _ Hr Hvis). by destruct t. }
   pose proof (arr_get_Some_range _ _ _ Ht) as Hrange.
  assert (∀ f d, f (tick_charge t) = f t + d → sum_of f (sm_tasks m') = sum_of f (sm_tasks m) + d) as Hsum.
  { intros f d Hf. apply (sum_of_at _ _ c); [done|done|]. intros i x x' Hx' Hy. rewrite Hget in Hy.
    destruct (decide (i = c)) as [->|].
    - rewrite decide_True in Hy by done. injection Hy as <-. rewrite Ht in Hx'. by injection Hx' as <-.
    - rewrite decide_False, Hx' in Hy by congruence. injection Hy as <-. lia. }
  assert (0 ≤ 65536 / active_weight (sm_tasks m) ∧ active_weight (sm_tasks m) * (65536 / active_weight (sm_tasks m)) ≤ 65536) as
    [Hd0 Hd1] by (split; [apply Z.div_pos; lia|apply Z.mul_div_le; lia]).
  split; [by eapply same_core_ok|done| | |lia|].
  - intros i x. rewrite Hget. case_decide; [by intros [= <-]|apply Hen].
  - rewrite (Hsum _ 1), HN; [done|]. unfold served. by rewrite Hct, Htt, (competes_running _ Hr Hvis).
  - rewrite (Hsum _ 65536), (active_weight_core _ _ Hc), Hvs'; [lia|]. unfold ahead.
    rewrite Hwt, Hvt, (weight_competes t (Hen _ _ Ht)), (competes_running _ Hr Hvis). lia.
Qed.

(** The end of a slice: the task goes back to the ready tasks of the round; it owes
    nothing and is owed nothing, so that [eevdf_on_task_ready] leaves its virtual time. *)
Lemma slice_ends (k N c : Z) (m m' : sched_mem) (t : LettuceTask) ctx :
  on_course k N m → (∀ i x, arr_get (sm_tasks m) i = Some x → i ≠ c → tk_state x ≠ LETTUCE_TASK_STATE_RUNNING ∧ in_round k x) →
  arr_get (sm_tasks m) c = Some t → tk_state t = LETTUCE_TASK_STATE_RUNNING → task_visible t = true →
  tk_vruntime t = (k + 1) * D → 1 ≤ D → (k + 2) * D < 2 ^ 64 →
  (m2 ← sm_update c (λ t, set_state LETTUCE_TASK_STATE_READY (set_context ctx t)) m; eevdf_on_task_ready (Some c) m2) = Some m' →
  between k N m' ∧ same_entry m m'.
Proof.
  intros Hoc Hothers Ht Hr Hvis Hv HD1 HD Hx. pose proof Hoc as [Hok Hk Hen HN Hvs Hlag].
  assert (∀ i x, arr_get (sm_tasks m) i = Some x → competes x = true → tk_vruntime x ≤ (k + 1) * D) as Hle.
  { intros i x Hi Hcx. destruct (decide (i = c)) as [->|Hic]; [rewrite Ht in Hi; injection Hi as <-; lia|].
    destruct (Hothers i x Hi Hic) as [Hnr Hin]. unfold competes in Hcx.
    apply andb_prop in Hcx as [_ [Hs%state_is_true|Hs%state_is_true]%orb_prop]; [|done]. destruct (Hin Hs); lia. }
  pose proof (course_to_end k N c m t Hoc Hle Ht (competes_running _ Hr Hvis)) as Hve.
  destruct (sm_update c _ m) as [m2|] eqn:H2; cbn [mbind option_bind] in Hx; [|done].
  apply sm_update_inv in H2 as (t2 & Ht2 & Hv2 & Hl2 & Hg2). rewrite Ht in Ht2. injection Ht2 as <-.
  cbn [eevdf_on_task_ready] in Hx. apply sm_update_inv in Hx as (t3 & Ht3 & Hv3 & Hl3 & Hg3).
  rewrite Hg2, decide_True in Ht3 by done. injection Ht3 as <-. rewrite Hv2 in *.
  set (t' := align _ _) in Hg3.
  assert (alike t t' ∧ tk_state t' = LETTUCE_TASK_STATE_READY ∧ tk_generation t' = tk_generation t) as (Hal & Hst & Hgen).
  { unfold task_visible in Hvis. subst t'. unfold align. rewrite (proj2 (Z.ltb_ge _ _)) by (destruct t; cbn in *; lia).
    destruct t; cbn in *; subst; split_and!; [split|..]; done. }
  clearbody t'. assert (∀ i, arr_get (sm_tasks m') i = if decide (c = i) then Some t' else arr_get (sm_tasks m) i) as Hget.
  { intros i. rewrite Hg3, Hg2. by case_decide. }
  assert (sm_ok m') as Hok'.
  { split; [rewrite Hl3, Hl2; by destruct Hok|]. intros i x. rewrite Hget.
    case_decide; [intros [= <-]; rewrite Hgen|]; by eapply (so_gen _ Hok). }
  assert (alike_tables m m') as Halt.
  { split; [congruence|]. intros i x x' Hi Hx'. rewrite Hget in Hx'.
    case_decide; [subst i; congruence|]. rewrite Hi in Hx'. injection Hx' as <-. apply alike_refl. }
  split; [|by apply alike_same_entry]. split.
  - apply (alike_course k N m); [done..|congruence].
  - intros i x. rewrite Hget. case_decide as Hi; [|intros Hx; by apply (Hothers i)].
    intros [= <-]. rewrite Hst. split; [done|]. intros _. right. by rewrite (al_vruntime _ _ Hal).
  - exists c, t'. rewrite Hget, decide_True by done. split; [done|]. split; [done|]. by rewrite (al_visible _ _ Hal).
Qed.

(** Nobody sleeps, so nobody is woken. *)
Lemma nobody_wakes (now : Z) (m : sched_mem) :
  sm_ok m → (∀ i t, arr_get (sm_tasks m) i = Some t → entrant t) → wake_sleepers g_lettuce_sched_eevdf_ops now m = Some m.
Proof.
  intros Hok Hen. unfold wake_sleepers.
  destruct (for_range_inv (λ _ m', m' = m) (Z.to_nat LETTUCE_MAX_TASKS) 0
    (wake_slot g_lettuce_sched_eevdf_ops now) m) as (m' & -> & ->); [done| |done].
  intros k m1 Hk ->. rewrite Z2Nat.id in Hk by done. exists m. split; [|done]. unfold wake_slot.
  destruct (sm_scan m k Hok Hk) as (t & Ht & ->). cbn [mbind option_bind]. destruct (task_visible t); [|done].
  rewrite Ht. cbn [mbind option_bind]. destruct (Hen _ _ Ht) as [_ Ha _ _]. apply state_is_false in Ha. by rewrite Ha.
Qed.

(** The accounting of a tick: the slice goes on or ends. *)
Lemma tick_accounts (k N c r : Z) (m m' : sched_mem) (b : bool) tf :
  within k N c r m → (k + 2) * D + 65536 < 2 ^ 64 →
  account_current g_lettuce_sched_eevdf_ops (Some c) true tf m = Some (b, m') →
  same_entry m m' ∧ if b then within k (N + 1) c (r - 1) m' else between k (N + 1) m'.
Proof.
  intros Hw HD Hx. pose proof Hw as [Hoc Hothers (t0 & Ht0 & _ & _ & Hrr & _ & Hv0)].
  destruct (tick_course k N c r m Hw HD) as (t & m1 & Ht & H1 & Hoc1 & Hr & Hvis & Hsl & Hv & Hse & Hget).
  rewrite Ht in Ht0. injection Ht0 as <-. pose proof (oc_entrant _ _ _ Hoc _ _ Ht) as [Hwt _ _ Hq].
  destruct (quota_pos t (proj1 Hwt) (Hq (competes_running _ Hr Hvis))) as [_ HD1].
  unfold account_current in Hx. rewrite Ht in Hx. cbn [mbind option_bind] in Hx.
  rewrite Hr, state_is_refl in Hx. cbn [negb op_on_tick g_lettuce_sched_eevdf_ops] in Hx. rewrite H1 in Hx.
  cbn [mbind option_bind] in Hx. rewrite Hget, decide_True in Hx by done. cbn [mbind option_bind] in Hx.
  rewrite Hsl, andb_true_r in Hx.
  assert (∀ i x, arr_get (sm_tasks m1) i = Some x → i ≠ c → tk_state x ≠ LETTUCE_TASK_STATE_RUNNING ∧ in_round k x) as Ho1.
  { intros i x Hi Hic. rewrite Hget, decide_False in Hi by congruence. by apply (Hothers i). }
  assert (tk_state (tick_charge t) = LETTUCE_TASK_STATE_RUNNING ∧ task_visible (tick_charge t) = true) as [Hr1 Hvis1]
    by (by destruct t).
  destruct (Z.ltb_spec 0 (r - 1)).
  - injection Hx as <- <-. split; [done|]. split; [done|done|]. exists (tick_charge t). rewrite Hget, decide_True by done.
    assert (tick_cost (tick_charge t) = tick_cost t) as -> by (by destruct t).
    split_and!; try done; try lia. assert (tk_requested_slice_ticks (tick_charge t) = tk_requested_slice_ticks t) by (by destruct t). lia.
  - destruct (save_frame tf _) as [ctx|]; cbn [mbind option_bind] in Hx; [|done].
    destruct (sm_update c _ m1) as [m2|] eqn:H2; cbn [mbind option_bind] in Hx; [|done].
    cbn [op_on_task_ready g_lettuce_sched_eevdf_ops] in Hx.
    destruct (eevdf_on_task_ready (Some c) m2) as [m3|] eqn:H3; cbn [mbind option_bind] in Hx; [|done]. injection Hx as <- <-.
    assert (r = 1) as -> by lia. destruct (slice_ends k (N + 1) c m1 m3 (tick_charge t) ctx) as [Hb Hse2]; try done; try lia.
    + by rewrite Hget, decide_True.
    + rewrite H2. exact H3.
    + split; [by etrans|exact Hb].
Qed.

End rounds.

(** ** Ticks of the scheduler *)

Section sharing.
Context {P : Type} (arch_enter : Z → P → P) (D : Z).

#[local] Existing Instance same_entry_preorder.

#[local] Abbreviation current st := (g_current_task (ss_tasks st)).

(** EEVDF without a preemption limit, before its first slice or within a slice. *)
Record sharing (k N : Z) (st : scheduler_state P) : Prop := {
  sg_inv : sched_inv st;
  sg_policy : g_current_policy_type st = LETTUCE_SCHED_POLICY_EEVDF;
  sg_active : g_scheduler_active st = true;
  sg_limit : g_preempt_limit st ≤ 0;
  sg_phase : match current st with
             | None => between D k N (ss_mem st)
             | Some c => ∃ r, within D k N c r (ss_mem st)
             end
}.

(** The first tick dispatches, every later one is charged. *)
Definition ticked (st : scheduler_state P) : Z := match current st with None => 0 | Some _ => 1 end.

Lemma within_bound (k N c r : Z) (m : sched_mem) : within D k N c r m → 1 ≤ D ∧ 0 ≤ k.
Proof.
  intros [Hoc _ (t & Ht & Hr & Hv & _)]. destruct (oc_entrant _ _ _ _ Hoc _ _ Ht) as [Hw _ _ Hq]. split; [|apply Hoc].
  apply (quota_pos D t (proj1 Hw)), Hq. by apply competes_running.
Qed.

Lemma sharing_step (k N now : Z) tf (st : scheduler_state P) :
  sharing k N st → (k + 2) * D + 65536 < 2 ^ 64 → frame_ok tf →
  ∃ tf' k' st', event_exec arch_enter (EvTick now tf) st = Some (tf', st') ∧ k ≤ k' ≤ k + 1 ∧
    sharing k' (N + ticked st) st' ∧ ticked st' = 1 ∧ same_entry (ss_mem st) (ss_mem st').
Proof.
  intros [Hinv Hpol Hact Hlim Hph] HD Htf.
  destruct (event_step arch_enter (EvTick now tf) st Hinv Htf) as (tf' & st' & Hx & Hinv' & _).
  pose proof Hx as Hdo. unfold event_exec, lettuce_scheduler_tick in Hdo.
  destruct (do_schedule _ _ _ _ st) as [[[hit tf2] st2]|] eqn:Hds; cbn [mbind option_bind] in Hdo; [|done].
  injection Hdo as -> ->.
  destruct (do_schedule_inv arch_enter _ _ _ _ _ _ _ Hact Hds) as (Hl' & Hp' & Ha' & m1 & b & m2 & Hw & Hacc & Hb).
  specialize (Ha' Hlim). rewrite Hpol in *. cbn [policy_ops_of] in Hw, Hacc, Hb.
  assert (∃ m0, on_course D k N m0 ∧ m0 = ss_mem st) as (m0 & Hoc & ->).
  { eexists. split; [|done]. destruct (current st); [destruct Hph as [r Hw']; apply Hw'|apply Hph]. }
  rewrite (nobody_wakes D) in Hw; [|apply Hoc..]. injection Hw as <-.
  assert (same_entry (ss_mem st) m2 ∧
    if b then ∃ c r, current st = Some c ∧ within D k (N + ticked st) c r m2 else between D k (N + ticked st) m2) as [Hse Hm2].
  { unfold ticked. destruct (current st) as [c|].
    - destruct Hph as [r Hwi]. destruct (tick_accounts D k N c r _ _ b tf Hwi HD Hacc) as [Hse Hm2].
      split; [done|]. destruct b; [by exists c, (r - 1)|done].
    - injection Hacc as <- <-. split; [reflexivity|]. by rewrite Z.add_0_r. }
  exists (Some tf'). destruct b.
  - destruct Hm2 as (c & r & Hc & Hm2). subst st'. exists k, (with_mem m2 st). split; [done|]. split; [lia|].
    assert (ticked (with_mem m2 st) = ticked st ∧ ticked st = 1) as [-> Ht] by (unfold ticked; cbn; by rewrite Hc).
    split; [|by destruct m2]. split; try done. cbn. rewrite Hc. exists r. by destruct m2.
  - destruct Hb as (p & m3 & Hp & Hn). cbn [op_pick_next g_lettuce_sched_eevdf_ops] in Hp.
    destruct (between_picks D k (N + ticked st) (current st) m2 Hm2) as
      (n & m3' & k' & t & Hp3 & Hk & Hoc3 & Ht & Hr & Hv & Hsl & Hse3 & Hall); [lia|by apply (ti_current _ (si_tasks _ Hinv))|].
    rewrite Hp3 in Hp. injection Hp as <- <-. destruct (Hn n eq_refl) as (Hc' & Hv' & f & tn & Hf & Htn & Hlen & Hget).
    rewrite Ht in Htn. injection Htn as <-.
    destruct (slice_begins D k' (N + ticked st) n m3' (ss_mem st') t f) as [Hwi Hse']; try done; [by apply ss_mem_ok|].
    exists k', st'. split; [done|]. split; [done|]. split; [|split; [unfold ticked; by rewrite Hc'|by do 2 (etrans; [done|])]].
    split; [done|congruence|done|congruence|]. rewrite Hc'. by eexists.
Qed.

(** *** Many ticks *)

Definition tick_events (fs : list (Z * LettuceTrapFrame)) : list (sched_event + sched_control) :=
  (λ f, inl (EvTick f.1 f.2)) <$> fs.

Lemma sharing_run (fs : list (Z * LettuceTrapFrame)) (k N : Z) (st : scheduler_state P) :
  sharing k N st → ticked st = 1 → (k + Z.of_nat (length fs) + 2) * D + 65536 < 2 ^ 64 → 1 ≤ D → 0 ≤ k →
  Forall (λ f, frame_ok f.2) fs →
  ∃ k' st', sched_run arch_enter (tick_events fs) st = Some st' ∧ sharing k' (N + Z.of_nat (length fs)) st' ∧ ticked st' = 1 ∧
    same_entry (ss_mem st) (ss_mem st').
Proof.
  intros Hsh Hct HD HD1 Hk Hfs. revert k N st Hsh Hct HD Hk. induction Hfs as [|[now tf] fs Hf _ IH]; intros k N st Hsh Hct HD Hk.
  { exists k, st. rewrite Z.add_0_r. by split_and!. }
  rewrite length_cons, Nat2Z.inj_succ in *. destruct (sharing_step k N now tf st Hsh) as
    (tf' & k1 & st1 & Hx & Hk1 & Hsh1 & Hc1 & Hse); [nia|done|].
  destruct (IH k1 (N + 1) st1) as (k' & st' & Hx' & Hsh' & Hc' & Hse'); [by rewrite <- Hct|done|nia|lia|].
  exists k', st'. split; [unfold tick_events; rewrite fmap_cons; cbn [sched_run fst snd]; rewrite Hx; exact Hx'|].
  split; [|split; [done|by etrans]]. by replace (N + Z.succ _) with (N + 1 + Z.of_nat (length fs)) by lia.
Qed.

(** *** The shares *)

Lemma within_total (k N c r i : Z) (m : sched_mem) (t : LettuceTask) :
  within D k N c r m → arr_get (sm_tasks m) i = Some t →
  k * slice_of t ≤ served t ≤ (k + 1) * slice_of t ∧ 65536 * slice_of t = D * active_weight_of t.
Proof.
  intros Hwi Ht. pose proof (within_bound _ _ _ _ _ Hwi) as [HD Hk]. pose proof Hwi as [Hoc Hoth (tc & Htc & Hr & _ & Hrr & _ & Hv)].
  pose proof (oc_entrant _ _ _ _ Hoc _ _ Ht) as He. unfold served, slice_of. rewrite (weight_competes _ _ He).
  destruct (competes t) eqn:Hct; [|lia]. pose proof He as [Hw _ _ Hq]. destruct (Hq Hct) as [Hcost [Hs1 Hsd] _ Hp].
  assert (1 ≤ tick_cost t) by nia.
  assert (k * D ≤ tk_vruntime t ≤ (k + 1) * D); [|split; nia].
  destruct (decide (i = c)) as [->|Hi].
  - rewrite Ht in Htc. injection Htc as <-. nia.
  - destruct (Hoth i t Ht Hi) as [Hnr Hin]. unfold competes in Hct.
    apply andb_prop in Hct as [_ [Hs%state_is_true|Hs%state_is_true]%orb_prop]; [|done]. destruct (Hin Hs); nia.
Qed.

Lemma within_shares (k N c r i : Z) (m : sched_mem) (t : LettuceTask) :
  within D k N c r m → arr_get (sm_tasks m) i = Some t → competes t = true →
  let W := active_weight (sm_tasks m) in let s := tk_requested_slice_ticks t in
  N * tk_weight t - W * s ≤ W * tk_total_ticks_run t ≤ N * tk_weight t + W * s ∧ s * tick_cost t = D.
Proof.
  intros Hwi Ht Hct W s. pose proof Hwi as [Hoc _ _]. pose proof (oc_entrant _ _ _ _ Hoc _ _ Ht) as He.
  pose proof (within_bound _ _ _ _ _ Hwi) as [HD Hk].
  destruct (within_total k N c r i m t Hwi Ht) as [Htot Hsc]. unfold served, slice_of in Htot, Hsc. rewrite (weight_competes _ _ He) in Hsc.
  rewrite Hct in *. fold s in Htot, Hsc. pose proof He as [Hw _ _ Hq]. destruct (Hq Hct) as [_ [Hs1 Hsd] _ _]. split; [|done].
  pose proof (oc_served _ _ _ _ Hoc) as HN.
  assert (65536 * sum_of slice_of (sm_tasks m) = D * W) as HS.
  { subst W. rewrite active_weight_sum, <- !sum_of_scale. apply sum_of_same; [done|]. intros j x x' Hx Hx'.
    rewrite Hx in Hx'. injection Hx' as <-. by apply (within_total k N c r j m). }
  assert (k * sum_of slice_of (sm_tasks m) ≤ N ≤ (k + 1) * sum_of slice_of (sm_tasks m)) as HNS.
  { rewrite <- HN, <- !sum_of_scale. split; apply sum_of_pointwise; try done; intros j x x' Hx Hx';
      rewrite Hx in Hx'; injection Hx' as <-; by apply (within_total k N c r j m). }
  set (S := sum_of slice_of (sm_tasks m)) in *.
  assert (1 ≤ W) as HW.
  { pose proof (active_weight_member _ _ _ (on_course_weights _ _ _ _ Hoc) Ht) as Hm.
    rewrite (weight_competes _ _ He), Hct in Hm. subst W. lia. }
  assert (W * s = S * tk_weight t) as HWs by nia. clearbody S W. nia.
Qed.

(** A system that is about to dispatch its first task. *)
Record starting (st : scheduler_state P) : Prop := {
  sr_inv : sched_inv st;
  sr_policy : g_current_policy_type st = LETTUCE_SCHED_POLICY_EEVDF;
  sr_active : g_scheduler_active st = true;
  sr_limit : g_preempt_limit st = 0;
  sr_current : lettuce_task_current (ss_tasks st) = None;
  sr_vsys : g_eevdf_vsys (ss_vars st) = 0;
  sr_entrants : ∀ i t, arr_get (g_task_table (ss_tasks st)) i = Some t →
    entrant D t ∧ tk_state t ≠ LETTUCE_TASK_STATE_RUNNING ∧ tk_vruntime t = 0;
  sr_some : ∃ i t, arr_get (g_task_table (ss_tasks st)) i = Some t ∧ ready_visible t
}.

Lemma sharing_starts (st : scheduler_state P) : starting st → sharing 0 0 st ∧ 1 ≤ D.
Proof.
  intros [Hinv Hpol Hact Hlim Hcur Hvs Hen Hsome].
  assert (∀ f, (∀ i t, arr_get (sm_tasks (ss_mem st)) i = Some t → f t = 0) → sum_of f (sm_tasks (ss_mem st)) = 0) as Hz.
  { intros f Hf. rewrite (sum_of_same (λ t, 0 * f t) f _ _ eq_refl), sum_of_scale; [lia|].
    intros i t t' Ht Ht'. rewrite (Hf i t' Ht'). lia. }
  split.
  - split; try done; [lia|]. change (g_current_task (ss_tasks st)) with (lettuce_task_current (ss_tasks st)).
    rewrite Hcur. split; [split|..]; try done.
    + by apply ss_mem_ok.
    + intros i t Ht. by apply (Hen i t).
    + apply Hz. intros i t Ht. destruct (Hen i t Ht) as (He & _ & Hv). unfold served. destruct (competes t) eqn:Hc; [|done].
      destruct (en_quota _ _ He Hc) as [Hcost _ _ Hp].
      rewrite Hv in Hp. symmetry in Hp. apply Z.mul_eq_0 in Hp as [Hp|]; [rewrite Hp in Hcost; lia|done].
    + cbn. lia.
    + rewrite Hz; [cbn; lia|]. intros i t Ht. destruct (Hen i t Ht) as (_ & _ & Hv). unfold ahead. lia.
    + intros i t Ht. destruct (Hen i t Ht) as (_ & Hn & Hv). split; [done|]. intros _. lia.
  - destruct Hsome as (i & t & Ht & Hr). destruct (Hen i t Ht) as ([Hw _ _ Hq] & _).
    apply (quota_pos D t (proj1 Hw)), Hq, competes_ready, Hr.
Qed.

(** C21: EEVDF shares the processor in proportion to the weights, when the slices are in
    proportion to the weights (each is worth the virtual time [D]), the weights divide
    65536, every task is in a slot of generation at most 10, the scheduler starts afresh
    (no current task, all virtual times and tick counts 0, quanta equal to the slices, no
    preemption limit), and nothing but ticks happens, so that no task sleeps or yields.
    After [N] charged ticks a task of weight [w] has run
    [N * w / W] of them, [W] being the sum of the weights of the ready tasks, to within
    one slice of its own, for every [N] whose virtual times do not wrap.  The first tick
    only dispatches. *)
Theorem eevdf_shares_in_proportion (st : scheduler_state P) (N : Z) (fs : list (Z * LettuceTrapFrame)) :
  starting st → Forall (λ f, frame_ok f.2) fs → Z.of_nat (length fs) = 1 + N → 0 ≤ N → (N + 3) * D + 65536 < 2 ^ 64 →
  ∃ st', sched_run arch_enter (tick_events fs) st = Some st' ∧
    ∀ i t, arr_get (g_task_table (ss_tasks st)) i = Some t → competes t = true →
      ∃ t', arr_get (g_task_table (ss_tasks st')) i = Some t' ∧
        let W := active_weight (g_task_table (ss_tasks st)) in
        let error := W * tk_requested_slice_ticks t in
        N * tk_weight t - error ≤ W * tk_total_ticks_run t' ≤ N * tk_weight t + error.
Proof.
  intros Hst Hfs Hlen HN HD. pose proof (sharing_starts st Hst) as [Hsh HD1].
  destruct Hfs as [|[now tf] fs Hf Hfs]; [cbn in Hlen; lia|]. rewrite length_cons in Hlen.
  destruct (sharing_step 0 0 now tf st Hsh) as (tf' & k1 & st1 & Hx & Hk1 & Hsh1 & Hc1 & Hse1); [lia|done|].
  assert (ticked st = 0) as H0 by (unfold ticked; by rewrite (sr_current _ Hst : g_current_task _ = None)).
  rewrite H0 in Hsh1. destruct (sharing_run fs k1 (0 + 0) st1 Hsh1 Hc1) as (k' & st' & Hx' & Hsh' & Hc' & Hse'); [nia|lia|lia|done|].
  exists st'. split; [unfold tick_events in *; rewrite fmap_cons; cbn [sched_run fst snd]; rewrite Hx; exact Hx'|].
  intros i t Ht Hct. destruct (transitivity (R := same_entry) Hse1 Hse') as [Hl Hse].
  destruct (Hse i t Ht) as (t' & Ht' & Hct' & Hw'). exists t'. split; [exact Ht'|].
  pose proof (sg_phase _ _ _ Hsh') as Hph. unfold ticked in Hc'. destruct (current st') as [c|]; [|done]. destruct Hph as [r Hwi].
  rewrite Hct in Hct'. destruct (within_shares k' _ c r i (ss_mem st') t' Hwi Ht' Hct') as [Hshare Hs'].
  assert (active_weight (sm_tasks (ss_mem st')) = active_weight (g_task_table (ss_tasks st))) as HW.
  { rewrite !active_weight_sum. apply sum_of_same; [exact Hl|]. intros j x x' Hx1 Hx2.
    destruct (Hse j x Hx1) as (y & Hy & Hcy & Hwy). rewrite Hx2 in Hy. injection Hy as <-.
    unfold active_weight_of, competes in *. by rewrite Hcy, Hwy. }
  destruct (sr_entrants _ Hst i t Ht) as ([Hwt _ _ Hq] & _). destruct (Hq Hct) as [Hcost [Hs1 Hsd] _ _].
  assert (tick_cost t' = tick_cost t) as Hcc by (unfold tick_cost; by rewrite Hw'). rewrite HW, Hcc, Hw' in *.
  assert (tk_requested_slice_ticks t' = tk_requested_slice_ticks t) as Hsl by nia.
  rewrite Hsl in Hshare. replace (0 + 0 + Z.of_nat (length fs)) with N in Hshare by lia. exact Hshare.
Qed.

End sharing.

(** ** Small systems *)

(** Two ready tasks of the given weights and slices under EEVDF, before the first tick. *)
Definition tune (slot w s : Z) (st : scheduler_state (list Z)) : scheduler_state (list Z) :=
  let table := g_task_table (ss_tasks st) in
  with_task_state
    {| g_task_table := default table (table1 ← lettuce_task_set_weight (Some slot) w table;
                                      lettuce_task_set_slice (Some slot) s table1);
       g_current_task := g_current_task (ss_tasks st) |} st.

Definition two_tasks : scheduler_state (list Z) :=
  run_or_off [inr (CtlPolicy LETTUCE_SCHED_POLICY_EEVDF); inr (CtlTask (TaskCreate 10 100 4096 8192 0));
              inr (CtlTask (TaskCreate 20 200 4096 8192 0)); inr CtlStart] sched_off.

Definition contest (w0 s0 w1 s1 : Z) : scheduler_state (list Z) := tune 1 w1 s1 (tune 0 w0 s0 two_tasks).

(** The ticks tasks 0 and 1 have run. *)
Definition totals (st : scheduler_state (list Z)) : list Z :=
  tk_total_ticks_run <$> take 2 (g_task_table (ss_tasks st)).

Definition clock (n : nat) : list (Z * LettuceTrapFrame) := replicate n (1, frame_of 7).

(** A task's weight and slice are free of the scheduler's invariant. *)
Lemma update_inv (st : scheduler_state (list Z)) (slot : Z) f tb :
  sched_inv st → task_update slot f (g_task_table (ss_tasks st)) = Some tb →
  (∀ t, tk_generation (f t) = tk_generation t ∧ tk_state (f t) = tk_state t ∧ tk_id (f t) = tk_id t ∧
        tk_context (f t) = tk_context t) →
  sched_inv (with_task_state {| g_task_table := tb; g_current_task := g_current_task (ss_tasks st) |} st).
Proof.
  intros [[Hl Ht Hc] Hrun Halive] Hup Hf. destruct (arr_get (g_task_table (ss_tasks st)) slot) as [t|] eqn:Hs.
  2:{ unfold task_update in Hup. by rewrite Hs in Hup. }
  destruct (task_update_Some _ slot f t Hs) as (tb' & Hup' & _ & Hlen & Hget). rewrite Hup in Hup'. injection Hup' as <-.
  destruct (Hf t) as (Hg & Hst & Hid & Hctx).
  split; [split|..]; cbn; [lia| |done|..].
  - intros i x. rewrite Hget. case_decide as Hi; [|apply Ht]. intros [= <-]. subst i. destruct (Ht _ _ Hs) as [Tg Ti Tr].
    split; [by rewrite Hg| |by rewrite Hctx]. rewrite Hg, Hid. unfold task_is_active in *. by rewrite Hst.
  - intros i x. rewrite Hget. case_decide as Hi; [|apply Hrun]. intros [= <-]. subst i. rewrite Hst. by apply Hrun.
  - intros c x Hcur. rewrite Hget. case_decide as Hi; [|by apply Halive]. intros [= <-]. subst c.
    unfold task_is_active. rewrite Hst. by apply (Halive slot t).
Qed.

Lemma tune_inv (slot w s : Z) (st : scheduler_state (list Z)) : sched_inv st → sched_inv (tune slot w s st).
Proof.
  intros Hinv. assert (sched_inv (with_task_state (ss_tasks st) st)) as Hst by (by destruct st).
  assert (∀ tb, default (g_task_table (ss_tasks st)) tb = match tb with Some x => x | None => g_task_table (ss_tasks st) end)
    as Hd by (by intros []).
  unfold tune, lettuce_task_set_weight, lettuce_task_set_slice. rewrite Hd.
  destruct (task_update slot _ (g_task_table (ss_tasks st))) as [tb1|] eqn:H1; cbn [mbind option_bind];
    [|by destruct (ss_tasks st)].
  destruct (task_update slot _ tb1) as [tb2|] eqn:H2; [|by destruct (ss_tasks st)].
  apply (update_inv _ _ _ tb1 Hinv) in H1; [|by intros []].
  apply (update_inv _ slot _ tb2 H1) in H2; [exact H2|by intros []].
Qed.

Lemma contest_inv (w0 s0 w1 s1 : Z) : sched_inv (contest w0 s0 w1 s1).
Proof. apply tune_inv, tune_inv, run_or_off_inv; [apply sched_off_inv|by repeat constructor]. Qed.

Definition entrant_b (D : Z) (t : LettuceTask) : bool :=
  let s := tk_requested_slice_ticks t in
  (1 <=? tk_weight t) && (tk_weight t <=? 10240) && negb (state_is (tk_state t) LETTUCE_TASK_STATE_SLEEPING) &&
  negb (state_is (tk_state t) LETTUCE_TASK_STATE_RUNNING) && implb (task_is_active t) (task_visible t) &&
  (tk_vruntime t =? 0) && (tk_total_ticks_run t =? 0) &&
  implb (competes t) ((tk_weight t * tick_cost t =? 65536) && (1 <=? s) && (s * tick_cost t =? D) && (tk_quantum_ticks t =? s)).

Lemma entrant_dec (D : Z) (tb : list LettuceTask) :
  forallb (entrant_b D) tb = true → ∀ i t, arr_get tb i = Some t →
  entrant D t ∧ tk_state t ≠ LETTUCE_TASK_STATE_RUNNING ∧ tk_vruntime t = 0.
Proof.
  intros Hall i t Ht. apply (arr_forall _ _ _ _ Hall) in Ht. unfold entrant_b in Ht. b2p.
  repeat match goal with H : state_is _ _ = false |- _ => apply state_is_false in H end.
  split; [split|by split]; [lia|done| |].
  - intros Ha. right. by rewrite Ha in *.
  - intros Hc. rewrite Hc in *. cbn [implb] in *. b2p. split; lia.
Qed.

Lemma eevdf_shares_in_proportion_witness :
  ∃ st' t', sched_run cons (tick_events (clock 161)) (contest 1024 5 2048 10) = Some st' ∧
    arr_get (g_task_table (ss_tasks st')) 1 = Some t' ∧
    160 * 2048 - 3072 * 10 ≤ 3072 * tk_total_ticks_run t' ≤ 160 * 2048 + 3072 * 10.
Proof.
  destruct (eevdf_shares_in_proportion cons 320 (contest 1024 5 2048 10) 160 (clock 161)) as (st' & Hrun & Hshare).
  - split; [apply contest_inv|reflexivity..| |].
    + apply entrant_dec. vm_compute. reflexivity.
    + destruct (arr_get_is_Some (g_task_table (ss_tasks (contest 1024 5 2048 10))) 0) as [t Ht];
        [vm_compute; split; [discriminate|reflexivity]|].
      exists 0, t. split; [exact Ht|]. vm_compute in Ht. injection Ht as <-. split; reflexivity.
  - apply Forall_replicate. reflexivity.
  - reflexivity.
  - discriminate.
  - reflexivity.
  - destruct (arr_get_is_Some (g_task_table (ss_tasks (contest 1024 5 2048 10))) 1) as [t Ht];
      [vm_compute; split; [discriminate|reflexivity]|].
    assert (Ht0 := Ht). vm_compute in Ht0. injection Ht0 as Ht0.
    destruct (Hshare 1 t Ht) as (t' & Ht' & Hb); [rewrite <- Ht0; reflexivity|].
    exists st', t'. split; [exact Hrun|]. split; [exact Ht'|]. revert Hb. rewrite <- Ht0.
    replace (active_weight (g_task_table (ss_tasks (contest 1024 5 2048 10)))) with 3072 by (vm_compute; reflexivity).
    cbn. intros Hb. exact Hb.
Defined.

(** With other slices the shares are not those of the weights.  Two tasks of the same
    weight, slices 1 and 10: of 40 ticks they run 13 and 27.  The task with the short
    slice falls behind the average and is owed time, but [eevdf_on_task_ready] raises its
    virtual runtime to the average at the end of each of its slices. *)
Lemma eevdf_share_depends_on_the_slice :
  (tk_weight <$> take 2 (g_task_table (ss_tasks (contest 1024 1 1024 10)))) = [1024; 1024] ∧
  totals <$> sched_run cons (tick_events (clock 41)) (contest 1024 1 1024 10) = Some [13; 27].
Proof. vm_compute. split; reflexivity. Qed.

(** Experiment 2 of [benchmarks/scheduler/scheduler_bench.c]: weights 4 to 1 with slices
    of two ticks.  Of 190 ticks the tasks run 150 and 40, which is 3.75 to 1. *)
Lemma eevdf_four_to_one_falls_short :
  totals <$> sched_run cons (tick_events (clock 191)) (contest 4096 2 1024 2) = Some [150; 40].
Proof. vm_compute. reflexivity. Qed.
