(* ===== verification/Mmu.v ===== *)
(** * Address spaces on ARM64: [kernel/arch/arm64/mmu.c]

    The static translation tables, the domain objects, the TTBR0 switch and the
    expected-fault mechanism.  The linker chooses the addresses of the static arrays:
    the parameter [L : layout].  System registers are a function of their name; TLB
    maintenance is a log of the instructions issued. *)

From stdpp Require Import vector.
From S2P Require Import Prelude Types Context.

(** ** Hardware the code touches *)

Inductive sysreg :=
  | CurrentEL
  | ttbr0_el1 | ttbr0_el2
  | mair_el1 | mair_el2
  | tcr_el1 | tcr_el2
  | sctlr_el1 | sctlr_el2
  | vbar_el1 | vbar_el2
  | cntv_tval_el0 | cntv_ctl_el0 | cntvct_el0 | cntfrq_el0
  | id_aa64mmfr3_el1 | id_aa64isar1_el1 | id_aa64pfr1_el1
  | apiakeylo_el1 | apiakeyhi_el1.

#[export] Instance sysreg_eq_dec : EqDecision sysreg.
Proof. solve_decision. Defined.

Inductive tlb_op :=
  | tlbi_alle2is
  | tlbi_vmalle1is
  | tlbi_aside1is (arg : Z).

Record hw_state := {
  hw_reg : sysreg → Z;
  hw_tlb : list tlb_op
}.

Definition mrs (r : sysreg) (h : hw_state) : Z := hw_reg h r.

Definition msr (r : sysreg) (v : Z) (h : hw_state) : hw_state :=
  {| hw_reg := λ r', if decide (r = r') then v else hw_reg h r'; hw_tlb := hw_tlb h |}.

Definition tlbi (o : tlb_op) (h : hw_state) : hw_state :=
  {| hw_reg := hw_reg h; hw_tlb := hw_tlb h ++ [o] |}.

(** [cpu.c]: [(CurrentEL >> 2) & 3]. *)
Definition lettuce_arch_current_el (h : hw_state) : Z := (mrs CurrentEL h .>> 2) .& 3.

(** ** Constants *)

Definition PAGE_SIZE : Z := 4096.
Definition TABLE_ENTRIES : Z := 512.

Definition DOMAIN_A : Z := 100.
Definition DOMAIN_B : Z := 200.
Definition DOMAIN_C : Z := 300.

Definition GIC_PA : Z := 0x08000000.
Definition UART_PA : Z := 0x09000000.
Definition KERNEL_RAM_PA : Z := 0x40000000.

Definition PRIVATE_A_VA : Z := 0x41000000.
Definition PRIVATE_A_PA : Z := 0x41000000.
Definition PRIVATE_B_VA : Z := 0x41100000.
Definition PRIVATE_C_VA : Z := 0x41180000.
Definition SHARED_PAGE_VA : Z := 0x411c0000.
Definition RO_TEST_PAGE_VA : Z := 0x411e0000.
Definition SERVICE_CODE_VA : Z := 0x41050000.

Definition DOMAIN_A_STACK_VA : Z := 0x41001000.
Definition DOMAIN_A_STACK_TOP : Z := 0x41002000.
Definition DOMAIN_B_STACK_VA : Z := 0x41101000.
Definition DOMAIN_B_STACK_TOP : Z := 0x41102000.
Definition DOMAIN_C_STACK_VA : Z := 0x41181000.
Definition DOMAIN_C_STACK_TOP : Z := 0x41182000.

Definition DESC_VALID : Z := 1.
Definition DESC_TABLE : Z := 2.
Definition DESC_BLOCK : Z := 0.
Definition DESC_PAGE : Z := 2.
Definition DESC_ATTR_NORMAL : Z := 0 .<< 2.
Definition DESC_ATTR_DEVICE : Z := 1 .<< 2.
Definition DESC_AP_EL1_RW : Z := 0 .<< 6.
Definition DESC_AP_EL0_RW : Z := 1 .<< 6.
Definition DESC_AP_EL0_RO : Z := 3 .<< 6.
Definition DESC_SH_NON : Z := 0 .<< 8.
Definition DESC_SH_INNER : Z := 3 .<< 8.
Definition DESC_AF : Z := 1 .<< 10.
Definition DESC_NG : Z := 1 .<< 11.
Definition DESC_PXN : Z := 1 .<< 53.
Definition DESC_UXN : Z := 1 .<< 54.

(** ** Addresses of the static arrays *)

Record domain_layout := {
  dl_l1 : Z; dl_l2 : Z; dl_l3 : Z;
  dl_private_page : Z; dl_stack_page : Z
}.

Record layout := {
  ly_kernel_l2_device : Z;
  ly_a : domain_layout; ly_b : domain_layout; ly_c : domain_layout;
  ly_shared_buffer_page : Z;
  ly_ro_test_page : Z;
  ly_el0_service_code_start : Z
}.

(** ** State *)

Record domain_tables := { dt_l1 : list Z; dt_l2 : list Z; dt_l3 : list Z }.

Record translation_tables := {
  kernel_l2_device : list Z;
  tt_a : domain_tables; tt_b : domain_tables; tt_c : domain_tables
}.

(** The backing pages, as 512 words each. *)
Record backing_pages := {
  domain_a_private_page : list Z; domain_a_stack_page : list Z;
  domain_b_private_page : list Z; domain_b_stack_page : list Z;
  domain_c_private_page : list Z; domain_c_stack_page : list Z;
  shared_buffer_page : list Z; ro_test_page : list Z
}.

(** The fields of the domain object that the code reads; [l1_root] is an address. *)
Record LettuceArchDomain := {
  ad_ttbr0_val : Z;
  ad_l1_root : Z;
  ad_private_va : Z;
  ad_private_pa : Z;
  ad_stack_va : Z;
  ad_stack_pa : Z;
  ad_stack_top : Z;
  ad_id : Z;
  ad_asid : Z
}.

(** The expected-fault and system-register-trap observation state. *)
Record fault_state := {
  g_expecting_fault : bool;
  g_fault_observed : bool;
  g_expected_far : Z;
  g_last_fault_far : Z;
  g_last_fault_esr : Z;
  g_last_fault_elr : Z;
  g_expecting_sysreg_trap : bool;
  g_sysreg_trap_observed : bool
}.

Record mmu_state := {
  mmu_tables : translation_tables;
  mmu_pages : backing_pages;
  arch_domains : vec LettuceArchDomain 3;
  current_domain : Z;
  mmu_faults : fault_state;
  mmu_hw : hw_state
}.

Definition with_hw (h : hw_state) (s : mmu_state) : mmu_state :=
  {| mmu_tables := mmu_tables s; mmu_pages := mmu_pages s; arch_domains := arch_domains s;
     current_domain := current_domain s; mmu_faults := mmu_faults s; mmu_hw := h |}.

Definition with_faults (f : fault_state) (s : mmu_state) : mmu_state :=
  {| mmu_tables := mmu_tables s; mmu_pages := mmu_pages s; arch_domains := arch_domains s;
     current_domain := current_domain s; mmu_faults := f; mmu_hw := mmu_hw s |}.

Definition lettuce_mmu_set_current_domain (domain : Z) (s : mmu_state) : mmu_state :=
  {| mmu_tables := mmu_tables s; mmu_pages := mmu_pages s; arch_domains := arch_domains s;
     current_domain := domain; mmu_faults := mmu_faults s; mmu_hw := mmu_hw s |}.

(** The static initialiser of [arch_domains]. *)
Definition arch_domains_initial (L : layout) : vec LettuceArchDomain 3 :=
  [#{| ad_ttbr0_val := 0; ad_l1_root := dl_l1 (ly_a L); ad_private_va := PRIVATE_A_VA;
      ad_private_pa := dl_private_page (ly_a L); ad_stack_va := DOMAIN_A_STACK_VA;
      ad_stack_pa := dl_stack_page (ly_a L); ad_stack_top := DOMAIN_A_STACK_TOP;
      ad_id := DOMAIN_A; ad_asid := 1 |};
   {| ad_ttbr0_val := 0; ad_l1_root := dl_l1 (ly_b L); ad_private_va := PRIVATE_B_VA;
      ad_private_pa := dl_private_page (ly_b L); ad_stack_va := DOMAIN_B_STACK_VA;
      ad_stack_pa := dl_stack_page (ly_b L); ad_stack_top := DOMAIN_B_STACK_TOP;
      ad_id := DOMAIN_B; ad_asid := 2 |};
   {| ad_ttbr0_val := 0; ad_l1_root := dl_l1 (ly_c L); ad_private_va := PRIVATE_C_VA;
      ad_private_pa := dl_private_page (ly_c L); ad_stack_va := DOMAIN_C_STACK_VA;
      ad_stack_pa := dl_stack_page (ly_c L); ad_stack_top := DOMAIN_C_STACK_TOP;
      ad_id := DOMAIN_C; ad_asid := 3 |}].

(** ** Domain lookup *)

Definition lettuce_arch_domain_stack_top (domain : Z) : Z :=
  if domain =? DOMAIN_A then DOMAIN_A_STACK_TOP else
  if domain =? DOMAIN_B then DOMAIN_B_STACK_TOP else
  if domain =? DOMAIN_C then DOMAIN_C_STACK_TOP else 0.

(** The address of a domain object is its index. *)
Definition arch_domain_index (id : Z) : option (fin 3) :=
  if id =? DOMAIN_A then Some 0%fin else
  if id =? DOMAIN_B then Some 1%fin else
  if id =? DOMAIN_C then Some 2%fin else None.

Definition arch_domain_lookup (id : Z) (s : mmu_state) : option LettuceArchDomain :=
  i ← arch_domain_index id; Some (arch_domains s !!! i).

Definition lettuce_arch_domain_ttbr0_val (domain : Z) (s : mmu_state) : Z :=
  match arch_domain_lookup domain s with
  | Some arch_dom => ad_ttbr0_val arch_dom
  | None => 0
  end.

(** ** Descriptors *)

Definition mask_off (low : Z) : Z := u64 (Z.lnot low).

Definition table_descriptor (table : Z) : Z := (table .& mask_off 0xfff) .| DESC_VALID .| DESC_TABLE.

Definition device_block_descriptor (physical : Z) : Z :=
  (physical .& mask_off 0x1fffff) .| DESC_VALID .| DESC_BLOCK .| DESC_AF .| DESC_SH_NON .|
  DESC_ATTR_DEVICE .| DESC_UXN .| DESC_PXN .| DESC_AP_EL1_RW.

Definition kernel_ram_block_descriptor (physical : Z) : Z :=
  (physical .& mask_off 0x1fffff) .| DESC_VALID .| DESC_BLOCK .| DESC_AF .| DESC_SH_INNER .|
  DESC_ATTR_NORMAL .| DESC_AP_EL1_RW .| DESC_UXN.

Definition page_descriptor (physical attributes : Z) : Z :=
  (physical .& mask_off 0xfff) .| DESC_VALID .| DESC_PAGE .| DESC_AF .| DESC_SH_INNER .| attributes.

(** ** Table construction *)

Definition clear_tables (t : domain_tables) : option domain_tables :=
  for_range (Z.to_nat TABLE_ENTRIES) 0
    (λ i t, l1 ← arr_set (dt_l1 t) i 0; l2 ← arr_set (dt_l2 t) i 0; l3 ← arr_set (dt_l3 t) i 0;
            Some {| dt_l1 := l1; dt_l2 := l2; dt_l3 := l3 |}) t.

Definition init_domain_tables (L : layout) (dl : domain_layout)
    (private_va private_pa stack_va stack_pa : Z) (include_ro_test_page : bool) (t : domain_tables)
    : option domain_tables :=
  t ← clear_tables t;
  l1 ← arr_set (dt_l1 t) 0 (table_descriptor (ly_kernel_l2_device L));
  l1 ← arr_set l1 1 (table_descriptor (dl_l2 dl));
  l2 ← arr_set (dt_l2 t) 0 (kernel_ram_block_descriptor KERNEL_RAM_PA);
  l2 ← arr_set l2 ((PRIVATE_A_VA .>> 21) .& 0x1ff) (table_descriptor (dl_l3 dl));
  l3 ← arr_set (dt_l3 t) ((private_va .>> 12) .& 0x1ff)
         (page_descriptor private_pa (DESC_ATTR_NORMAL .| DESC_AP_EL0_RW .| DESC_UXN .| DESC_NG));
  l3 ← arr_set l3 ((stack_va .>> 12) .& 0x1ff)
         (page_descriptor stack_pa (DESC_ATTR_NORMAL .| DESC_AP_EL0_RW .| DESC_UXN .| DESC_NG));
  l3 ← arr_set l3 ((SERVICE_CODE_VA .>> 12) .& 0x1ff)
         (page_descriptor (ly_el0_service_code_start L) (DESC_ATTR_NORMAL .| DESC_AP_EL0_RO .| DESC_PXN .| DESC_NG));
  l3 ← arr_set l3 ((SHARED_PAGE_VA .>> 12) .& 0x1ff)
         (page_descriptor (ly_shared_buffer_page L) (DESC_ATTR_NORMAL .| DESC_AP_EL0_RW .| DESC_UXN .| DESC_NG));
  l3 ← (if include_ro_test_page
        then arr_set l3 ((RO_TEST_PAGE_VA .>> 12) .& 0x1ff)
               (page_descriptor (ly_ro_test_page L) (DESC_ATTR_NORMAL .| DESC_AP_EL0_RO .| DESC_UXN .| DESC_NG))
        else Some l3);
  Some {| dt_l1 := l1; dt_l2 := l2; dt_l3 := l3 |}.

(** ** TTBR0 and the TLB *)

Definition write_ttbr (ttbr_val : Z) (h : hw_state) : hw_state :=
  if lettuce_arch_current_el h =? 2 then msr ttbr0_el2 ttbr_val h else msr ttbr0_el1 ttbr_val h.

Definition lettuce_mmu_invalidate_asid (asid : Z) (s : mmu_state) : mmu_state :=
  with_hw (if lettuce_arch_current_el (mmu_hw s) =? 2 then tlbi tlbi_alle2is (mmu_hw s)
           else tlbi (tlbi_aside1is (asid .<< 48)) (mmu_hw s)) s.

Definition lettuce_mmu_invalidate_domain (domain : Z) (s : mmu_state) : mmu_state :=
  match arch_domain_lookup domain s with
  | Some arch_dom => lettuce_mmu_invalidate_asid (ad_asid arch_dom) s
  | None => s
  end.

Definition lettuce_mmu_invalidate_all (s : mmu_state) : mmu_state :=
  with_hw (if lettuce_arch_current_el (mmu_hw s) =? 2 then tlbi tlbi_alle2is (mmu_hw s)
           else tlbi tlbi_vmalle1is (mmu_hw s)) s.

Definition lettuce_mmu_active_ttbr0 (s : mmu_state) : Z :=
  if lettuce_arch_current_el (mmu_hw s) =? 2 then mrs ttbr0_el2 (mmu_hw s) else mrs ttbr0_el1 (mmu_hw s).

Definition lettuce_mmu_active_asid (s : mmu_state) : Z := u16 (lettuce_mmu_active_ttbr0 s .>> 48).

(** ** Initialisation *)

Definition init_device_table (table : list Z) : option (list Z) :=
  t ← for_range (Z.to_nat TABLE_ENTRIES) 0 (λ i t, arr_set t i 0) table;
  t ← arr_set t ((GIC_PA .>> 21) .& 0x1ff) (device_block_descriptor GIC_PA);
  arr_set t ((UART_PA .>> 21) .& 0x1ff) (device_block_descriptor UART_PA).

Definition init_tables (L : layout) (tt : translation_tables) : option translation_tables :=
  device ← init_device_table (kernel_l2_device tt);
  a ← init_domain_tables L (ly_a L) PRIVATE_A_VA PRIVATE_A_PA DOMAIN_A_STACK_VA (dl_stack_page (ly_a L)) true (tt_a tt);
  b ← init_domain_tables L (ly_b L) PRIVATE_B_VA (dl_private_page (ly_b L)) DOMAIN_B_STACK_VA
        (dl_stack_page (ly_b L)) false (tt_b tt);
  c ← init_domain_tables L (ly_c L) PRIVATE_C_VA (dl_private_page (ly_c L)) DOMAIN_C_STACK_VA
        (dl_stack_page (ly_c L)) false (tt_c tt);
  Some {| kernel_l2_device := device; tt_a := a; tt_b := b; tt_c := c |}.

Definition zero_pages (p : backing_pages) : option backing_pages :=
  for_range (Z.to_nat (PAGE_SIZE / 8)) 0
    (λ i p,
       ap ← arr_set (domain_a_private_page p) i 0; ast ← arr_set (domain_a_stack_page p) i 0;
       bp ← arr_set (domain_b_private_page p) i 0; bst ← arr_set (domain_b_stack_page p) i 0;
       cp ← arr_set (domain_c_private_page p) i 0; cst ← arr_set (domain_c_stack_page p) i 0;
       sh ← arr_set (shared_buffer_page p) i 0; ro ← arr_set (ro_test_page p) i 0;
       Some {| domain_a_private_page := ap; domain_a_stack_page := ast;
               domain_b_private_page := bp; domain_b_stack_page := bst;
               domain_c_private_page := cp; domain_c_stack_page := cst;
               shared_buffer_page := sh; ro_test_page := ro |}) p.

Definition MAIR : Z := 0xff .| (0x00 .<< 8).

Definition TCR_EL1 : Z :=
  (25 .<< 0) .| (1 .<< 8) .| (1 .<< 10) .| (3 .<< 12) .| (0 .<< 14) .| (1 .<< 23) .| (2 .<< 32) .| (1 .<< 36).

Definition TCR_EL2 : Z :=
  (25 .<< 0) .| (1 .<< 8) .| (1 .<< 10) .| (3 .<< 12) .| (0 .<< 14) .| (2 .<< 16) .| (1 .<< 23) .| (1 .<< 31).

(** [((uint64_t)asid << 48) | (l1_root & 0x0000FFFFFFFFF000)] *)
Definition ttbr0_value (asid l1_root : Z) : Z := (asid .<< 48) .| (l1_root .& 0x0000FFFFFFFFF000).

Definition precompute_ttbr0 (d : LettuceArchDomain) : LettuceArchDomain :=
  {| ad_ttbr0_val := ttbr0_value (ad_asid d) (ad_l1_root d); ad_l1_root := ad_l1_root d;
     ad_private_va := ad_private_va d; ad_private_pa := ad_private_pa d; ad_stack_va := ad_stack_va d;
     ad_stack_pa := ad_stack_pa d; ad_stack_top := ad_stack_top d; ad_id := ad_id d; ad_asid := ad_asid d |}.

Definition lettuce_mmu_init (L : layout) (s : mmu_state) : option mmu_state :=
  tables ← init_tables L (mmu_tables s);
  pages ← zero_pages (mmu_pages s);
  let h := mmu_hw s in
  let h := if lettuce_arch_current_el h =? 2 then msr tcr_el2 TCR_EL2 (msr mair_el2 MAIR h)
           else msr tcr_el1 TCR_EL1 (msr mair_el1 MAIR h) in
  let domains := vmap precompute_ttbr0 (arch_domains s) in
  let s := {| mmu_tables := tables; mmu_pages := pages; arch_domains := domains;
              current_domain := current_domain s; mmu_faults := mmu_faults s; mmu_hw := h |} in
  let s := lettuce_mmu_invalidate_all s in
  let h := write_ttbr (ad_ttbr0_val (domains !!! 0%fin)) (mmu_hw s) in
  let h := if lettuce_arch_current_el h =? 2 then msr sctlr_el2 (mrs sctlr_el2 h .| 1) h
           else msr sctlr_el1 (mrs sctlr_el1 h .| 1) h in
  Some (lettuce_mmu_set_current_domain DOMAIN_A (with_hw h s)).

(** ** Switching domains *)

Definition lettuce_mmu_enter (domain : Z) (s : mmu_state) : Z * mmu_state :=
  let previous := current_domain s in
  if (domain =? previous) || (domain =? LETTUCE_DOMAIN_ID_INVALID) then (previous, s) else
  match arch_domain_lookup domain s with
  | None => (previous, s)
  | Some target =>
      (previous, lettuce_mmu_set_current_domain domain
                   (with_hw (write_ttbr (ad_ttbr0_val target) (mmu_hw s)) s))
  end.

Definition lettuce_mmu_leave (previous_domain : Z) (s : mmu_state) : mmu_state :=
  (lettuce_mmu_enter previous_domain s).2.

Definition lettuce_mmu_current_domain (s : mmu_state) : Z := current_domain s.

(** [protection.c], the ARM64 branch. *)
#[export] Instance mmu_protection_ops : ProtectionOps mmu_state := {
  lettuce_protection_enter := lettuce_mmu_enter;
  lettuce_protection_leave := lettuce_mmu_leave;
  lettuce_protection_current_domain := lettuce_mmu_current_domain
}.

(** ** Expected faults *)

Definition expect_fault_at (far : Z) (f : fault_state) : fault_state :=
  {| g_expecting_fault := true; g_fault_observed := false; g_expected_far := far; g_last_fault_far := 0;
     g_last_fault_esr := 0; g_last_fault_elr := 0;
     g_expecting_sysreg_trap := g_expecting_sysreg_trap f;
     g_sysreg_trap_observed := g_sysreg_trap_observed f |}.

Definition lettuce_mmu_expect_data_abort (s : mmu_state) : mmu_state :=
  with_faults (expect_fault_at 0 (mmu_faults s)) s.

Definition lettuce_mmu_expect_fault (expected_far : Z) (s : mmu_state) : mmu_state :=
  with_faults (expect_fault_at expected_far (mmu_faults s)) s.

Definition lettuce_mmu_expected_fault_observed (s : mmu_state) : bool := g_fault_observed (mmu_faults s).

Definition lettuce_mmu_last_fault_far (s : mmu_state) : Z := g_last_fault_far (mmu_faults s).
Definition lettuce_mmu_last_fault_esr (s : mmu_state) : Z := g_last_fault_esr (mmu_faults s).
Definition lettuce_mmu_last_fault_elr (s : mmu_state) : Z := g_last_fault_elr (mmu_faults s).

Definition fault_taken (f : fault_state) : fault_state :=
  {| g_expecting_fault := false; g_fault_observed := true; g_expected_far := g_expected_far f;
     g_last_fault_far := g_last_fault_far f; g_last_fault_esr := g_last_fault_esr f;
     g_last_fault_elr := g_last_fault_elr f; g_expecting_sysreg_trap := g_expecting_sysreg_trap f;
     g_sysreg_trap_observed := g_sysreg_trap_observed f |}.

Definition lettuce_mmu_handle_expected_data_abort (s : mmu_state) : bool * mmu_state :=
  if negb (g_expecting_fault (mmu_faults s)) then (false, s)
  else (true, with_faults (fault_taken (mmu_faults s)) s).

Definition fault_recorded (esr far elr : Z) (f : fault_state) : fault_state :=
  {| g_expecting_fault := g_expecting_fault f; g_fault_observed := g_fault_observed f;
     g_expected_far := g_expected_far f; g_last_fault_far := far; g_last_fault_esr := esr;
     g_last_fault_elr := elr; g_expecting_sysreg_trap := g_expecting_sysreg_trap f;
     g_sysreg_trap_observed := g_sysreg_trap_observed f |}.

Definition lettuce_mmu_handle_fault (esr far elr : Z) (s : mmu_state) : bool * mmu_state :=
  let f := fault_recorded esr far elr (mmu_faults s) in
  if negb (g_expecting_fault f) then (false, with_faults f s) else (true, with_faults (fault_taken f) s).

Definition lettuce_arch_expect_sysreg_trap (s : mmu_state) : mmu_state :=
  let f := mmu_faults s in
  with_faults {| g_expecting_fault := g_expecting_fault f; g_fault_observed := g_fault_observed f;
                 g_expected_far := g_expected_far f; g_last_fault_far := g_last_fault_far f;
                 g_last_fault_esr := g_last_fault_esr f; g_last_fault_elr := g_last_fault_elr f;
                 g_expecting_sysreg_trap := true; g_sysreg_trap_observed := false |} s.

Definition lettuce_arch_sysreg_trap_observed (s : mmu_state) : bool := g_sysreg_trap_observed (mmu_faults s).

Definition lettuce_arch_handle_sysreg_trap (esr elr : Z) (s : mmu_state) : bool * mmu_state :=
  let f := fault_recorded esr (g_last_fault_far (mmu_faults s)) elr (mmu_faults s) in
  if negb (g_expecting_sysreg_trap f) then (false, with_faults f s) else
  (true, with_faults {| g_expecting_fault := g_expecting_fault f; g_fault_observed := g_fault_observed f;
                        g_expected_far := g_expected_far f; g_last_fault_far := g_last_fault_far f;
                        g_last_fault_esr := g_last_fault_esr f; g_last_fault_elr := g_last_fault_elr f;
                        g_expecting_sysreg_trap := false; g_sysreg_trap_observed := true |} s).
