(* ===== verification/MmuSpec.v ===== *)
(** * What the address spaces guarantee

    The tables are read the way the architecture reads them with the configuration
    [lettuce_mmu_init] writes (4 KB granule, 39-bit addresses, root at level 1): [walk]
    is that reading, [el0_access] adds the permission bits at EL0.  The claims are about
    what user code of each domain is able to reach. *)

From stdpp Require Import vector.
From S2P Require Import Prelude Types Context Mmu.

(** ** Reading the tables *)

Definition ADDR_MASK : Z := 0x0000FFFFFFFFF000.
Definition BLOCK_2M_MASK : Z := 0x0000FFFFFFE00000.
Definition BLOCK_1G_MASK : Z := 0x0000FFFFC0000000.

(** The table stored at a physical address. *)
Definition tables_at (L : layout) (tt : translation_tables) : list (Z * list Z) :=
  let dom dl t := [(dl_l1 dl, dt_l1 t); (dl_l2 dl, dt_l2 t); (dl_l3 dl, dt_l3 t)] in
  (ly_kernel_l2_device L, kernel_l2_device tt) ::
  dom (ly_a L) (tt_a tt) ++ dom (ly_b L) (tt_b tt) ++ dom (ly_c L) (tt_c tt).

Fixpoint table_at (ts : list (Z * list Z)) (pa : Z) : option (list Z) :=
  match ts with
  | [] => None
  | (p, t) :: ts' => if decide (p = pa) then Some t else table_at ts' pa
  end.

Definition desc_valid (d : Z) : bool := Z.testbit d 0.
Definition desc_next (d : Z) : bool := Z.testbit d 1.

(** The physical address and the leaf descriptor of a virtual address. *)
Definition walk (ts : list (Z * list Z)) (root va : Z) : option (Z * Z) :=
  if negb ((0 <=? va) && (va <? 2 ^ 39)) then None else
  l1 ← table_at ts root;
  d1 ← arr_get l1 ((va .>> 30) .& 0x1ff);
  if negb (desc_valid d1) then None else
  if negb (desc_next d1) then Some ((d1 .& BLOCK_1G_MASK) + va mod 2 ^ 30, d1) else
  l2 ← table_at ts (d1 .& ADDR_MASK);
  d2 ← arr_get l2 ((va .>> 21) .& 0x1ff);
  if negb (desc_valid d2) then None else
  if negb (desc_next d2) then Some ((d2 .& BLOCK_2M_MASK) + va mod 2 ^ 21, d2) else
  l3 ← table_at ts (d2 .& ADDR_MASK);
  d3 ← arr_get l3 ((va .>> 12) .& 0x1ff);
  if negb (desc_valid d3 && desc_next d3) then None else
  Some ((d3 .& ADDR_MASK) + va mod 2 ^ 12, d3).

Inductive access := Read | Write | Exec.

(** AP[1] opens a page to EL0, AP[2] makes it read-only, UXN forbids execution. *)
Definition el0_may (k : access) (d : Z) : bool :=
  match k with
  | Read => Z.testbit d 6
  | Write => Z.testbit d 6 && negb (Z.testbit d 7)
  | Exec => negb (Z.testbit d 54)
  end.

Definition el0_access (ts : list (Z * list Z)) (root : Z) (k : access) (va : Z) : option Z :=
  '(pa, d) ← walk ts root va; if el0_may k d then Some pa else None.

(** ** What each domain is meant to see *)

Record el0_page := { pg_va : Z; pg_pa : Z; pg_write : bool; pg_exec : bool }.

Definition pg_allows (k : access) (p : el0_page) : bool :=
  match k with Read => true | Write => pg_write p | Exec => pg_exec p end.

Definition data_page (va pa : Z) : el0_page := {| pg_va := va; pg_pa := pa; pg_write := true; pg_exec := false |}.
Definition code_page (va pa : Z) : el0_page := {| pg_va := va; pg_pa := pa; pg_write := false; pg_exec := true |}.
Definition ro_page (va pa : Z) : el0_page := {| pg_va := va; pg_pa := pa; pg_write := false; pg_exec := false |}.

Definition common_pages (L : layout) : list el0_page :=
  [code_page SERVICE_CODE_VA (ly_el0_service_code_start L); data_page SHARED_PAGE_VA (ly_shared_buffer_page L)].

Definition domain_pages (L : layout) (i : fin 3) : list el0_page :=
  match fin_to_nat i with
  | 0%nat => [data_page PRIVATE_A_VA PRIVATE_A_PA; data_page DOMAIN_A_STACK_VA (dl_stack_page (ly_a L))] ++
             common_pages L ++ [ro_page RO_TEST_PAGE_VA (ly_ro_test_page L)]
  | 1%nat => [data_page PRIVATE_B_VA (dl_private_page (ly_b L)); data_page DOMAIN_B_STACK_VA (dl_stack_page (ly_b L))] ++
             common_pages L
  | _ => [data_page PRIVATE_C_VA (dl_private_page (ly_c L)); data_page DOMAIN_C_STACK_VA (dl_stack_page (ly_c L))] ++
         common_pages L
  end.

(** The linker's promises: the arrays are page aligned, inside the 2 MB kernel image,
    and do not overlap. *)
Definition layout_tables (L : layout) : list Z :=
  let dom dl := [dl_l1 dl; dl_l2 dl; dl_l3 dl] in
  ly_kernel_l2_device L :: dom (ly_a L) ++ dom (ly_b L) ++ dom (ly_c L).

Definition layout_pages (L : layout) : list Z :=
  let dom dl := [dl_private_page dl; dl_stack_page dl] in
  dom (ly_a L) ++ dom (ly_b L) ++ dom (ly_c L) ++
  [ly_shared_buffer_page L; ly_ro_test_page L; ly_el0_service_code_start L].

Definition layout_addresses (L : layout) : list Z := layout_tables L ++ layout_pages L.

Definition page_ok (pa : Z) : Prop := pa .& ADDR_MASK = pa.

Record layout_ok (L : layout) : Prop := {
  lo_pages : Forall page_ok (layout_addresses L);
  lo_image : Forall (λ pa, KERNEL_RAM_PA ≤ pa < KERNEL_RAM_PA + 0x200000) (layout_addresses L);
  lo_nodup : NoDup (layout_addresses L)
}.

(** ** Descriptors *)

Lemma land_within (p m m' : Z) : p .& m = p → m .& m' = m → p .& m' = p.
Proof. intros Hp Hm. rewrite <- Hp at 1. by rewrite <- Z.land_assoc, Hm. Qed.

Lemma desc_addr (pa c : Z) : page_ok pa → c .& ADDR_MASK = 0 → (pa .| c) .& ADDR_MASK = pa.
Proof. intros Hp Hc. rewrite Z.land_lor_distr_l, Hc, Hp. by rewrite Z.lor_0_r. Qed.

Lemma desc_bit (pa c k : Z) : page_ok pa → Z.testbit ADDR_MASK k = false → Z.testbit (pa .| c) k = Z.testbit c k.
Proof.
  unfold page_ok. intros Hp Hk. rewrite Z.lor_spec. rewrite <- Hp at 1. by rewrite Z.land_spec, Hk, andb_false_r.
Qed.

Lemma page_ok_mask (pa : Z) : page_ok pa → pa .& mask_off 0xfff = pa.
Proof. intros Hp. eapply land_within; [exact Hp|reflexivity]. Qed.

Lemma table_descriptor_eq (pa : Z) : page_ok pa → table_descriptor pa = pa .| 3.
Proof. intros Hp. unfold table_descriptor. rewrite page_ok_mask by done. by rewrite <- Z.lor_assoc. Qed.

Lemma page_descriptor_eq (pa attrs : Z) : page_ok pa → page_descriptor pa attrs = pa .| (0x703 .| attrs).
Proof.
  intros Hp. unfold page_descriptor. rewrite page_ok_mask by done.
  change 0x703 with (DESC_VALID .| DESC_PAGE .| DESC_AF .| DESC_SH_INNER). by rewrite <- !Z.lor_assoc.
Qed.

Lemma el0_may_desc (k : access) (pa c : Z) : page_ok pa → el0_may k (pa .| c) = el0_may k c.
Proof. intros Hp. destruct k; cbn [el0_may]; by rewrite ?desc_bit by done. Qed.

(** ** Virtual addresses *)

Lemma index_bits (va n : Z) : 0 ≤ n → (va .>> n) .& 0x1ff = (va / 2 ^ n) mod 512.
Proof.
  intros Hn. rewrite Z.shiftr_div_pow2 by done. change 0x1ff with (2 ^ 9 - 1). by rewrite land_low_bits.
Qed.

Lemma va_split (va : Z) :
  0 ≤ va < 2 ^ 39 →
  let i1 := (va .>> 30) .& 0x1ff in let i2 := (va .>> 21) .& 0x1ff in let i3 := (va .>> 12) .& 0x1ff in
  0 ≤ i1 < 512 ∧ 0 ≤ i2 < 512 ∧ 0 ≤ i3 < 512 ∧
  va = i1 * 2 ^ 30 + i2 * 2 ^ 21 + i3 * 2 ^ 12 + va mod 4096.
Proof.
  intros Hva i1 i2 i3. subst i1 i2 i3. rewrite !index_bits by lia.
  change (2 ^ 39) with 549755813888 in Hva. change (2 ^ 30) with 1073741824. change (2 ^ 21) with 2097152.
  change (2 ^ 12) with 4096. Z.to_euclidean_division_equations. lia.
Qed.

(** ** The tables the code builds *)

Definition tables_ok (t : domain_tables) : Prop :=
  length (dt_l1 t) = 512%nat ∧ length (dt_l2 t) = 512%nat ∧ length (dt_l3 t) = 512%nat.

Lemma clear_tables_spec (t : domain_tables) :
  tables_ok t →
  clear_tables t = Some {| dt_l1 := replicate 512 0; dt_l2 := replicate 512 0; dt_l3 := replicate 512 0 |}.
Proof.
  intros (H1 & H2 & H3). unfold clear_tables. match goal with |- for_range ?n _ ?body _ = _ =>
    destruct (for_range_inv (λ i t, filled 512 0 i (dt_l1 t) ∧ filled 512 0 i (dt_l2 t) ∧ filled 512 0 i (dt_l3 t))
      n 0 body t) as (t' & -> & F1 & F2 & F3) end.
  - split_and!; [rewrite <- H1|rewrite <- H2|rewrite <- H3]; apply filled_start.
  - intros k x Hk (F1 & F2 & F3). change (Z.to_nat TABLE_ENTRIES) with 512%nat in Hk.
    destruct (filled_step _ _ _ _ F1) as (l1 & -> & F1'); [lia|].
    destruct (filled_step _ _ _ _ F2) as (l2 & -> & F2'); [lia|].
    destruct (filled_step _ _ _ _ F3) as (l3 & -> & F3'); [lia|]. eexists. split; [done|]. auto.
  - destruct t' as [l1 l2 l3]. cbn [dt_l1 dt_l2 dt_l3] in *.
    by rewrite (filled_done 512 0 l1 F1), (filled_done 512 0 l2 F2), (filled_done 512 0 l3 F3).
Qed.

(** A table that is zero but for the given entries, later ones first. *)
Fixpoint entry_of (es : list (Z * Z)) (i : Z) : Z :=
  match es with
  | [] => 0
  | (k, d) :: es' => if decide (k = i) then d else entry_of es' i
  end.

Definition sparse (t : list Z) (es : list (Z * Z)) : Prop :=
  length t = 512%nat ∧ ∀ i, 0 ≤ i < 512 → arr_get t i = Some (entry_of es i).

Lemma sparse_nil : sparse (replicate 512 0) [].
Proof. split; [by rewrite length_replicate|]. intros i Hi. by rewrite arr_get_replicate. Qed.

Lemma sparse_set (t : list Z) (es : list (Z * Z)) (k d : Z) :
  sparse t es → 0 ≤ k < 512 → ∃ t', arr_set t k d = Some t' ∧ sparse t' ((k, d) :: es).
Proof.
  intros [Hl Ht] Hk. rewrite arr_set_Some by lia. eexists. split; [done|]. split; [by rewrite length_insert|].
  intros i Hi. rewrite arr_get_insert by lia. cbn. case_decide; [done|]. by apply Ht.
Qed.

Definition DATA_ATTRS : Z := DESC_ATTR_NORMAL .| DESC_AP_EL0_RW .| DESC_UXN .| DESC_NG.
Definition CODE_ATTRS : Z := DESC_ATTR_NORMAL .| DESC_AP_EL0_RO .| DESC_PXN .| DESC_NG.
Definition RO_ATTRS : Z := DESC_ATTR_NORMAL .| DESC_AP_EL0_RO .| DESC_UXN .| DESC_NG.

Definition page_attrs (p : el0_page) : Z :=
  if pg_write p then DATA_ATTRS else if pg_exec p then CODE_ATTRS else RO_ATTRS.

Definition page_index (va : Z) : Z := (va .>> 12) .& 0x1ff.

Definition page_entry (p : el0_page) : Z * Z := (page_index (pg_va p), page_descriptor (pg_pa p) (page_attrs p)).

(** The tables of a domain that shows [pages] to EL0. *)
Record domain_tables_spec (L : layout) (dl : domain_layout) (pages : list el0_page) (t : domain_tables) : Prop := {
  ds_l1 : sparse (dt_l1 t) [(1, table_descriptor (dl_l2 dl)); (0, table_descriptor (ly_kernel_l2_device L))];
  ds_l2 : sparse (dt_l2 t) [(8, table_descriptor (dl_l3 dl)); (0, kernel_ram_block_descriptor KERNEL_RAM_PA)];
  ds_l3 : sparse (dt_l3 t) (reverse (page_entry <$> pages))
}.

Lemma index_range (va : Z) : 0 ≤ page_index va < 512.
Proof.
  unfold page_index. change 0x1ff with (2 ^ 9 - 1). rewrite land_low_bits by lia. by apply Z.mod_pos_bound.
Qed.

Lemma init_domain_tables_spec (L : layout) (dl : domain_layout) pva ppa sva spa (ro : bool) (t : domain_tables) :
  tables_ok t →
  ∃ t', init_domain_tables L dl pva ppa sva spa ro t = Some t' ∧
    domain_tables_spec L dl ([data_page pva ppa; data_page sva spa] ++ common_pages L ++
      (if ro then [ro_page RO_TEST_PAGE_VA (ly_ro_test_page L)] else [])) t'.
Proof.
  intros Ht. unfold init_domain_tables. rewrite clear_tables_spec by done. cbn [mbind option_bind dt_l1 dt_l2 dt_l3].
  destruct (sparse_set _ _ 0 (table_descriptor (ly_kernel_l2_device L)) sparse_nil) as (a1 & -> & A1); [lia|].
  cbn [mbind option_bind].
  destruct (sparse_set _ _ 1 (table_descriptor (dl_l2 dl)) A1) as (a2 & -> & A2); [lia|]. cbn [mbind option_bind].
  destruct (sparse_set _ _ 0 (kernel_ram_block_descriptor KERNEL_RAM_PA) sparse_nil) as (b1 & -> & B1); [lia|].
  cbn [mbind option_bind]. change ((PRIVATE_A_VA .>> 21) .& 0x1ff) with 8.
  destruct (sparse_set _ _ 8 (table_descriptor (dl_l3 dl)) B1) as (b2 & -> & B2); [lia|]. cbn [mbind option_bind].
  fold (page_index pva) (page_index sva) (page_index SERVICE_CODE_VA) (page_index SHARED_PAGE_VA)
    (page_index RO_TEST_PAGE_VA). fold DATA_ATTRS CODE_ATTRS RO_ATTRS.
  destruct (sparse_set _ _ (page_index pva) (page_descriptor ppa DATA_ATTRS) sparse_nil (index_range _))
    as (c1 & -> & C1). cbn [mbind option_bind].
  destruct (sparse_set _ _ (page_index sva) (page_descriptor spa DATA_ATTRS) C1 (index_range _))
    as (c2 & -> & C2). cbn [mbind option_bind].
  destruct (sparse_set _ _ (page_index SERVICE_CODE_VA) (page_descriptor (ly_el0_service_code_start L) CODE_ATTRS) C2
    (index_range _)) as (c3 & -> & C3). cbn [mbind option_bind].
  destruct (sparse_set _ _ (page_index SHARED_PAGE_VA) (page_descriptor (ly_shared_buffer_page L) DATA_ATTRS) C3
    (index_range _)) as (c4 & -> & C4). cbn [mbind option_bind].
  destruct (sparse_set _ _ (page_index RO_TEST_PAGE_VA) (page_descriptor (ly_ro_test_page L) RO_ATTRS) C4
    (index_range _)) as (c5 & H5 & C5).
  destruct ro; [rewrite H5|]; cbn [mbind option_bind]; eexists; (split; [done|]); by split.
Qed.

Lemma init_device_spec (t : list Z) :
  length t = 512%nat →
  ∃ t', init_device_table t = Some t' ∧
    sparse t' [(72, device_block_descriptor UART_PA); (64, device_block_descriptor GIC_PA)].
Proof.
  intros Hl. unfold init_device_table.
  destruct (for_range_inv (filled 512 0) (Z.to_nat TABLE_ENTRIES) 0 (λ i t, arr_set t i 0) t) as (t' & -> & F).
  - rewrite <- Hl. apply filled_start.
  - intros k l Hk F. change (Z.to_nat TABLE_ENTRIES) with 512%nat in Hk. by apply filled_step; [|lia].
  - rewrite (filled_done 512 0 t' F). cbn [mbind option_bind].
    change ((GIC_PA .>> 21) .& 0x1ff) with 64. change ((UART_PA .>> 21) .& 0x1ff) with 72.
    destruct (sparse_set _ _ 64 (device_block_descriptor GIC_PA) sparse_nil) as (a1 & -> & A1); [lia|].
    cbn [mbind option_bind].
    destruct (sparse_set _ _ 72 (device_block_descriptor UART_PA) A1) as (a2 & -> & A2); [lia|]. by exists a2.
Qed.

(** ** What EL0 reaches through such tables *)

Lemma entry_of_cases (es : list (Z * Z)) (i : Z) :
  (i, entry_of es i) ∈ es ∨ ((∀ d, (i, d) ∉ es) ∧ entry_of es i = 0).
Proof.
  induction es as [|[k d] es IH]; cbn; [right; set_solver|].
  case_decide as Hk; [subst; left; set_solver|]. destruct IH as [IH|[IH1 IH2]]; [left; set_solver|right].
  split; [|done]. intros x Hx. apply elem_of_cons in Hx as [[= -> ->]|Hx]; [done|by apply (IH1 x)].
Qed.

(** Pages of the 2 MB service region, with distinct slots, none both writable and
    executable. *)
Record pages_ok (pages : list el0_page) : Prop := {
  po_frame : ∀ p, p ∈ pages → page_ok (pg_pa p);
  po_region : ∀ p, p ∈ pages → pg_va p = 0x41000000 + page_index (pg_va p) * 4096;
  po_wx : ∀ p, p ∈ pages → pg_write p && pg_exec p = false;
  po_slots : ∀ p q, p ∈ pages → q ∈ pages → page_index (pg_va p) = page_index (pg_va q) → p = q
}.

Lemma table_descriptor_facts (pa : Z) :
  page_ok pa →
  desc_valid (table_descriptor pa) = true ∧ desc_next (table_descriptor pa) = true ∧
  table_descriptor pa .& ADDR_MASK = pa.
Proof.
  intros Hp. rewrite table_descriptor_eq by done. unfold desc_valid, desc_next.
  split_and!; [by rewrite desc_bit..|by apply desc_addr].
Qed.

Lemma page_entry_facts (p : el0_page) :
  page_ok (pg_pa p) → pg_write p && pg_exec p = false →
  let d := page_descriptor (pg_pa p) (page_attrs p) in
  desc_valid d && desc_next d = true ∧ d .& ADDR_MASK = pg_pa p ∧ ∀ k, el0_may k d = pg_allows k p.
Proof.
  intros Hp Hwx d. subst d. rewrite page_descriptor_eq by done. unfold desc_valid, desc_next.
  rewrite (desc_bit _ _ 0), (desc_bit _ _ 1) by done. destruct p as [va pa [] []]; cbn in Hwx; try done;
    (split_and!; [reflexivity|by apply desc_addr|intros []; rewrite el0_may_desc by exact Hp; reflexivity]).
Qed.

Section domain.
Context (ts : list (Z * list Z)) (L : layout) (dl : domain_layout) (t : domain_tables) (dev : list Z).
Context (pages : list el0_page).
Context (Hpages : pages_ok pages) (Hspec : domain_tables_spec L dl pages t).
Context (Hdev : sparse dev [(72, device_block_descriptor UART_PA); (64, device_block_descriptor GIC_PA)]).
Context (H1 : table_at ts (dl_l1 dl) = Some (dt_l1 t)) (H2 : table_at ts (dl_l2 dl) = Some (dt_l2 t)).
Context (H3 : table_at ts (dl_l3 dl) = Some (dt_l3 t)) (H0 : table_at ts (ly_kernel_l2_device L) = Some dev).
Context (P2 : page_ok (dl_l2 dl)) (P3 : page_ok (dl_l3 dl)) (P0 : page_ok (ly_kernel_l2_device L)).

(** Device registers and the kernel image are closed to EL0. *)
Lemma el0_outside_region (k : access) (va : Z) :
  0 ≤ va < 2 ^ 39 → ¬ ((va .>> 30) .& 0x1ff = 1 ∧ (va .>> 21) .& 0x1ff = 8) →
  el0_access ts (dl_l1 dl) k va = None.
Proof using All.
  intros Hva Hout. destruct (va_split va Hva) as (R1 & R2 & R3 & _). unfold el0_access, walk.
  rewrite (proj2 (Z.leb_le 0 va)), (proj2 (Z.ltb_lt va (2 ^ 39))) by lia. cbn [andb negb].
  rewrite H1. cbn [mbind option_bind]. rewrite (proj2 (ds_l1 _ _ _ _ Hspec)) by done.
  cbn [mbind option_bind entry_of]. case_decide as D1; [|case_decide as D0; [|done]].
  - destruct (table_descriptor_facts _ P2) as (-> & -> & ->). cbn [negb]. rewrite H2. cbn [mbind option_bind].
    rewrite (proj2 (ds_l2 _ _ _ _ Hspec)) by done. cbn [mbind option_bind entry_of].
    case_decide as D8; [by destruct Hout|]. case_decide; [|done].
    cbn -[Z.modulo Z.add Z.pow]. by destruct k.
  - destruct (table_descriptor_facts _ P0) as (-> & -> & ->). cbn [negb]. rewrite H0. cbn [mbind option_bind].
    rewrite (proj2 Hdev) by done. cbn [mbind option_bind entry_of].
    case_decide; [|case_decide; [|done]]; cbn -[Z.modulo Z.add Z.pow]; by destruct k.
Qed.

Lemma el0_inside_region (k : access) (va : Z) :
  0 ≤ va < 2 ^ 39 → (va .>> 30) .& 0x1ff = 1 → (va .>> 21) .& 0x1ff = 8 →
  el0_access ts (dl_l1 dl) k va =
    (let d := entry_of (reverse (page_entry <$> pages)) (page_index va) in
     if desc_valid d && desc_next d then if el0_may k d then Some ((d .& ADDR_MASK) + va mod 4096) else None
     else None).
Proof using All.
  intros Hva E1 E2. destruct (va_split va Hva) as (R1 & R2 & R3 & _). unfold el0_access, walk.
  rewrite (proj2 (Z.leb_le 0 va)), (proj2 (Z.ltb_lt va (2 ^ 39))) by lia. cbn [andb negb].
  rewrite H1. cbn [mbind option_bind]. rewrite (proj2 (ds_l1 _ _ _ _ Hspec)) by done. rewrite E1.
  cbn [mbind option_bind entry_of]. rewrite decide_True by done.
  destruct (table_descriptor_facts _ P2) as (-> & -> & ->). cbn [negb]. rewrite H2. cbn [mbind option_bind].
  rewrite (proj2 (ds_l2 _ _ _ _ Hspec)) by done. rewrite E2. cbn [mbind option_bind entry_of].
  rewrite decide_True by done. destruct (table_descriptor_facts _ P3) as (-> & -> & ->). cbn [negb].
  rewrite H3. cbn [mbind option_bind]. rewrite (proj2 (ds_l3 _ _ _ _ Hspec)) by done.
  cbn [mbind option_bind]. fold (page_index va). cbv zeta. change (2 ^ 12) with 4096. by destruct (_ && _).
Qed.

Lemma el0_access_exact (k : access) (va pa : Z) :
  el0_access ts (dl_l1 dl) k va = Some pa ↔
  ∃ p, p ∈ pages ∧ pg_allows k p = true ∧ va - va mod 4096 = pg_va p ∧ pa = pg_pa p + va mod 4096.
Proof using All.
  assert (∀ p, p ∈ pages → va - va mod 4096 = pg_va p → 0 ≤ va < 2 ^ 39 ∧
    (va .>> 30) .& 0x1ff = 1 ∧ (va .>> 21) .& 0x1ff = 8 ∧ page_index va = page_index (pg_va p)) as Hin.
  { intros p Hp Hva. pose proof (po_region _ Hpages p Hp) as Hr. pose proof (index_range (pg_va p)) as Hi.
    assert (0 ≤ va < 2 ^ 39) as R by (Z.to_euclidean_division_equations; lia). split; [done|].
    destruct (va_split va R) as (R1 & R2 & R3 & Heq). unfold page_index in *. lia. }
  destruct (decide (0 ≤ va < 2 ^ 39)) as [R|R].
  2:{ split; [|intros (p & Hp & _ & Hva & _); by destruct (Hin p Hp Hva)].
      unfold el0_access, walk. destruct (_ && _) eqn:B; [|done]. b2p. lia. }
  destruct (decide ((va .>> 30) .& 0x1ff = 1 ∧ (va .>> 21) .& 0x1ff = 8)) as [[E1 E2]|Hout].
  2:{ rewrite el0_outside_region by done. split; [done|]. intros (p & Hp & _ & Hva & _).
      destruct (Hin p Hp Hva) as (_ & ? & ? & _). tauto. }
  rewrite el0_inside_region by done. cbv zeta.
  destruct (entry_of_cases (reverse (page_entry <$> pages)) (page_index va)) as [He|[Hno ->]].
  - apply elem_of_reverse, list_elem_of_fmap in He as (p & [= Hi ->] & Hp).
    destruct (page_entry_facts p (po_frame _ Hpages p Hp) (po_wx _ Hpages p Hp)) as (-> & -> & ->).
    assert (va - va mod 4096 = pg_va p) as Hbase.
    { rewrite (po_region _ Hpages p Hp), <- Hi. destruct (va_split va R) as (_ & _ & _ & Heq).
      unfold page_index. lia. }
    split.
    + destruct (pg_allows k p) eqn:Hk; [|done]. intros [= <-]. by exists p.
    + intros (q & Hq & Hk & Hva & ->). destruct (Hin q Hq Hva) as (_ & _ & _ & Hiq).
      rewrite (po_slots _ Hpages p q) by congruence. by rewrite Hk.
  - split; [done|]. intros (p & Hp & _ & Hva & _). destruct (Hin p Hp Hva) as (_ & _ & _ & Hi).
    destruct (Hno (page_descriptor (pg_pa p) (page_attrs p))). rewrite Hi.
    apply elem_of_reverse, list_elem_of_fmap. by exists p.
Qed.

End domain.

(** ** The initialised system *)

Lemma table_at_elem (ts : list (Z * list Z)) (p : Z) (t : list Z) :
  NoDup (fst <$> ts) → (p, t) ∈ ts → table_at ts p = Some t.
Proof.
  induction ts as [|[q u] ts IH]; cbn; intros Hnd Hin; [set_solver|].
  apply NoDup_cons in Hnd as [Hq Hnd]. apply elem_of_cons in Hin as [[= -> ->]|Hin]; [by rewrite decide_True|].
  rewrite decide_False; [by apply IH|]. intros ->. apply Hq, list_elem_of_fmap. by exists (p, t).
Qed.

Lemma fin3_cases (i : fin 3) : i = 0%fin ∨ i = 1%fin ∨ i = 2%fin.
Proof.
  inv_fin i; [by left|]. intros i. right. inv_fin i; [by left|]. intros i. right. inv_fin i; [done|]. intros i.
  inversion i.
Qed.

Definition layout_of (L : layout) (i : fin 3) : domain_layout :=
  match fin_to_nat i with 0%nat => ly_a L | 1%nat => ly_b L | _ => ly_c L end.

Definition tables_of (tt : translation_tables) (i : fin 3) : domain_tables :=
  match fin_to_nat i with 0%nat => tt_a tt | 1%nat => tt_b tt | _ => tt_c tt end.

Record tt_ok (tt : translation_tables) : Prop := {
  to_device : length (kernel_l2_device tt) = 512%nat;
  to_domains : ∀ i, tables_ok (tables_of tt i)
}.

Record tt_spec (L : layout) (tt : translation_tables) : Prop := {
  ts_device : sparse (kernel_l2_device tt) [(72, device_block_descriptor UART_PA); (64, device_block_descriptor GIC_PA)];
  ts_domains : ∀ i, domain_tables_spec L (layout_of L i) (domain_pages L i) (tables_of tt i)
}.

Lemma init_tables_spec (L : layout) (tt : translation_tables) :
  tt_ok tt → ∃ tt', init_tables L tt = Some tt' ∧ tt_spec L tt'.
Proof.
  intros [Hd Ht]. unfold init_tables.
  destruct (init_device_spec _ Hd) as (dev & -> & Sd). cbn [mbind option_bind].
  match goal with |- context [init_domain_tables L ?dl ?a ?b ?c ?d ?ro (tt_a tt)] =>
    destruct (init_domain_tables_spec L dl a b c d ro (tt_a tt) (Ht 0%fin)) as (ta & -> & Sa) end.
  cbn [mbind option_bind].
  match goal with |- context [init_domain_tables L ?dl ?a ?b ?c ?d ?ro (tt_b tt)] =>
    destruct (init_domain_tables_spec L dl a b c d ro (tt_b tt) (Ht 1%fin)) as (tb & -> & Sb) end.
  cbn [mbind option_bind].
  match goal with |- context [init_domain_tables L ?dl ?a ?b ?c ?d ?ro (tt_c tt)] =>
    destruct (init_domain_tables_spec L dl a b c d ro (tt_c tt) (Ht 2%fin)) as (tc & -> & Sc) end.
  cbn [mbind option_bind]. eexists. split; [done|]. split; [done|].
  intros i. destruct (fin3_cases i) as [->|[-> | ->]]; done.
Qed.

Lemma layout_page_ok (L : layout) (pa : Z) : layout_ok L → pa ∈ layout_addresses L → page_ok pa.
Proof. intros Hlo. by apply Forall_forall, lo_pages. Qed.

(** Case analysis on the pages of a domain. *)
Ltac each_page Hp :=
  repeat (apply elem_of_cons in Hp; destruct Hp as [->|Hp]); [..|by apply elem_of_nil in Hp].

Ltac each_domain i := destruct (fin3_cases i) as [->|[-> | ->]].

Lemma domain_pages_frames (L : layout) (i : fin 3) (p : el0_page) :
  p ∈ domain_pages L i → pg_pa p = PRIVATE_A_PA ∨ pg_pa p ∈ layout_pages L.
Proof.
  intros Hp. each_domain i; cbn in Hp; each_page Hp; cbn; rewrite !elem_of_cons; tauto.
Qed.

Lemma domain_pages_ok (L : layout) (i : fin 3) : layout_ok L → pages_ok (domain_pages L i).
Proof.
  intros Hlo. split.
  - intros p Hp. apply domain_pages_frames in Hp as [->|Hp]; [done|].
    apply (layout_page_ok L _ Hlo). apply elem_of_app. by right.
  - intros p Hp. each_domain i; cbn in Hp; each_page Hp; reflexivity.
  - intros p Hp. each_domain i; cbn in Hp; each_page Hp; reflexivity.
  - intros p q Hp Hq Heq. each_domain i; cbn in Hp, Hq; each_page Hp; each_page Hq; first [reflexivity|discriminate Heq].
Qed.

(** What EL0 reaches in domain [i] once the tables are built. *)
Lemma domain_access_exact (L : layout) (tt : translation_tables) (i : fin 3) (k : access) (va pa : Z) :
  layout_ok L → tt_spec L tt →
  el0_access (tables_at L tt) (dl_l1 (layout_of L i)) k va = Some pa ↔
  ∃ p, p ∈ domain_pages L i ∧ pg_allows k p = true ∧ va - va mod 4096 = pg_va p ∧ pa = pg_pa p + va mod 4096.
Proof.
  intros Hlo [Hdev Hdom]. pose proof (lo_nodup _ Hlo) as Hnd. apply NoDup_app in Hnd as (Hnd & _ & _).
  assert (∀ p t, (p, t) ∈ tables_at L tt → table_at (tables_at L tt) p = Some t ∧ page_ok p) as Hat.
  { intros p t Hp. split; [by apply table_at_elem|]. apply (layout_page_ok L _ Hlo).
    apply elem_of_app. left. change (layout_tables L) with (fst <$> tables_at L tt).
    apply list_elem_of_fmap. by exists (p, t). }
  assert ((dl_l1 (layout_of L i), dt_l1 (tables_of tt i)) ∈ tables_at L tt ∧
          (dl_l2 (layout_of L i), dt_l2 (tables_of tt i)) ∈ tables_at L tt ∧
          (dl_l3 (layout_of L i), dt_l3 (tables_of tt i)) ∈ tables_at L tt) as (I1 & I2 & I3).
  { unfold tables_at, layout_of, tables_of. destruct (fin_to_nat i) as [|[|n]]; cbn; rewrite !elem_of_cons; tauto. }
  assert ((ly_kernel_l2_device L, kernel_l2_device tt) ∈ tables_at L tt) as I0.
  { unfold tables_at. cbn. rewrite !elem_of_cons. tauto. }
  apply Hat in I0 as [? ?], I1 as [? ?], I2 as [? ?], I3 as [? ?].
  by eapply (el0_access_exact _ L _ (tables_of tt i)); [apply domain_pages_ok|apply Hdom|..].
Qed.

(** The static state the loader provides. *)
Definition pages_list (p : backing_pages) : list (list Z) :=
  [domain_a_private_page p; domain_a_stack_page p; domain_b_private_page p; domain_b_stack_page p;
   domain_c_private_page p; domain_c_stack_page p; shared_buffer_page p; ro_test_page p].

Record mmu_boot (L : layout) (s : mmu_state) : Prop := {
  mb_tables : tt_ok (mmu_tables s);
  mb_pages : Forall (λ l, length l = 512%nat) (pages_list (mmu_pages s));
  mb_domains : arch_domains s = arch_domains_initial L
}.

Lemma zero_pages_spec (p : backing_pages) :
  Forall (λ l, length l = 512%nat) (pages_list p) →
  ∃ p', zero_pages p = Some p' ∧ Forall (λ l, l = replicate 512 0) (pages_list p').
Proof.
  intros Hp. unfold zero_pages. match goal with |- context [for_range ?n 0 ?body p] =>
    destruct (for_range_inv (λ i p, Forall (filled 512 0 i) (pages_list p)) n 0 body p) as (p' & -> & F) end.
  - eapply Forall_impl; [exact Hp|]. intros l Hl. rewrite <- Hl. apply filled_start.
  - intros k x Hk F. change (Z.to_nat (PAGE_SIZE / 8)) with 512%nat in Hk.
    unfold pages_list in F. rewrite !Forall_cons in F. destruct F as (F1 & F2 & F3 & F4 & F5 & F6 & F7 & F8 & _).
    destruct (filled_step _ _ _ _ F1) as (? & -> & ?); [lia|]. destruct (filled_step _ _ _ _ F2) as (? & -> & ?); [lia|].
    destruct (filled_step _ _ _ _ F3) as (? & -> & ?); [lia|]. destruct (filled_step _ _ _ _ F4) as (? & -> & ?); [lia|].
    destruct (filled_step _ _ _ _ F5) as (? & -> & ?); [lia|]. destruct (filled_step _ _ _ _ F6) as (? & -> & ?); [lia|].
    destruct (filled_step _ _ _ _ F7) as (? & -> & ?); [lia|]. destruct (filled_step _ _ _ _ F8) as (? & -> & ?); [lia|].
    cbn [mbind option_bind]. eexists. split; [done|].
    unfold pages_list. cbn. rewrite !Forall_cons. split_and!; [done..|by apply Forall_nil].
  - exists p'. split; [done|]. eapply Forall_impl; [exact F|]. intros l. by apply filled_done.
Qed.

Lemma current_el_msr (r : sysreg) (v : Z) (h : hw_state) :
  r ≠ CurrentEL → lettuce_arch_current_el (msr r v h) = lettuce_arch_current_el h.
Proof. intros Hr. unfold lettuce_arch_current_el, mrs, msr. cbn. by rewrite decide_False. Qed.

Lemma current_el_tlbi (o : tlb_op) (h : hw_state) : lettuce_arch_current_el (tlbi o h) = lettuce_arch_current_el h.
Proof. done. Qed.

Lemma write_ttbr_el (v : Z) (h : hw_state) : lettuce_arch_current_el (write_ttbr v h) = lettuce_arch_current_el h.
Proof. unfold write_ttbr. case_match; by rewrite current_el_msr. Qed.

(** The live TTBR0 is the one of the exception level the kernel runs at. *)
Definition live_ttbr0 (h : hw_state) : Z :=
  if lettuce_arch_current_el h =? 2 then mrs ttbr0_el2 h else mrs ttbr0_el1 h.

Lemma live_ttbr0_write (v : Z) (h : hw_state) : live_ttbr0 (write_ttbr v h) = v.
Proof.
  unfold live_ttbr0. rewrite write_ttbr_el. unfold write_ttbr. case_match; by cbn.
Qed.

Lemma live_ttbr0_msr (r : sysreg) (v : Z) (h : hw_state) :
  r ≠ CurrentEL → r ≠ ttbr0_el1 → r ≠ ttbr0_el2 → live_ttbr0 (msr r v h) = live_ttbr0 h.
Proof.
  intros H1 H2 H3. unfold live_ttbr0. rewrite current_el_msr by done.
  unfold mrs, msr. cbn. by rewrite !decide_False.
Qed.

Record mmu_ready (L : layout) (s : mmu_state) : Prop := {
  mr_tables : tt_spec L (mmu_tables s);
  mr_domains : arch_domains s = vmap precompute_ttbr0 (arch_domains_initial L)
}.

Lemma mmu_init_spec (L : layout) (s : mmu_state) :
  mmu_boot L s →
  ∃ s', lettuce_mmu_init L s = Some s' ∧ mmu_ready L s' ∧ current_domain s' = DOMAIN_A ∧
    lettuce_mmu_active_ttbr0 s' = ttbr0_value 1 (dl_l1 (ly_a L)) ∧
    Forall (λ l, l = replicate 512 0) (pages_list (mmu_pages s')).
Proof.
  intros [Ht Hp Hd]. unfold lettuce_mmu_init.
  destruct (init_tables_spec L _ Ht) as (tt' & -> & Hspec). destruct (zero_pages_spec _ Hp) as (p' & -> & Hz).
  cbn [mbind option_bind]. eexists. split; [done|]. split_and!; [split; [done|by cbn; rewrite Hd]|done| |done].
  change (lettuce_mmu_active_ttbr0 ?x) with (live_ttbr0 (mmu_hw x)). cbn [mmu_hw with_hw lettuce_mmu_set_current_domain].
  rewrite Hd. case_match; by rewrite live_ttbr0_msr, live_ttbr0_write.
Qed.

Lemma address_bits_range (x : Z) : 0 ≤ x .& 0x0000FFFFFFFFF000 < 2 ^ 48.
Proof.
  assert (x .& 0x0000FFFFFFFFF000 = (x .& 0x0000FFFFFFFFF000) mod 2 ^ 48) as ->; [|by apply Z.mod_pos_bound].
  rewrite <- land_low_bits, <- Z.land_assoc by lia. done.
Qed.

(** The root table of domain [i], as the hardware finds it in TTBR0. *)
Definition domain_root (s : mmu_state) (i : fin 3) : Z := ad_ttbr0_val (arch_domains s !!! i) .& ADDR_MASK.

Definition domain_asid (i : fin 3) : Z := Z.of_nat (fin_to_nat i) + 1.

Lemma domain_ttbr0 (L : layout) (s : mmu_state) (i : fin 3) :
  mmu_ready L s → ad_ttbr0_val (arch_domains s !!! i) = ttbr0_value (domain_asid i) (dl_l1 (layout_of L i)).
Proof. intros [_ ->]. rewrite vlookup_map. by each_domain i. Qed.

Lemma domain_root_layout (L : layout) (s : mmu_state) (i : fin 3) :
  layout_ok L → mmu_ready L s → domain_root s i = dl_l1 (layout_of L i).
Proof.
  intros Hlo Hr. unfold domain_root. rewrite (domain_ttbr0 L) by done. unfold ttbr0_value.
  rewrite Z.land_lor_distr_l, <- Z.land_assoc. change (0x0000FFFFFFFFF000 .& ADDR_MASK) with ADDR_MASK.
  assert (page_ok (dl_l1 (layout_of L i))) as ->.
  { apply (layout_page_ok L _ Hlo). unfold layout_addresses, layout_tables, layout_of.
    destruct (fin_to_nat i) as [|[|n]]; cbn; rewrite !elem_of_cons; tauto. }
  by each_domain i.
Qed.

(** What user code of domain [i] reaches. *)
Definition reaches (L : layout) (s : mmu_state) (i : fin 3) (k : access) (va pa : Z) : Prop :=
  el0_access (tables_at L (mmu_tables s)) (domain_root s i) k va = Some pa.

Lemma reaches_exact (L : layout) (s : mmu_state) (i : fin 3) (k : access) (va pa : Z) :
  layout_ok L → mmu_ready L s →
  reaches L s i k va pa ↔
  ∃ p, p ∈ domain_pages L i ∧ pg_allows k p = true ∧ va - va mod 4096 = pg_va p ∧ pa = pg_pa p + va mod 4096.
Proof.
  intros Hlo Hr. unfold reaches. rewrite (domain_root_layout L) by done.
  apply domain_access_exact; [done|apply Hr].
Qed.

Lemma page_ok_aligned (pa : Z) : page_ok pa → pa mod 4096 = 0.
Proof.
  unfold page_ok. intros Hp. rewrite <- Hp. change 4096 with (2 ^ 12). rewrite <- land_low_bits by lia.
  rewrite <- Z.land_assoc. change (ADDR_MASK .& (2 ^ 12 - 1)) with 0. apply Z.land_0_r.
Qed.

(** Two pages that show one byte are the same frame. *)
Lemma same_frame (f g va va' : Z) :
  page_ok f → page_ok g → f + va mod 4096 = g + va' mod 4096 → f = g.
Proof.
  intros Hf%page_ok_aligned Hg%page_ok_aligned Heq. Z.to_euclidean_division_equations. lia.
Qed.

(** Frames of different domains are different, but for code and shared buffer. *)
Lemma frames_disjoint (L : layout) (i j : fin 3) (p q : el0_page) :
  layout_ok L → i ≠ j → p ∈ domain_pages L i → q ∈ domain_pages L j → pg_write p = true → pg_pa p = pg_pa q →
  pg_pa p = ly_shared_buffer_page L.
Proof.
  intros Hlo Hij Hp Hq Hw Heq. pose proof (lo_nodup _ Hlo) as Hnd. apply NoDup_app in Hnd as (_ & _ & Hnd).
  pose proof (lo_image _ Hlo) as Him. unfold layout_addresses in Him. apply Forall_app in Him as [_ Him].
  assert (PRIVATE_A_PA ∉ layout_pages L) as Hout.
  { intros Hin. rewrite Forall_forall in Him. specialize (Him _ Hin).
    unfold PRIVATE_A_PA, KERNEL_RAM_PA in Him. lia. }
  unfold layout_pages in Hout, Hnd. cbn in Hout, Hnd.
  rewrite !NoDup_cons in Hnd. destruct_and?.
  repeat match goal with H : _ ∉ _ :: _ |- _ => apply not_elem_of_cons in H as [? H] end.
  each_domain i; each_domain j; try done; cbn in Hp, Hq; each_page Hp; each_page Hq; cbn in Hw, Heq |- *; congruence.
Qed.

(** C28: protection domains are isolated.  After [lettuce_mmu_init], whatever user code
    of one domain is able to write, user code of another domain is not able to read,
    write or execute, except the bytes of the shared buffer page. *)
Theorem domains_are_isolated (L : layout) (s : mmu_state) :
  layout_ok L → mmu_boot L s →
  ∃ s', lettuce_mmu_init L s = Some s' ∧
    ∀ i j k va va' pa, i ≠ j → reaches L s' i Write va pa → reaches L s' j k va' pa →
      ly_shared_buffer_page L ≤ pa < ly_shared_buffer_page L + PAGE_SIZE.
Proof.
  intros Hlo Hb. destruct (mmu_init_spec L s Hb) as (s' & Hi & Hr & _). exists s'. split; [done|].
  intros i j k va va' pa Hij.
  rewrite !(reaches_exact L) by done. intros (p & Hp & Hw & _ & ->) (q & Hq & _ & _ & Heq).
  assert (pg_pa p = pg_pa q) as Hf.
  { eapply same_frame; [by apply (po_frame _ (domain_pages_ok L i Hlo))|
      by apply (po_frame _ (domain_pages_ok L j Hlo))|exact Heq]. }
  rewrite (frames_disjoint L i j p q) by done. unfold PAGE_SIZE.
  pose proof (Z.mod_pos_bound va 4096). lia.
Qed.

(** C29: user code cannot change code or translations.  In every domain, no virtual
    address is both writable and executable at EL0, and no access of any kind reaches
    the translation tables. *)
Theorem user_code_changes_no_code_or_tables (L : layout) (s : mmu_state) :
  layout_ok L → mmu_boot L s →
  ∃ s', lettuce_mmu_init L s = Some s' ∧
    (∀ i va pa pa', reaches L s' i Write va pa → ¬ reaches L s' i Exec va pa') ∧
    (∀ i k va pa t, reaches L s' i k va pa → t ∈ layout_tables L → ¬ t ≤ pa < t + PAGE_SIZE).
Proof.
  intros Hlo Hb. destruct (mmu_init_spec L s Hb) as (s' & Hi & Hr & _). exists s'.
  split_and!; [done|..]; intros i; pose proof (domain_pages_ok L i Hlo) as Hok.
  - intros va pa pa'. rewrite !(reaches_exact L) by done. intros (p & Hp & Hw & Hva & _) (q & Hq & Hx & Hva' & _).
    assert (p = q) as <- by (apply (po_slots _ Hok); congruence).
    pose proof (po_wx _ Hok p Hp) as Hwx. cbn in Hw, Hx. by rewrite Hw, Hx in Hwx.
  - intros k va pa t. rewrite (reaches_exact L) by done. intros (p & Hp & _ & _ & ->) Ht Hpa.
    assert (page_ok t) as Hpt by (apply (layout_page_ok L _ Hlo), elem_of_app; by left).
    assert (pg_pa p = t) as Hf.
    { pose proof (page_ok_aligned _ Hpt). pose proof (page_ok_aligned _ (po_frame _ Hok p Hp)).
      unfold PAGE_SIZE in *. Z.to_euclidean_division_equations. lia. }
    apply domain_pages_frames in Hp as [Hp|Hp].
    + pose proof (lo_image _ Hlo) as Him. unfold layout_addresses in Him. apply Forall_app in Him as [Him _].
      rewrite Forall_forall in Him. specialize (Him _ Ht). unfold PRIVATE_A_PA, KERNEL_RAM_PA in *. lia.
    + pose proof (lo_nodup _ Hlo) as Hnd. apply NoDup_app in Hnd as (_ & Hd & _). apply (Hd t); congruence.
Qed.

(** ** Switching *)

Definition mmu_known (d : Z) : bool := (d =? DOMAIN_A) || (d =? DOMAIN_B) || (d =? DOMAIN_C).

Lemma mmu_known_index (d : Z) :
  if mmu_known d then ∃ i, arch_domain_index d = Some i else arch_domain_index d = None.
Proof.
  unfold mmu_known, arch_domain_index. destruct (d =? DOMAIN_A), (d =? DOMAIN_B), (d =? DOMAIN_C); cbn; eauto.
Qed.

(** The portable kernel's contract, on ARM64: the three static domains are the known
    ones. *)
#[export] Instance mmu_protection_laws : ProtectionLaws mmu_state.
Proof.
  assert (∀ d p, mmu_known d = true → current_domain (lettuce_mmu_enter d p).2 = d) as Henter.
  { intros d p Hd. pose proof (mmu_known_index d) as Hi. rewrite Hd in Hi. destruct Hi as [i Hi].
    unfold lettuce_mmu_enter, arch_domain_lookup. rewrite Hi. cbn [mbind option_bind].
    destruct (Z.eqb_spec d (current_domain p)) as [->|]; [done|]. cbn [orb].
    destruct (Z.eqb_spec d LETTUCE_DOMAIN_ID_INVALID) as [->|]; [by cbn in Hd|done]. }
  refine {| domain_known := λ d, mmu_known d = true |}; cbn.
  - intros d p. unfold lettuce_mmu_enter. destruct (_ || _); [done|]. by destruct (arch_domain_lookup d p).
  - intros d p Hd _. by apply Henter.
  - intros p. unfold lettuce_mmu_enter. by rewrite orb_true_r.
  - intros d p Hd. by apply Henter.
Defined.

(** The address space in the hardware is the one of the current domain. *)
Record mmu_sync (L : layout) (s : mmu_state) : Prop := {
  ms_ready : mmu_ready L s;
  ms_domain : ∃ i, arch_domain_index (current_domain s) = Some i ∧
    lettuce_mmu_active_ttbr0 s = ad_ttbr0_val (arch_domains s !!! i)
}.

Lemma mmu_enter_sync (L : layout) (d : Z) (s : mmu_state) :
  mmu_sync L s →
  mmu_sync L (lettuce_mmu_enter d s).2 ∧
  current_domain (lettuce_mmu_enter d s).2 = (if mmu_known d then d else current_domain s).
Proof.
  intros [Hr Hd]. pose proof (mmu_known_index d) as Hi. unfold lettuce_mmu_enter.
  destruct (Z.eqb_spec d (current_domain s)) as [->|Hne]; cbn [orb]; [split; [done|by case_match]|].
  destruct (Z.eqb_spec d LETTUCE_DOMAIN_ID_INVALID) as [->|Hnz]; [done|].
  unfold arch_domain_lookup. destruct (mmu_known d); [destruct Hi as [i Hi]|]; rewrite Hi; [|done].
  cbn [mbind option_bind snd]. split; [|done]. split; [by destruct Hr; split|]. exists i. split; [done|].
  change (lettuce_mmu_active_ttbr0 ?x) with (live_ttbr0 (mmu_hw x)). cbn. by rewrite live_ttbr0_write.
Qed.

(** A sequence of domain switches, in the order of the requests. *)
Definition mmu_enter_all (ds : list Z) (s : mmu_state) : mmu_state :=
  foldl (λ s d, (lettuce_mmu_enter d s).2) s ds.

Lemma mmu_enter_all_sync (L : layout) (ds : list Z) (s : mmu_state) :
  mmu_sync L s →
  mmu_sync L (mmu_enter_all ds s) ∧
  current_domain (mmu_enter_all ds s) = default (current_domain s) (last (filter (λ d, mmu_known d = true) ds)).
Proof.
  revert s. induction ds as [|d ds IH]; intros s Hs; [done|]. destruct (mmu_enter_sync L d s Hs) as [Hs1 Hc1].
  destruct (IH _ Hs1) as [Hs2 Hc2]. split; [done|]. cbn [mmu_enter_all foldl] in *. unfold mmu_enter_all in Hc2.
  rewrite Hc2, Hc1. destruct (mmu_known d) eqn:Hk.
  - rewrite filter_cons_True by done. rewrite last_cons. by destruct (last _).
  - rewrite filter_cons_False by congruence. done.
Qed.

(** C30: after [lettuce_mmu_init], whatever domains the kernel asks to enter, the root
    table and the ASID in TTBR0 are those of the domain [lettuce_mmu_current_domain]
    reports, and that is the last of the three static domains that was asked for
    (requests for others change nothing). *)
Theorem ttbr0_follows_the_current_domain (L : layout) (s : mmu_state) (ds : list Z) :
  mmu_boot L s →
  ∃ s0 i, lettuce_mmu_init L s = Some s0 ∧
    let s' := mmu_enter_all ds s0 in
    lettuce_mmu_current_domain s' = default DOMAIN_A (last (filter (λ d, mmu_known d = true) ds)) ∧
    arch_domain_index (lettuce_mmu_current_domain s') = Some i ∧
    lettuce_mmu_active_ttbr0 s' = ttbr0_value (domain_asid i) (dl_l1 (layout_of L i)) ∧
    lettuce_mmu_active_asid s' = domain_asid i.
Proof.
  intros Hb. destruct (mmu_init_spec L s Hb) as (s0 & Hi & Hr & Hc & Ht & _).
  destruct (mmu_enter_all_sync L ds s0) as [[Hr' (i & Hx & Ht')] Hc'].
  { split; [done|]. exists 0%fin. rewrite Hc. split; [done|]. by rewrite (domain_ttbr0 L). }
  exists s0, i. split; [done|]. cbv zeta. unfold lettuce_mmu_current_domain. rewrite Hc in Hc'.
  rewrite (domain_ttbr0 L) in Ht' by done. split_and!; [done..|]. unfold lettuce_mmu_active_asid. rewrite Ht'.
  unfold ttbr0_value. rewrite lor_shiftl_shiftr; [|lia|].
  - by each_domain i.
  - by apply address_bits_range.
Qed.

(** ** A concrete layout *)

Definition demo_domain_layout (base : Z) : domain_layout :=
  {| dl_l1 := base; dl_l2 := base + 0x1000; dl_l3 := base + 0x2000; dl_private_page := base + 0x3000;
     dl_stack_page := base + 0x4000 |}.

Definition demo_layout : layout :=
  {| ly_kernel_l2_device := 0x40100000; ly_a := demo_domain_layout 0x40101000; ly_b := demo_domain_layout 0x40106000;
     ly_c := demo_domain_layout 0x4010b000; ly_shared_buffer_page := 0x40110000; ly_ro_test_page := 0x40111000;
     ly_el0_service_code_start := 0x40112000 |}.

Definition demo_mmu : mmu_state :=
  let z := replicate 512 0 in let t := {| dt_l1 := z; dt_l2 := z; dt_l3 := z |} in
  {| mmu_tables := {| kernel_l2_device := z; tt_a := t; tt_b := t; tt_c := t |};
     mmu_pages := {| domain_a_private_page := z; domain_a_stack_page := z; domain_b_private_page := z;
                     domain_b_stack_page := z; domain_c_private_page := z; domain_c_stack_page := z;
                     shared_buffer_page := z; ro_test_page := z |};
     arch_domains := arch_domains_initial demo_layout; current_domain := LETTUCE_DOMAIN_ID_INVALID;
     mmu_faults := {| g_expecting_fault := false; g_fault_observed := false; g_expected_far := 0;
                      g_last_fault_far := 0; g_last_fault_esr := 0; g_last_fault_elr := 0;
                      g_expecting_sysreg_trap := false; g_sysreg_trap_observed := false |};
     mmu_hw := {| hw_reg := λ r, if decide (r = CurrentEL) then 4 else 0; hw_tlb := [] |} |}.

Lemma demo_layout_ok : layout_ok demo_layout.
Proof.
  split.
  - apply Forall_forall. intros pa Hpa. cbn in Hpa. each_page Hpa; reflexivity.
  - apply Forall_forall. intros pa Hpa. cbn in Hpa. unfold KERNEL_RAM_PA. each_page Hpa; lia.
  - apply (bool_decide_unpack _). vm_compute. exact I.
Qed.

Lemma demo_mmu_boot : mmu_boot demo_layout demo_mmu.
Proof.
  split.
  - split; [reflexivity|]. intros i. each_domain i; repeat split.
  - apply (bool_decide_unpack _). vm_compute. exact I.
  - reflexivity.
Qed.

Lemma domains_are_isolated_witness :
  ∃ s', lettuce_mmu_init demo_layout demo_mmu = Some s' ∧
    ∀ va pa, reaches demo_layout s' 0%fin Write va pa → reaches demo_layout s' 1%fin Read va pa →
      0x40110000 ≤ pa < 0x40111000.
Proof.
  destruct (domains_are_isolated demo_layout demo_mmu demo_layout_ok demo_mmu_boot) as (s' & Hi & H).
  exists s'. split; [exact Hi|]. intros va pa Hw Hr. apply (H 0%fin 1%fin Read va va pa); [discriminate|exact Hw|exact Hr].
Defined.

Lemma user_code_changes_no_code_or_tables_witness :
  ∃ s', lettuce_mmu_init demo_layout demo_mmu = Some s' ∧
    ∀ pa, ¬ reaches demo_layout s' 0%fin Write 0x41050000 pa ∨ ¬ reaches demo_layout s' 0%fin Exec 0x41050000 pa.
Proof.
  destruct (user_code_changes_no_code_or_tables demo_layout demo_mmu demo_layout_ok demo_mmu_boot) as (s' & Hi & H & _).
  exists s'. split; [exact Hi|]. intros pa. unfold reaches at 1.
  destruct (decide (el0_access (tables_at demo_layout (mmu_tables s')) (domain_root s' 0%fin) Write 0x41050000 = Some pa))
    as [Hw|Hw]; [right; exact (H 0%fin _ pa pa Hw)|left; exact Hw].
Defined.

Lemma ttbr0_follows_the_current_domain_witness :
  ∃ s0 i, lettuce_mmu_init demo_layout demo_mmu = Some s0 ∧
    lettuce_mmu_current_domain (mmu_enter_all [300; 7; 200; 0] s0) = 200 ∧
    lettuce_mmu_active_asid (mmu_enter_all [300; 7; 200; 0] s0) = domain_asid i.
Proof.
  destruct (ttbr0_follows_the_current_domain demo_layout demo_mmu [300; 7; 200; 0] demo_mmu_boot)
    as (s0 & i & Hi & Hc & _ & _ & Ha).
  exists s0, i. split; [exact Hi|]. split; [rewrite Hc; reflexivity|exact Ha].
Defined.

(** User code of domain A does reach its private, shared and read-only pages. *)
Example domain_a_view :
  ∃ s', lettuce_mmu_init demo_layout demo_mmu = Some s' ∧
    reaches demo_layout s' 0%fin Write 0x41000010 0x41000010 ∧
    reaches demo_layout s' 0%fin Write 0x411c0020 0x40110020 ∧
    reaches demo_layout s' 1%fin Read 0x411c0020 0x40110020 ∧
    reaches demo_layout s' 0%fin Read 0x411e0000 0x40111000.
Proof. eexists. split; [vm_compute; reflexivity|]. split_and!; vm_compute; reflexivity. Qed.
