(* ===== verification/Timer.v ===== *)
(** * The virtual timer, the interrupt controller and feature probes:
    [kernel/arch/arm64/timer.c], [gic.c], [poe.c], [mte.c]

    Register writes to the interrupt controller are a log of (address, value) pairs; the
    interrupt number it reports is an input.  The frequency register is read from the
    hardware state of [Mmu.v]. *)

From S2P Require Import Prelude Types Mmu.

(** ** Timer *)

Record timer_state := {
  g_timer_ticks : Z;
  g_timer_interval : Z;
  g_timer_enabled : bool
}.

Definition lettuce_arch_counter_read (h : hw_state) : Z := mrs cntvct_el0 h.
Definition lettuce_arch_counter_frequency (h : hw_state) : Z := mrs cntfrq_el0 h.

Definition lettuce_timer_init (hz : Z) (t : timer_state) (h : hw_state) : timer_state * hw_state :=
  let hz := if hz =? 0 then 100 else hz in
  let freq := lettuce_arch_counter_frequency h in
  let interval := freq / hz in
  ({| g_timer_ticks := 0; g_timer_interval := interval; g_timer_enabled := true |},
   msr cntv_ctl_el0 1 (msr cntv_tval_el0 interval h)).

Definition lettuce_timer_rearm (t : timer_state) (h : hw_state) : hw_state :=
  if g_timer_enabled t && (0 <? g_timer_interval t)
  then msr cntv_ctl_el0 1 (msr cntv_tval_el0 (g_timer_interval t) h) else h.

Definition lettuce_timer_disable (t : timer_state) (h : hw_state) : timer_state * hw_state :=
  ({| g_timer_ticks := g_timer_ticks t; g_timer_interval := g_timer_interval t; g_timer_enabled := false |},
   msr cntv_ctl_el0 0 h).

Definition lettuce_timer_get_ticks (t : timer_state) : Z := g_timer_ticks t.

Definition lettuce_timer_irq_handler (t : timer_state) (h : hw_state) : timer_state * hw_state :=
  let t' := {| g_timer_ticks := u64 (g_timer_ticks t + 1); g_timer_interval := g_timer_interval t;
               g_timer_enabled := g_timer_enabled t |} in
  (t', lettuce_timer_rearm t' h).

(** ** Interrupt controller *)

Definition GICD_BASE : Z := 0x08000000.
Definition GICC_BASE : Z := 0x08010000.
Definition GIC_INTID_VTIMER : Z := 27.
Definition GIC_SPURIOUS_INTID : Z := 1023.

Definition GICD_CTLR : Z := 0x000.
Definition GICD_ISENABLER : Z := 0x100.
Definition GICD_ICENABLER : Z := 0x180.
Definition GICD_IPRIORITYR : Z := 0x400.
Definition GICC_CTLR : Z := 0x000.
Definition GICC_PMR : Z := 0x004.
Definition GICC_EOIR : Z := 0x010.

(** The register writes so far, oldest first. *)
Definition gic_log : Type := list (Z * Z).

Definition gicd_write (off v : Z) (g : gic_log) : gic_log := g ++ [(GICD_BASE + off, v)].
Definition gicc_write (off v : Z) (g : gic_log) : gic_log := g ++ [(GICC_BASE + off, v)].

Definition lettuce_gic_init (g : gic_log) : gic_log :=
  let g := gicd_write GICD_CTLR 0 g in
  let g := gicd_write (GICD_ICENABLER + 0x00) 0xffffffff g in
  let g := gicd_write (GICD_ICENABLER + 0x04) 0xffffffff g in
  let g := gicc_write GICC_PMR 0xff g in
  let g := gicc_write GICC_CTLR 1 g in
  gicd_write GICD_CTLR 1 g.

Definition lettuce_gic_enable_interrupt (intid : Z) (g : gic_log) : gic_log :=
  let reg_idx := intid / 32 in
  let bit_idx := intid mod 32 in
  gicd_write (GICD_ISENABLER + u32 (reg_idx * 4)) (1 .<< bit_idx) g.

Definition lettuce_gic_disable_interrupt (intid : Z) (g : gic_log) : gic_log :=
  let reg_idx := intid / 32 in
  let bit_idx := intid mod 32 in
  gicd_write (GICD_ICENABLER + u32 (reg_idx * 4)) (1 .<< bit_idx) g.

Definition lettuce_gic_set_priority (intid priority : Z) (g : gic_log) : gic_log :=
  g ++ [(GICD_BASE + GICD_IPRIORITYR + intid, priority)].

(** [iar] is what the acknowledge register reads. *)
Definition lettuce_gic_acknowledge (iar : Z) : Z := iar .& 0x3ff.

Definition lettuce_gic_end_of_interrupt (intid : Z) (g : gic_log) : gic_log :=
  gicc_write GICC_EOIR (intid .& 0x3ff) g.

(** ** Feature probes *)

Definition lettuce_arch_has_poe (h : hw_state) : bool :=
  1 <=? u32 ((mrs id_aa64mmfr3_el1 h .>> 36) .& 0xf).

Definition lettuce_arch_has_pac (h : hw_state) : bool :=
  let val := mrs id_aa64isar1_el1 h in
  (1 <=? u32 ((val .>> 4) .& 0xf)) || (1 <=? u32 ((val .>> 8) .& 0xf)).

Definition lettuce_arch_has_mte (h : hw_state) : bool :=
  1 <=? u32 ((mrs id_aa64pfr1_el1 h .>> 8) .& 0xf).

(** ** Facts *)

Lemma timer_irq_ticks (t : timer_state) (h : hw_state) :
  g_timer_ticks (lettuce_timer_irq_handler t h).1 = u64 (g_timer_ticks t + 1).
Proof. done. Qed.

Lemma timer_irq_registers (t : timer_state) (h : hw_state) (r : sysreg) :
  r ≠ cntv_ctl_el0 → r ≠ cntv_tval_el0 → mrs r (lettuce_timer_irq_handler t h).2 = mrs r h.
Proof.
  intros H1 H2. unfold lettuce_timer_irq_handler, lettuce_timer_rearm. cbn [snd]. case_match; [|done].
  unfold mrs, msr. cbn. by rewrite !decide_False.
Qed.
