(* ===== verification/Console.v ===== *)
(** * The console: output routines of [kernel/arch/arm64/cpu.c]

    The UART is the list of bytes written to its data register; waiting for room in the
    transmit queue is invisible.  User memory, which the POSIX shim reads and writes,
    travels in the same record. *)

From Stdlib Require Import Ascii String.
From S2P Require Import Prelude Types.

Record io_state := {
  io_mem : gmap Z Z;
  io_console : list Z
}.

Definition lettuce_arch_console_putc (c : Z) (io : io_state) : io_state :=
  {| io_mem := io_mem io; io_console := (io_console io ++ [c])%list |}.

Definition code_of (c : ascii) : Z := Z.of_N (N_of_ascii c).

(** A newline is preceded by a carriage return; [text] is not [NULL]. *)
Fixpoint lettuce_arch_console_puts (text : string) (io : io_state) : io_state :=
  match text with
  | EmptyString => io
  | String c text' =>
      let io := if code_of c =? 10 then lettuce_arch_console_putc 13 io else io in
      lettuce_arch_console_puts text' (lettuce_arch_console_putc (code_of c) io)
  end.

(** ["\n"] *)
Definition newline : string := String (ascii_of_nat 10) EmptyString.

(** ["0123456789abcdef"] *)
Definition hex_digits : list Z := (seqZ 48 10 ++ seqZ 97 6)%list.

(** [for (shift = 60; shift >= 0; shift -= 4) putc(digits[(value >> shift) & 0xf]);] *)
Definition lettuce_arch_console_print_hex (value : Z) (io : io_state) : option io_state :=
  let io := lettuce_arch_console_puts "0x"%string io in
  for_range 16 0
    (λ i io, c ← arr_get hex_digits ((value .>> (60 - 4 * i)) .& 0xf); Some (lettuce_arch_console_putc c io)) io.

(** [while (value > 0) { buf[idx++] = '0' + value % 10; value /= 10; }]; the result is
    [None] when the loop outruns [fuel] or the buffer. *)
Fixpoint dec_fill (fuel : nat) (value : Z) (buf : list Z) (idx : Z) : option (list Z * Z) :=
  if value =? 0 then Some (buf, idx) else
  match fuel with
  | O => None
  | S fuel' => buf ← arr_set buf idx (48 + value mod 10); dec_fill fuel' (value / 10) buf (idx + 1)
  end.

(** [while (idx > 0) putc(buf[--idx]);] *)
Definition dec_drain (buf : list Z) (idx : Z) (io : io_state) : option io_state :=
  for_range (Z.to_nat idx) 0
    (λ i io, c ← arr_get buf (idx - 1 - i); Some (lettuce_arch_console_putc c io)) io.

Definition lettuce_arch_console_print_dec (value : Z) (io : io_state) : option io_state :=
  let buf := replicate 24 0 in
  if value =? 0 then Some (lettuce_arch_console_putc 48 io) else
  '(buf, idx) ← dec_fill 24 value buf 0;
  dec_drain buf idx io.

(** ** What the digits denote *)

Definition dec_value (digits : list Z) : Z := foldl (λ v d, 10 * v + (d - 48)) 0 digits.

Definition hex_digit (c : Z) : Z := if c <=? 57 then c - 48 else c - 87.
Definition hex_value (digits : list Z) : Z := foldl (λ v d, 16 * v + hex_digit d) 0 digits.

Lemma dec_value_app (a b : list Z) :
  dec_value (a ++ b) = dec_value a * 10 ^ Z.of_nat (length b) + dec_value b.
Proof.
  induction b as [|d b IH] using rev_ind; cbn; [by rewrite app_nil_r; lia|].
  unfold dec_value in *. rewrite app_assoc, (foldl_app _ (a ++ b)), (foldl_app _ b), IH, length_app. cbn.
  rewrite Nat2Z.inj_add, Z.pow_add_r by lia. lia.
Qed.

(** The digits of [value], least significant first. *)
Fixpoint dec_digits (fuel : nat) (value : Z) : list Z :=
  if value =? 0 then [] else
  match fuel with O => [] | S n => 48 + value mod 10 :: dec_digits n (value / 10) end.

Lemma dec_digits_length (n k : nat) (value : Z) :
  0 ≤ value < 10 ^ Z.of_nat k → (length (dec_digits n value) ≤ k)%nat.
Proof.
  revert k value. induction n as [|n IH]; intros k v Hv; cbn; destruct (Z.eqb_spec v 0); cbn; try lia.
  destruct k as [|k]; [cbn in Hv; lia|]. apply le_n_S, IH.
  rewrite Nat2Z.inj_succ, Z.pow_succ_r in Hv by lia. split; [apply Z.div_pos; lia|]. apply Z.div_lt_upper_bound; lia.
Qed.

Lemma dec_digits_value (n : nat) (value : Z) :
  0 ≤ value < 10 ^ Z.of_nat n → dec_value (reverse (dec_digits n value)) = value.
Proof.
  revert value. induction n as [|n IH]; intros v Hv; cbn [dec_digits]; destruct (Z.eqb_spec v 0) as [->|Hne]; try done.
  { cbn in Hv. lia. }
  rewrite reverse_cons, dec_value_app, IH.
  - unfold dec_value. cbn. pose proof (Z.div_mod v 10 ltac:(lia)). lia.
  - rewrite Nat2Z.inj_succ, Z.pow_succ_r in Hv by lia. split; [apply Z.div_pos; lia|]. apply Z.div_lt_upper_bound; lia.
Qed.

Lemma dec_fill_spec (n : nat) (value : Z) (pre buf : list Z) :
  0 ≤ value < 10 ^ Z.of_nat n → (n ≤ length buf)%nat →
  ∃ rest, dec_fill n value (pre ++ buf) (Z.of_nat (length pre)) =
    Some (pre ++ dec_digits n value ++ rest, Z.of_nat (length pre + length (dec_digits n value))).
Proof.
  revert value pre buf. induction n as [|n IH]; intros v pre buf Hv Hl; cbn;
    destruct (Z.eqb_spec v 0) as [->|Hne]; try (exists buf; cbn; by rewrite Nat.add_0_r).
  { cbn in Hv. lia. }
  destruct buf as [|b buf]; cbn in Hl; [lia|].
  rewrite arr_set_Some by (rewrite length_app; cbn; lia). cbn [mbind option_bind].
  rewrite Nat2Z.id.
  assert (<[length pre := 48 + v mod 10]> (pre ++ b :: buf) = (pre ++ (48 + v mod 10) :: buf)%list) as ->.
  { pose proof (insert_app_r pre (b :: buf) 0 (48 + v mod 10)) as Hi. by rewrite Nat.add_0_r in Hi. }
  destruct (IH (v / 10) (pre ++ [48 + v mod 10])%list buf) as (rest & Hf).
  - rewrite Nat2Z.inj_succ, Z.pow_succ_r in Hv by lia. split; [apply Z.div_pos; lia|]. apply Z.div_lt_upper_bound; lia.
  - lia.
  - exists rest. rewrite <- !app_assoc in Hf. cbn in Hf. rewrite length_app in Hf. cbn in Hf.
    replace (Z.of_nat (length pre) + 1) with (Z.of_nat (length pre + 1)) by lia. rewrite Hf.
    f_equal. f_equal. cbn. f_equal. lia.
Qed.

Lemma dec_drain_spec (digits rest : list Z) (io : io_state) :
  dec_drain (digits ++ rest) (Z.of_nat (length digits)) io =
    Some {| io_mem := io_mem io; io_console := (io_console io ++ reverse digits)%list |}.
Proof.
  unfold dec_drain. match goal with |- for_range ?n 0 ?body _ = _ =>
    destruct (for_range_inv (λ i x, io_mem x = io_mem io ∧
      io_console x = (io_console io ++ take (Z.to_nat i) (reverse digits))%list) n 0 body io) as (x & -> & Hm & Hc) end.
  - split; [done|]. cbn. by rewrite app_nil_r.
  - intros k x Hk [Hm Hc]. rewrite Nat2Z.id in Hk.
    destruct (lookup_lt_is_Some_2 digits (length digits - 1 - Z.to_nat k)) as [c Hlk]; [lia|].
    rewrite arr_get_lookup by lia.
    replace (Z.to_nat (Z.of_nat (length digits) - 1 - k)) with (length digits - 1 - Z.to_nat k)%nat by lia.
    rewrite lookup_app_l by lia. rewrite Hlk. cbn. eexists. split; [done|]. cbn. split; [done|].
    rewrite Hc, <- app_assoc. f_equal. replace (Z.to_nat (k + 1)) with (S (Z.to_nat k)) by lia.
    symmetry. apply take_S_r. rewrite reverse_lookup by lia.
    replace (length digits - S (Z.to_nat k))%nat with (length digits - 1 - Z.to_nat k)%nat by lia. done.
  - destruct x as [m c]. cbn in *. subst. do 3 f_equal. rewrite Nat2Z.id.
    rewrite take_ge by (rewrite length_reverse; lia). done.
Qed.

(** The decimal digits of a 64-bit number, most significant first. *)
Definition decimal (value : Z) : list Z := if value =? 0 then [48] else reverse (dec_digits 24 value).

Lemma decimal_value (value : Z) : is_u64 value → dec_value (decimal value) = value.
Proof.
  unfold is_u64, decimal. intros Hv. destruct (Z.eqb_spec value 0) as [->|Hne]; [done|].
  apply dec_digits_value. lia.
Qed.

Lemma decimal_length (value : Z) : is_u64 value → (length (decimal value) ≤ 20)%nat.
Proof.
  unfold is_u64, decimal. intros Hv. destruct (Z.eqb_spec value 0); [cbn; lia|].
  rewrite length_reverse. apply dec_digits_length. lia.
Qed.

Lemma decimal_digits (value : Z) : 0 ≤ value → Forall (λ d, 48 ≤ d ≤ 57) (decimal value).
Proof.
  intros _. unfold decimal. destruct (value =? 0); [repeat constructor; lia|]. apply Forall_reverse.
  generalize 24%nat as n. intros n. revert value. induction n as [|n IH]; intros v; cbn; destruct (v =? 0); auto.
  constructor; [|apply IH]. pose proof (Z.mod_pos_bound v 10). lia.
Qed.

(** Printing a 64-bit number in decimal stays inside the 24-byte buffer and prints
    its digits. *)
Lemma print_dec_spec (value : Z) (io : io_state) :
  is_u64 value →
  lettuce_arch_console_print_dec value io =
    Some {| io_mem := io_mem io; io_console := (io_console io ++ decimal value)%list |}.
Proof.
  unfold is_u64. intros Hv. unfold lettuce_arch_console_print_dec, decimal.
  destruct (Z.eqb_spec value 0) as [->|Hne]; [done|].
  destruct (dec_fill_spec 24 value [] (replicate 24 0)) as (rest & Hf); [lia|by rewrite length_replicate|].
  cbn [app length] in Hf. change (Z.of_nat 0) with 0 in Hf. rewrite Hf. cbn [mbind option_bind].
  by rewrite Nat.add_0_l, dec_drain_spec.
Qed.

(** The bytes a text comes out as. *)
Fixpoint text_bytes (text : string) : list Z :=
  match text with
  | EmptyString => []
  | String c text' => ((if code_of c =? 10 then [13] else []) ++ code_of c :: text_bytes text')%list
  end.

Lemma puts_spec (text : string) (io : io_state) :
  lettuce_arch_console_puts text io = {| io_mem := io_mem io; io_console := (io_console io ++ text_bytes text)%list |}.
Proof.
  revert io. induction text as [|c text IH]; intros io; cbn.
  - rewrite app_nil_r. by destruct io.
  - rewrite IH. destruct (_ =? 10); cbn; by rewrite <- !app_assoc.
Qed.

Lemma hex_digits_get (d : Z) : 0 ≤ d < 16 → ∃ c, arr_get hex_digits d = Some c ∧ hex_digit c = d.
Proof.
  intros Hd. assert (d ∈ seqZ 0 16) as Hin by (apply elem_of_seqZ; lia). cbn in Hin.
  repeat (apply elem_of_cons in Hin; destruct Hin as [->|Hin]); try (eexists; split; reflexivity).
  by apply elem_of_nil in Hin.
Qed.

(** A number in hexadecimal is ["0x"] and sixteen digits that denote it. *)
Lemma print_hex_spec (value : Z) (io : io_state) :
  is_u64 value →
  ∃ digits, lettuce_arch_console_print_hex value io =
      Some {| io_mem := io_mem io; io_console := (io_console io ++ [48; 120] ++ digits)%list |} ∧
    length digits = 16%nat ∧ hex_value digits = value.
Proof.
  unfold is_u64. intros Hv. unfold lettuce_arch_console_print_hex. match goal with |- context [for_range ?n 0 ?body ?i] =>
    destruct (for_range_inv (λ k x, io_mem x = io_mem io ∧ ∃ digits,
      io_console x = (io_console io ++ [48; 120] ++ digits)%list ∧ length digits = Z.to_nat k ∧
      hex_value digits = value .>> (64 - 4 * k)) n 0 body i) as (x & -> & Hm & digits & Hc & Hl & Hx) end.
  - split; [done|]. exists []. split_and!; [|done|].
    { change (lettuce_arch_console_puts "0x" io) with
        (lettuce_arch_console_putc 120 (lettuce_arch_console_putc 48 io)). cbn. by rewrite <- app_assoc. }
    rewrite Z.shiftr_div_pow2 by lia. by rewrite Z.div_small.
  - intros k x Hk (Hm & digits & Hc & Hl & Hx). change 0xf with (2 ^ 4 - 1). rewrite land_low_bits by lia.
    destruct (hex_digits_get ((value .>> (60 - 4 * k)) mod 2 ^ 4)) as (c & -> & Hd); [by apply Z.mod_pos_bound|].
    cbn [mbind option_bind]. eexists. split; [done|]. cbn [io_mem io_console lettuce_arch_console_putc].
    split; [done|]. exists (digits ++ [c])%list. split_and!.
    + rewrite Hc. by rewrite <- !app_assoc.
    + rewrite length_app, Hl. cbn. lia.
    + unfold hex_value in *. rewrite foldl_app, Hx. cbn [foldl]. rewrite Hd.
      replace (64 - 4 * k) with (60 - 4 * k + 4) by lia. rewrite <- (Z.shiftr_shiftr value) by lia.
      replace (64 - 4 * (k + 1)) with (60 - 4 * k) by lia.
      rewrite (Z.shiftr_div_pow2 (value .>> _) 4) by lia.
      pose proof (Z.div_mod (value .>> (60 - 4 * k)) (2 ^ 4) ltac:(lia)). lia.
  - exists digits. split; [|split; [done|]]. { destruct x. cbn in *. congruence. }
    rewrite Hx. apply Z.shiftr_0_r.
Qed.

(** Console output only. *)
Definition prints (io io' : io_state) : Prop :=
  io_mem io' = io_mem io ∧ ∃ out, io_console io' = (io_console io ++ out)%list.

#[export] Instance prints_preorder : PreOrder prints.
Proof.
  split.
  - intros io. split; [done|]. exists []. by rewrite app_nil_r.
  - intros a b c [H1 [o1 E1]] [H2 [o2 E2]]. split; [congruence|]. exists (o1 ++ o2)%list. by rewrite E2, E1, app_assoc.
Qed.

Lemma puts_prints (text : string) (io : io_state) : prints io (lettuce_arch_console_puts text io).
Proof. rewrite puts_spec. split; [done|]. by eexists. Qed.

Lemma print_hex_prints (v : Z) (io : io_state) :
  ∃ io', lettuce_arch_console_print_hex v io = Some io' ∧ prints io io'.
Proof.
  unfold lettuce_arch_console_print_hex. match goal with |- context [for_range ?n 0 ?body ?i] =>
    destruct (for_range_inv (λ k x, prints io x) n 0 body i) as (io' & -> & Hp); [apply puts_prints| |by eauto] end.
  intros k x Hk Hp. change 0xf with (2 ^ 4 - 1). rewrite land_low_bits by lia.
  destruct (hex_digits_get ((v .>> (60 - 4 * k)) mod 2 ^ 4)) as (c & -> & _); [by apply Z.mod_pos_bound|].
  cbn [mbind option_bind]. eexists. split; [done|]. etrans; [exact Hp|]. split; [done|]. by eexists.
Qed.
