(* ===== verification/Posix.v ===== *)
(** * The POSIX shim: [runtime/posix/src/fd.c], [sys.c], [posix.c]

    User memory is a finite map from addresses to bytes; touching an address outside
    it is a fault ([None]).  The console is the list of bytes sent to it.  Function
    pointers of a descriptor are functions.  [arm64] selects the branch of the
    conditional compilation: the freestanding ARM64 build or the host build.  The host's
    own [clock_gettime] is not modelled, the system call is its ARM64 branch. *)

From S2P Require Import Prelude Types Generation Task Policy RoundRobin Eevdf Scheduler SchedulerSpec Mmu MmuSpec Timer Console.

Definition EBADF : Z := 9.
Definition EINVAL : Z := 22.
Definition EFAULT : Z := 14.
Definition ENOSYS : Z := 38.
Definition CLOCK_MONOTONIC : Z := 1.

Definition KERNEL_MEM_START : Z := 0x40000000.
Definition KERNEL_MEM_END : Z := 0x40200000.

(** Two's complement readings of a register. *)
Definition s32 (x : Z) : Z := (x + 2 ^ 31) mod 2 ^ 32 - 2 ^ 31.
Definition s64 (x : Z) : Z := (x + 2 ^ 63) mod 2 ^ 64 - 2 ^ 63.

(** ** Memory *)

Definition load_byte (a : Z) (m : gmap Z Z) : option Z := m !! a.
Definition store_byte (a v : Z) (m : gmap Z Z) : option (gmap Z Z) :=
  match m !! a with Some _ => Some (<[a := v]> m) | None => None end.

(** Little-endian 64-bit accesses. *)
Fixpoint load_le (n : nat) (a : Z) (m : gmap Z Z) : option Z :=
  match n with
  | O => Some 0
  | S n' => b ← load_byte a m; r ← load_le n' (a + 1) m; Some (b + 256 * r)
  end.

Fixpoint store_le (n : nat) (a v : Z) (m : gmap Z Z) : option (gmap Z Z) :=
  match n with
  | O => Some m
  | S n' => m ← store_byte a (v mod 256) m; store_le n' (a + 1) (v / 256) m
  end.

Definition load_s64 (a : Z) (m : gmap Z Z) : option Z := v ← load_le 8 a m; Some (s64 v).
Definition store_u64 (a v : Z) (m : gmap Z Z) : option (gmap Z Z) := store_le 8 a (u64 v) m.

(** ** File descriptors: [fd.c] *)

Definition LETTUCE_MAX_FDS : Z := 16.

Inductive LettuceFdType :=
  | LETTUCE_FD_TYPE_UNUSED
  | LETTUCE_FD_TYPE_CONSOLE_IN
  | LETTUCE_FD_TYPE_CONSOLE_OUT
  | LETTUCE_FD_TYPE_CONSOLE_ERR
  | LETTUCE_FD_TYPE_PIPE
  | LETTUCE_FD_TYPE_DEVICE.

#[export] Instance LettuceFdType_eq_dec : EqDecision LettuceFdType.
Proof. solve_decision. Defined.

Definition fd_rw : Type := Z → Z → Z → io_state → option (Z * io_state).
Definition fd_close : Type := Z → io_state → option (Z * io_state).

Record LettuceFdOps := {
  fo_read : option fd_rw;
  fo_write : option fd_rw;
  fo_close : option fd_close
}.

Record LettuceFileDescriptor := {
  fd_type : LettuceFdType;
  fd_flags : Z;
  fd_ops : option LettuceFdOps;
  fd_private_data : Z
}.

Definition console_read_op : fd_rw := λ fd buf count io,
  if (buf =? 0) && (0 <? count) then Some (- EFAULT, io) else
  if count =? 0 then Some (0, io) else Some (0, io).

Definition console_write_op : fd_rw := λ fd buf count io,
  if (buf =? 0) && (0 <? count) then Some (- EFAULT, io) else
  if count =? 0 then Some (0, io) else
  io ← for_range (Z.to_nat count) 0
         (λ i io, c ← load_byte (buf + i) (io_mem io); Some (lettuce_arch_console_putc c io)) io;
  Some (s64 count, io).

Definition console_close_op : fd_close := λ fd io, Some (0, io).

Definition g_console_in_ops : LettuceFdOps :=
  {| fo_read := Some console_read_op; fo_write := None; fo_close := Some console_close_op |}.

Definition g_console_out_ops : LettuceFdOps :=
  {| fo_read := None; fo_write := Some console_write_op; fo_close := Some console_close_op |}.

Definition fd_unused : LettuceFileDescriptor :=
  {| fd_type := LETTUCE_FD_TYPE_UNUSED; fd_flags := 0; fd_ops := None; fd_private_data := 0 |}.

(** [g_fd_table[i].type = type; g_fd_table[i].ops = ops;] *)
Definition fd_set (i : Z) (type : LettuceFdType) (ops : LettuceFdOps) (table : list LettuceFileDescriptor)
    : option (list LettuceFileDescriptor) :=
  d ← arr_get table i;
  arr_set table i {| fd_type := type; fd_flags := fd_flags d; fd_ops := Some ops;
                     fd_private_data := fd_private_data d |}.

Definition lettuce_fd_table_init (table : list LettuceFileDescriptor) : option (list LettuceFileDescriptor) :=
  table ← for_range (Z.to_nat LETTUCE_MAX_FDS) 0 (λ i t, arr_set t i fd_unused) table;
  table ← fd_set 0 LETTUCE_FD_TYPE_CONSOLE_IN g_console_in_ops table;
  table ← fd_set 1 LETTUCE_FD_TYPE_CONSOLE_OUT g_console_out_ops table;
  fd_set 2 LETTUCE_FD_TYPE_CONSOLE_ERR g_console_out_ops table.

(** The outer [option] is the access to the table, the inner one the pointer. *)
Definition lettuce_fd_get (fd : Z) (table : list LettuceFileDescriptor) : option (option LettuceFileDescriptor) :=
  if (fd <? 0) || (LETTUCE_MAX_FDS <=? u32 fd) then Some None else
  d ← arr_get table fd;
  Some (if decide (fd_type d = LETTUCE_FD_TYPE_UNUSED) then None else Some d).

Definition lettuce_fd_install (fd : Z) (type : LettuceFdType) (ops : option LettuceFdOps) (private_data : Z)
    (table : list LettuceFileDescriptor) : option (Z * list LettuceFileDescriptor) :=
  if (fd <? 0) || (LETTUCE_MAX_FDS <=? u32 fd) then Some (- EBADF, table) else
  table ← arr_set table fd {| fd_type := type; fd_flags := 0; fd_ops := ops; fd_private_data := private_data |};
  Some (0, table).

(** ** System calls: [sys.c] *)

(** [desc == NULL || desc->ops == NULL || desc->ops->op == NULL] is [None]. *)
Definition fd_operation {A} (op : LettuceFdOps → option A) (desc : option LettuceFileDescriptor) : option A :=
  match desc with
  | Some d => match fd_ops d with Some ops => op ops | None => None end
  | None => None
  end.

Section sys.
Context (arm64 : bool).

(** [ptr >= KERNEL_MEM_START && ptr < KERNEL_MEM_END], on ARM64 only. *)
Definition kernel_pointer (ptr : Z) : bool := arm64 && (KERNEL_MEM_START <=? ptr) && (ptr <? KERNEL_MEM_END).

Definition lettuce_kernel_sys_write (fd buf count : Z) (table : list LettuceFileDescriptor) (io : io_state)
    : option (Z * io_state) :=
  if count =? 0 then Some (0, io) else
  if buf =? 0 then Some (- EFAULT, io) else
  if kernel_pointer buf then Some (- EFAULT, io) else
  desc ← lettuce_fd_get fd table;
  match fd_operation fo_write desc with
  | None => Some (- EBADF, io)
  | Some op => op fd buf count io
  end.

Definition lettuce_kernel_sys_read (fd buf count : Z) (table : list LettuceFileDescriptor) (io : io_state)
    : option (Z * io_state) :=
  if count =? 0 then Some (0, io) else
  if buf =? 0 then Some (- EFAULT, io) else
  if kernel_pointer buf then Some (- EFAULT, io) else
  desc ← lettuce_fd_get fd table;
  match fd_operation fo_read desc with
  | None => Some (- EBADF, io)
  | Some op => op fd buf count io
  end.

Definition lettuce_kernel_sys_close (fd : Z) (table : list LettuceFileDescriptor) (io : io_state)
    : option (Z * io_state) :=
  desc ← lettuce_fd_get fd table;
  match fd_operation fo_close desc with
  | None => Some (- EBADF, io)
  | Some op => op fd io
  end.

End sys.

Definition lettuce_kernel_sys_getpid (tasks : task_state) : option Z :=
  match lettuce_task_current tasks with
  | Some c => t ← arr_get (g_task_table tasks) c; Some (tk_id t)
  | None => Some 1
  end.

Definition lettuce_kernel_sys_clock_gettime (clk_id tp : Z) (h : hw_state) (io : io_state)
    : option (Z * io_state) :=
  if negb (clk_id =? CLOCK_MONOTONIC) then Some (- EINVAL, io) else
  if tp =? 0 then Some (- EFAULT, io) else
  if kernel_pointer true tp then Some (- EFAULT, io) else
  let ticks := lettuce_arch_counter_read h in
  let freq := lettuce_arch_counter_frequency h in
  if freq =? 0 then Some (- EINVAL, io) else
  m ← store_u64 tp (ticks / freq) (io_mem io);
  m ← store_u64 (tp + 8) (u64 ((ticks mod freq) * 1000000000) / freq) m;
  Some (0, {| io_mem := m; io_console := io_console io |}).

(** [((uint64_t)tv_sec * freq) + (((uint64_t)tv_nsec * freq) / 1000000000)] *)
Definition sleep_ticks (tv_sec tv_nsec freq : Z) : Z :=
  u64 (u64 (u64 tv_sec * freq) + u64 (u64 tv_nsec * freq) / 1000000000).

Section nanosleep.
Context {P : Type} (arch_enter : Z → P → P).

(** The result, the frame and the scheduler after the call; [now] is the tick
    counter. *)
Definition lettuce_kernel_sys_nanosleep (req : Z) (now : Z) (trap_frame : option LettuceTrapFrame)
    (h : hw_state) (io : io_state) (st : scheduler_state P)
    : option (Z * bool * option LettuceTrapFrame * scheduler_state P) :=
  if req =? 0 then Some (- EFAULT, false, trap_frame, st) else
  tv_nsec ← load_s64 (req + 8) (io_mem io);
  if (tv_nsec <? 0) || (1000000000 <=? tv_nsec) then Some (- EINVAL, false, trap_frame, st) else
  if kernel_pointer true req then Some (- EFAULT, false, trap_frame, st) else
  let freq := lettuce_arch_counter_frequency h in
  tv_sec ← load_s64 req (io_mem io);
  '(hit, tf, st) ← lettuce_scheduler_sleep_current arch_enter now (sleep_ticks tv_sec tv_nsec freq) trap_frame st;
  Some (0, hit, tf, st).

End nanosleep.

(** ** The C library side: [posix.c]

    The result of a system call becomes the return value and [errno]. *)

Definition posix_return (res : Z) (errno : Z) : Z * Z := if res <? 0 then (-1, s32 (- res)) else (res, errno).

Section posix.
Context (table : list LettuceFileDescriptor).

(** On the host the wrappers call the kernel functions directly. *)
Definition lettuce_write (fd buf count : Z) (errno : Z) (io : io_state) : option (Z * Z * io_state) :=
  '(res, io) ← lettuce_kernel_sys_write false fd buf count table io; Some (posix_return res errno, io).

Definition lettuce_read (fd buf count : Z) (errno : Z) (io : io_state) : option (Z * Z * io_state) :=
  '(res, io) ← lettuce_kernel_sys_read false fd buf count table io; Some (posix_return res errno, io).

Definition lettuce_close (fd : Z) (errno : Z) (io : io_state) : option (Z * Z * io_state) :=
  '(res, io) ← lettuce_kernel_sys_close fd table io;
  Some (if res <? 0 then (-1, s32 (- res)) else (0, errno), io).

End posix.

Definition lettuce_getpid (tasks : task_state) : option Z :=
  res ← lettuce_kernel_sys_getpid tasks; Some (s32 res).

(** ** Memory accesses: facts *)

Lemma load_le_frame (n : nat) (a : Z) (m m' : gmap Z Z) :
  (∀ x, a ≤ x < a + Z.of_nat n → m' !! x = m !! x) → load_le n a m' = load_le n a m.
Proof.
  revert a. induction n as [|n IH]; intros a Hm; cbn; [done|]. unfold load_byte. rewrite Hm by lia.
  destruct (m !! a); cbn; [|done]. by rewrite IH by (intros; apply Hm; lia).
Qed.

Lemma store_le_spec (n : nat) (a v : Z) (m : gmap Z Z) :
  (∀ x, a ≤ x < a + Z.of_nat n → is_Some (m !! x)) →
  ∃ m', store_le n a v m = Some m' ∧ load_le n a m' = Some (v mod 256 ^ Z.of_nat n) ∧
    (∀ x, ¬ a ≤ x < a + Z.of_nat n → m' !! x = m !! x).
Proof.
  revert a v m. induction n as [|n IH]; intros a v m Hm.
  { exists m. cbn. by rewrite Z.mod_1_r. }
  cbn [store_le]. unfold store_byte. destruct (Hm a) as [b Hb]; [lia|]. rewrite Hb. cbn [mbind option_bind].
  destruct (IH (a + 1) (v / 256) (<[a:=v mod 256]> m)) as (m' & -> & Hload & Hframe).
  { intros x Hx. rewrite lookup_insert_ne by lia. apply Hm. lia. }
  exists m'. split_and!; [done| |].
  - cbn [load_le]. unfold load_byte. rewrite Hframe by lia. rewrite lookup_insert_eq. cbn [mbind option_bind].
    rewrite Hload. cbn [mbind option_bind]. f_equal. rewrite Nat2Z.inj_succ, Z.pow_succ_r by lia.
    by rewrite Z.rem_mul_r by lia.
  - intros x Hx. rewrite Hframe by lia. by rewrite lookup_insert_ne by lia.
Qed.

Lemma s64_small (x : Z) : - 2 ^ 63 ≤ x < 2 ^ 63 → s64 x = x.
Proof. intros Hx. unfold s64. rewrite Z.mod_small; lia. Qed.

Lemma store_u64_spec (a v : Z) (m : gmap Z Z) :
  (∀ x, a ≤ x < a + 8 → is_Some (m !! x)) → 0 ≤ v < 2 ^ 63 →
  ∃ m', store_u64 a v m = Some m' ∧ load_s64 a m' = Some v ∧ (∀ x, ¬ a ≤ x < a + 8 → m' !! x = m !! x).
Proof.
  intros Hm Hv. unfold store_u64. rewrite u64_small by (unfold is_u64; lia).
  destruct (store_le_spec 8 a v m Hm) as (m' & -> & Hl & Hf). exists m'. split_and!; [done| |done].
  unfold load_s64. rewrite Hl. cbn [mbind option_bind]. change (256 ^ Z.of_nat 8) with (2 ^ 64).
  rewrite Z.mod_small by lia. by rewrite s64_small by lia.
Qed.

(** ** The descriptor table: facts *)

Definition fd_table_fresh : list LettuceFileDescriptor :=
  [{| fd_type := LETTUCE_FD_TYPE_CONSOLE_IN; fd_flags := 0; fd_ops := Some g_console_in_ops; fd_private_data := 0 |};
   {| fd_type := LETTUCE_FD_TYPE_CONSOLE_OUT; fd_flags := 0; fd_ops := Some g_console_out_ops; fd_private_data := 0 |};
   {| fd_type := LETTUCE_FD_TYPE_CONSOLE_ERR; fd_flags := 0; fd_ops := Some g_console_out_ops; fd_private_data := 0 |}]
  ++ replicate 13 fd_unused.

Lemma fd_table_init_spec (table : list LettuceFileDescriptor) :
  length table = 16%nat → lettuce_fd_table_init table = Some fd_table_fresh.
Proof.
  intros Hl. unfold lettuce_fd_table_init.
  destruct (for_range_inv (filled 16 fd_unused) (Z.to_nat LETTUCE_MAX_FDS) 0 (λ i t, arr_set t i fd_unused) table)
    as (t & -> & F).
  - rewrite <- Hl. apply filled_start.
  - intros k l Hk F. change (Z.to_nat LETTUCE_MAX_FDS) with 16%nat in Hk. by apply filled_step; [|lia].
  - by rewrite (filled_done 16 fd_unused t F).
Qed.

Lemma fd_get_range (fd : Z) (table : list LettuceFileDescriptor) :
  ¬ 0 ≤ fd < 16 → fd < 2 ^ 32 → lettuce_fd_get fd table = Some None.
Proof.
  intros Hfd Hmax. unfold lettuce_fd_get, LETTUCE_MAX_FDS. destruct (Z.ltb_spec fd 0); [done|]. cbn [orb].
  rewrite u32_small by (unfold is_u32; lia). by rewrite (proj2 (Z.leb_le 16 fd)) by lia.
Qed.

(** A buffer in memory. *)
Definition holds (m : gmap Z Z) (a : Z) (bytes : list Z) : Prop :=
  ∀ i b, bytes !! i = Some b → m !! (a + Z.of_nat i) = Some b.

Lemma console_write_loop (buf : Z) (bytes : list Z) (io : io_state) :
  holds (io_mem io) buf bytes →
  for_range (length bytes) 0 (λ i io, c ← load_byte (buf + i) (io_mem io); Some (lettuce_arch_console_putc c io)) io =
    Some {| io_mem := io_mem io; io_console := io_console io ++ bytes |}.
Proof.
  intros Hb. match goal with |- for_range ?n 0 ?body _ = _ =>
    destruct (for_range_inv (λ i x, io_mem x = io_mem io ∧ io_console x = io_console io ++ take (Z.to_nat i) bytes)
      n 0 body io) as (x & -> & Hm & Hc) end.
  - split; [done|]. by rewrite app_nil_r.
  - intros k x Hk [Hm Hc]. destruct (lookup_lt_is_Some_2 bytes (Z.to_nat k)) as [b Hbk]; [lia|].
    pose proof (Hb _ _ Hbk) as Hl. rewrite Z2Nat.id in Hl by lia. unfold load_byte. rewrite Hm, Hl. cbn.
    eexists. split; [done|]. cbn. split; [done|]. rewrite Hc, <- app_assoc. f_equal.
    replace (Z.to_nat (k + 1)) with (S (Z.to_nat k)) by lia. by rewrite (take_S_r _ _ _ Hbk).
  - destruct x as [m c]. cbn in *. subst. f_equal. f_equal. f_equal. rewrite firstn_all2 by lia. done.
Qed.

(** ** Claims *)

(** C31: a write prints exactly the caller's buffer.  On the table
    [lettuce_fd_table_init] builds, for any descriptor, pointer and count: nothing to write
    is 0; then a NULL or kernel-image buffer is [-EFAULT]; then any descriptor but 1 and 2,
    the read-only descriptor 0 included, is [-EBADF]; none of these reads the buffer, and
    memory and console stay as they are.  Writing a readable buffer of less than 2^63 bytes
    to descriptor 1 or 2 returns its length, appends exactly its bytes to the console and
    changes nothing else. *)
Theorem write_prints_the_buffer (arm64 : bool) (table0 : list LettuceFileDescriptor) :
  length table0 = 16%nat →
  ∃ table, lettuce_fd_table_init table0 = Some table ∧
    ∀ fd buf count io, fd < 2 ^ 32 →
      let answer := lettuce_kernel_sys_write arm64 fd buf count table io in
      if count =? 0 then answer = Some (0, io)
      else if (buf =? 0) || kernel_pointer arm64 buf then answer = Some (- EFAULT, io)
      else if negb ((fd =? 1) || (fd =? 2)) then answer = Some (- EBADF, io)
      else ∀ bytes, Z.of_nat (length bytes) = count → count < 2 ^ 63 → holds (io_mem io) buf bytes →
             answer = Some (count, {| io_mem := io_mem io; io_console := io_console io ++ bytes |}).
Proof.
  intros Hl. exists fd_table_fresh. split; [by apply fd_table_init_spec|]. intros fd buf count io Hfd answer.
  unfold answer, lettuce_kernel_sys_write. destruct (Z.eqb_spec count 0) as [|Hc]; [done|].
  destruct (Z.eqb_spec buf 0) as [|Hbuf]; [done|]. cbn [orb]. destruct (kernel_pointer arm64 buf); [done|].
  destruct ((fd =? 1) || (fd =? 2)) eqn:Hout; cbn [negb].
  - intros bytes Hlen Hmax Hb.
    assert (console_write_op fd buf count io = Some (count, {| io_mem := io_mem io; io_console := io_console io ++ bytes |})) as Hop.
    { unfold console_write_op. rewrite (proj2 (Z.eqb_neq buf 0)), (proj2 (Z.eqb_neq _ 0)) by lia. cbn [andb]. subst count.
      rewrite Nat2Z.id, console_write_loop by done. cbn [mbind option_bind]. by rewrite s64_small by lia. }
    apply orb_true_iff in Hout as [->%Z.eqb_eq | ->%Z.eqb_eq]; exact Hop.
  - apply orb_false_iff in Hout as [H1%Z.eqb_neq H2%Z.eqb_neq]. destruct (decide (0 ≤ fd < 16)) as [Hr|Hr].
    + assert (fd ∈ seqZ 0 16) as Hin by (apply elem_of_seqZ; lia). cbn in Hin.
      repeat (apply elem_of_cons in Hin; destruct Hin as [->|Hin]); try done. by apply elem_of_nil in Hin.
    + by rewrite fd_get_range.
Qed.

(** C32: the monotonic clock is exact.  [lettuce_kernel_sys_clock_gettime] stores at
    [tp] the pair of seconds and nanoseconds that is the hardware counter converted to
    nanoseconds and rounded down, with the nanoseconds below 10^9, and touches no other
    byte. *)
Theorem clock_gettime_is_exact (tp counter freq : Z) (h : hw_state) (io : io_state) :
  lettuce_arch_counter_read h = counter → lettuce_arch_counter_frequency h = freq →
  0 ≤ counter < 2 ^ 64 → 2 ≤ freq → freq * 1000000000 ≤ 2 ^ 64 →
  tp ≠ 0 → kernel_pointer true tp = false → (∀ x, tp ≤ x < tp + 16 → is_Some (io_mem io !! x)) →
  ∃ io' sec nsec, lettuce_kernel_sys_clock_gettime CLOCK_MONOTONIC tp h io = Some (0, io') ∧
    load_s64 tp (io_mem io') = Some sec ∧ load_s64 (tp + 8) (io_mem io') = Some nsec ∧
    0 ≤ nsec < 1000000000 ∧ sec * 1000000000 + nsec = counter * 1000000000 / freq ∧
    io_console io' = io_console io ∧
    ∀ x, ¬ tp ≤ x < tp + 16 → io_mem io' !! x = io_mem io !! x.
Proof.
  intros Hc Hf Rc Rf Hmax Htp Hk Hm. unfold lettuce_kernel_sys_clock_gettime. rewrite Hc, Hf, Hk.
  rewrite (proj2 (Z.eqb_neq tp 0)), (proj2 (Z.eqb_neq freq 0)) by lia. cbn [negb Z.eqb].
  set (sec := counter / freq). set (nsec := (counter mod freq) * 1000000000 / freq).
  pose proof (Z.mod_pos_bound counter freq ltac:(lia)) as Hmod.
  assert (0 ≤ sec < 2 ^ 63) as Rs by (subst sec; split; [apply Z.div_pos; lia|apply Z.div_lt_upper_bound; nia]).
  assert (0 ≤ nsec < 1000000000) as Rn by (subst nsec; split; [apply Z.div_pos; lia|apply Z.div_lt_upper_bound; nia]).
  rewrite u64_small by (unfold is_u64; nia). fold nsec.
  destruct (store_u64_spec tp sec (io_mem io)) as (m1 & E1 & L1 & F1); [intros; apply Hm; lia|done|].
  destruct (store_u64_spec (tp + 8) nsec m1) as (m2 & E2 & L2 & F2).
  { intros x Hx. rewrite F1 by lia. apply Hm. lia. }
  { lia. }
  change (CLOCK_MONOTONIC =? CLOCK_MONOTONIC) with true. cbn [negb]. rewrite E1. cbn [mbind option_bind].
  rewrite E2. cbn [mbind option_bind].
  exists {| io_mem := m2; io_console := io_console io |}, sec, nsec. cbn [io_mem io_console]. split_and!; try done; try lia.
  - rewrite <- L1. unfold load_s64. rewrite (load_le_frame 8 tp m1 m2); [done|]. intros x Hx. apply F2. lia.
  - rewrite (Z.div_mod counter freq) at 1 by lia. fold sec.
    replace ((freq * sec + counter mod freq) * 1000000000) with
      (sec * 1000000000 * freq + (counter mod freq) * 1000000000) by lia.
    rewrite Z.div_add_l by lia. subst nsec. done.
  - intros x Hx. rewrite F2 by lia. apply F1. lia.
Qed.

(** The tick at which the current task is due, after it asked to sleep. *)
Lemma sleep_sets_deadline {P : Type} (arch_enter : Z → P → P) (st : scheduler_state P) (now ticks : Z)
    (tf : LettuceTrapFrame) (c : Z) :
  sched_inv st → g_scheduler_active st = true → frame_ok tf → g_current_task (ss_tasks st) = Some c →
  ∃ hit tf' st' t', lettuce_scheduler_sleep_current arch_enter now ticks (Some tf) st = Some (hit, Some tf', st') ∧
    arr_get (g_task_table (ss_tasks st')) c = Some t' ∧ tk_sleep_deadline_ticks t' = u64 (now + ticks).
Proof.
  intros Hinv Hact Htf Hc. unfold lettuce_scheduler_sleep_current, lettuce_task_current. rewrite Hc.
  set (f := λ t, set_state LETTUCE_TASK_STATE_SLEEPING (set_sleep_deadline (u64 (now + ticks)) t)).
  destruct (start_update (EvSleep now ticks tf) st c f Hinv Hc) as (t & m & Ht & Hu & _ & _ & Hinv1 & Hget);
    [by intros []|].
  rewrite Hu. cbn [mbind option_bind].
  assert (op_on_task_sleep (policy_ops_of (g_current_policy_type st)) (Some c) m = Some m) as ->
    by by destruct (g_current_policy_type st).
  cbn [mbind option_bind].
  destruct (do_schedule_spec arch_enter now false tf (with_mem m st) Hinv1 Hact Htf) as
    (hit & tf' & st' & -> & _ & [_ Hev] & _).
  destruct (Hev c (f t)) as (t' & Ht' & Hid & _); [cbn; by rewrite Hget, decide_True|].
  exists hit, tf', st', t'. split_and!; [done..|].
  assert (tk_sleep_deadline_ticks (task_ident t') = tk_sleep_deadline_ticks (task_ident (f t))) as Hd by by rewrite Hid.
  by destruct t', t.
Qed.

(** Sleeping is counted in the wrong unit.  [lettuce_kernel_sys_nanosleep] converts
    the request with the counter frequency, while the scheduler compares the deadline with
    the timer's tick count, of which there are [hz] per second: a sleep of [s] seconds is
    due [g_timer_interval] times too late. *)
Theorem nanosleep_counts_counter_cycles {P : Type} (arch_enter : Z → P → P) (st : scheduler_state P)
    (tm : timer_state) (h : hw_state) (io : io_state) (hz s now req c : Z) (tf : LettuceTrapFrame) :
  let '(tm', h') := lettuce_timer_init hz tm h in
  sched_inv st → g_scheduler_active st = true → frame_ok tf → g_current_task (ss_tasks st) = Some c →
  0 < hz → 0 < lettuce_arch_counter_frequency h → lettuce_arch_counter_frequency h = hz * g_timer_interval tm' → 0 ≤ s → 0 ≤ now →
  s < 2 ^ 63 → now + s * hz * g_timer_interval tm' < 2 ^ 64 →
  req ≠ 0 → kernel_pointer true req = false →
  load_s64 req (io_mem io) = Some s → load_s64 (req + 8) (io_mem io) = Some 0 →
  ∃ hit tf' st' t', lettuce_kernel_sys_nanosleep arch_enter req now (Some tf) h' io st = Some (0, hit, Some tf', st') ∧
    arr_get (g_task_table (ss_tasks st')) c = Some t' ∧
    tk_sleep_deadline_ticks t' - now = (s * hz) * g_timer_interval tm'.
Proof.
  unfold lettuce_timer_init. set (iv := lettuce_arch_counter_frequency h / _). cbn [g_timer_interval].
  intros Hinv Hact Htf Hc Hhz Hf0 Hf Hs Hnow Hsmax Hmax Hreq Hk Hsec Hnsec.
  assert (0 ≤ iv) as Hiv.
  { subst iv. apply Z.div_pos; [lia|]. destruct (hz =? 0); lia. }
  assert (s * (hz * iv) < 2 ^ 64) as Hprod by nia.
  unfold lettuce_kernel_sys_nanosleep. rewrite (proj2 (Z.eqb_neq req 0)) by done. rewrite Hnsec.
  cbn [mbind option_bind]. cbn [Z.ltb Z.leb Z.compare orb]. rewrite Hk, Hsec. cbn [mbind option_bind].
  assert (lettuce_arch_counter_frequency (msr cntv_ctl_el0 1 (msr cntv_tval_el0 iv h)) = hz * iv) as -> by exact Hf.
  assert (sleep_ticks s 0 (hz * iv) = s * (hz * iv)) as ->.
  { unfold sleep_ticks. rewrite (u64_small s) by (unfold is_u64; lia).
    rewrite (u64_small (s * _)) by (unfold is_u64; nia). change (u64 0) with 0. rewrite Z.mul_0_l.
    change (u64 0 / 1000000000) with 0. rewrite Z.add_0_r. apply u64_small. unfold is_u64. nia. }
  destruct (sleep_sets_deadline arch_enter st now (s * (hz * iv)) tf c Hinv Hact Htf Hc) as
    (hit & tf' & st' & t' & -> & Ht' & Hd). cbn [mbind option_bind].
  exists hit, tf', st', t'. split_and!; [done..|]. rewrite Hd, u64_small by (unfold is_u64; nia). lia.
Qed.

(** The pointer check is not a check of the caller's rights.  User code of no
    domain is able to read the UART registers, yet a write system call with a buffer
    there passes [sys.c]'s test, which rejects the kernel image only, and the kernel reads
    the register on the caller's behalf. *)
Theorem write_reads_what_the_caller_cannot (L : layout) (s : mmu_state) (io : io_state) (b : Z) :
  layout_ok L → mmu_boot L s → io_mem io !! UART_PA = Some b →
  ∃ s', lettuce_mmu_init L s = Some s' ∧
    (∀ i k pa, ¬ reaches L s' i k UART_PA pa) ∧
    lettuce_kernel_sys_write true 1 UART_PA 1 fd_table_fresh io =
      Some (1, {| io_mem := io_mem io; io_console := io_console io ++ [b] |}).
Proof.
  intros Hlo Hb Hu. destruct (mmu_init_spec L s Hb) as (s' & Hi & Hr & _). exists s'. split_and!; [done|..].
  - intros i k pa. rewrite (reaches_exact L) by done. intros (p & Hp & _ & Hva & _).
    rewrite (po_region _ (domain_pages_ok L i Hlo) p Hp) in Hva. pose proof (index_range (pg_va p)).
    change (UART_PA - UART_PA mod 4096) with UART_PA in Hva. unfold UART_PA in Hva. lia.
  - change (lettuce_kernel_sys_write true 1 UART_PA 1 fd_table_fresh io) with (console_write_op 1 UART_PA 1 io).
    unfold console_write_op. change ((UART_PA =? 0) && (0 <? 1)) with false. change (1 =? 0) with false.
    pose proof (console_write_loop UART_PA [b] io) as Hloop. cbn [length] in Hloop. change (Z.to_nat 1) with 1%nat.
    rewrite Hloop; [done|]. intros [|i] x Hx; [|done]. injection Hx as <-. exact Hu.
Qed.

(** ** Witnesses *)

Definition demo_io : io_state :=
  {| io_mem := list_to_map ((λ i : nat, (0x41000000 + Z.of_nat i, if decide (i = 0%nat) then 2 else 0)) <$> seq 0 32)
               ∪ {[ UART_PA := 65 ]};
     io_console := [] |}.

Definition demo_hw : hw_state :=
  {| hw_reg := λ r, if decide (r = cntfrq_el0) then 62500000 else if decide (r = cntvct_el0) then 93750001 else 0;
     hw_tlb := [] |}.

(** Three bytes to descriptor 1; ten bytes from page 0, which is not mapped; and a write
    to the input. *)
Lemma write_prints_the_buffer_witness :
  ∃ table, lettuce_fd_table_init (replicate 16 fd_unused) = Some table ∧
    lettuce_kernel_sys_write true 1 0x41000000 3 table demo_io =
      Some (3, {| io_mem := io_mem demo_io; io_console := [2; 0; 0] |}) ∧
    lettuce_kernel_sys_write true 1 0 10 table demo_io = Some (- EFAULT, demo_io) ∧
    lettuce_kernel_sys_write true 0 0x41000000 10 table demo_io = Some (- EBADF, demo_io).
Proof.
  destruct (write_prints_the_buffer true (replicate 16 fd_unused) eq_refl) as (t & Ht & Hw).
  exists t. split; [exact Ht|]. split; [|split].
  - apply (Hw 1 0x41000000 3 demo_io eq_refl [2; 0; 0]).
    + reflexivity.
    + reflexivity.
    + intros i b Hi. destruct i as [|[|[|i]]]; cbn in Hi; try discriminate Hi; injection Hi as <-; reflexivity.
  - exact (Hw 1 0 10 demo_io eq_refl).
  - exact (Hw 0 0x41000000 10 demo_io eq_refl).
Defined.

Lemma clock_gettime_is_exact_witness :
  ∃ io' sec nsec, lettuce_kernel_sys_clock_gettime CLOCK_MONOTONIC 0x41000000 demo_hw demo_io = Some (0, io') ∧
    load_s64 0x41000000 (io_mem io') = Some sec ∧ load_s64 0x41000008 (io_mem io') = Some nsec ∧
    sec * 1000000000 + nsec = 1500000016.
Proof.
  destruct (clock_gettime_is_exact 0x41000000 93750001 62500000 demo_hw demo_io) as
    (io' & sec & nsec & H & Hs & Hn & _ & Ht & _).
  - reflexivity.
  - reflexivity.
  - lia.
  - lia.
  - lia.
  - discriminate.
  - reflexivity.
  - intros x Hx. assert (x ∈ seqZ 0x41000000 16) as Hin by (apply elem_of_seqZ; lia). cbn in Hin.
    repeat (apply elem_of_cons in Hin; destruct Hin as [->|Hin]); try (eexists; reflexivity).
    exfalso. apply (not_elem_of_nil _ Hin).
  - exists io', sec, nsec. split; [exact H|]. split; [exact Hs|]. split; [exact Hn|exact Ht].
Defined.

Lemma nanosleep_counts_counter_cycles_witness :
  ∃ hit tf' st' t', lettuce_kernel_sys_nanosleep cons 0x41000000 7 (Some (frame_of 1))
      (lettuce_timer_init 100 {| g_timer_ticks := 0; g_timer_interval := 0; g_timer_enabled := false |} demo_hw).2
      demo_io demo = Some (0, hit, Some tf', st') ∧
    arr_get (g_task_table (ss_tasks st')) 0 = Some t' ∧ tk_sleep_deadline_ticks t' = 7 + 200 * 625000.
Proof.
  destruct (nanosleep_counts_counter_cycles cons demo
    {| g_timer_ticks := 0; g_timer_interval := 0; g_timer_enabled := false |} demo_hw demo_io 100 2 7 0x41000000 0
    (frame_of 1)) as (hit & tf' & st' & t' & H & Ht & Hd).
  - exact demo_inv.
  - vm_compute. reflexivity.
  - reflexivity.
  - vm_compute. reflexivity.
  - reflexivity.
  - reflexivity.
  - vm_compute. reflexivity.
  - discriminate.
  - discriminate.
  - reflexivity.
  - vm_compute. reflexivity.
  - discriminate.
  - reflexivity.
  - vm_compute. reflexivity.
  - vm_compute. reflexivity.
  - exists hit, tf', st', t'. split; [exact H|]. split; [exact Ht|].
    change (tk_sleep_deadline_ticks t' - 7 = 2 * 100 * 625000) in Hd. lia.
Defined.

Lemma write_reads_what_the_caller_cannot_witness :
  ∃ s', lettuce_mmu_init demo_layout demo_mmu = Some s' ∧ (∀ pa, ¬ reaches demo_layout s' 0%fin Read UART_PA pa) ∧
    lettuce_kernel_sys_write true 1 UART_PA 1 fd_table_fresh demo_io =
      Some (1, {| io_mem := io_mem demo_io; io_console := [65] |}).
Proof.
  destruct (write_reads_what_the_caller_cannot demo_layout demo_mmu demo_io 65 demo_layout_ok demo_mmu_boot)
    as (s' & Hi & Hno & Hw); [reflexivity|].
  exists s'. split; [exact Hi|]. split; [intros pa; exact (Hno 0%fin Read pa)|exact Hw].
Defined.
