(* ===== verification/HostArch.v ===== *)
(** * The host build: [kernel/main/host_arch_stubs.c] and the host side of [sys.c]

    On the host the architecture hooks are stubs over the C library, whose clock is an
    argument: [None] when [clock_gettime] fails.  The hardware tick counter is a variable
    that tests advance by hand. *)

From S2P Require Import Prelude Types Mmu Timer Console Posix.

Record timespec := { tv_sec : Z; tv_nsec : Z }.

(** What [CLOCK_MONOTONIC] of the C library returns. *)
Definition timespec_ok (ts : timespec) : Prop := 0 ≤ tv_sec ts ∧ 0 ≤ tv_nsec ts < 1000000000.

(** ** Architecture hooks *)

Definition host_counter_read (ts : timespec) : Z := u64 (u64 (u64 (tv_sec ts) * 1000000000) + u64 (tv_nsec ts)).
Definition host_counter_frequency : Z := 1000000000.

Record host_timer := { g_host_timer_ticks : Z }.

Definition host_timer_get_ticks (t : host_timer) : Z := g_host_timer_ticks t.
Definition host_timer_tick_step (t : host_timer) : host_timer := {| g_host_timer_ticks := u64 (g_host_timer_ticks t + 1) |}.

Definition host_preempt_is_enabled : bool := true.
Definition host_domain_ttbr0_val (domain : Z) : Z := 0.

(** ** System calls *)

(** [tp->tv_sec = ...; tp->tv_nsec = ...;] *)
Definition store_timespec (tp : Z) (ts : timespec) (io : io_state) : option io_state :=
  m ← store_u64 tp (tv_sec ts) (io_mem io);
  m ← store_u64 (tp + 8) (tv_nsec ts) m;
  Some {| io_mem := m; io_console := io_console io |}.

Definition host_sys_clock_gettime (clk_id tp : Z) (clock : option timespec) (io : io_state) : option (Z * io_state) :=
  if negb (clk_id =? CLOCK_MONOTONIC) then Some (- EINVAL, io) else
  if tp =? 0 then Some (- EFAULT, io) else
  match clock with
  | None => Some (- EINVAL, io)
  | Some ts => io ← store_timespec tp ts io; Some (0, io)
  end.

(** Arguments are checked; nothing sleeps. *)
Definition host_sys_nanosleep (req : Z) (io : io_state) : option Z :=
  if req =? 0 then Some (- EFAULT) else
  nsec ← load_s64 (req + 8) (io_mem io);
  if (nsec <? 0) || (1000000000 <=? nsec) then Some (- EINVAL) else Some 0.

(** ** The two builds agree *)

(** The counter stub and its frequency, as registers. *)
Definition host_hw (ts : timespec) : hw_state :=
  {| hw_reg := λ r, match r with
                    | cntvct_el0 => host_counter_read ts
                    | cntfrq_el0 => host_counter_frequency
                    | _ => 0 end; hw_tlb := [] |}.

Lemma host_counter_exact (ts : timespec) :
  timespec_ok ts → tv_sec ts < 2 ^ 34 → host_counter_read ts = tv_sec ts * 1000000000 + tv_nsec ts.
Proof.
  intros [? ?] ?. unfold host_counter_read.
  rewrite (u64_small (tv_sec ts)), (u64_small (_ * _)), (u64_small (tv_nsec ts)), u64_small by (unfold is_u64; lia). done.
Qed.

(** The ARM64 conversion from counter to seconds and nanoseconds, on the host's counter,
    gives back what the host's clock said: both builds store the same time. *)
Lemma host_clock_agrees (tp : Z) (ts : timespec) (io : io_state) :
  timespec_ok ts → tv_sec ts < 2 ^ 34 → kernel_pointer true tp = false →
  host_sys_clock_gettime CLOCK_MONOTONIC tp (Some ts) io = lettuce_kernel_sys_clock_gettime CLOCK_MONOTONIC tp (host_hw ts) io.
Proof.
  intros Hts Hmax Hk. unfold host_sys_clock_gettime, lettuce_kernel_sys_clock_gettime. rewrite Hk.
  destruct (negb _); [done|]. destruct (tp =? 0); [done|].
  change (lettuce_arch_counter_read (host_hw ts)) with (host_counter_read ts).
  change (lettuce_arch_counter_frequency (host_hw ts)) with 1000000000. cbn [Z.eqb].
  rewrite host_counter_exact by done. destruct Hts as [Hs Hn].
  assert ((tv_sec ts * 1000000000 + tv_nsec ts) / 1000000000 = tv_sec ts) as -> by (Z.to_euclidean_division_equations; lia).
  assert ((tv_sec ts * 1000000000 + tv_nsec ts) mod 1000000000 = tv_nsec ts) as -> by (Z.to_euclidean_division_equations; lia).
  rewrite u64_small by (unfold is_u64; lia). rewrite Z.div_mul by lia. unfold store_timespec.
  destruct (store_u64 tp _ _) as [m|]; cbn [mbind option_bind]; [|done].
  by destruct (store_u64 (tp + 8) _ m).
Qed.

(** A sleep the host accepts is one the ARM64 build accepts, with the same argument
    checks. *)
Lemma host_nanosleep_checks (req nsec : Z) (io : io_state) :
  req ≠ 0 → load_s64 (req + 8) (io_mem io) = Some nsec →
  host_sys_nanosleep req io = Some (if decide (0 ≤ nsec < 1000000000) then 0 else - EINVAL).
Proof.
  intros Hreq Hn. unfold host_sys_nanosleep. rewrite (proj2 (Z.eqb_neq req 0)), Hn by done. cbn [mbind option_bind].
  case_decide; destruct (Z.ltb_spec nsec 0), (Z.leb_spec 1000000000 nsec); cbn; done || lia.
Qed.

Example host_clock_example :
  (λ r, (r.1, load_s64 0x41000000 (io_mem r.2), load_s64 0x41000008 (io_mem r.2))) <$>
    host_sys_clock_gettime CLOCK_MONOTONIC 0x41000000 (Some {| tv_sec := 3; tv_nsec := 7 |}) demo_io = Some (0, Some 3, Some 7).
Proof. reflexivity. Qed.
