(* ===== verification/Cpu.v ===== *)
(** * Exception handling on ARM64: [kernel/arch/arm64/cpu.c], [elevator.S]

    The handlers of supervisor calls, faults and interrupts from user code: they
    combine the call gates' validation, the address spaces, the scheduler and the
    system calls.  A handler is a function from the exception frame and the kernel state
    to the way it ends: a frame to return to user code with, the kernel continuation
    [lettuce_el0_resume_kernel], or a halt.  The exception syndrome and fault address
    are inputs; [pac_sign] and [pac_auth] are the pointer-authentication instructions of
    [pac.S]. *)

From Stdlib Require Import String.
From S2P Require Import Prelude Types Generation Context Capability CapabilitySpec Registry RegistrySpec Ipc.
From S2P Require Import Task Policy RoundRobin Eevdf Scheduler SchedulerSpec Mmu MmuSpec Timer Console Posix.

Definition LETTUCE_ARCH_CONTEXT_MAX : Z := 8.

Definition LETTUCE_SVC_RETURN : Z := 0.
Definition LETTUCE_SVC_CALL : Z := 1.
Definition LETTUCE_SVC_CROSS_LAYER : Z := 2.
Definition LETTUCE_SVC_ELEVATOR : Z := 3.
Definition LETTUCE_SVC_YIELD : Z := 4.
Definition LETTUCE_SVC_SYSCALL : Z := 5.

Definition LETTUCE_SYS_WRITE : Z := 1.
Definition LETTUCE_SYS_READ : Z := 2.
Definition LETTUCE_SYS_CLOSE : Z := 3.
Definition LETTUCE_SYS_GETPID : Z := 4.
Definition LETTUCE_SYS_CLOCK_GETTIME : Z := 5.
Definition LETTUCE_SYS_NANOSLEEP : Z := 6.

Record LettuceArchContextFrame := {
  cf_service_id : Z;
  cf_domain_id : Z;
  cf_elr : Z;
  cf_spsr : Z;
  cf_sp_el0 : Z
}.

(** ** State *)

(** The static variables of [cpu.c]. *)
Record cpu_vars := {
  g_context_stack : list LettuceArchContextFrame;
  g_context_stack_depth : Z;
  g_pac_enabled : bool;
  g_pac_expected_trap : bool;
  g_pac_trap_observed : bool;
  g_preempt_disable_count : Z;
  g_elevator_use_asm : bool
}.

(** The kernel: the running service and the address space are in the scheduler's
    state. *)
Record cpu_state := {
  cp_vars : cpu_vars;
  cp_sched : scheduler_state mmu_state;
  cp_caps : cap_state;
  cp_registry : list LettuceServiceRegistryEntry;
  cp_timer : timer_state;
  cp_gic : gic_log;
  cp_fds : list LettuceFileDescriptor;
  cp_io : io_state
}.

Definition with_vars (v : cpu_vars) (st : cpu_state) : cpu_state :=
  {| cp_vars := v; cp_sched := cp_sched st; cp_caps := cp_caps st; cp_registry := cp_registry st;
     cp_timer := cp_timer st; cp_gic := cp_gic st; cp_fds := cp_fds st; cp_io := cp_io st |}.

Definition with_sched (s : scheduler_state mmu_state) (st : cpu_state) : cpu_state :=
  {| cp_vars := cp_vars st; cp_sched := s; cp_caps := cp_caps st; cp_registry := cp_registry st;
     cp_timer := cp_timer st; cp_gic := cp_gic st; cp_fds := cp_fds st; cp_io := cp_io st |}.

Definition with_io (io : io_state) (st : cpu_state) : cpu_state :=
  {| cp_vars := cp_vars st; cp_sched := cp_sched st; cp_caps := cp_caps st; cp_registry := cp_registry st;
     cp_timer := cp_timer st; cp_gic := cp_gic st; cp_fds := cp_fds st; cp_io := io |}.

Definition with_timer_gic (t : timer_state) (g : gic_log) (st : cpu_state) : cpu_state :=
  {| cp_vars := cp_vars st; cp_sched := cp_sched st; cp_caps := cp_caps st; cp_registry := cp_registry st;
     cp_timer := t; cp_gic := g; cp_fds := cp_fds st; cp_io := cp_io st |}.

(** The service identity and the MMU, inside the scheduler's state. *)
Definition set_service_mmu (svc : Z) (m : mmu_state) (s : scheduler_state mmu_state) : scheduler_state mmu_state :=
  {| ss_tasks := ss_tasks s; ss_vars := ss_vars s; g_scheduler_active := g_scheduler_active s;
     g_switch_count := g_switch_count s; g_preempt_count := g_preempt_count s;
     g_same_domain_switches := g_same_domain_switches s;
     g_cross_domain_switches := g_cross_domain_switches s; g_preempt_limit := g_preempt_limit s;
     g_current_policy_type := g_current_policy_type s; ss_service := svc; ss_arch := m |}.

Definition cp_service (st : cpu_state) : Z := ss_service (cp_sched st).
Definition cp_mmu (st : cpu_state) : mmu_state := ss_arch (cp_sched st).

Definition with_identity (svc : Z) (m : mmu_state) (st : cpu_state) : cpu_state :=
  with_sched (set_service_mmu svc m (cp_sched st)) st.

Definition with_mmu (m : mmu_state) (st : cpu_state) : cpu_state := with_identity (cp_service st) m st.

(** The state the validation functions read. *)
Definition kernel_view (st : cpu_state) : kstate mmu_state :=
  {| ks_context := {| g_current_service_id := cp_service st; ctx_protection := cp_mmu st |};
     ks_caps := cp_caps st; ks_registry := cp_registry st |}.

(** How a handler ends. *)
Inductive trap_end :=
  | ToUser (tf : LettuceTrapFrame)
  | ToKernel (status : Z)
  | Halted.

(** ** Preemption and feature switches *)

Definition lettuce_preempt_disable (v : cpu_vars) : cpu_vars :=
  {| g_context_stack := g_context_stack v; g_context_stack_depth := g_context_stack_depth v;
     g_pac_enabled := g_pac_enabled v; g_pac_expected_trap := g_pac_expected_trap v;
     g_pac_trap_observed := g_pac_trap_observed v;
     g_preempt_disable_count := u32 (g_preempt_disable_count v + 1); g_elevator_use_asm := g_elevator_use_asm v |}.

Definition lettuce_preempt_enable (v : cpu_vars) : cpu_vars :=
  if 0 <? g_preempt_disable_count v
  then {| g_context_stack := g_context_stack v; g_context_stack_depth := g_context_stack_depth v;
          g_pac_enabled := g_pac_enabled v; g_pac_expected_trap := g_pac_expected_trap v;
          g_pac_trap_observed := g_pac_trap_observed v;
          g_preempt_disable_count := g_preempt_disable_count v - 1; g_elevator_use_asm := g_elevator_use_asm v |}
  else v.

Definition lettuce_preempt_is_enabled (v : cpu_vars) : bool := g_preempt_disable_count v =? 0.

Definition lettuce_elevator_set_use_asm (use_asm : bool) (v : cpu_vars) : cpu_vars :=
  {| g_context_stack := g_context_stack v; g_context_stack_depth := g_context_stack_depth v;
     g_pac_enabled := g_pac_enabled v; g_pac_expected_trap := g_pac_expected_trap v;
     g_pac_trap_observed := g_pac_trap_observed v; g_preempt_disable_count := g_preempt_disable_count v;
     g_elevator_use_asm := use_asm |}.

Definition set_pac (enabled expected observed : bool) (v : cpu_vars) : cpu_vars :=
  {| g_context_stack := g_context_stack v; g_context_stack_depth := g_context_stack_depth v;
     g_pac_enabled := enabled; g_pac_expected_trap := expected; g_pac_trap_observed := observed;
     g_preempt_disable_count := g_preempt_disable_count v; g_elevator_use_asm := g_elevator_use_asm v |}.

Definition lettuce_pac_enable (enable : bool) (v : cpu_vars) : cpu_vars :=
  set_pac enable (g_pac_expected_trap v) (g_pac_trap_observed v) v.

Definition lettuce_pac_expect_trap (v : cpu_vars) : cpu_vars := set_pac (g_pac_enabled v) true false v.

Definition lettuce_pac_is_enabled (v : cpu_vars) : bool := g_pac_enabled v.
Definition lettuce_pac_trap_observed (v : cpu_vars) : bool := g_pac_trap_observed v.
Definition lettuce_elevator_is_using_asm (v : cpu_vars) : bool := g_elevator_use_asm v.
Definition lettuce_arch_context_depth (v : cpu_vars) : Z := g_context_stack_depth v.

Section cpu.
Context (pac_sign pac_auth : Z → Z → Z).

(** ** The context stack *)

Definition set_stack (stack : list LettuceArchContextFrame) (depth : Z) (v : cpu_vars) : cpu_vars :=
  {| g_context_stack := stack; g_context_stack_depth := depth; g_pac_enabled := g_pac_enabled v;
     g_pac_expected_trap := g_pac_expected_trap v; g_pac_trap_observed := g_pac_trap_observed v;
     g_preempt_disable_count := g_preempt_disable_count v; g_elevator_use_asm := g_elevator_use_asm v |}.

Definition lettuce_arch_context_push (svc dom elr spsr sp_el0 : Z) (v : cpu_vars) : option (bool * cpu_vars) :=
  if LETTUCE_ARCH_CONTEXT_MAX <=? g_context_stack_depth v then Some (false, v) else
  let stored_elr := if g_pac_enabled v then pac_sign elr svc else elr in
  stack ← arr_set (g_context_stack v) (g_context_stack_depth v)
            {| cf_service_id := svc; cf_domain_id := dom; cf_elr := stored_elr; cf_spsr := spsr; cf_sp_el0 := sp_el0 |};
  Some (true, set_stack stack (g_context_stack_depth v + 1) v).

(** The frame popped, if any. *)
Definition lettuce_arch_context_pop (v : cpu_vars) : option (option LettuceArchContextFrame * cpu_vars) :=
  if g_context_stack_depth v =? 0 then Some (None, v) else
  f ← arr_get (g_context_stack v) (g_context_stack_depth v - 1);
  let f := if g_pac_enabled v
           then {| cf_service_id := cf_service_id f; cf_domain_id := cf_domain_id f;
                   cf_elr := pac_auth (cf_elr f) (cf_service_id f); cf_spsr := cf_spsr f; cf_sp_el0 := cf_sp_el0 f |}
           else f in
  Some (Some f, set_stack (g_context_stack v) (g_context_stack_depth v - 1) v).

Definition lettuce_arch_context_corrupt_top_elr (xor_mask : Z) (v : cpu_vars) : option cpu_vars :=
  if 0 <? g_context_stack_depth v
  then f ← arr_get (g_context_stack v) (g_context_stack_depth v - 1);
       stack ← arr_set (g_context_stack v) (g_context_stack_depth v - 1)
                 {| cf_service_id := cf_service_id f; cf_domain_id := cf_domain_id f;
                    cf_elr := Z.lxor (cf_elr f) xor_mask; cf_spsr := cf_spsr f; cf_sp_el0 := cf_sp_el0 f |};
       Some (set_stack stack (g_context_stack_depth v) v)
  else Some v.

(** ** Frames *)

Definition set_x0 (v : Z) (tf : LettuceTrapFrame) : option LettuceTrapFrame :=
  x ← arr_set (tf_x tf) 0 v;
  Some {| tf_x := x; tf_lr := tf_lr tf; tf_elr := tf_elr tf; tf_spsr := tf_spsr tf; tf_sp_el0 := tf_sp_el0 tf |}.

Definition set_return (elr spsr sp_el0 : Z) (tf : LettuceTrapFrame) : LettuceTrapFrame :=
  {| tf_x := tf_x tf; tf_lr := tf_lr tf; tf_elr := elr; tf_spsr := spsr; tf_sp_el0 := sp_el0 |}.

(** ** Supervisor calls *)

(** [imm == LETTUCE_SVC_RETURN] *)
Definition svc_return (tf : LettuceTrapFrame) (st : cpu_state) : option (trap_end * cpu_state) :=
  x0 ← arr_get (tf_x tf) 0;
  if 0 <? g_context_stack_depth (cp_vars st) then
    '(caller, v) ← lettuce_arch_context_pop (cp_vars st);
    caller ← caller;
    let st := with_vars v st in
    let st := with_mmu (lettuce_mmu_leave (cf_domain_id caller) (cp_mmu st)) st in
    let st := with_identity (cf_service_id caller) (cp_mmu st) st in
    tf ← set_x0 x0 (set_return (cf_elr caller) (cf_spsr caller) (cf_sp_el0 caller) tf);
    Some (ToUser tf, st)
  else Some (ToKernel (s64 x0), st).

(** [elevator.S]: install TTBR0, entry point, stack and [SPSR = EL0t].  The assembly reads
    the first three fields. *)
Record LettuceElevatorDescriptor := {
  target_entry_pc : Z;
  target_sp_el0 : Z;
  target_ttbr0_val : Z;
  caller_ttbr0_val : Z;
  target_service : Z;
  target_domain : Z;
  caller_service : Z;
  caller_domain : Z
}.

Definition lettuce_elevator_asm_transition (desc : LettuceElevatorDescriptor) (tf : LettuceTrapFrame) (m : mmu_state)
    : LettuceTrapFrame * mmu_state :=
  (set_return (target_entry_pc desc) 0 (target_sp_el0 desc) tf,
   with_hw (msr ttbr0_el1 (target_ttbr0_val desc) (mmu_hw m)) m).

Definition svc_kind (imm : Z) : call_kind :=
  if imm =? LETTUCE_SVC_CALL then SameLayer else if imm =? LETTUCE_SVC_CROSS_LAYER then CrossLayer else Elevator.

(** The message in the registers, truncated to 32 bits. *)
Definition svc_message (tf : LettuceTrapFrame) : option LettuceCallMessage :=
  x0 ← arr_get (tf_x tf) 0; x1 ← arr_get (tf_x tf) 1; x2 ← arr_get (tf_x tf) 2; x3 ← arr_get (tf_x tf) 3;
  Some {| target_service_id := u32 x0; operation_id := u32 x1; resource_id := u32 x2; capability_handle := u32 x3 |}.

(** [imm] is one of the three call numbers. *)
Definition svc_call (imm : Z) (tf : LettuceTrapFrame) (st : cpu_state) : option (trap_end * cpu_state) :=
  msg ← svc_message tf;
  let caller_svc := cp_service st in
  let caller_dom := lettuce_mmu_current_domain (cp_mmu st) in
  '(val_status, resolution) ←
    (if imm =? LETTUCE_SVC_CALL
     then lettuce_same_layer_validate (target_service_id msg) (operation_id msg) (resource_id msg)
            (capability_handle msg) true (kernel_view st)
     else if imm =? LETTUCE_SVC_CROSS_LAYER then lettuce_cross_layer_validate (Some msg) true (kernel_view st)
     else lettuce_elevator_policy (Some msg) true (kernel_view st));
  if negb (status_is_ok val_status)
  then tf ← set_x0 (status_code val_status) tf; Some (ToUser tf, st) else
  resolution ← resolution;
  match res_entry resolution with
  | None => tf ← set_x0 (status_code LETTUCE_STATUS_INVALID_TARGET_ENTRY) tf; Some (ToUser tf, st)
  | Some entry =>
      if de_entry entry =? NULL
      then tf ← set_x0 (status_code LETTUCE_STATUS_INVALID_TARGET_ENTRY) tf; Some (ToUser tf, st) else
      '(pushed, v) ← lettuce_arch_context_push caller_svc caller_dom (tf_elr tf) (tf_spsr tf) (tf_sp_el0 tf) (cp_vars st);
      if negb (pushed : bool)
      then tf ← set_x0 (status_code LETTUCE_STATUS_OVERFLOW) tf; Some (ToUser tf, st) else
      let st := with_vars v st in
      let target := res_target resolution in
      if (imm =? LETTUCE_SVC_ELEVATOR) && g_elevator_use_asm (cp_vars st) then
        let desc := {| target_entry_pc := de_entry entry;
                       target_sp_el0 := lettuce_arch_domain_stack_top (sd_domain target);
                       target_ttbr0_val := lettuce_arch_domain_ttbr0_val (sd_domain target) (cp_mmu st);
                       caller_ttbr0_val := lettuce_arch_domain_ttbr0_val caller_dom (cp_mmu st);
                       target_service := sd_id target; target_domain := sd_domain target;
                       caller_service := caller_svc; caller_domain := caller_dom |} in
        let st := with_identity (sd_id target) (lettuce_mmu_set_current_domain (sd_domain target) (cp_mmu st)) st in
        let '(tf, m) := lettuce_elevator_asm_transition desc tf (cp_mmu st) in
        Some (ToUser tf, with_mmu m st)
      else
        let st := with_mmu (lettuce_mmu_enter (sd_domain target) (cp_mmu st)).2 st in
        let st := with_identity (sd_id target) (cp_mmu st) st in
        Some (ToUser (set_return (de_entry entry) 0 (lettuce_arch_domain_stack_top (sd_domain target)) tf), st)
  end.

Definition arch_enter (d : Z) (m : mmu_state) : mmu_state := (lettuce_mmu_enter d m).2.

(** A scheduling step ends in the frame it chose, or in the kernel when the
    preemption limit is hit. *)
Definition after_schedule (r : bool * option LettuceTrapFrame * scheduler_state mmu_state) (st : cpu_state)
    : option (trap_end * cpu_state) :=
  let '(hit, tf, s) := r in
  tf ← tf;
  Some (if (hit : bool)
        then (ToKernel (status_code LETTUCE_STATUS_OK),
              with_sched s (with_timer_gic (cp_timer st) (lettuce_gic_end_of_interrupt GIC_INTID_VTIMER (cp_gic st)) st))
        else (ToUser tf, with_sched s st)).

(** [imm == LETTUCE_SVC_YIELD] *)
Definition svc_yield (tf : LettuceTrapFrame) (st : cpu_state) : option (trap_end * cpu_state) :=
  r ← lettuce_scheduler_yield arch_enter (lettuce_timer_get_ticks (cp_timer st)) (Some tf) (cp_sched st);
  after_schedule r st.

(** [imm == LETTUCE_SVC_SYSCALL]; the result of the call is written to [x0] of the
    frame as the call left it. *)
Definition svc_syscall (tf : LettuceTrapFrame) (st : cpu_state) : option (trap_end * cpu_state) :=
  x0 ← arr_get (tf_x tf) 0; x1 ← arr_get (tf_x tf) 1; x2 ← arr_get (tf_x tf) 2; sys_no ← arr_get (tf_x tf) 8;
  let io_result (r : Z * io_state) := tf ← set_x0 (u64 r.1) tf; Some (ToUser tf, with_io r.2 st) in
  if sys_no =? LETTUCE_SYS_WRITE then lettuce_kernel_sys_write true (s32 x0) x1 x2 (cp_fds st) (cp_io st) ≫= io_result else
  if sys_no =? LETTUCE_SYS_READ then lettuce_kernel_sys_read true (s32 x0) x1 x2 (cp_fds st) (cp_io st) ≫= io_result else
  if sys_no =? LETTUCE_SYS_CLOSE then lettuce_kernel_sys_close (s32 x0) (cp_fds st) (cp_io st) ≫= io_result else
  if sys_no =? LETTUCE_SYS_GETPID then
    pid ← lettuce_kernel_sys_getpid (ss_tasks (cp_sched st)); tf ← set_x0 (u64 pid) tf; Some (ToUser tf, st) else
  if sys_no =? LETTUCE_SYS_CLOCK_GETTIME then
    lettuce_kernel_sys_clock_gettime (s32 x0) x1 (mmu_hw (cp_mmu st)) (cp_io st) ≫= io_result else
  if sys_no =? LETTUCE_SYS_NANOSLEEP then
    '(res, hit, tf', s) ← lettuce_kernel_sys_nanosleep arch_enter x0 (lettuce_timer_get_ticks (cp_timer st)) (Some tf)
                            (mmu_hw (cp_mmu st)) (cp_io st) (cp_sched st);
    '(e, st') ← after_schedule (hit, tf', s) st;
    match e with
    | ToUser tf' => tf' ← set_x0 (u64 res) tf'; Some (ToUser tf', st')
    | e => Some (e, st')
    end else
  tf ← set_x0 (u64 (- ENOSYS)) tf; Some (ToUser tf, st).

(** ** Faults *)

(** Console output of the handlers. *)
Definition puts (s : string) (st : cpu_state) : cpu_state :=
  with_io (lettuce_arch_console_puts s (cp_io st)) st.

Definition print_hex (v : Z) (st : cpu_state) : option cpu_state :=
  io ← lettuce_arch_console_print_hex v (cp_io st); Some (with_io io st).

Definition fault_status_text (fsc : Z) : string :=
  if (0x4 <=? fsc) && (fsc <=? 0x7) then " (translation_fault)"%string
  else if (0x8 <=? fsc) && (fsc <=? 0xb) then " (access_flag_fault)"%string
  else if (0xc <=? fsc) && (fsc <=? 0xf) then " (permission_fault)"%string
  else " (data_abort)"%string.

(** [ domain=... service=...] *)
Definition print_identity (st : cpu_state) : option cpu_state :=
  st ← print_hex (lettuce_mmu_current_domain (cp_mmu st)) st;
  let st := puts " service=" st in
  st ← print_hex (cp_service st) st;
  Some (puts newline st).

Definition print_esr_elr (title : string) (esr elr : Z) (st : cpu_state) : option cpu_state :=
  let st := puts title st in
  st ← print_hex esr st;
  let st := puts " ELR=" st in
  print_hex elr st.

Definition data_abort (esr far : Z) (tf : LettuceTrapFrame) (st : cpu_state) : option (trap_end * cpu_state) :=
  let exception_class := (esr .>> 26) .& 0x3f in
  let fault_status := esr .& 0x3f in
  st ← print_esr_elr "[EXCEPTION] LowerEL DataAbort ESR=" esr (tf_elr tf) st;
  st ← print_hex far (puts " FAR=" st);
  st ← print_hex exception_class (puts " EC=" st);
  st ← print_hex fault_status (puts " FSC=" st);
  st ← print_identity (puts " domain=" (puts (fault_status_text fault_status) st));
  let '(expected, m) := lettuce_mmu_handle_fault esr far (tf_elr tf) (cp_mmu st) in
  let st := with_mmu m st in
  if (expected : bool) then Some (ToKernel (status_code LETTUCE_STATUS_ABORTED), st)
  else Some (Halted, puts (String.append "unexpected LowerEL DataAbort - halted" newline) st).

Definition sysreg_trap (esr : Z) (tf : LettuceTrapFrame) (st : cpu_state) : option (trap_end * cpu_state) :=
  st ← print_esr_elr "[EXCEPTION] LowerEL SysRegTrap ESR=" esr (tf_elr tf) st;
  st ← print_hex ((esr .>> 26) .& 0x3f) (puts " EC=" st);
  st ← print_identity (puts " (trapped_sysreg/undefined) domain=" st);
  let '(expected, m) := lettuce_arch_handle_sysreg_trap esr (tf_elr tf) (cp_mmu st) in
  let st := with_mmu m st in
  if (expected : bool) then Some (ToKernel (status_code LETTUCE_STATUS_DENIED), st)
  else Some (Halted, puts (String.append "unexpected LowerEL SysRegTrap - halted" newline) st).

Definition instruction_abort (esr far : Z) (tf : LettuceTrapFrame) (st : cpu_state) : option (trap_end * cpu_state) :=
  st ← print_esr_elr "[EXCEPTION] LowerEL InstructionAbort ESR=" esr (tf_elr tf) st;
  st ← print_hex far (puts " FAR=" st);
  Some (Halted, puts newline st).

(** ** The handlers *)

(** A supervisor call, by its immediate. *)
Definition svc_handler (imm : Z) (tf : LettuceTrapFrame) (st : cpu_state) : option (trap_end * cpu_state) :=
  if imm =? LETTUCE_SVC_RETURN then svc_return tf st else
  if (imm =? LETTUCE_SVC_CALL) || (imm =? LETTUCE_SVC_CROSS_LAYER) || (imm =? LETTUCE_SVC_ELEVATOR)
  then svc_call imm tf st else
  if imm =? LETTUCE_SVC_YIELD then svc_yield tf st else
  if imm =? LETTUCE_SVC_SYSCALL then svc_syscall tf st else
  st ← print_hex imm (puts "[EXCEPTION] Unexpected SVC immediate: " st);
  Some (Halted, puts newline st).

Definition lettuce_arch_sync_lower_el_handler (esr far : Z) (tf : LettuceTrapFrame) (st : cpu_state)
    : option (trap_end * cpu_state) :=
  let exception_class := (esr .>> 26) .& 0x3f in
  if exception_class =? 0x15 then svc_handler (u32 (esr .& 0xffff)) tf st else
  if (exception_class =? 0x24) || (exception_class =? 0x25) then data_abort esr far tf st else
  if (exception_class =? 0x18) || (exception_class =? 0x00) then sysreg_trap esr tf st else
  if (exception_class =? 0x20) || (exception_class =? 0x21) then instruction_abort esr far tf st else
  st ← print_hex exception_class (puts "[EXCEPTION] LowerEL Unknown exception class=" st);
  Some (Halted, puts newline st).

Definition handle_timer (st : cpu_state) : cpu_state :=
  let '(t, h) := lettuce_timer_irq_handler (cp_timer st) (mmu_hw (cp_mmu st)) in
  with_mmu (Mmu.with_hw h (cp_mmu st)) (with_timer_gic t (cp_gic st) st).

Definition end_of_interrupt (intid : Z) (st : cpu_state) : cpu_state :=
  if negb (intid =? GIC_SPURIOUS_INTID)
  then with_timer_gic (cp_timer st) (lettuce_gic_end_of_interrupt intid (cp_gic st)) st else st.

Definition lettuce_arch_irq_el1_handler (iar : Z) (st : cpu_state) : cpu_state :=
  let intid := lettuce_gic_acknowledge iar in
  let st := if intid =? GIC_INTID_VTIMER then handle_timer st else st in
  end_of_interrupt intid st.

Definition lettuce_arch_irq_lower_el_handler (iar : Z) (tf : LettuceTrapFrame) (st : cpu_state)
    : option (trap_end * cpu_state) :=
  let intid := lettuce_gic_acknowledge iar in
  '(e, st) ←
    (if intid =? GIC_INTID_VTIMER then
       let st := handle_timer st in
       if lettuce_scheduler_is_active (cp_sched st) && lettuce_preempt_is_enabled (cp_vars st)
       then r ← lettuce_scheduler_tick arch_enter (lettuce_timer_get_ticks (cp_timer st)) (Some tf) (cp_sched st);
            after_schedule r st
       else Some (ToUser tf, st)
     else Some (ToUser tf, st));
  match e with
  | ToUser tf => Some (ToUser tf, end_of_interrupt intid st)
  | e => Some (e, st)
  end.

(** The text printed for an exception class at EL1. *)
Definition el1_fault_text (exception_class fault_status : Z) : string :=
  if (exception_class =? 0x20) || (exception_class =? 0x21) then " (instruction_abort)"%string
  else if (exception_class =? 0x24) || (exception_class =? 0x25) then fault_status_text fault_status
  else " (other)"%string.

(** [frame->elr += 4] *)
Definition skip_instruction (tf : LettuceTrapFrame) : LettuceTrapFrame :=
  set_return (u64 (tf_elr tf + 4)) (tf_spsr tf) (tf_sp_el0 tf) tf.

(** Faults of the kernel itself; the frame returned to is the kernel's. *)
Definition lettuce_arch_sync_el1_handler (esr far : Z) (tf : LettuceTrapFrame) (st : cpu_state)
    : option (trap_end * cpu_state) :=
  let exception_class := (esr .>> 26) .& 0x3f in
  let fault_status := esr .& 0x3f in
  st ← print_esr_elr "[EXCEPTION] SyncEL1 ESR=" esr (tf_elr tf) st;
  st ← print_hex far (puts " FAR=" st);
  st ← print_hex exception_class (puts " EC=" st);
  st ← print_hex fault_status (puts " FSC=" st);
  st ← print_identity (puts " domain=" (puts (el1_fault_text exception_class fault_status) st));
  let abort := (exception_class =? 0x24) || (exception_class =? 0x25) in
  let '(expected, m) := if abort then lettuce_mmu_handle_fault esr far (tf_elr tf) (cp_mmu st)
                        else (false, cp_mmu st) in
  let st := with_mmu m st in
  if (expected : bool) then Some (ToUser (skip_instruction tf), st) else
  '(trapped, st) ←
    (if exception_class =? 0x1c then
       st ← print_esr_elr "[EXCEPTION] SyncEL1 PAC Trap ESR=" esr (tf_elr tf) st;
       let st := puts newline st in
       if g_pac_expected_trap (cp_vars st)
       then Some (true, with_vars (set_pac (g_pac_enabled (cp_vars st)) false true (cp_vars st)) st)
       else Some (false, st)
     else Some (false, st));
  if (trapped : bool) then Some (ToUser (skip_instruction tf), st)
  else Some (Halted, puts (String.append "unexpected EL1 exception - system halted" newline) st).

Definition lettuce_arch_exception_unexpected (st : cpu_state) : trap_end * cpu_state :=
  (Halted, puts (String.append "[EXCEPTION] Unexpected exception vector hit - system halted" newline) st).

(** Install the vector table at the current exception level. *)
Definition lettuce_arch_init (vectors : Z) (h : hw_state) : hw_state :=
  let current_el := Mmu.lettuce_arch_current_el h in
  if current_el =? 2 then msr vbar_el2 vectors h
  else if current_el =? 1 then msr vbar_el1 vectors h else h.

End cpu.
