(* ===== verification/CpuSpec.v ===== *)
(** * What the exception handlers guarantee

    Calls between services through the supervisor-call interface: every entry into
    another service is authorised, nested calls return to exactly where they came from,
    and the assembly fast path does what the C path does.  Two claims show where the
    handlers and the scheduler do not fit together. *)

From S2P Require Import Prelude Types Generation Context Capability CapabilitySpec Registry RegistrySpec Ipc.
From S2P Require Import Task Policy RoundRobin Eevdf Scheduler SchedulerSpec Mmu MmuSpec Timer Console Posix Cpu.

(** The syndrome of [svc #imm] from AArch64 user code: exception class, the bit of 32-bit
    instructions, and the immediate. *)
Definition svc_esr (imm : Z) : Z := (0x15 .<< 26) .| (1 .<< 25) .| imm.

Definition kind_imm (k : call_kind) : Z :=
  match k with
  | SameLayer => LETTUCE_SVC_CALL
  | CrossLayer => LETTUCE_SVC_CROSS_LAYER
  | Elevator => LETTUCE_SVC_ELEVATOR
  end.

Definition depth (st : cpu_state) : Z := g_context_stack_depth (cp_vars st).

Record stack_ok (v : cpu_vars) : Prop := {
  so_size : Z.of_nat (length (g_context_stack v)) = LETTUCE_ARCH_CONTEXT_MAX;
  so_depth : 0 ≤ g_context_stack_depth v ≤ LETTUCE_ARCH_CONTEXT_MAX
}.

Section spec.
Context (pac_sign pac_auth : Z → Z → Z).

#[local] Abbreviation handler := (lettuce_arch_sync_lower_el_handler pac_sign pac_auth).

Lemma handler_call (k : call_kind) (far : Z) (tf : LettuceTrapFrame) (st : cpu_state) :
  handler (svc_esr (kind_imm k)) far tf st = svc_call pac_sign (kind_imm k) tf st.
Proof. by destruct k. Qed.

Lemma handler_return (far : Z) (tf : LettuceTrapFrame) (st : cpu_state) :
  handler (svc_esr LETTUCE_SVC_RETURN) far tf st = svc_return pac_auth tf st.
Proof. done. Qed.

Lemma handler_syscall (far : Z) (tf : LettuceTrapFrame) (st : cpu_state) :
  handler (svc_esr LETTUCE_SVC_SYSCALL) far tf st = svc_syscall tf st.
Proof. done. Qed.

(** ** Registers *)

Lemma frame_register (tf : LettuceTrapFrame) (i : Z) : frame_ok tf → 0 ≤ i < 30 → is_Some (arr_get (tf_x tf) i).
Proof. intros Htf Hi. apply arr_get_is_Some. unfold frame_ok in Htf. lia. Qed.

Lemma set_x0_spec (v : Z) (tf : LettuceTrapFrame) :
  frame_ok tf → ∃ tf', set_x0 v tf = Some tf' ∧ tf_x tf' = <[0%nat := v]> (tf_x tf) ∧ tf_elr tf' = tf_elr tf ∧
    tf_spsr tf' = tf_spsr tf ∧ tf_sp_el0 tf' = tf_sp_el0 tf ∧ tf_lr tf' = tf_lr tf.
Proof.
  intros Htf. unfold frame_ok in Htf. unfold set_x0. rewrite arr_set_Some by lia. cbn. eexists. split; [done|]. done.
Qed.

Lemma set_x0_ok (v : Z) (tf tf' : LettuceTrapFrame) : set_x0 v tf = Some tf' → frame_ok tf → frame_ok tf'.
Proof.
  unfold set_x0, frame_ok. destruct (arr_set _ _ _) as [x|] eqn:Hx; cbn; [|done]. intros [= <-]. cbn.
  by rewrite (arr_set_length _ _ _ _ Hx).
Qed.

Lemma svc_message_spec (tf : LettuceTrapFrame) : frame_ok tf → ∃ m, svc_message tf = Some m ∧ message_wf m.
Proof.
  intros Htf. unfold svc_message.
  destruct (frame_register tf 0 Htf ltac:(lia)) as [x0 ->]. destruct (frame_register tf 1 Htf ltac:(lia)) as [x1 ->].
  destruct (frame_register tf 2 Htf ltac:(lia)) as [x2 ->]. destruct (frame_register tf 3 Htf ltac:(lia)) as [x3 ->].
  cbn. eexists. split; [done|]. unfold message_wf. cbn. split_and!; apply u32_range.
Qed.

(** ** Calls *)

(** The handler validates like the gate of the kind. *)
Lemma svc_call_validates (k : call_kind) (tf : LettuceTrapFrame) (st : cpu_state) m :
  svc_message tf = Some m →
  (if kind_imm k =? LETTUCE_SVC_CALL
   then lettuce_same_layer_validate (target_service_id m) (operation_id m) (resource_id m)
          (capability_handle m) true (kernel_view st)
   else if kind_imm k =? LETTUCE_SVC_CROSS_LAYER then lettuce_cross_layer_validate (Some m) true (kernel_view st)
   else lettuce_elevator_policy (Some m) true (kernel_view st)) = validate_call k m (kernel_view st).
Proof. intros _. by destruct k. Qed.

Lemma context_push_spec (svc dom elr spsr sp : Z) (v : cpu_vars) :
  stack_ok v →
  if decide (g_context_stack_depth v < LETTUCE_ARCH_CONTEXT_MAX)
  then ∃ v', lettuce_arch_context_push pac_sign svc dom elr spsr sp v = Some (true, v') ∧ stack_ok v' ∧
    g_context_stack_depth v' = g_context_stack_depth v + 1 ∧ g_pac_enabled v' = g_pac_enabled v ∧
    g_elevator_use_asm v' = g_elevator_use_asm v ∧
    v' = set_stack (g_context_stack v') (g_context_stack_depth v + 1) v ∧
    ∀ i, arr_get (g_context_stack v') i =
      if decide (g_context_stack_depth v = i)
      then Some {| cf_service_id := svc; cf_domain_id := dom;
                   cf_elr := if g_pac_enabled v then pac_sign elr svc else elr; cf_spsr := spsr; cf_sp_el0 := sp |}
      else arr_get (g_context_stack v) i
  else lettuce_arch_context_push pac_sign svc dom elr spsr sp v = Some (false, v).
Proof.
  intros [Hs Hd]. unfold lettuce_arch_context_push. case_decide as Hlt.
  - rewrite (proj2 (Z.leb_gt _ _)) by lia. rewrite arr_set_Some by lia. cbn [mbind option_bind].
    eexists. split; [done|]. cbn. split_and!; try done.
    + split; cbn; [by rewrite length_insert|lia].
    + intros i. by rewrite arr_get_insert by lia.
  - by rewrite (proj2 (Z.leb_le _ _)) by lia.
Qed.

(** The state in which the target of an accepted call starts. *)
Definition called (k : call_kind) (target : LettuceServiceDescriptor) (v : cpu_vars) (st : cpu_state) : cpu_state :=
  with_identity (sd_id target)
    (if (kind_imm k =? LETTUCE_SVC_ELEVATOR) && g_elevator_use_asm v
     then let m := lettuce_mmu_set_current_domain (sd_domain target) (cp_mmu st) in
          Mmu.with_hw (msr ttbr0_el1 (lettuce_arch_domain_ttbr0_val (sd_domain target) (cp_mmu st)) (mmu_hw m)) m
     else (lettuce_mmu_enter (sd_domain target) (cp_mmu st)).2) (with_vars v st).

(** How a call ends, from what its validation says. *)
Lemma svc_call_cases (k : call_kind) (tf : LettuceTrapFrame) (st : cpu_state) m s o :
  svc_message tf = Some m → validate_call k m (kernel_view st) = Some (s, o) → frame_ok tf → stack_ok (cp_vars st) →
  (∃ tf' code, svc_call pac_sign (kind_imm k) tf st = Some (ToUser tf', st) ∧ set_x0 code tf = Some tf' ∧
     code ≠ status_code LETTUCE_STATUS_OK ∧
     ((s ≠ LETTUCE_STATUS_OK ∧ code = status_code s) ∨ (s = LETTUCE_STATUS_OK ∧ depth st = LETTUCE_ARCH_CONTEXT_MAX) ∨
      (s = LETTUCE_STATUS_OK ∧ ∃ r, o = Some r ∧ ∀ d, res_entry r = Some d → de_entry d = NULL))) ∨
  (s = LETTUCE_STATUS_OK ∧ o = None) ∨
  (∃ r d v, o = Some r ∧ s = LETTUCE_STATUS_OK ∧ res_entry r = Some d ∧ de_entry d ≠ NULL ∧
     lettuce_arch_context_push pac_sign (cp_service st) (current_domain (cp_mmu st)) (tf_elr tf) (tf_spsr tf)
       (tf_sp_el0 tf) (cp_vars st) = Some (true, v) ∧ depth st < LETTUCE_ARCH_CONTEXT_MAX ∧
     svc_call pac_sign (kind_imm k) tf st =
       Some (ToUser (set_return (de_entry d) 0 (lettuce_arch_domain_stack_top (sd_domain (res_target r))) tf),
             called k (res_target r) v st)).
Proof.
  intros Hm Hv Htf Hst. unfold svc_call. rewrite Hm. cbn [mbind option_bind].
  rewrite (svc_call_validates k tf st m Hm), Hv. cbn [mbind option_bind].
  destruct (set_x0_spec (status_code s) tf Htf) as (tfs & Hs & _).
  destruct (negb (status_is_ok s)) eqn:Hok.
  { left. exists tfs, (status_code s). rewrite Hs. split_and!; [done..| |].
    - intros Heq%status_code_inj. by subst s.
    - left. split; [by intros ->|done]. }
  assert (s = LETTUCE_STATUS_OK) as -> by by destruct s.
  destruct o as [r|]; [|by right; left]. cbn [mbind option_bind].
  destruct (set_x0_spec (status_code LETTUCE_STATUS_INVALID_TARGET_ENTRY) tf Htf) as (tfi & Hi & _).
  destruct (res_entry r) as [d|] eqn:Hr.
  2:{ left. exists tfi, (status_code LETTUCE_STATUS_INVALID_TARGET_ENTRY). rewrite Hi. split_and!; [done..|].
      right; right. split; [done|]. exists r. split; [done|]. intros; congruence. }
  destruct (Z.eqb_spec (de_entry d) NULL) as [Hnull|Hnull].
  { left. exists tfi, (status_code LETTUCE_STATUS_INVALID_TARGET_ENTRY). rewrite Hi. split_and!; [done..|].
    right; right. split; [done|]. exists r. split; [done|]. congruence. }
  pose proof (context_push_spec (cp_service st) (current_domain (cp_mmu st)) (tf_elr tf) (tf_spsr tf) (tf_sp_el0 tf)
    (cp_vars st) Hst) as Hp. unfold lettuce_mmu_current_domain. case_decide as Hlt.
  - destruct Hp as (v & Hp & _ & _ & _ & Huse & _). right; right. exists r, d, v. rewrite Hp.
    split_and!; try done. cbn [mbind option_bind negb]. unfold called. cbn [cp_vars with_vars].
    destruct (_ && _); done.
  - rewrite Hp. cbn [mbind option_bind negb]. left.
    destruct (set_x0_spec (status_code LETTUCE_STATUS_OVERFLOW) tf Htf) as (tfo & Ho & _).
    exists tfo, (status_code LETTUCE_STATUS_OVERFLOW). rewrite Ho. split_and!; [done..|]. right; left. split; [done|].
    unfold depth. destruct Hst. lia.
Qed.

(** ** Nested calls *)

(** What nested calls rely on: the hardware runs the current domain's tables, the
    kernel runs at EL1, and every registered service has one of the static domains. *)
Record calls_ok (L : layout) (st : cpu_state) : Prop := {
  co_sync : mmu_sync L (cp_mmu st);
  co_el : Mmu.lettuce_arch_current_el (mmu_hw (cp_mmu st)) ≠ 2;
  co_stack : stack_ok (cp_vars st);
  co_domains : ∀ i d, lettuce_service_registry_lookup i (cp_registry st) = Some (Some d) → mmu_known (sd_domain d) = true
}.

(** The part of the state a nested call gives back. *)
Record same_caller (st st' : cpu_state) : Prop := {
  sc_service : cp_service st' = cp_service st;
  sc_domain : current_domain (cp_mmu st') = current_domain (cp_mmu st);
  sc_depth : depth st' = depth st;
  sc_frames : ∀ i, 0 ≤ i < depth st → arr_get (g_context_stack (cp_vars st')) i = arr_get (g_context_stack (cp_vars st)) i;
  sc_pac : g_pac_enabled (cp_vars st') = g_pac_enabled (cp_vars st);
  sc_registry : cp_registry st' = cp_registry st
}.

#[export] Instance same_caller_preorder : PreOrder same_caller.
Proof.
  split; [by intros st; split|]. intros a b c [? ? D1 F1 ? ?] [? ? ? F2 ? ?]. split; try congruence.
  intros i Hi. rewrite F2 by lia. by apply F1.
Qed.

(** Installing a domain's TTBR0 and recording it, by either path, keeps hardware and
    record in step. *)
Lemma install_sync (L : layout) (d : Z) (m : mmu_state) :
  mmu_sync L m → mmu_known d = true → Mmu.lettuce_arch_current_el (mmu_hw m) ≠ 2 →
  let m' := Mmu.with_hw (msr ttbr0_el1 (lettuce_arch_domain_ttbr0_val d m) (mmu_hw m))
              (lettuce_mmu_set_current_domain d m) in
  mmu_sync L m' ∧ current_domain m' = d ∧ Mmu.lettuce_arch_current_el (mmu_hw m') ≠ 2.
Proof.
  intros [Hr _] Hk Hel m'. pose proof (mmu_known_index d) as Hi. rewrite Hk in Hi. destruct Hi as [i Hi].
  assert (Mmu.lettuce_arch_current_el (mmu_hw m') = Mmu.lettuce_arch_current_el (mmu_hw m)) as Hel'
    by (cbn; by rewrite current_el_msr).
  split_and!; [|done|congruence]. split; [by destruct Hr|]. exists i. split; [done|].
  unfold lettuce_mmu_active_ttbr0. rewrite Hel', (proj2 (Z.eqb_neq _ _) Hel). cbn. rewrite decide_True by done.
  unfold lettuce_arch_domain_ttbr0_val, arch_domain_lookup. by rewrite Hi.
Qed.

Lemma enter_el (d : Z) (m : mmu_state) :
  Mmu.lettuce_arch_current_el (mmu_hw (lettuce_mmu_enter d m).2) = Mmu.lettuce_arch_current_el (mmu_hw m).
Proof.
  unfold lettuce_mmu_enter. destruct (_ || _); [done|]. destruct (arch_domain_lookup d m); [|done].
  cbn. by rewrite write_ttbr_el.
Qed.

(** An accepted call: the target runs, and the caller is on top of the stack. *)
Lemma call_step (L : layout) (k : call_kind) (tf : LettuceTrapFrame) (st : cpu_state) m r d v :
  calls_ok L st → validate_call k m (kernel_view st) = Some (LETTUCE_STATUS_OK, Some r) →
  lettuce_service_registry_lookup (target_service_id m) (cp_registry st) = Some (Some (res_target r)) →
  depth st < LETTUCE_ARCH_CONTEXT_MAX → res_entry r = Some d →
  lettuce_arch_context_push pac_sign (cp_service st) (current_domain (cp_mmu st)) (tf_elr tf) (tf_spsr tf)
    (tf_sp_el0 tf) (cp_vars st) = Some (true, v) →
  let st1 := called k (res_target r) v st in
  calls_ok L st1 ∧ cp_service st1 = sd_id (res_target r) ∧
  current_domain (cp_mmu st1) = sd_domain (res_target r) ∧ depth st1 = depth st + 1 ∧
  g_pac_enabled (cp_vars st1) = g_pac_enabled (cp_vars st) ∧ cp_registry st1 = cp_registry st ∧
  arr_get (g_context_stack (cp_vars st1)) (depth st) =
    Some {| cf_service_id := cp_service st; cf_domain_id := current_domain (cp_mmu st);
            cf_elr := if g_pac_enabled (cp_vars st) then pac_sign (tf_elr tf) (cp_service st) else tf_elr tf;
            cf_spsr := tf_spsr tf; cf_sp_el0 := tf_sp_el0 tf |} ∧
  ∀ i, 0 ≤ i < depth st → arr_get (g_context_stack (cp_vars st1)) i = arr_get (g_context_stack (cp_vars st)) i.
Proof.
  intros [Hsync Hel Hstk Hdom] Hv Ht Hlt Hr Hp st1.
  pose proof (context_push_spec (cp_service st) (current_domain (cp_mmu st)) (tf_elr tf) (tf_spsr tf) (tf_sp_el0 tf)
    (cp_vars st) Hstk) as Hspec. rewrite decide_True in Hspec by done.
  destruct Hspec as (v' & Hp' & Hstk' & Hd' & Hpac & _ & _ & Hget). rewrite Hp in Hp'. injection Hp' as <-.
  pose proof (Hdom _ _ Ht) as Hk.
  assert (mmu_sync L (cp_mmu st1) ∧ current_domain (cp_mmu st1) = sd_domain (res_target r) ∧
    Mmu.lettuce_arch_current_el (mmu_hw (cp_mmu st1)) ≠ 2) as (Hs1 & Hc1 & He1).
  { unfold st1, called. cbn. destruct (_ && _).
    - by apply install_sync.
    - destruct (mmu_enter_sync L (sd_domain (res_target r)) (cp_mmu st) Hsync) as [Hs Hc]. rewrite Hk in Hc.
      split_and!; [done..|]. by rewrite enter_el. }
  unfold depth in *. split_and!; try done.
  - unfold st1. cbn. rewrite Hget. by rewrite decide_True.
  - intros i Hi. unfold st1. cbn. rewrite Hget. by rewrite decide_False by lia.
Qed.

(** A return hands control to the frame on top of the stack. *)
Lemma return_step (L : layout) (tf : LettuceTrapFrame) (st : cpu_state) f :
  calls_ok L st → frame_ok tf → 0 < depth st → arr_get (g_context_stack (cp_vars st)) (depth st - 1) = Some f →
  mmu_known (cf_domain_id f) = true →
  ∃ tf' st', svc_return pac_auth tf st = Some (ToUser tf', st') ∧ calls_ok L st' ∧
    tf_x tf' = tf_x tf ∧ tf_lr tf' = tf_lr tf ∧
    tf_elr tf' = (if g_pac_enabled (cp_vars st) then pac_auth (cf_elr f) (cf_service_id f) else cf_elr f) ∧
    tf_spsr tf' = cf_spsr f ∧ tf_sp_el0 tf' = cf_sp_el0 f ∧
    cp_service st' = cf_service_id f ∧ current_domain (cp_mmu st') = cf_domain_id f ∧
    depth st' = depth st - 1 ∧ g_context_stack (cp_vars st') = g_context_stack (cp_vars st) ∧
    g_pac_enabled (cp_vars st') = g_pac_enabled (cp_vars st) ∧ cp_registry st' = cp_registry st.
Proof.
  intros [Hsync Hel [Hsz Hd] Hdom] Htf Hpos Hf Hk. unfold depth in *. unfold svc_return.
  destruct (frame_register tf 0 Htf ltac:(lia)) as [x0 Hx0]. rewrite Hx0. cbn [mbind option_bind].
  rewrite (proj2 (Z.ltb_lt _ _)) by done. unfold lettuce_arch_context_pop.
  rewrite (proj2 (Z.eqb_neq _ _)) by lia. rewrite Hf. cbn [mbind option_bind].
  destruct (mmu_enter_sync L (cf_domain_id f) (cp_mmu st) Hsync) as [Hs Hc]. rewrite Hk in Hc.
  set (f' := if g_pac_enabled (cp_vars st) then _ else f).
  assert (cf_service_id f' = cf_service_id f ∧ cf_domain_id f' = cf_domain_id f ∧ cf_spsr f' = cf_spsr f ∧
    cf_sp_el0 f' = cf_sp_el0 f ∧
    cf_elr f' = if g_pac_enabled (cp_vars st) then pac_auth (cf_elr f) (cf_service_id f) else cf_elr f)
    as (-> & -> & -> & -> & ->) by (subst f'; by destruct (g_pac_enabled (cp_vars st))).
  unfold set_x0. cbn [tf_x set_return]. rewrite arr_set_Some by (unfold frame_ok in Htf; lia). cbn [mbind option_bind].
  do 2 eexists. split; [reflexivity|]. cbn. split_and!; try done.
  - split; cbn; [done|unfold lettuce_mmu_leave; by rewrite enter_el|split; cbn; [done|lia]|done].
  - apply list_insert_id. rewrite arr_get_lookup in Hx0 by lia. done.
Qed.

Lemma validate_target (k : call_kind) (m : LettuceCallMessage) (st : cpu_state) r :
  validate_call k m (kernel_view st) = Some (LETTUCE_STATUS_OK, Some r) →
  lettuce_service_registry_lookup (target_service_id m) (cp_registry st) = Some (Some (res_target r)).
Proof.
  destruct k; cbn [validate_call];
    unfold lettuce_same_layer_validate, lettuce_cross_layer_validate, lettuce_elevator_policy; cbn [negb kernel_view ks_registry];
    intros H; run_inv H; congruence.
Qed.

(** An accepted or refused call, from the handler's result. *)
Lemma handler_call_inv (k : call_kind) (far : Z) (tf : LettuceTrapFrame) (st : cpu_state) e st1 :
  frame_ok tf → stack_ok (cp_vars st) → handler (svc_esr (kind_imm k)) far tf st = Some (e, st1) →
  st1 = st ∨
  ∃ m r d v, svc_message tf = Some m ∧ validate_call k m (kernel_view st) = Some (LETTUCE_STATUS_OK, Some r) ∧
    res_entry r = Some d ∧ depth st < LETTUCE_ARCH_CONTEXT_MAX ∧
    lettuce_arch_context_push pac_sign (cp_service st) (current_domain (cp_mmu st)) (tf_elr tf) (tf_spsr tf)
       (tf_sp_el0 tf) (cp_vars st) = Some (true, v) ∧
    e = ToUser (set_return (de_entry d) 0 (lettuce_arch_domain_stack_top (sd_domain (res_target r))) tf) ∧
    st1 = called k (res_target r) v st.
Proof.
  intros Htf Hst. rewrite handler_call. destruct (svc_message_spec tf Htf) as (m & Hm & _).
  destruct (validate_call k m (kernel_view st)) as [[s o]|] eqn:Hv.
  2:{ unfold svc_call. rewrite Hm. cbn [mbind option_bind]. by rewrite (svc_call_validates k tf st m Hm), Hv. }
  destruct (svc_call_cases k tf st m s o Hm Hv Htf Hst) as
    [(tf' & code & -> & _)|[[-> ->]|(r & d & v & -> & -> & Hr & Hd & Hp & Hlt & ->)]].
  - intros [= <- <-]. by left.
  - unfold svc_call. rewrite Hm. cbn [mbind option_bind]. by rewrite (svc_call_validates k tf st m Hm), Hv.
  - intros [= <- <-]. right. by exists m, r, d, v.
Qed.

Lemma syscall_io (tf : LettuceTrapFrame) (st : cpu_state) n e st' :
  arr_get (tf_x tf) 8 = Some n → n ≠ LETTUCE_SYS_NANOSLEEP → svc_syscall tf st = Some (e, st') →
  ∃ io v tf', st' = with_io io st ∧ set_x0 v tf = Some tf' ∧ e = ToUser tf'.
Proof.
  intros Hn Hns. unfold svc_syscall.
  destruct (arr_get (tf_x tf) 0) as [x0|]; cbn [mbind option_bind]; [|done].
  destruct (arr_get (tf_x tf) 1) as [x1|]; cbn [mbind option_bind]; [|done].
  destruct (arr_get (tf_x tf) 2) as [x2|]; cbn [mbind option_bind]; [|done]. rewrite Hn. cbn [mbind option_bind].
  rewrite (proj2 (Z.eqb_neq _ _) Hns).
  assert (∀ r : Z * io_state, (tf ← set_x0 (u64 r.1) tf; Some (ToUser tf, with_io r.2 st)) = Some (e, st') →
    ∃ io v tf', st' = with_io io st ∧ set_x0 v tf = Some tf' ∧ e = ToUser tf') as Hio.
  { intros r. destruct (set_x0 _ tf) eqn:Hs; cbn; [|done]. intros [= <- <-]. eauto 6. }
  assert (∀ v, (tf ← set_x0 v tf; Some (ToUser tf, st)) = Some (e, st') →
    ∃ io v tf', st' = with_io io st ∧ set_x0 v tf = Some tf' ∧ e = ToUser tf') as Hst.
  { intros v. destruct (set_x0 _ tf) as [tf'|] eqn:Hs; cbn; [|done]. intros [= <- <-]. exists (cp_io st), v, tf'. by destruct st. }
  repeat (case_match; [match goal with |- (?o ≫= _) = _ → _ => destruct o; cbn [mbind option_bind]; [|done]; first [apply Hio|apply Hst] end|]).
  apply Hst.
Qed.

Lemma with_io_calls_ok (L : layout) (io : io_state) (st : cpu_state) : calls_ok L st → calls_ok L (with_io io st).
Proof. intros []. by split. Qed.

Lemma with_io_same (io : io_state) (st : cpu_state) : same_caller st (with_io io st).
Proof. by split. Qed.

(** What a service and the services it calls may do between a call and its return:
    system calls other than sleeping, refused calls, and calls that return. *)
Inductive nested : cpu_state → cpu_state → Prop :=
  | nested_nil st : nested st st
  | nested_syscall st far tf n e st1 st' :
      arr_get (tf_x tf) 8 = Some n → n ≠ LETTUCE_SYS_NANOSLEEP →
      handler (svc_esr LETTUCE_SVC_SYSCALL) far tf st = Some (e, st1) → nested st1 st' → nested st st'
  | nested_refused st k far tf e st1 st' :
      frame_ok tf → handler (svc_esr (kind_imm k)) far tf st = Some (e, st1) → depth st1 = depth st →
      nested st1 st' → nested st st'
  | nested_call st k far tf e st1 st2 far' tf2 e3 st3 st' :
      frame_ok tf → handler (svc_esr (kind_imm k)) far tf st = Some (e, st1) → depth st1 ≠ depth st →
      nested st1 st2 →
      frame_ok tf2 → handler (svc_esr LETTUCE_SVC_RETURN) far' tf2 st2 = Some (e3, st3) →
      nested st3 st' → nested st st'.

(** A call, what happens inside it, and its return. *)
Lemma call_and_return (L : layout) (k : call_kind) (far : Z) (tf tf2 : LettuceTrapFrame) (st st1 st2 : cpu_state) e :
  calls_ok L st → frame_ok tf → frame_ok tf2 →
  handler (svc_esr (kind_imm k)) far tf st = Some (e, st1) → depth st1 ≠ depth st →
  (calls_ok L st1 → calls_ok L st2 ∧ same_caller st1 st2) →
  ∃ tf3 st3, svc_return pac_auth tf2 st2 = Some (ToUser tf3, st3) ∧ calls_ok L st3 ∧ same_caller st st3 ∧
    tf_x tf3 = tf_x tf2 ∧ tf_lr tf3 = tf_lr tf2 ∧ tf_spsr tf3 = tf_spsr tf ∧ tf_sp_el0 tf3 = tf_sp_el0 tf ∧
    tf_elr tf3 = (if g_pac_enabled (cp_vars st)
                  then pac_auth (pac_sign (tf_elr tf) (cp_service st)) (cp_service st) else tf_elr tf).
Proof.
  intros Hok Htf Htf2 Hx Hne Hin. pose proof (co_stack _ _ Hok) as Hstk.
  destruct (handler_call_inv k far tf st e st1 Htf Hstk Hx) as
    [->|(m & r & d & v & _ & Hv & Hr & Hlt & Hp & _ & ->)]; [done|].
  destruct (call_step L k tf st m r d v Hok Hv (validate_target _ _ _ _ Hv) Hlt Hr Hp) as
    (Hok1 & _ & _ & Hd1 & Hpac1 & Hreg1 & Htop & Hlow).
  destruct (Hin Hok1) as [Hok2 [_ _ Hd2 Hf2 Hpac2 Hreg2]]. destruct (co_sync _ _ Hok) as [_ (i & Hidx & _)].
  pose proof (so_depth _ Hstk) as Hdr. unfold depth in *.
  assert (mmu_known (current_domain (cp_mmu st)) = true) as Hk.
  { pose proof (mmu_known_index (current_domain (cp_mmu st))) as Hi. destruct (mmu_known _); [done|congruence]. }
  rewrite <- (Hf2 (g_context_stack_depth (cp_vars st))) in Htop by lia.
  replace (g_context_stack_depth (cp_vars st)) with (depth st2 - 1) in Htop by (unfold depth; lia).
  destruct (return_step L tf2 st2 _ Hok2 Htf2 ltac:(unfold depth; lia) Htop Hk) as
    (tf3 & st3 & -> & Hok3 & Hx3 & Hlr3 & He3 & Hs3 & Hp3 & Hsv3 & Hdm3 & Hd3 & Hst3 & Hpac3 & Hreg3).
  unfold depth in Hd3. cbn in He3, Hs3, Hp3, Hsv3, Hdm3. exists tf3, st3. split_and!; try done.
  - split; try congruence.
    + unfold depth. lia.
    + intros j Hj. unfold depth in Hj. rewrite Hst3, Hf2 by lia. by apply Hlow.
  - rewrite He3, Hpac2, Hpac1. by destruct (g_pac_enabled (cp_vars st)).
Qed.

Lemma nested_same (L : layout) (st st' : cpu_state) :
  nested st st' → calls_ok L st → calls_ok L st' ∧ same_caller st st'.
Proof.
  induction 1 as [st|st far tf n e st1 st' Hn Hns Hx _ IH|st k far tf e st1 st' Htf Hx Hd _ IH|
    st k far tf e st1 st2 far' tf2 e3 st3 st' Htf Hx Hd _ IH1 Htf2 Hret _ IH2]; intros Hok.
  - by split; [|reflexivity].
  - rewrite handler_syscall in Hx. destruct (syscall_io tf st n e st1 Hn Hns Hx) as (io & _ & _ & -> & _).
    destruct (IH (with_io_calls_ok L io st Hok)) as [? Hs]. split; [done|]. etrans; [apply with_io_same|exact Hs].
  - destruct (handler_call_inv k far tf st e st1 Htf (co_stack _ _ Hok) Hx) as
      [->|(m & r & d & v & _ & Hv & Hr & Hlt & Hp & _ & ->)]; [by apply IH|].
    destruct (call_step L k tf st m r d v Hok Hv (validate_target _ _ _ _ Hv) Hlt Hr Hp) as (_ & _ & _ & ? & _). lia.
  - destruct (call_and_return L k far tf tf2 st st1 st2 e Hok Htf Htf2 Hx Hd IH1) as (tf3 & st3' & Hr & Hok3 & Hs3 & _).
    rewrite handler_return, Hr in Hret. injection Hret as <- <-. destruct (IH2 Hok3) as [? Hs]. split; [done|].
    by etrans.
Qed.

(** ** Claims *)

(** C35: a supervisor call is mediated.  A same-layer, cross-layer or elevator call from
    user code, with any register contents, enters another service only if the running
    service (as the kernel knows it) is authorised for it, and then at the registered
    entry point, on the stack of the target's domain, in user mode, as the target service
    and in the target's domain; otherwise the state is unchanged and the caller gets an
    error status in [x0]. *)
Theorem supervisor_calls_are_mediated (L : layout) (k : call_kind) (far : Z) (tf : LettuceTrapFrame) (st : cpu_state) :
  kernel_inv (kernel_view st) → calls_ok L st → frame_ok tf →
  ∃ m tf' st', svc_message tf = Some m ∧ handler (svc_esr (kind_imm k)) far tf st = Some (ToUser tf', st') ∧
    ((∃ r d, authorized k m (kernel_view st) r d ∧ depth st < LETTUCE_ARCH_CONTEXT_MAX ∧
        tf' = set_return (de_entry d) 0 (lettuce_arch_domain_stack_top (sd_domain (res_target r))) tf ∧
        cp_service st' = target_service_id m ∧ current_domain (cp_mmu st') = sd_domain (res_target r) ∧
        mmu_sync L (cp_mmu st') ∧ cp_caps st' = cp_caps st ∧ cp_registry st' = cp_registry st) ∨
     (((∀ r d, ¬ authorized k m (kernel_view st) r d) ∨ depth st = LETTUCE_ARCH_CONTEXT_MAX) ∧
        st' = st ∧ ∃ code, code ≠ status_code LETTUCE_STATUS_OK ∧ set_x0 code tf = Some tf')).
Proof.
  intros Hinv Hok Htf. destruct (svc_message_spec tf Htf) as (m & Hm & Hwf). rewrite handler_call.
  destruct (validate_spec (kernel_view st) Hinv k m Hwf) as [(r & d & Hv & Hau & Hd)|(s & Hv & Hs & Hno)].
  - destruct (svc_call_cases k tf st m _ _ Hm Hv Htf (co_stack _ _ Hok)) as
      [(tf' & code & Hx & Hc & Hcode & Hwhy)|[[_ ?]|(r' & d' & v & Heq & _ & Hr' & _ & Hp & Hlt & Hx)]]; [|done|].
    + exists m, tf', st. split_and!; [done..|]. right. split; [|by eauto].
      destruct Hwhy as [[? _]|[[_ ?]|[_ (r' & Heq & Hnull)]]]; [done|by right|]. injection Heq as <-.
      destruct (Hd (Hnull d (au_resolution _ _ _ _ _ Hau))).
    + injection Heq as <-. rewrite (au_resolution _ _ _ _ _ Hau) in Hr'. injection Hr' as <-.
      destruct (call_step L k tf st m r d v Hok Hv (validate_target _ _ _ _ Hv) Hlt (au_resolution _ _ _ _ _ Hau) Hp) as
        (Hok1 & Hsv1 & Hdm1 & _ & _ & Hreg1 & _).
      do 3 eexists. split; [done|]. split; [exact Hx|]. left. exists r, d. split_and!; try done; [|apply Hok1].
      rewrite Hsv1. by eapply lookup_id, (au_target _ _ _ _ _ Hau).
  - destruct (svc_call_cases k tf st m _ _ Hm Hv Htf (co_stack _ _ Hok)) as
      [(tf' & code & Hx & Hc & Hcode & _)|[[? _]|(r' & d' & v & ? & _)]]; [|done..].
    exists m, tf', st. split_and!; [done..|]. right. split; [by left|]. by eauto.
Qed.

(** C36: nested calls return exactly.  Whatever the called service does, including
    calls of its own to any depth, the return of an accepted supervisor call resumes the
    caller at its program counter, with its stack pointer and processor state, as the
    caller's service, in the caller's domain with the hardware translation of that domain,
    and with the callee's registers as results; the return address survives even though
    it is stored signed, by the documented inverse of signing. *)
Theorem nested_calls_return_exactly (L : layout) (k : call_kind) (far far' : Z) (tf tf2 : LettuceTrapFrame)
    (st st1 st2 : cpu_state) e :
  calls_ok L st → frame_ok tf → frame_ok tf2 →
  pac_auth (pac_sign (tf_elr tf) (cp_service st)) (cp_service st) = tf_elr tf →
  handler (svc_esr (kind_imm k)) far tf st = Some (e, st1) → depth st1 ≠ depth st → nested st1 st2 →
  ∃ tf3 st3, handler (svc_esr LETTUCE_SVC_RETURN) far' tf2 st2 = Some (ToUser tf3, st3) ∧
    tf_elr tf3 = tf_elr tf ∧ tf_spsr tf3 = tf_spsr tf ∧ tf_sp_el0 tf3 = tf_sp_el0 tf ∧
    tf_x tf3 = tf_x tf2 ∧ tf_lr tf3 = tf_lr tf2 ∧
    cp_service st3 = cp_service st ∧ current_domain (cp_mmu st3) = current_domain (cp_mmu st) ∧
    lettuce_mmu_active_ttbr0 (cp_mmu st3) = lettuce_mmu_active_ttbr0 (cp_mmu st) ∧ depth st3 = depth st.
Proof.
  intros Hok Htf Htf2 Hpac Hx Hd Hn.
  destruct (call_and_return L k far tf tf2 st st1 st2 e Hok Htf Htf2 Hx Hd (nested_same L st1 st2 Hn)) as
    (tf3 & st3 & Hr & Hok3 & [Hsv Hdm Hdp _ _ _] & Hx3 & Hlr & Hs3 & Hp3 & He3).
  exists tf3, st3. rewrite handler_return. split_and!; try done.
  - rewrite He3. by destruct (g_pac_enabled (cp_vars st)).
  - destruct (co_sync _ _ Hok) as [[_ HD] (i & Hi & ->)]. destruct (co_sync _ _ Hok3) as [[_ HD3] (i3 & Hi3 & ->)].
    rewrite Hdm, Hi in Hi3. injection Hi3 as <-. by rewrite HD, HD3.
Qed.

(** States that agree on everything but the fast-path switch, with registers compared
    one by one. *)
Record mmu_equiv (m m' : mmu_state) : Prop := {
  me_tables : mmu_tables m' = mmu_tables m;
  me_pages : mmu_pages m' = mmu_pages m;
  me_domains : arch_domains m' = arch_domains m;
  me_current : current_domain m' = current_domain m;
  me_faults : mmu_faults m' = mmu_faults m;
  me_tlb : hw_tlb (mmu_hw m') = hw_tlb (mmu_hw m);
  me_regs : ∀ r, mrs r (mmu_hw m') = mrs r (mmu_hw m)
}.

(** The asm and the C installation of a domain agree. *)
Lemma install_equiv (L : layout) (d : Z) (m : mmu_state) :
  mmu_sync L m → mmu_known d = true → Mmu.lettuce_arch_current_el (mmu_hw m) ≠ 2 →
  mmu_equiv (lettuce_mmu_enter d m).2
    (Mmu.with_hw (msr ttbr0_el1 (lettuce_arch_domain_ttbr0_val d m) (mmu_hw m)) (lettuce_mmu_set_current_domain d m)).
Proof.
  intros [_ (i & Hi & Ht)] Hk Hel. pose proof (mmu_known_index d) as Hj. rewrite Hk in Hj. destruct Hj as [j Hj].
  assert (lettuce_arch_domain_ttbr0_val d m = ad_ttbr0_val (arch_domains m !!! j)) as Hval.
  { unfold lettuce_arch_domain_ttbr0_val, arch_domain_lookup. by rewrite Hj. }
  unfold lettuce_mmu_enter. destruct (Z.eqb_spec d (current_domain m)) as [Heq|Hne]; cbn [orb].
  - split; cbn; try done. intros r. unfold mrs. case_decide as Hr; [|done]. subst r.
    unfold lettuce_mmu_active_ttbr0 in Ht. rewrite (proj2 (Z.eqb_neq _ _) Hel) in Ht. unfold mrs in Ht.
    rewrite Ht, Hval. congruence.
  - destruct (Z.eqb_spec d LETTUCE_DOMAIN_ID_INVALID) as [->|_]; [done|].
    unfold arch_domain_lookup. rewrite Hj. cbn [mbind option_bind snd]. unfold write_ttbr.
    rewrite (proj2 (Z.eqb_neq _ _) Hel), Hval. by split.
Qed.

Lemma context_push_use_asm (svc dom elr spsr sp : Z) (b : bool) (v : cpu_vars) :
  lettuce_arch_context_push pac_sign svc dom elr spsr sp (lettuce_elevator_set_use_asm b v) =
  (λ '(p, v'), (p, lettuce_elevator_set_use_asm b v')) <$> lettuce_arch_context_push pac_sign svc dom elr spsr sp v.
Proof.
  unfold lettuce_arch_context_push. cbn. destruct (_ <=? _); [done|]. by destruct (arr_set _ _ _).
Qed.

Lemma push_keeps_use_asm (svc dom elr spsr sp : Z) (v v' : cpu_vars) p :
  lettuce_arch_context_push pac_sign svc dom elr spsr sp v = Some (p, v') →
  g_elevator_use_asm v' = g_elevator_use_asm v.
Proof.
  unfold lettuce_arch_context_push. destruct (_ <=? _); [by intros [= _ <-]|].
  destruct (arr_set _ _ _); cbn; [|done]. by intros [= _ <-].
Qed.

(** C37: the assembly elevator is a pure optimisation.  With the fast path on or off, an
    elevator call from the same state gives user code the same frame, the same service
    identity, and the same address-space state, register by register; the stack of
    callers is the same too. *)
Theorem elevator_asm_equals_c (L : layout) (far : Z) (tf : LettuceTrapFrame) (st : cpu_state) e st1 :
  calls_ok L st → frame_ok tf → g_elevator_use_asm (cp_vars st) = true →
  handler (svc_esr LETTUCE_SVC_ELEVATOR) far tf st = Some (e, st1) →
  ∃ st2, handler (svc_esr LETTUCE_SVC_ELEVATOR) far tf
           (with_vars (lettuce_elevator_set_use_asm false (cp_vars st)) st) = Some (e, st2) ∧
    cp_service st2 = cp_service st1 ∧ mmu_equiv (cp_mmu st2) (cp_mmu st1) ∧
    g_context_stack (cp_vars st2) = g_context_stack (cp_vars st1) ∧ depth st2 = depth st1 ∧
    ss_tasks (cp_sched st2) = ss_tasks (cp_sched st1) ∧ cp_io st2 = cp_io st1 ∧ cp_caps st2 = cp_caps st1.
Proof.
  intros Hok Htf Huse Hx. set (stc := with_vars _ st).
  assert (∀ x, Some (e, x) = Some (e, st1) → x = st → cp_service stc = cp_service st1 ∧ mmu_equiv (cp_mmu stc) (cp_mmu st1) ∧
    g_context_stack (cp_vars stc) = g_context_stack (cp_vars st1) ∧ depth stc = depth st1 ∧
    ss_tasks (cp_sched stc) = ss_tasks (cp_sched st1) ∧ cp_io stc = cp_io st1 ∧ cp_caps stc = cp_caps st1) as Hrefl
    by (intros x [= <-] ->; by split_and!).
  assert (∀ o, (tf ← o; Some (ToUser tf, st)) = Some (e, st1) → ∃ st2, (tf ← o; Some (ToUser tf, stc)) = Some (e, st2) ∧
    cp_service st2 = cp_service st1 ∧ mmu_equiv (cp_mmu st2) (cp_mmu st1) ∧
    g_context_stack (cp_vars st2) = g_context_stack (cp_vars st1) ∧ depth st2 = depth st1 ∧
    ss_tasks (cp_sched st2) = ss_tasks (cp_sched st1) ∧ cp_io st2 = cp_io st1 ∧ cp_caps st2 = cp_caps st1) as Hrefuse.
  { intros [tfr|]; [|done]. cbn. intros [= <- <-]. exists stc. split; [done|]. by apply (Hrefl st). }
  change LETTUCE_SVC_ELEVATOR with (kind_imm Elevator) in *. rewrite handler_call in *.
  destruct (svc_message_spec tf Htf) as (m & Hm & _). unfold svc_call in Hx |- *. rewrite Hm in *.
  cbn [mbind option_bind] in *.
  rewrite (svc_call_validates Elevator tf st m Hm) in Hx. rewrite (svc_call_validates Elevator tf stc m Hm).
  change (kernel_view stc) with (kernel_view st). change (cp_service stc) with (cp_service st).
  change (cp_mmu stc) with (cp_mmu st).
  destruct (validate_call Elevator m (kernel_view st)) as [[s o]|] eqn:Hv; [|done]. cbn [mbind option_bind] in *.
  destruct (negb (status_is_ok s)) eqn:Hs; [by apply Hrefuse|]. destruct o as [r|]; [|done]. cbn [mbind option_bind] in *.
  destruct (res_entry r) as [d|]; [|by apply Hrefuse]. destruct (de_entry d =? NULL); [by apply Hrefuse|].
  change (cp_vars stc) with (lettuce_elevator_set_use_asm false (cp_vars st)). rewrite context_push_use_asm.
  destruct (lettuce_arch_context_push _ _ _ _ _ _ _) as [[[] v]|] eqn:Hp; [..|done]; cbn [mbind option_bind negb fmap option_fmap option_map] in *;
    [|by apply Hrefuse].
  cbn [cp_vars with_vars] in Hx |- *. rewrite (push_keeps_use_asm _ _ _ _ _ _ _ _ Hp), Huse in Hx. cbn in Hx |- *.
  injection Hx as <- <-. eexists. split; [done|]. cbn. split_and!; try done.
  assert (s = LETTUCE_STATUS_OK) as -> by by destruct s.
  apply (install_equiv L); [apply Hok| |apply Hok]. eapply (co_domains _ _ Hok), validate_target, Hv.
Qed.


(** The frame a sleep system call leaves when another task takes over. *)
Lemma nanosleep_inv (req now : Z) (tf : LettuceTrapFrame) h io (s s' : scheduler_state mmu_state) res hit tf' :
  lettuce_kernel_sys_nanosleep arch_enter req now (Some tf) h io s = Some (res, hit, tf', s') →
  s' = s ∨ (res = 0 ∧ ∃ ticks, event_exec arch_enter (EvSleep now ticks tf) s = Some (tf', s')).
Proof.
  unfold lettuce_kernel_sys_nanosleep. destruct (req =? 0); [by intros [= <- <- <- <-]; left|].
  destruct (load_s64 (req + 8) (io_mem io)) as [ns|]; cbn [mbind option_bind]; [|done].
  destruct (_ || _); [by intros [= <- <- <- <-]; left|]. destruct (kernel_pointer true req); [by intros [= <- <- <- <-]; left|].
  destruct (load_s64 req (io_mem io)) as [sec|]; cbn [mbind option_bind]; [|done].
  destruct (lettuce_scheduler_sleep_current _ _ _ _ _) as [[[b x] y]|] eqn:Hx; cbn [mbind option_bind]; [|done].
  intros [= <- <- <- <-]. right. split; [done|]. eexists. unfold event_exec. rewrite Hx. done.
Qed.

Lemma syscall_nanosleep (tf : LettuceTrapFrame) (st : cpu_state) :
  frame_ok tf → arr_get (tf_x tf) 8 = Some LETTUCE_SYS_NANOSLEEP →
  ∃ x0, svc_syscall tf st =
    ('(res, hit, tf', s) ← lettuce_kernel_sys_nanosleep arch_enter x0 (lettuce_timer_get_ticks (cp_timer st)) (Some tf)
                             (mmu_hw (cp_mmu st)) (cp_io st) (cp_sched st);
     '(e, st') ← after_schedule (hit, tf', s) st;
     match e with
     | ToUser tf' => tf' ← set_x0 (u64 res) tf'; Some (ToUser tf', st')
     | e => Some (e, st')
     end).
Proof.
  intros Htf H8. unfold svc_syscall.
  destruct (frame_register tf 0 Htf ltac:(lia)) as [x0 ->]. destruct (frame_register tf 1 Htf ltac:(lia)) as [x1 ->].
  destruct (frame_register tf 2 Htf ltac:(lia)) as [x2 ->]. rewrite H8. by exists x0.
Qed.

(** A sleeping task's system call overwrites another task's register.  The
    handler stores the result of [nanosleep] into [x0] of the frame after the scheduler
    has put the next task's registers there: whatever [x0] that task was interrupted
    with, it resumes with 0. *)
Theorem nanosleep_overwrites_the_next_task (far : Z) (tf tf' : LettuceTrapFrame) (st st' : cpu_state) (c n : Z) tn :
  sched_inv (cp_sched st) → frame_ok tf → arr_get (tf_x tf) 8 = Some LETTUCE_SYS_NANOSLEEP →
  g_current_task (ss_tasks (cp_sched st)) = Some c → n ≠ c → arr_get (g_task_table (ss_tasks (cp_sched st))) n = Some tn →
  handler (svc_esr LETTUCE_SVC_SYSCALL) far tf st = Some (ToUser tf', st') →
  g_current_task (ss_tasks (cp_sched st')) = Some n →
  set_x0 0 (frame_of_context (tk_context tn)) = Some tf'.
Proof.
  intros Hinv Htf H8 Hc Hne Hn. rewrite handler_syscall. destruct (syscall_nanosleep tf st Htf H8) as (x0 & ->).
  destruct (lettuce_kernel_sys_nanosleep _ _ _ _ _ _ _) as [[[[res hit] tf1] s1]|] eqn:Hx; cbn [mbind option_bind]; [|done].
  unfold after_schedule. destruct tf1 as [tf1|]; cbn [mbind option_bind]; [|done].
  destruct hit; [done|]. destruct (set_x0 (u64 res) tf1) as [tf2|] eqn:Hset; cbn [mbind option_bind]; [|done].
  intros [= <- <-] Hcur. cbn in Hcur. apply nanosleep_inv in Hx as [->|[-> (ticks & Hev)]]; [congruence|].
  destruct (resuming_frame arch_enter (EvSleep (lettuce_timer_get_ticks (cp_timer st)) ticks tf) (cp_sched st) n tn (Some tf1) s1 Hinv Htf) as ([= ->] & _);
    [congruence|done|done|done|]. exact Hset.
Qed.

(** A task that yields inside a call to another domain takes the next task with it.
    The scheduler compares the home domains of the two tasks and leaves the address space
    alone when they are equal, although the running task may be inside a call to a
    service of another domain: the next task then runs with that domain's memory instead
    of its own. *)
Theorem yield_inside_a_call_misplaces_the_next_task (far : Z) (tf tf' : LettuceTrapFrame) (st st' : cpu_state)
    (c n : Z) tc tn :
  sched_inv (cp_sched st) → frame_ok tf →
  g_current_task (ss_tasks (cp_sched st)) = Some c → arr_get (g_task_table (ss_tasks (cp_sched st))) c = Some tc →
  n ≠ c → arr_get (g_task_table (ss_tasks (cp_sched st))) n = Some tn → tk_domain_id tn = tk_domain_id tc →
  lettuce_mmu_current_domain (cp_mmu st) ≠ tk_domain_id tc →
  handler (svc_esr LETTUCE_SVC_YIELD) far tf st = Some (ToUser tf', st') →
  g_current_task (ss_tasks (cp_sched st')) = Some n →
  tf' = frame_of_context (tk_context tn) ∧ cp_service st' = tk_service_id tn ∧
  lettuce_mmu_current_domain (cp_mmu st') ≠ tk_domain_id tn.
Proof.
  intros Hinv Htf Hc Htc Hne Hn Hdom Hout.
  change (handler (svc_esr LETTUCE_SVC_YIELD) far tf st) with (svc_yield tf st). unfold svc_yield.
  destruct (lettuce_scheduler_yield _ _ _ _) as [[[hit tf1] s1]|] eqn:Hx; cbn [mbind option_bind]; [|done].
  unfold after_schedule. destruct tf1 as [tf1|]; cbn [mbind option_bind]; [|done]. destruct hit; [done|].
  intros [= <- <-] Hcur. cbn in Hcur.
  destruct (resuming_frame arch_enter (EvYield (lettuce_timer_get_ticks (cp_timer st)) tf) (cp_sched st) n tn (Some tf1) s1
    Hinv Htf) as ([= ->] & Hsv & Har & _); [congruence|done|unfold event_exec; by rewrite Hx|done|].
  split_and!; [done..|]. unfold cp_mmu. cbn. rewrite Har. unfold arch_after. rewrite Hc. cbn. rewrite Htc, Hdom, Z.eqb_refl.
  exact Hout.
Qed.

End spec.

(** ** A concrete machine

    Two tasks of domain 100 on the initialised address spaces, with the services and
    the capability of the call-gate example; task 0 runs service 10. *)

Definition demo_ready : mmu_state := Eval vm_compute in default demo_mmu (lettuce_mmu_init demo_layout demo_mmu).

Lemma demo_ready_eq : lettuce_mmu_init demo_layout demo_mmu = Some demo_ready.
Proof. vm_compute. reflexivity. Qed.

Definition cpu_demo_off (m : mmu_state) : scheduler_state mmu_state :=
  {| ss_tasks := ss_tasks sched_off; ss_vars := ss_vars sched_off; g_scheduler_active := false;
     g_switch_count := 0; g_preempt_count := 0; g_same_domain_switches := 0; g_cross_domain_switches := 0;
     g_preempt_limit := 0; g_current_policy_type := LETTUCE_SCHED_POLICY_RR; ss_service := 10; ss_arch := m |}.

Definition dispatch_two (off : scheduler_state mmu_state) : scheduler_state mmu_state :=
  default off (sched_run (λ _ m, m)
    [inr (CtlTask (TaskCreate 10 100 4096 8192 0)); inr (CtlTask (TaskCreate 30 100 4096 8192 0));
     inr CtlStart; inl (EvTick 1 (frame_of 7))] off).

Definition cpu_with (svc : Z) (m : mmu_state) (s : scheduler_state mmu_state) (caps : cap_state)
    (registry : list LettuceServiceRegistryEntry) : cpu_state :=
  {| cp_vars := {| g_context_stack := replicate 8 {| cf_service_id := 0; cf_domain_id := 0; cf_elr := 0; cf_spsr := 0;
                                                     cf_sp_el0 := 0 |};
                   g_context_stack_depth := 0; g_pac_enabled := true; g_pac_expected_trap := false;
                   g_pac_trap_observed := false; g_preempt_disable_count := 0; g_elevator_use_asm := true |};
     cp_sched := set_service_mmu svc m s; cp_caps := caps; cp_registry := registry;
     cp_timer := {| g_timer_ticks := 1; g_timer_interval := 625000; g_timer_enabled := true |};
     cp_gic := []; cp_fds := fd_table_fresh; cp_io := demo_io |}.

Definition cpu_demo : cpu_state :=
  cpu_with 10 demo_ready (dispatch_two (cpu_demo_off demo_ready)) ipc_demo_caps ipc_demo_registry.

(** Task 0 inside a call to service 20, in domain 200. *)
Definition cpu_demo_nested : cpu_state :=
  cpu_with 20 (lettuce_mmu_enter 200 demo_ready).2 (dispatch_two (cpu_demo_off demo_ready)) ipc_demo_caps ipc_demo_registry.

(** Signing by a reversible change of the pointer. *)
Definition demo_sign (p m : Z) : Z := Z.lxor p (m .<< 48).

Lemma demo_ready_sync : mmu_sync demo_layout demo_ready.
Proof.
  destruct (mmu_init_spec demo_layout demo_mmu demo_mmu_boot) as (s & Hi & Hr & Hc & Ht & _).
  rewrite demo_ready_eq in Hi. injection Hi as <-. split; [exact Hr|]. exists 0%fin. rewrite Hc. split; [reflexivity|].
  rewrite (domain_ttbr0 demo_layout) by exact Hr. exact Ht.
Qed.

Lemma cpu_with_calls_ok (svc : Z) (s : scheduler_state mmu_state) :
  calls_ok demo_layout (cpu_with svc demo_ready s ipc_demo_caps ipc_demo_registry).
Proof.
  split.
  - exact demo_ready_sync.
  - vm_compute. discriminate.
  - split; [reflexivity|]. cbn. unfold LETTUCE_ARCH_CONTEXT_MAX. lia.
  - cbn [cp_registry cpu_with]. intros i d Hl. unfold lettuce_service_registry_lookup in Hl. destruct (_ || _) eqn:Hi; [discriminate Hl|]. b2p.
    destruct (arr_get ipc_demo_registry i) as [x|] eqn:Hx; [|discriminate Hl]. cbn in Hl.
    destruct (Z.eqb_spec (sd_id (re_descriptor x)) i) as [Hid|]; [|discriminate Hl]. injection Hl as <-.
    assert (Hp := arr_forall (λ x, (sd_id (re_descriptor x) =? 0) || mmu_known (sd_domain (re_descriptor x)))
      ipc_demo_registry i x ltac:(vm_compute; reflexivity) Hx). cbn beta in Hp.
    rewrite Hid, (proj2 (Z.eqb_neq i 0)) in Hp by assumption. exact Hp.
Qed.

Lemma cpu_demo_calls_ok : calls_ok demo_layout cpu_demo.
Proof. apply cpu_with_calls_ok. Qed.

Lemma sched_inv_tasks {P Q : Type} (s : scheduler_state P) (s' : scheduler_state Q) :
  ss_tasks s' = ss_tasks s → sched_inv s → sched_inv s'.
Proof. intros Ht [H1 H2 H3]. split; rewrite Ht; done. Qed.

Lemma set_service_mmu_inv (svc : Z) (m : mmu_state) (s : scheduler_state mmu_state) :
  sched_inv s → sched_inv (set_service_mmu svc m s).
Proof. intros [H1 H2 H3]. by split. Qed.

Lemma dispatch_two_inv (off : scheduler_state mmu_state) : sched_inv off → sched_inv (dispatch_two off).
Proof.
  intros Hoff. unfold dispatch_two. match goal with |- sched_inv (default _ (sched_run ?f ?es _)) =>
    destruct (sched_run_keeps f es off Hoff) as (s & -> & Hs); [|exact Hs] end.
  repeat constructor.
Qed.

Lemma cpu_with_sched_inv (svc : Z) (m m' : mmu_state) caps registry :
  sched_inv (cp_sched (cpu_with svc m (dispatch_two (cpu_demo_off m')) caps registry)).
Proof.
  cbn [cp_sched cpu_with]. apply set_service_mmu_inv, dispatch_two_inv.
  apply (sched_inv_tasks sched_off); [reflexivity|exact sched_off_inv].
Qed.

Lemma cpu_with_kernel_inv (svc : Z) (m : mmu_state) s caps registry :
  is_u32 svc → cap_inv caps → (∃ a, reg_refines registry a) → kernel_inv (kernel_view (cpu_with svc m s caps registry)).
Proof. intros H1 H2 H3. by split. Qed.

Lemma cpu_demo_sched_inv : sched_inv (cp_sched cpu_demo).
Proof. apply cpu_with_sched_inv. Qed.

Lemma cpu_demo_kernel_inv : kernel_inv (kernel_view cpu_demo).
Proof.
  apply cpu_with_kernel_inv; [unfold is_u32; lia|exact ipc_demo_caps_inv|exact ipc_demo_registry_refines].
Qed.

(** Registers for a call of operation 1 of service 20 on resource 7, and for a sleep of
    two seconds. *)
Definition call_frame : LettuceTrapFrame :=
  {| tf_x := [20; 1; 7; 65537] ++ replicate 26 0; tf_lr := 0; tf_elr := 0x41050010; tf_spsr := 0; tf_sp_el0 := 0x41002000 |}.

Definition sleep_frame : LettuceTrapFrame :=
  {| tf_x := <[8%nat := 6]> ([0x41000000] ++ replicate 29 0); tf_lr := 0; tf_elr := 0x41050010; tf_spsr := 0;
     tf_sp_el0 := 0x41002000 |}.

Lemma supervisor_calls_are_mediated_witness :
  ∃ tf' st', lettuce_arch_sync_lower_el_handler demo_sign demo_sign (svc_esr (kind_imm SameLayer)) 0 call_frame cpu_demo =
    Some (ToUser tf', st').
Proof.
  destruct (supervisor_calls_are_mediated demo_sign demo_sign demo_layout SameLayer 0 call_frame cpu_demo)
    as (m & tf' & st' & _ & H & _).
  - exact cpu_demo_kernel_inv.
  - exact cpu_demo_calls_ok.
  - reflexivity.
  - exists tf', st'. exact H.
Defined.

Lemma nested_calls_return_exactly_witness :
  ∃ e st1 tf3 st3,
    lettuce_arch_sync_lower_el_handler demo_sign demo_sign (svc_esr (kind_imm SameLayer)) 0 call_frame cpu_demo =
      Some (e, st1) ∧
    lettuce_arch_sync_lower_el_handler demo_sign demo_sign (svc_esr LETTUCE_SVC_RETURN) 0 (frame_of 9) st1 =
      Some (ToUser tf3, st3) ∧ tf_elr tf3 = 0x41050010 ∧ cp_service st3 = 10.
Proof.
  destruct (lettuce_arch_sync_lower_el_handler demo_sign demo_sign (svc_esr (kind_imm SameLayer)) 0 call_frame cpu_demo)
    as [[e st1]|] eqn:Hx.
  2:{ exfalso. assert (is_Some (fst <$> lettuce_arch_sync_lower_el_handler demo_sign demo_sign
        (svc_esr (kind_imm SameLayer)) 0 call_frame cpu_demo)) as [y Hy] by (vm_compute; eexists; reflexivity).
      rewrite Hx in Hy. discriminate Hy. }
  assert ((depth ∘ snd) <$> lettuce_arch_sync_lower_el_handler demo_sign demo_sign
    (svc_esr (kind_imm SameLayer)) 0 call_frame cpu_demo = Some 1) as Hd by (vm_compute; reflexivity).
  rewrite Hx in Hd. cbn in Hd. injection Hd as Hd.
  destruct (nested_calls_return_exactly demo_sign demo_sign demo_layout SameLayer 0 0 call_frame (frame_of 9) cpu_demo st1 st1 e)
    as (tf3 & st3 & Hr & He & _ & _ & _ & _ & Hs & _).
  - exact cpu_demo_calls_ok.
  - reflexivity.
  - reflexivity.
  - vm_compute. reflexivity.
  - exact Hx.
  - rewrite Hd. discriminate.
  - apply nested_nil.
  - exists e, st1, tf3, st3. split; [reflexivity|]. split; [exact Hr|]. split; [exact He|exact Hs].
Defined.

Lemma elevator_asm_equals_c_witness :
  ∃ e st1 st2,
    lettuce_arch_sync_lower_el_handler demo_sign demo_sign (svc_esr LETTUCE_SVC_ELEVATOR) 0 call_frame cpu_demo = Some (e, st1) ∧
    lettuce_arch_sync_lower_el_handler demo_sign demo_sign (svc_esr LETTUCE_SVC_ELEVATOR) 0 call_frame
      (with_vars (lettuce_elevator_set_use_asm false (cp_vars cpu_demo)) cpu_demo) = Some (e, st2) ∧
    mmu_equiv (cp_mmu st2) (cp_mmu st1).
Proof.
  destruct (lettuce_arch_sync_lower_el_handler demo_sign demo_sign (svc_esr LETTUCE_SVC_ELEVATOR) 0 call_frame cpu_demo)
    as [[e st1]|] eqn:Hx.
  2:{ exfalso. assert (is_Some (fst <$> lettuce_arch_sync_lower_el_handler demo_sign demo_sign
        (svc_esr LETTUCE_SVC_ELEVATOR) 0 call_frame cpu_demo)) as [y Hy] by (vm_compute; eexists; reflexivity).
      rewrite Hx in Hy. discriminate Hy. }
  destruct (elevator_asm_equals_c demo_sign demo_sign demo_layout 0 call_frame cpu_demo e st1) as (st2 & H & _ & Hm & _).
  - exact cpu_demo_calls_ok.
  - reflexivity.
  - reflexivity.
  - exact Hx.
  - exists e, st1, st2. split; [reflexivity|]. split; [exact H|exact Hm].
Defined.

Lemma nanosleep_overwrites_the_next_task_witness :
  ∃ tf' st' tn, lettuce_arch_sync_lower_el_handler demo_sign demo_sign (svc_esr LETTUCE_SVC_SYSCALL) 0 sleep_frame cpu_demo =
      Some (ToUser tf', st') ∧
    arr_get (g_task_table (ss_tasks (cp_sched cpu_demo))) 1 = Some tn ∧
    set_x0 0 (frame_of_context (tk_context tn)) = Some tf'.
Proof.
  destruct (lettuce_arch_sync_lower_el_handler demo_sign demo_sign (svc_esr LETTUCE_SVC_SYSCALL) 0 sleep_frame cpu_demo)
    as [[e st']|] eqn:Hx.
  2:{ exfalso. assert (is_Some (fst <$> lettuce_arch_sync_lower_el_handler demo_sign demo_sign
        (svc_esr LETTUCE_SVC_SYSCALL) 0 sleep_frame cpu_demo)) as [y Hy] by (vm_compute; eexists; reflexivity).
      rewrite Hx in Hy. discriminate Hy. }
  assert ((λ r, (match r.1 with ToUser _ => true | _ => false end, g_current_task (ss_tasks (cp_sched r.2)))) <$>
    lettuce_arch_sync_lower_el_handler demo_sign demo_sign (svc_esr LETTUCE_SVC_SYSCALL) 0 sleep_frame cpu_demo =
    Some (true, Some 1)) as Hd by (vm_compute; reflexivity).
  rewrite Hx in Hd. cbn in Hd. destruct e as [tf'| |]; try discriminate Hd. injection Hd as Hd.
  destruct (arr_get_is_Some (g_task_table (ss_tasks (cp_sched cpu_demo))) 1) as [tn Htn];
    [vm_compute; split; [discriminate|reflexivity]|].
  exists tf', st', tn. split; [reflexivity|]. split; [exact Htn|].
  apply (nanosleep_overwrites_the_next_task demo_sign demo_sign 0 sleep_frame tf' cpu_demo st' 0 1 tn).
  - exact cpu_demo_sched_inv.
  - reflexivity.
  - reflexivity.
  - vm_compute. reflexivity.
  - discriminate.
  - exact Htn.
  - exact Hx.
  - exact Hd.
Defined.

Lemma yield_inside_a_call_misplaces_the_next_task_witness :
  ∃ tf' st' tn, lettuce_arch_sync_lower_el_handler demo_sign demo_sign (svc_esr LETTUCE_SVC_YIELD) 0 call_frame cpu_demo_nested =
      Some (ToUser tf', st') ∧
    arr_get (g_task_table (ss_tasks (cp_sched cpu_demo_nested))) 1 = Some tn ∧
    lettuce_mmu_current_domain (cp_mmu st') ≠ tk_domain_id tn.
Proof.
  destruct (lettuce_arch_sync_lower_el_handler demo_sign demo_sign (svc_esr LETTUCE_SVC_YIELD) 0 call_frame cpu_demo_nested)
    as [[e st']|] eqn:Hx.
  2:{ exfalso. assert (is_Some (fst <$> lettuce_arch_sync_lower_el_handler demo_sign demo_sign
        (svc_esr LETTUCE_SVC_YIELD) 0 call_frame cpu_demo_nested)) as [y Hy] by (vm_compute; eexists; reflexivity).
      rewrite Hx in Hy. discriminate Hy. }
  assert ((λ r, (match r.1 with ToUser _ => true | _ => false end, g_current_task (ss_tasks (cp_sched r.2)))) <$>
    lettuce_arch_sync_lower_el_handler demo_sign demo_sign (svc_esr LETTUCE_SVC_YIELD) 0 call_frame cpu_demo_nested =
    Some (true, Some 1)) as Hd by (vm_compute; reflexivity).
  rewrite Hx in Hd. cbn in Hd. destruct e as [tf'| |]; try discriminate Hd. injection Hd as Hd.
  destruct (arr_get_is_Some (g_task_table (ss_tasks (cp_sched cpu_demo_nested))) 1) as [tn Htn];
    [vm_compute; split; [discriminate|reflexivity]|].
  destruct (arr_get_is_Some (g_task_table (ss_tasks (cp_sched cpu_demo_nested))) 0) as [tc Htc];
    [vm_compute; split; [discriminate|reflexivity]|].
  assert (Hn0 := Htn). vm_compute in Hn0. injection Hn0 as Hn0. assert (Hc0 := Htc). vm_compute in Hc0. injection Hc0 as Hc0.
  exists tf', st', tn. split; [reflexivity|]. split; [exact Htn|].
  apply (yield_inside_a_call_misplaces_the_next_task demo_sign demo_sign 0 call_frame tf' cpu_demo_nested st' 0 1 tc tn).
  - apply cpu_with_sched_inv.
  - reflexivity.
  - vm_compute. reflexivity.
  - exact Htc.
  - discriminate.
  - exact Htn.
  - rewrite <- Hn0, <- Hc0. reflexivity.
  - rewrite <- Hc0. vm_compute. discriminate.
  - exact Hx.
  - exact Hd.
Defined.
