(* ===== verification/DynamicArray.v ===== *)
(** * The growable circular array: [shared/dynamic_array/dynamic_array.c]

    Elements are pointers, stored as numbers with [NULL] = 0.  [malloc] is the argument
    [m] of the operations that allocate: for a size in bytes, a block of words with
    arbitrary contents, or a refusal.  The specification is a double-ended list. *)

From S2P Require Import Prelude Types.

Definition ARRAY_INITIAL_CAPACITY : Z := 4.
Definition ARRAY_GROWTH_FACTOR : Z := 2.
Definition SIZE_MAX : Z := 2 ^ 64 - 1.

Definition malloc_answer : Type := Z → option (list Z).

(** [data] is [None] when the pointer is [NULL]. *)
Record DynamicArray := {
  da_head : Z;
  da_count : Z;
  da_capacity : Z;
  da_data : option (list Z)
}.

(** [head + index], wrapped at the capacity. *)
Definition actual_index (a : DynamicArray) (index : Z) : Z :=
  let i := u64 (da_head a + index) in if da_capacity a <=? i then i - da_capacity a else i.

Section operations.
Context (m : malloc_answer).

Definition array_init (a : DynamicArray) : bool * DynamicArray :=
  match m (ARRAY_INITIAL_CAPACITY * 8) with
  | None => (false, {| da_head := 0; da_count := 0; da_capacity := 0; da_data := None |})
  | Some d => (true, {| da_head := 0; da_count := 0; da_capacity := ARRAY_INITIAL_CAPACITY; da_data := Some d |})
  end.

Definition resize (a : DynamicArray) : option (bool * DynamicArray) :=
  if da_capacity a =? 0 then Some (false, a) else
  if SIZE_MAX / (ARRAY_GROWTH_FACTOR * 8) <? da_capacity a then Some (false, a) else
  let new_capacity := da_capacity a * ARRAY_GROWTH_FACTOR in
  match m (new_capacity * 8) with
  | None => Some (false, a)
  | Some new_data =>
      d ← da_data a;
      new_data ← for_range (Z.to_nat (da_count a)) 0
                   (λ i nd, v ← arr_get d (actual_index a i); arr_set nd i v) new_data;
      Some (true, {| da_head := 0; da_count := da_count a; da_capacity := new_capacity; da_data := Some new_data |})
  end.

Definition array_push (a : DynamicArray) (item : Z) : option (bool * DynamicArray) :=
  let '(ready, a) := match da_data a with None => array_init a | Some _ => (true, a) end in
  if negb ready then Some (false, a) else
  '(room, a) ← (if da_capacity a <=? da_count a then resize a else Some (true, a));
  if negb (room : bool) then Some (false, a) else
  d ← da_data a;
  d ← arr_set d (actual_index a (da_count a)) item;
  Some (true, {| da_head := da_head a; da_count := u64 (da_count a + 1); da_capacity := da_capacity a; da_data := Some d |}).

Definition array_enqueue (a : DynamicArray) (item : Z) : option (bool * DynamicArray) := array_push a item.

End operations.

Definition array_get (a : DynamicArray) (index : Z) : option Z :=
  match da_data a with
  | None => Some 0
  | Some d => if da_count a <=? index then Some 0 else arr_get d (actual_index a index)
  end.

Definition array_set (a : DynamicArray) (index item : Z) : option (bool * DynamicArray) :=
  match da_data a with
  | None => Some (false, a)
  | Some d =>
      if da_count a <=? index then Some (false, a) else
      d ← arr_set d (actual_index a index) item;
      Some (true, {| da_head := da_head a; da_count := da_count a; da_capacity := da_capacity a; da_data := Some d |})
  end.

Definition array_pop (a : DynamicArray) : option (Z * DynamicArray) :=
  match da_data a with
  | None => Some (0, a)
  | Some d =>
      if da_count a =? 0 then Some (0, a) else
      item ← arr_get d (actual_index a (da_count a - 1));
      Some (item, {| da_head := da_head a; da_count := da_count a - 1; da_capacity := da_capacity a; da_data := Some d |})
  end.

Definition array_dequeue (a : DynamicArray) : option (Z * DynamicArray) :=
  match da_data a with
  | None => Some (0, a)
  | Some d =>
      if da_count a =? 0 then Some (0, a) else
      item ← arr_get d (da_head a);
      let next_head := da_head a + 1 in
      let next_head := if da_capacity a <=? next_head then 0 else next_head in
      Some (item, {| da_head := next_head; da_count := da_count a - 1; da_capacity := da_capacity a; da_data := Some d |})
  end.

Definition array_free (a : DynamicArray) : DynamicArray :=
  {| da_head := 0; da_count := 0; da_capacity := 0; da_data := None |}.

(** ** Representation *)

(** [a] stores the items [l]: in a ring of [capacity] words, or nothing at all. *)
Definition array_rep (a : DynamicArray) (l : list Z) : Prop :=
  da_count a = Z.of_nat (length l) ∧
  match da_data a with
  | None => l = []
  | Some d =>
      Z.of_nat (length d) = da_capacity a ∧ 0 < da_capacity a ≤ 2 ^ 61 ∧ 0 ≤ da_head a < da_capacity a ∧
      da_count a ≤ da_capacity a ∧
      ∀ i x, l !! i = Some x → arr_get d (actual_index a (Z.of_nat i)) = Some x
  end.

(** The items the buffer has room for. *)
Definition array_room (a : DynamicArray) : Z := match da_data a with None => 0 | Some _ => da_capacity a end.

(** [malloc] gives blocks of the size asked for. *)
Definition malloc_sized (m : malloc_answer) : Prop := ∀ n d, m n = Some d → 8 * Z.of_nat (length d) = n.

(** The place of item [i], without machine arithmetic. *)
Definition ring (h cap i : Z) : Z := if cap <=? h + i then h + i - cap else h + i.

Lemma actual_index_ring (a : DynamicArray) (i : Z) :
  0 < da_capacity a ≤ 2 ^ 61 → 0 ≤ da_head a < da_capacity a → 0 ≤ i ≤ da_capacity a →
  actual_index a i = ring (da_head a) (da_capacity a) i.
Proof. intros Hc Hh Hi. unfold actual_index, ring. rewrite u64_small by (unfold is_u64; lia). done. Qed.

Lemma ring_range (h cap i : Z) : 0 ≤ h < cap → 0 ≤ i ≤ cap → 0 ≤ ring h cap i < cap.
Proof. unfold ring. destruct (Z.leb_spec cap (h + i)); lia. Qed.

Lemma ring_inj (h cap i j : Z) : 0 ≤ h < cap → 0 ≤ i < cap → 0 ≤ j < cap → ring h cap i = ring h cap j → i = j.
Proof. unfold ring. destruct (Z.leb_spec cap (h + i)), (Z.leb_spec cap (h + j)); lia. Qed.

(** ** The operations on the list *)

Lemma init_rep (m : malloc_answer) (a : DynamicArray) :
  malloc_sized m →
  array_rep (array_init m a).2 [] ∧
  match m (ARRAY_INITIAL_CAPACITY * 8) with
  | Some d => (array_init m a).1 = true ∧ da_data (array_init m a).2 = Some d ∧
              da_capacity (array_init m a).2 = ARRAY_INITIAL_CAPACITY
  | None => (array_init m a).1 = false ∧ da_data (array_init m a).2 = None
  end.
Proof.
  intros Hm. unfold array_init. destruct (m _) as [d|] eqn:Hd; cbn; [|by repeat split].
  apply Hm in Hd. unfold ARRAY_INITIAL_CAPACITY in *. split; [|done].
  split; [done|]. cbn. split_and!; try lia. by intros i x Hx.
Qed.

Lemma resize_rep (m : malloc_answer) (a : DynamicArray) (l : list Z) d :
  malloc_sized m → array_rep a l → da_data a = Some d → da_capacity a ≤ SIZE_MAX / 16 →
  match m (da_capacity a * ARRAY_GROWTH_FACTOR * 8) with
  | Some _ => ∃ a' d', resize m a = Some (true, a') ∧ array_rep a' l ∧ da_data a' = Some d' ∧
      da_capacity a' = da_capacity a * ARRAY_GROWTH_FACTOR ∧ da_count a' < da_capacity a'
  | None => resize m a = Some (false, a)
  end.
Proof.
  intros Hm [Hcnt Hrep] Hd Hsmall. rewrite Hd in Hrep. destruct Hrep as (Hlen & Hcap & Hhead & Hle & Hget).
  unfold resize. rewrite (proj2 (Z.eqb_neq _ 0)) by lia.
  change (ARRAY_GROWTH_FACTOR * 8) with 16. rewrite (proj2 (Z.ltb_ge _ _) Hsmall).
  destruct (m _) as [nd|] eqn:Hnd; [|done].
  apply Hm in Hnd. rewrite Hd. cbn [mbind option_bind]. unfold ARRAY_GROWTH_FACTOR in *.
  assert (Z.of_nat (length nd) = da_capacity a * 2) as Hndl by lia.
  match goal with |- context [for_range ?n 0 ?body nd] =>
    destruct (for_range_inv (λ k x, length x = length nd ∧ ∀ i y, Z.of_nat i < k → l !! i = Some y →
      arr_get x (Z.of_nat i) = Some y) n 0 body nd) as (x & -> & Hxl & Hx) end.
  - split; [done|]. intros; lia.
  - intros k x Hk [Hxl Hx]. rewrite Z2Nat.id in Hk by lia.
    destruct (lookup_lt_is_Some_2 l (Z.to_nat k)) as [y Hy]; [lia|].
    pose proof (Hget _ _ Hy) as Hg. rewrite Z2Nat.id in Hg by lia. rewrite Hg. cbn [mbind option_bind].
    rewrite arr_set_Some by lia. eexists. split; [done|]. split; [by rewrite length_insert|].
    intros i z Hi Hz. rewrite arr_get_insert by lia. case_decide as He; [|apply Hx; [lia|done]].
    subst k. rewrite Nat2Z.id in Hy. congruence.
  - cbn [mbind option_bind]. do 2 eexists. split; [done|]. change (SIZE_MAX / 16) with (2 ^ 60 - 1) in Hsmall.
    split; [|cbn; split_and!; [done|done|lia]].
    split; [done|]. cbn. split_and!; try lia. intros i y Hy.
    rewrite actual_index_ring; cbn; [|lia|lia|apply lookup_lt_Some in Hy; lia].
    apply lookup_lt_Some in Hy as Hi. unfold ring. rewrite (proj2 (Z.leb_gt _ _)) by lia. rewrite Z.add_0_l.
    apply Hx; [|done]. rewrite Z2Nat.id; lia.
Qed.

(** Pushing where there is room. *)
Lemma push_room (a : DynamicArray) (l : list Z) d (item : Z) :
  array_rep a l → da_data a = Some d → da_count a < da_capacity a →
  ∃ d', arr_set d (actual_index a (da_count a)) item = Some d' ∧
    array_rep {| da_head := da_head a; da_count := u64 (da_count a + 1); da_capacity := da_capacity a; da_data := Some d' |}
      (l ++ [item]).
Proof.
  intros [Hcnt Hrep] Hd Hroom. rewrite Hd in Hrep. destruct Hrep as (Hlen & Hcap & Hhead & Hle & Hget).
  rewrite actual_index_ring by lia. pose proof (ring_range (da_head a) (da_capacity a) (da_count a) Hhead ltac:(lia)) as Hr.
  rewrite arr_set_Some by lia. eexists. split; [done|]. unfold array_rep. cbn.
  rewrite u64_small by (unfold is_u64; lia). rewrite length_app, length_insert. cbn. split_and!; try lia.
  intros i x Hx. rewrite actual_index_ring; cbn; [|lia|lia|apply lookup_lt_Some in Hx; rewrite length_app in Hx; cbn in Hx; lia].
  rewrite arr_get_insert by lia. apply lookup_app_Some in Hx as [Hx|[Hi Hx]].
  - apply lookup_lt_Some in Hx as Hi. rewrite decide_False.
    + rewrite <- actual_index_ring by lia. by apply Hget.
    + intros Heq%ring_inj; lia.
  - apply list_lookup_singleton_Some in Hx as [Hi' ->]. rewrite decide_True; [done|]. f_equal. lia.
Qed.

(** The ring that takes one more item beside [items]: the present one unless it is full;
    otherwise one of twice the size, or of four items where there is none, if the
    allocator gives the block for it. *)
Definition grow (m : malloc_answer) (items room : Z) : option Z :=
  if items <? room then Some room else
  let wanted := if room =? 0 then ARRAY_INITIAL_CAPACITY else room * ARRAY_GROWTH_FACTOR in
  match m (wanted * 8) with Some _ => Some wanted | None => None end.

(** What a push of [item] does to an array with the items [l]. *)
Definition pushed (m : malloc_answer) (a : DynamicArray) (l : list Z) (item : Z) (r : option (bool * DynamicArray)) : Prop :=
  match grow m (Z.of_nat (length l)) (array_room a) with
  | Some room => ∃ a', r = Some (true, a') ∧ array_rep a' (l ++ [item]) ∧ array_room a' = room
  | None => ∃ a', r = Some (false, a') ∧ array_rep a' l ∧ array_room a' = array_room a
  end.

(** The push once there is a buffer. *)
Lemma push_buffer (m : malloc_answer) (a : DynamicArray) (l : list Z) d (item : Z) :
  malloc_sized m → array_rep a l → Z.of_nat (length l) < 2 ^ 60 - 1 → da_data a = Some d →
  pushed m a l item
    ('(room, a) ← (if da_capacity a <=? da_count a then resize m a else Some (true, a));
     if negb (room : bool) then Some (false, a) else
     d ← da_data a; d ← arr_set d (actual_index a (da_count a)) item;
     Some (true, {| da_head := da_head a; da_count := u64 (da_count a + 1); da_capacity := da_capacity a; da_data := Some d |})).
Proof.
  intros Hm Hrep Hmax Hd. pose proof Hrep as [Hcnt Hr]. rewrite Hd in Hr. destruct Hr as (_ & Hcap & _ & Hle & _).
  unfold pushed, grow, array_room. rewrite Hd, (proj2 (Z.eqb_neq (da_capacity a) 0)) by lia. rewrite <- Hcnt. cbv zeta.
  destruct (Z.leb_spec (da_capacity a) (da_count a)) as [Hfull|Hroom].
  - rewrite (proj2 (Z.ltb_ge _ _)) by done.
    pose proof (resize_rep m a l d Hm Hrep Hd ltac:(change (SIZE_MAX / 16) with (2 ^ 60 - 1); lia)) as Hres.
    destruct (m _) as [nd|]; [|rewrite Hres; cbn; exists a; by rewrite Hd].
    destruct Hres as (a2 & d2 & -> & Hrep2 & Hd2 & Hc2 & Hroom). cbn [mbind option_bind negb]. rewrite Hd2. cbn [mbind option_bind].
    destruct (push_room a2 l d2 item Hrep2 Hd2 Hroom) as (d' & -> & Hrep'). cbn [mbind option_bind]. eexists. by split_and!.
  - rewrite (proj2 (Z.ltb_lt _ _)) by done. cbn [mbind option_bind negb]. rewrite Hd. cbn [mbind option_bind].
    destruct (push_room a l d item Hrep Hd Hroom) as (d' & -> & Hrep'). cbn [mbind option_bind]. eexists. by split_and!.
Qed.

Lemma push_rep (m : malloc_answer) (a : DynamicArray) (l : list Z) (item : Z) :
  malloc_sized m → array_rep a l → Z.of_nat (length l) < 2 ^ 60 - 1 → pushed m a l item (array_push m a item).
Proof.
  intros Hm Hrep Hmax. unfold array_push. destruct (da_data a) as [d|] eqn:Hd; [by apply (push_buffer m a l d)|].
  assert (l = []) as -> by (destruct Hrep as [_ Hl]; by rewrite Hd in Hl).
  destruct (init_rep m a Hm) as [Hrep0 Hi]. assert (array_room a = 0) as Hnone by (unfold array_room; by rewrite Hd).
  unfold pushed, grow. rewrite Hnone.
  change (Z.of_nat (length (@nil Z)) <? 0) with false. change (0 =? 0) with true. cbv iota zeta.
  destruct (m (ARRAY_INITIAL_CAPACITY * 8)) as [d0|] eqn:Hm0; destruct (array_init m a) as [b a0]; cbn in Hi, Hrep0.
  - destruct Hi as (-> & Hd0 & Hc0). cbn [negb]. pose proof (push_buffer m a0 [] d0 item Hm Hrep0 Hmax Hd0) as Hp.
    assert (array_room a0 = ARRAY_INITIAL_CAPACITY) as Hroom0 by (unfold array_room; by rewrite Hd0).
    unfold pushed, grow in Hp. rewrite Hroom0 in Hp.
    change (Z.of_nat (length (@nil Z)) <? ARRAY_INITIAL_CAPACITY) with true in Hp. exact Hp.
  - destruct Hi as [-> Hd0]. exists a0. split; [done|]. split; [done|]. unfold array_room. by rewrite Hd0.
Qed.

(** Reading item [i]. *)
Lemma get_rep (a : DynamicArray) (l : list Z) (i : Z) :
  array_rep a l → 0 ≤ i → array_get a i = Some (default 0 (l !! Z.to_nat i)).
Proof.
  intros [Hcnt Hrep] Hi. unfold array_get. destruct (da_data a) as [d|]; [|by subst].
  destruct Hrep as (_ & _ & _ & _ & Hget). destruct (Z.leb_spec (da_count a) i).
  - by rewrite lookup_ge_None_2 by lia.
  - destruct (lookup_lt_is_Some_2 l (Z.to_nat i)) as [x Hx]; [lia|]. rewrite Hx.
    apply Hget in Hx. by rewrite Z2Nat.id in Hx.
Qed.

Lemma set_rep (a : DynamicArray) (l : list Z) (i item : Z) :
  array_rep a l → 0 ≤ i →
  ∃ a', array_set a i item = Some (bool_decide (i < Z.of_nat (length l)), a') ∧
    array_rep a' (<[Z.to_nat i := item]> l) ∧ array_room a' = array_room a.
Proof.
  intros Hrep Hi. pose proof Hrep as [Hcnt Hd]. unfold array_set. destruct (da_data a) as [d|] eqn:Hdata.
  2:{ subst l. rewrite bool_decide_eq_false_2 by (cbn; lia). by exists a. }
  destruct Hd as (Hlen & Hcap & Hhead & Hle & Hget). destruct (Z.leb_spec (da_count a) i) as [Hout|Hin].
  { rewrite bool_decide_eq_false_2 by lia. rewrite list_insert_ge by lia. by exists a. }
  rewrite bool_decide_eq_true_2 by lia. rewrite actual_index_ring by lia.
  pose proof (ring_range (da_head a) (da_capacity a) i Hhead ltac:(lia)). rewrite arr_set_Some by lia. cbn [mbind option_bind].
  eexists. split; [done|]. split; [|unfold array_room; by rewrite Hdata].
  unfold array_rep. cbn. rewrite !length_insert. split_and!; try lia. intros j x Hx. apply lookup_lt_Some in Hx as Hj. rewrite length_insert in Hj.
  rewrite actual_index_ring by (cbn; lia). cbn. rewrite arr_get_insert by lia.
  apply list_lookup_insert_Some in Hx as [(Hij & -> & _)|[Hij Hx]].
  - rewrite decide_True; [done|]. f_equal. lia.
  - rewrite decide_False; [|intros Heq%ring_inj; lia]. rewrite <- actual_index_ring by lia. by apply Hget.
Qed.

Lemma pop_rep (a : DynamicArray) (l : list Z) :
  array_rep a l → ∃ a', array_pop a = Some (default 0 (last l), a') ∧ array_rep a' (removelast l) ∧ array_room a' = array_room a.
Proof.
  intros Hrep. pose proof Hrep as [Hcnt Hd]. unfold array_pop. destruct (da_data a) as [d|] eqn:Hdata.
  2:{ subst l. by exists a. }
  destruct (Z.eqb_spec (da_count a) 0) as [H0|Hne].
  { destruct l; [by exists a|cbn in Hcnt; lia]. }
  destruct Hd as (Hlen & Hcap & Hhead & Hle & Hget).
  destruct l as [|x l _] using rev_ind; [cbn in Hcnt; lia|]. rewrite length_app in Hcnt. cbn in Hcnt.
  rewrite last_snoc, removelast_last. replace (da_count a - 1) with (Z.of_nat (length l)) by lia.
  rewrite (Hget (length l) x) by (by rewrite lookup_app_r, Nat.sub_diag). cbn [mbind option_bind default].
  eexists. split; [done|]. split; [|unfold array_room; by rewrite Hdata].
  unfold array_rep. cbn. split_and!; try lia. intros i y Hy. apply Hget. by apply lookup_app_l_Some.
Qed.

Lemma dequeue_rep (a : DynamicArray) (l : list Z) :
  array_rep a l → ∃ a', array_dequeue a = Some (default 0 (head l), a') ∧ array_rep a' (tail l) ∧ array_room a' = array_room a.
Proof.
  intros Hrep. pose proof Hrep as [Hcnt Hd]. unfold array_dequeue. destruct (da_data a) as [d|] eqn:Hdata.
  2:{ subst l. by exists a. }
  destruct (Z.eqb_spec (da_count a) 0) as [H0|Hne].
  { destruct l; [by exists a|cbn in Hcnt; lia]. }
  destruct Hd as (Hlen & Hcap & Hhead & Hle & Hget). destruct l as [|x l]; cbn in Hcnt; [lia|].
  pose proof (Hget 0%nat x eq_refl) as H0. rewrite actual_index_ring in H0 by (cbn; lia).
  assert (ring (da_head a) (da_capacity a) (Z.of_nat 0) = da_head a) as Hr.
  { unfold ring. change (Z.of_nat 0) with 0. destruct (Z.leb_spec (da_capacity a) (da_head a + 0)); lia. }
  rewrite Hr in H0. rewrite H0. cbn [mbind option_bind].
  eexists. split; [done|]. split; [|unfold array_room; by rewrite Hdata]. unfold array_rep. cbn.
  set (h := if da_capacity a <=? da_head a + 1 then 0 else da_head a + 1).
  assert (0 ≤ h < da_capacity a) as Hh by (subst h; destruct (Z.leb_spec (da_capacity a) (da_head a + 1)); lia).
  split_and!; try lia. intros i y Hy. apply lookup_lt_Some in Hy as Hi.
  rewrite actual_index_ring by (cbn; lia). cbn.
  rewrite <- (Hget (S i) y Hy). rewrite actual_index_ring by lia. f_equal. subst h. unfold ring.
  repeat case_match; b2p; lia.
Qed.

(** ** Sequences of operations *)

Inductive array_op :=
  | OpInit
  | OpPush (item : Z)
  | OpEnqueue (item : Z)
  | OpPop
  | OpDequeue
  | OpGet (index : Z)
  | OpSet (index item : Z)
  | OpFree.

Definition op_wf (o : array_op) : Prop := match o with OpGet i | OpSet i _ => 0 ≤ i | _ => True end.

(** What the operation returns; a [bool] is 0 or 1. *)
Definition array_exec (m : malloc_answer) (o : array_op) (a : DynamicArray) : option (Z * DynamicArray) :=
  match o with
  | OpInit => let '(b, a) := array_init m a in Some (Z.b2z b, a)
  | OpPush x => '(b, a) ← array_push m a x; Some (Z.b2z b, a)
  | OpEnqueue x => '(b, a) ← array_enqueue m a x; Some (Z.b2z b, a)
  | OpPop => array_pop a
  | OpDequeue => array_dequeue a
  | OpGet i => v ← array_get a i; Some (v, a)
  | OpSet i x => '(b, a) ← array_set a i x; Some (Z.b2z b, a)
  | OpFree => Some (0, array_free a)
  end.

Fixpoint array_run (os : list (malloc_answer * array_op)) (a : DynamicArray) : option (list Z * DynamicArray) :=
  match os with
  | [] => Some ([], a)
  | (m, o) :: os' => '(r, a) ← array_exec m o a; '(rs, a) ← array_run os' a; Some (r :: rs, a)
  end.

(** The specification: a double-ended list and the number of items there is room for. *)
Definition deque_push (m : malloc_answer) (x : Z) (l : list Z) (room : Z) : Z * (list Z * Z) :=
  match grow m (Z.of_nat (length l)) room with
  | Some room' => (1, (l ++ [x], room'))
  | None => (0, (l, room))
  end.

Definition deque_exec (m : malloc_answer) (o : array_op) (s : list Z * Z) : Z * (list Z * Z) :=
  let '(l, room) := s in
  match o with
  | OpInit => match m (ARRAY_INITIAL_CAPACITY * 8) with
              | Some _ => (1, ([], ARRAY_INITIAL_CAPACITY))
              | None => (0, ([], 0))
              end
  | OpPush x | OpEnqueue x => deque_push m x l room
  | OpPop => (default 0 (last l), (removelast l, room))
  | OpDequeue => (default 0 (head l), (tail l, room))
  | OpGet i => (default 0 (l !! Z.to_nat i), (l, room))
  | OpSet i x => (Z.b2z (bool_decide (i < Z.of_nat (length l))), (<[Z.to_nat i := x]> l, room))
  | OpFree => (0, ([], 0))
  end.

Fixpoint deque_run (os : list (malloc_answer * array_op)) (s : list Z * Z) : list Z * (list Z * Z) :=
  match os with
  | [] => ([], s)
  | (m, o) :: os' => let '(r, s) := deque_exec m o s in let '(rs, s) := deque_run os' s in (r :: rs, s)
  end.

(** [a] implements the list and the room [s]. *)
Definition array_abs (a : DynamicArray) (s : list Z * Z) : Prop := array_rep a s.1 ∧ array_room a = s.2.

Lemma push_step (m : malloc_answer) (a : DynamicArray) (l : list Z) (x : Z) :
  malloc_sized m → array_rep a l → Z.of_nat (length l) < 2 ^ 60 - 1 →
  ∃ a', ('(b, a) ← array_push m a x; Some (Z.b2z b, a)) = Some ((deque_push m x l (array_room a)).1, a') ∧
    array_abs a' (deque_push m x l (array_room a)).2.
Proof.
  intros Hm Hrep Hmax. pose proof (push_rep m a l x Hm Hrep Hmax) as Hp. unfold pushed in Hp. unfold deque_push.
  destruct (grow m _ _); destruct Hp as (a' & -> & Hrep' & Hroom); by exists a'.
Qed.

Lemma init_step (m : malloc_answer) (a : DynamicArray) (s : list Z * Z) :
  malloc_sized m →
  Z.b2z (array_init m a).1 = (deque_exec m OpInit s).1 ∧ array_abs (array_init m a).2 (deque_exec m OpInit s).2.
Proof.
  intros Hm. destruct (init_rep m a Hm) as [Hrep Hi], s as [l room]. unfold array_abs, array_room. cbn.
  destruct (m _) as [d|]; cbn; [destruct Hi as (-> & -> & ->)|destruct Hi as [-> ->]]; done.
Qed.

Lemma deque_exec_length (m : malloc_answer) (o : array_op) (s : list Z * Z) :
  (length (deque_exec m o s).2.1 ≤ S (length s.1))%nat.
Proof.
  destruct s as [l room].
  assert (∀ x, (length (deque_push m x l room).2.1 ≤ S (length l))%nat) as Hpush.
  { intros x. unfold deque_push. case_match; cbn; [rewrite length_app; cbn|]; lia. }
  destruct o as [|x|x| | |i|i x|]; cbn; try apply Hpush.
  - case_match; cbn; lia.
  - destruct l as [|y l _] using rev_ind; [cbn; lia|]. rewrite removelast_last, length_app. cbn. lia.
  - destruct l; cbn; lia.
  - lia.
  - rewrite length_insert. lia.
  - lia.
Qed.

Lemma array_step (m : malloc_answer) (o : array_op) (a : DynamicArray) (s : list Z * Z) :
  malloc_sized m → op_wf o → array_abs a s → Z.of_nat (length s.1) < 2 ^ 60 - 1 →
  ∃ a', array_exec m o a = Some ((deque_exec m o s).1, a') ∧ array_abs a' (deque_exec m o s).2.
Proof.
  intros Hm Hwf [Hrep Hroom] Hmax. destruct s as [l room]. cbn in Hrep, Hroom, Hmax. subst room.
  destruct o as [|x|x| | |i|i x|]; cbn [array_exec op_wf] in *; unfold array_enqueue; try exact (push_step m a l x Hm Hrep Hmax).
  - pose proof (init_step m a (l, array_room a) Hm) as [Hr Ha]. destruct (array_init m a) as [b a']. cbn [fst] in Hr.
    rewrite Hr. by exists a'.
  - destruct (pop_rep a l Hrep) as (a' & -> & H). by exists a'.
  - destruct (dequeue_rep a l Hrep) as (a' & -> & H). by exists a'.
  - rewrite (get_rep a l i Hrep Hwf). by exists a.
  - destruct (set_rep a l i x Hrep Hwf) as (a' & -> & H). by exists a'.
  - by eexists.
Qed.

(** C40: the circular array is a double-ended list.  For any sequence of operations
    (initialisation and release included) and any behaviour of the allocator, starting
    from an array that stores the items [l], the operations stay inside the buffer and
    return exactly what [deque_run] computes on the list and the room, across wrap-around
    and growth.  A push is refused exactly when the ring is full, or there is none, and
    the allocator refuses the block for twice the room, or for the first four items; then
    it changes nothing. *)
Theorem array_refines_deque (os : list (malloc_answer * array_op)) (a : DynamicArray) (l : list Z) :
  array_rep a l → Forall (λ mo, malloc_sized mo.1 ∧ op_wf mo.2) os →
  Z.of_nat (length l + length os) < 2 ^ 60 →
  ∃ rs a' l', array_run os a = Some (rs, a') ∧ deque_run os (l, array_room a) = (rs, (l', array_room a')) ∧
    array_rep a' l'.
Proof.
  intros Hrep Hos Hmax.
  enough (∀ s, array_abs a s → s.1 = l → ∃ a', array_run os a = Some ((deque_run os s).1, a') ∧ array_abs a' (deque_run os s).2)
    as H.
  { destruct (H (l, array_room a)) as (a' & Hr & Hrep' & Hroom); [done..|].
    destruct (deque_run os (l, array_room a)) as [rs [l' room']]. cbn in *. subst room'. by exists rs, a', l'. }
  clear Hrep. revert a l Hmax. induction Hos as [|[m o] os [Hm Hwf] _ IH]; intros a l Hmax s Ha <-; cbn [array_run deque_run].
  { by exists a. }
  cbn in Hmax, Hm, Hwf. destruct (array_step m o a s Hm Hwf Ha) as (a1 & -> & Ha1); [lia|]. cbn [mbind option_bind].
  pose proof (deque_exec_length m o s) as Hlen. destruct (deque_exec m o s) as [r s1]. cbn [fst snd] in *.
  destruct (IH a1 s1.1 ltac:(lia) s1 Ha1 eq_refl) as (a' & -> & Ha'). cbn [mbind option_bind].
  destruct (deque_run os s1) as [rs s']. by exists a'.
Qed.

(** Five pushes grow the array, the others wrap it around. *)
Definition demo_malloc : malloc_answer :=
  λ n, if (0 <=? n) && (n mod 8 =? 0) then Some (replicate (Z.to_nat (n / 8)) 99) else None.

Lemma demo_malloc_sized : malloc_sized demo_malloc.
Proof.
  intros n d Hn. unfold demo_malloc in Hn. case_match eqn:Hc; [|discriminate]. b2p. injection Hn as <-.
  rewrite length_replicate, Z2Nat.id by (apply Z.div_pos; lia). pose proof (Z.div_mod n 8 ltac:(lia)). lia.
Qed.

Definition demo_ops : list (malloc_answer * array_op) :=
  (λ o, (demo_malloc, o)) <$> [OpPush 1; OpInit; OpPush 1; OpPush 2; OpDequeue; OpPush 3; OpPush 4; OpPush 5; OpPush 6; OpPop; OpGet 2].

Lemma array_refines_deque_witness :
  ∃ rs a' l', array_run demo_ops {| da_head := 0; da_count := 0; da_capacity := 0; da_data := None |} = Some (rs, a') ∧
    deque_run demo_ops ([], 0) = (rs, (l', 8)) ∧ array_rep a' l' ∧ l' = [2; 3; 4; 5] ∧ rs = [1; 1; 1; 1; 1; 1; 1; 1; 1; 6; 4].
Proof.
  match goal with |- ∃ rs a' l', array_run ?os ?a = _ ∧ _ =>
    destruct (array_refines_deque os a []) as (rs & a' & l' & Hr & Hd & Hrep) end.
  - split; reflexivity.
  - unfold demo_ops. repeat (constructor; [split; [apply demo_malloc_sized|cbn; first [exact I|lia]]|]). constructor.
  - reflexivity.
  - vm_compute in Hd. injection Hd as <- <- Hroom. exists [1; 1; 1; 1; 1; 1; 1; 1; 1; 6; 4], a', [2; 3; 4; 5].
    split; [exact Hr|]. split; [reflexivity|]. split; [exact Hrep|]. split; reflexivity.
Defined.
