(* ===== verification/Libc.v ===== *)
(** * The C library in user mode: [runtime/posix/src/posix.c] on ARM64

    The wrappers put the system-call number and arguments into registers, execute
    [svc #5], and turn a negative result into [-1] and [errno].  Here the [svc] is the
    kernel's exception handler of [Cpu.v], so the file composes both ends of the
    system-call interface.  (The host branch of the wrappers is in [Posix.v].) *)

From S2P Require Import Prelude Types Task Scheduler Mmu Timer Console Posix Cpu CpuSpec.

Section libc.
Context (pac_sign pac_auth : Z → Z → Z) (far : Z).

(** ** [lettuce_syscall0] to [lettuce_syscall3] *)

(** An assignment to a register variable. *)
Definition set_register (i v : Z) (tf : LettuceTrapFrame) : option LettuceTrapFrame :=
  x ← arr_set (tf_x tf) i v;
  Some {| tf_x := x; tf_lr := tf_lr tf; tf_elr := tf_elr tf; tf_spsr := tf_spsr tf; tf_sp_el0 := tf_sp_el0 tf |}.

(** [svc #5]: the result in [x0], once the kernel comes back to this task.  A call that
    gives the processor to another task has not returned yet ([None]). *)
Definition svc5 (tf : LettuceTrapFrame) (st : cpu_state) : option (Z * LettuceTrapFrame * cpu_state) :=
  '(e, st') ← lettuce_arch_sync_lower_el_handler pac_sign pac_auth (svc_esr LETTUCE_SVC_SYSCALL) far tf st;
  match e with
  | ToUser tf' =>
      if decide (g_current_task (ss_tasks (cp_sched st')) = g_current_task (ss_tasks (cp_sched st)))
      then x0 ← arr_get (tf_x tf') 0; Some (s64 x0, tf', st')
      else None
  | _ => None
  end.

Definition lettuce_syscall0 (sys_no : Z) (tf : LettuceTrapFrame) (st : cpu_state) :=
  tf ← set_register 8 sys_no tf; svc5 tf st.

Definition lettuce_syscall1 (sys_no arg0 : Z) (tf : LettuceTrapFrame) (st : cpu_state) :=
  tf ← set_register 0 arg0 tf; tf ← set_register 8 sys_no tf; svc5 tf st.

Definition lettuce_syscall2 (sys_no arg0 arg1 : Z) (tf : LettuceTrapFrame) (st : cpu_state) :=
  tf ← set_register 0 arg0 tf; tf ← set_register 1 arg1 tf; tf ← set_register 8 sys_no tf; svc5 tf st.

Definition lettuce_syscall3 (sys_no arg0 arg1 arg2 : Z) (tf : LettuceTrapFrame) (st : cpu_state) :=
  tf ← set_register 0 arg0 tf; tf ← set_register 1 arg1 tf; tf ← set_register 2 arg2 tf;
  tf ← set_register 8 sys_no tf; svc5 tf st.

(** ** The wrappers

    Each returns its result and the new [errno]; [int] arguments are sign-extended. *)

(** [if (res < 0) { errno = -res; return -1; } return 0;] *)
Definition posix_status (res errno : Z) : Z * Z := if res <? 0 then (-1, s32 (- res)) else (0, errno).

Definition finish (post : Z → Z * Z) (r : option (Z * LettuceTrapFrame * cpu_state))
    : option (Z * Z * LettuceTrapFrame * cpu_state) :=
  '(res, tf, st) ← r; Some (post res, tf, st).

Definition lettuce_write (fd buf count errno : Z) (tf : LettuceTrapFrame) (st : cpu_state) :=
  finish (λ res, posix_return res errno) (lettuce_syscall3 LETTUCE_SYS_WRITE (u64 fd) buf count tf st).

Definition lettuce_read (fd buf count errno : Z) (tf : LettuceTrapFrame) (st : cpu_state) :=
  finish (λ res, posix_return res errno) (lettuce_syscall3 LETTUCE_SYS_READ (u64 fd) buf count tf st).

Definition lettuce_close (fd errno : Z) (tf : LettuceTrapFrame) (st : cpu_state) :=
  finish (λ res, posix_status res errno) (lettuce_syscall1 LETTUCE_SYS_CLOSE (u64 fd) tf st).

Definition lettuce_getpid (errno : Z) (tf : LettuceTrapFrame) (st : cpu_state) :=
  finish (λ res, (s32 res, errno)) (lettuce_syscall0 LETTUCE_SYS_GETPID tf st).

Definition lettuce_clock_gettime (clk_id tp errno : Z) (tf : LettuceTrapFrame) (st : cpu_state) :=
  finish (λ res, posix_status res errno) (lettuce_syscall2 LETTUCE_SYS_CLOCK_GETTIME (u64 clk_id) tp tf st).

Definition lettuce_nanosleep (req rem errno : Z) (tf : LettuceTrapFrame) (st : cpu_state) :=
  finish (λ res, posix_status res errno) (lettuce_syscall2 LETTUCE_SYS_NANOSLEEP req rem tf st).

(** ** What a call asks of the kernel *)

Inductive request :=
  | Write (fd buf count : Z)
  | Read (fd buf count : Z)
  | Close (fd : Z)
  | Getpid
  | ClockGettime (clk_id tp : Z)
  | Nanosleep (req rem : Z).

(** The kernel function behind the request: the answer, memory and console.  A
    [nanosleep] that is granted gives the processor away and is no such function; the
    answer of a refused one depends on the request alone. *)
Definition kernel_function (q : request) (st : cpu_state) : option (Z * io_state) :=
  match q with
  | Write fd buf count => lettuce_kernel_sys_write true fd buf count (cp_fds st) (cp_io st)
  | Read fd buf count => lettuce_kernel_sys_read true fd buf count (cp_fds st) (cp_io st)
  | Close fd => lettuce_kernel_sys_close fd (cp_fds st) (cp_io st)
  | Getpid => pid ← lettuce_kernel_sys_getpid (ss_tasks (cp_sched st)); Some (pid, cp_io st)
  | ClockGettime clk_id tp => lettuce_kernel_sys_clock_gettime clk_id tp (mmu_hw (cp_mmu st)) (cp_io st)
  | Nanosleep req _ =>
      '(res, _, _, _) ← lettuce_kernel_sys_nanosleep arch_enter req (lettuce_timer_get_ticks (cp_timer st)) None
                          (mmu_hw (cp_mmu st)) (cp_io st) (cp_sched st);
      if res <? 0 then Some (res, cp_io st) else None
  end.

Definition libc_call (q : request) (errno : Z) : LettuceTrapFrame → cpu_state →
    option (Z * Z * LettuceTrapFrame * cpu_state) :=
  match q with
  | Write fd buf count => lettuce_write fd buf count errno
  | Read fd buf count => lettuce_read fd buf count errno
  | Close fd => lettuce_close fd errno
  | Getpid => lettuce_getpid errno
  | ClockGettime clk_id tp => lettuce_clock_gettime clk_id tp errno
  | Nanosleep req rem => lettuce_nanosleep req rem errno
  end.

(** The POSIX convention: the number of bytes, the identifier, or 0; [-1] with [errno]
    for an error. *)
Definition posix_answer (q : request) (res errno : Z) : Z * Z :=
  match q with
  | Getpid => (s32 res, errno)
  | _ => if res <? 0 then (-1, s32 (- res)) else (match q with Write _ _ _ | Read _ _ _ => res | _ => 0 end, errno)
  end.

(** [int] arguments. *)
Definition is_s32 (x : Z) : Prop := - 2 ^ 31 ≤ x < 2 ^ 31.

Definition request_wf (q : request) : Prop :=
  match q with
  | Write fd _ _ | Read fd _ _ | Close fd => is_s32 fd
  | Getpid | Nanosleep _ _ => True
  | ClockGettime clk_id _ => is_s32 clk_id
  end.

(** ** Facts *)

Lemma s32_u64 (x : Z) : is_s32 x → s32 (u64 x) = x.
Proof.
  unfold is_s32. intros Hx. unfold s32, u64. rewrite <- (Zplus_mod_idemp_l (x mod 2 ^ 64) (2 ^ 31) (2 ^ 32)).
  rewrite (mod_pow2_mod_pow2 x 64 32) by lia. rewrite Zplus_mod_idemp_l, Z.mod_small; lia.
Qed.

Lemma s64_u64 (x : Z) : - 2 ^ 63 ≤ x < 2 ^ 63 → s64 (u64 x) = x.
Proof. intros Hx. unfold s64, u64. rewrite Zplus_mod_idemp_l, Z.mod_small; lia. Qed.

(** The frame with register [i] set. *)
Definition with_register (i v : Z) (tf : LettuceTrapFrame) : LettuceTrapFrame :=
  {| tf_x := <[Z.to_nat i := v]> (tf_x tf); tf_lr := tf_lr tf; tf_elr := tf_elr tf; tf_spsr := tf_spsr tf;
     tf_sp_el0 := tf_sp_el0 tf |}.

Lemma set_register_ok (i v : Z) (tf : LettuceTrapFrame) :
  frame_ok tf → 0 ≤ i < 30 → set_register i v tf = Some (with_register i v tf).
Proof. intros Htf Hi. unfold set_register. by rewrite arr_set_Some by (rewrite Htf; lia). Qed.

Lemma with_register_ok (i v : Z) (tf : LettuceTrapFrame) : frame_ok tf → frame_ok (with_register i v tf).
Proof. intros Htf. unfold frame_ok. cbn. by rewrite length_insert. Qed.

Lemma with_register_get (i v j : Z) (tf : LettuceTrapFrame) :
  frame_ok tf → 0 ≤ i < 30 →
  arr_get (tf_x (with_register i v tf)) j = if decide (i = j) then Some v else arr_get (tf_x tf) j.
Proof. intros Htf Hi. cbn. apply arr_get_insert. rewrite Htf. lia. Qed.

Lemma set_x0_register (v : Z) (tf : LettuceTrapFrame) :
  frame_ok tf → set_x0 v tf = Some (with_register 0 v tf).
Proof. intros Htf. unfold set_x0. by rewrite arr_set_Some by (rewrite Htf; lia). Qed.

(** A call the kernel answers without touching tasks returns its answer. *)
Lemma svc5_answer (tf : LettuceTrapFrame) (st : cpu_state) (res : Z) (io : io_state) :
  frame_ok tf → - 2 ^ 63 ≤ res < 2 ^ 63 →
  svc_syscall tf st = (tf' ← set_x0 (u64 res) tf; Some (ToUser tf', with_io io st)) →
  svc5 tf st = Some (res, with_register 0 (u64 res) tf, with_io io st).
Proof.
  intros Htf Hres Hs. unfold svc5. rewrite handler_syscall, Hs, set_x0_register by done. cbn [mbind option_bind].
  rewrite decide_True by done. rewrite with_register_get by (done || lia). rewrite decide_True by done.
  cbn [mbind option_bind]. by rewrite s64_u64.
Qed.

(** The registers with which a wrapper executes [svc]. *)
Definition request_frame (q : request) (tf : LettuceTrapFrame) : LettuceTrapFrame :=
  match q with
  | Write fd buf count =>
      with_register 8 LETTUCE_SYS_WRITE (with_register 2 count (with_register 1 buf (with_register 0 (u64 fd) tf)))
  | Read fd buf count =>
      with_register 8 LETTUCE_SYS_READ (with_register 2 count (with_register 1 buf (with_register 0 (u64 fd) tf)))
  | Close fd => with_register 8 LETTUCE_SYS_CLOSE (with_register 0 (u64 fd) tf)
  | Getpid => with_register 8 LETTUCE_SYS_GETPID tf
  | ClockGettime clk_id tp =>
      with_register 8 LETTUCE_SYS_CLOCK_GETTIME (with_register 1 tp (with_register 0 (u64 clk_id) tf))
  | Nanosleep req rem => with_register 8 LETTUCE_SYS_NANOSLEEP (with_register 1 rem (with_register 0 req tf))
  end.

Lemma request_frame_ok (q : request) (tf : LettuceTrapFrame) : frame_ok tf → frame_ok (request_frame q tf).
Proof. intros Htf. destruct q; cbn [request_frame]; auto using with_register_ok. Qed.

Lemma libc_call_registers (q : request) (errno : Z) (tf : LettuceTrapFrame) (st : cpu_state) :
  frame_ok tf → libc_call q errno tf st = finish (λ res, posix_answer q res errno) (svc5 (request_frame q tf) st).
Proof.
  intros Htf. destruct q; cbn [libc_call request_frame posix_answer];
    unfold lettuce_write, lettuce_read, lettuce_close, lettuce_getpid, lettuce_clock_gettime, lettuce_nanosleep,
      lettuce_syscall0, lettuce_syscall1, lettuce_syscall2, lettuce_syscall3;
    repeat (rewrite set_register_ok by (auto using with_register_ok || lia); cbn [mbind option_bind]); done.
Qed.

#[local] Ltac read_registers :=
  repeat (rewrite with_register_get by (auto using with_register_ok || lia);
          first [rewrite decide_True by done | rewrite decide_False by done]).

(** Which branch of the [switch] a closed call number takes. *)
#[local] Ltac decide_number :=
  repeat match goal with
  | |- context [?a =? ?b] => let v := eval vm_compute in (a =? b) in change (a =? b) with v; cbv iota
  end.

Lemma with_io_id (st : cpu_state) : with_io (cp_io st) st = st.
Proof. by destruct st. Qed.

Lemma with_sched_id (st : cpu_state) : with_sched (cp_sched st) st = st.
Proof. by destruct st. Qed.

(** A refused [nanosleep] leaves the caller's frame and the scheduler. *)
Lemma nanosleep_refused (req rem res : Z) (tf : LettuceTrapFrame) (st : cpu_state) (io : io_state) :
  kernel_function (Nanosleep req rem) st = Some (res, io) →
  io = cp_io st ∧
  lettuce_kernel_sys_nanosleep arch_enter req (lettuce_timer_get_ticks (cp_timer st)) (Some tf) (mmu_hw (cp_mmu st))
    (cp_io st) (cp_sched st) = Some (res, false, Some tf, cp_sched st).
Proof.
  cbn [kernel_function]. unfold lettuce_kernel_sys_nanosleep. destruct (req =? 0); [by intros [= <- <-]|].
  destruct (load_s64 (req + 8) (io_mem (cp_io st))) as [ns|]; cbn [mbind option_bind]; [|done].
  destruct (_ || _); [by intros [= <- <-]|]. destruct (kernel_pointer true req); [by intros [= <- <-]|].
  destruct (load_s64 req (io_mem (cp_io st))) as [sec|]; cbn [mbind option_bind]; [|done].
  by destruct (lettuce_scheduler_sleep_current _ _ _ _ _) as [[[b x] y]|].
Qed.

(** The handler decodes the request the wrapper encoded. *)
Lemma syscall_decodes (q : request) (tf : LettuceTrapFrame) (st : cpu_state) (res : Z) (io : io_state) :
  frame_ok tf → request_wf q → kernel_function q st = Some (res, io) →
  svc_syscall (request_frame q tf) st = (tf' ← set_x0 (u64 res) (request_frame q tf); Some (ToUser tf', with_io io st)).
Proof.
  intros Htf Hq Hk. unfold svc_syscall. pose proof (request_frame_ok q tf Htf) as Hok.
  destruct (frame_register _ 0 Hok ltac:(lia)) as [x0 H0]. destruct (frame_register _ 1 Hok ltac:(lia)) as [x1 H1].
  destruct (frame_register _ 2 Hok ltac:(lia)) as [x2 H2]. destruct (frame_register _ 8 Hok ltac:(lia)) as [x8 H8].
  rewrite H0, H1, H2, H8. cbn [mbind option_bind]. revert H0 H1 H2 H8.
  destruct q as [| | | | |req rem]; [..|destruct (nanosleep_refused req rem res (request_frame (Nanosleep req rem) tf) st io Hk) as [-> Hn]];
    cbn [request_frame request_wf] in *; read_registers;
    intros H0 H1 H2 [= <-]; repeat (injection H0 as <- || injection H1 as <- || injection H2 as <-);
    rewrite ?s32_u64 by done; decide_number; cbn [kernel_function] in Hk.
  1-3, 5: by rewrite Hk.
  - destruct (lettuce_kernel_sys_getpid _); cbn [mbind option_bind] in Hk; [|done]. injection Hk as -> <-. by rewrite with_io_id.
  - rewrite Hn. cbn [mbind option_bind after_schedule]. by rewrite with_sched_id, with_io_id.
Qed.

(** C22: a system call returns the kernel's answer.  [write], [read], [close], [getpid]
    and [clock_gettime] of the user library, called with any argument of its C type, return
    what the kernel function of the call computes on those arguments, in the POSIX
    convention ([-1] and [errno] for a negative answer), with the kernel function's effect
    on memory and console and no other effect on the kernel, and give the caller back its
    program counter, stack and every register but the ones the call uses.  So does a
    [nanosleep] that the kernel refuses; one that it grants is not covered. *)
Theorem libc_calls_return_kernel_answers (q : request) (errno : Z) (tf : LettuceTrapFrame) (st : cpu_state)
    (res : Z) (io : io_state) :
  frame_ok tf → request_wf q → kernel_function q st = Some (res, io) → - 2 ^ 63 ≤ res < 2 ^ 63 →
  ∃ tf', libc_call q errno tf st = Some (posix_answer q res errno, tf', with_io io st) ∧
    (∀ i, i ∉ [0; 1; 2; 8] → arr_get (tf_x tf') i = arr_get (tf_x tf) i) ∧
    tf_lr tf' = tf_lr tf ∧ tf_elr tf' = tf_elr tf ∧ tf_spsr tf' = tf_spsr tf ∧ tf_sp_el0 tf' = tf_sp_el0 tf.
Proof.
  intros Htf Hq Hk Hres. pose proof (request_frame_ok q tf Htf) as Hok.
  exists (with_register 0 (u64 res) (request_frame q tf)). rewrite libc_call_registers by done.
  rewrite (svc5_answer _ st res io Hok Hres) by (by apply syscall_decodes). split; [done|]. split.
  - intros i Hi. rewrite !not_elem_of_cons in Hi. destruct Hi as (H0 & H1 & H2 & H8 & _).
    destruct q; cbn [request_frame] in *; read_registers; done.
  - by destruct q.
Qed.

End libc.

(** ** Witness: writing three bytes to the console, an unknown descriptor, a sleep of NULL *)

Lemma libc_calls_return_kernel_answers_witness :
  (∃ tf', lettuce_write demo_sign demo_sign 0 1 0x41000000 3 0 call_frame cpu_demo =
     Some ((3, 0), tf', with_io {| io_mem := io_mem demo_io; io_console := [2; 0; 0] |} cpu_demo)) ∧
  (∃ tf', lettuce_write demo_sign demo_sign 0 77 0x41000000 3 0 call_frame cpu_demo =
     Some ((-1, EBADF), tf', with_io demo_io cpu_demo)) ∧
  (∃ tf', lettuce_nanosleep demo_sign demo_sign 0 0 0 0 call_frame cpu_demo =
     Some ((-1, EFAULT), tf', with_io demo_io cpu_demo)).
Proof.
  split; [|split].
  - destruct (libc_calls_return_kernel_answers demo_sign demo_sign 0 (Write 1 0x41000000 3) 0 call_frame cpu_demo 3
      {| io_mem := io_mem demo_io; io_console := [2; 0; 0] |}) as (tf' & H & _);
      [reflexivity|unfold request_wf, is_s32; lia|vm_compute; reflexivity|lia|]. exists tf'. exact H.
  - destruct (libc_calls_return_kernel_answers demo_sign demo_sign 0 (Write 77 0x41000000 3) 0 call_frame cpu_demo (- EBADF)
      demo_io) as (tf' & H & _);
      [reflexivity|unfold request_wf, is_s32; lia|vm_compute; reflexivity|unfold EBADF; lia|]. exists tf'. exact H.
  - destruct (libc_calls_return_kernel_answers demo_sign demo_sign 0 (Nanosleep 0 0) 0 call_frame cpu_demo (- EFAULT)
      demo_io) as (tf' & H & _);
      [reflexivity|exact I|vm_compute; reflexivity|unfold EFAULT; lia|]. exists tf'. exact H.
Defined.
