(* ===== verification/Report.v ===== *)
(** * Test and benchmark reports: the helpers of [kernel/arch/arm64/main.c] and the
    feature report of [poe.c]

    The bring-up program counts and prints test results, sorts timing samples and prints
    their order statistics.  [const char *] arguments are strings, not [NULL]; the byte
    after the last character of a string is 0. *)

From Stdlib Require Import Ascii String.
From stdpp Require Import sorting.
From S2P Require Import Prelude Types Mmu Timer Console.

#[local] Open Scope list_scope.

(** ** Test results *)

Record test_state := {
  g_tests_passed : Z;
  g_tests_failed : Z
}.

(** [while (test_name[idx] >= '0' && test_name[idx] <= '9')] from position 5 on *)
Fixpoint parse_digits (text : string) (num : Z) : Z :=
  match text with
  | String c text' =>
      if (48 <=? code_of c) && (code_of c <=? 57) then parse_digits text' (u64 (u64 (num * 10) + (code_of c - 48)))
      else num
  | EmptyString => num
  end.

(** [test_name[0] == 'T' && ... && test_name[4] == ' '] *)
Definition parse_test_number (test_name : string) : Z :=
  match test_name with
  | String "T" (String "e" (String "s" (String "t" (String " " rest)))) => parse_digits rest 0
  | _ => 0
  end.

(** The common part of [log_pass] and [log_fail]. *)
Definition log_result (mark verdict : string) (test_name : string) (io : io_state) : option io_state :=
  let io := lettuce_arch_console_puts mark io in
  let io := lettuce_arch_console_puts test_name io in
  let io := lettuce_arch_console_puts newline io in
  let num := parse_test_number test_name in
  if 0 <? num then
    let io := lettuce_arch_console_puts "TEST," io in
    io ← lettuce_arch_console_print_dec num io;
    Some (lettuce_arch_console_puts (String.append verdict newline) io)
  else Some io.

Definition log_pass (test_name : string) (t : test_state) (io : io_state) : option (test_state * io_state) :=
  io ← log_result "[PASS] " ",PASS" test_name io;
  Some ({| g_tests_passed := u32 (g_tests_passed t + 1); g_tests_failed := g_tests_failed t |}, io).

Definition log_fail (test_name : string) (t : test_state) (io : io_state) : option (test_state * io_state) :=
  io ← log_result "[FAIL] " ",FAIL" test_name io;
  Some ({| g_tests_passed := g_tests_passed t; g_tests_failed := u32 (g_tests_failed t + 1) |}, io).

(** ** Benchmark statistics *)

Definition BENCH_SAMPLES : Z := 50.

(** [while (j > 0 && samples[j - 1] > key) { samples[j] = samples[j - 1]; --j; }] *)
Fixpoint bench_sift (j : nat) (key : Z) (samples : list Z) : option (list Z * Z) :=
  match j with
  | O => Some (samples, 0)
  | S j' =>
      prev ← arr_get samples (Z.of_nat j');
      if key <? prev then samples ← arr_set samples (Z.of_nat j) prev; bench_sift j' key samples
      else Some (samples, Z.of_nat j)
  end.

(** The insertion sort of [print_bench_stats]. *)
Definition bench_sort (samples : list Z) : option (list Z) :=
  for_range (Z.to_nat (BENCH_SAMPLES - 1)) 1
    (λ i samples,
       key ← arr_get samples i;
       '(samples, j) ← bench_sift (Z.to_nat i) key samples;
       arr_set samples j key) samples.

Definition bench_sum (samples : list Z) : option Z :=
  for_range (Z.to_nat BENCH_SAMPLES) 0 (λ i sum, x ← arr_get samples i; Some (u64 (sum + x))) 0.

Record bench_summary := {
  min_t : Z; max_t : Z; p50_t : Z; p95_t : Z; p99_t : Z; mean_t : Z
}.

(** The figures printed, from the sorted samples. *)
Definition bench_summarise (samples : list Z) : option bench_summary :=
  sum ← bench_sum samples;
  lo ← arr_get samples 0;
  hi ← arr_get samples (BENCH_SAMPLES - 1);
  p50 ← arr_get samples (BENCH_SAMPLES / 2);
  p95 ← arr_get samples ((BENCH_SAMPLES * 95 + 99) / 100 - 1);
  p99 ← arr_get samples (BENCH_SAMPLES - 1);
  Some {| min_t := lo; max_t := hi; p50_t := p50; p95_t := p95; p99_t := p99; mean_t := sum / BENCH_SAMPLES |}.

Definition print_bench_line (lbl : string) (t freq : Z) (io : io_state) : option io_state :=
  let ns := if 0 <? freq then u64 (t * 1000000000) / freq else 0 in
  let io := lettuce_arch_console_puts lbl io in
  io ← lettuce_arch_console_print_dec t io;
  let io := lettuce_arch_console_puts " ticks (~" io in
  io ← lettuce_arch_console_print_dec ns io;
  Some (lettuce_arch_console_puts (String.append " ns)" newline) io).

(** [name] starts with ["Case "]: the character after it, as a string. *)
Definition case_letter (name : string) : option string :=
  match name with
  | String "C" (String "a" (String "s" (String "e" (String " " rest)))) =>
      Some (match rest with String c _ => String c EmptyString | EmptyString => EmptyString end)
  | _ => None
  end.

(** [,] and a number *)
Definition print_field (io : io_state) (v : Z) : option io_state :=
  lettuce_arch_console_print_dec v (lettuce_arch_console_puts "," io).

(** The sorted samples and the console. *)
Definition print_bench_stats (name : string) (samples : list Z) (freq : Z) (io : io_state)
    : option (list Z * io_state) :=
  samples ← bench_sort samples;
  b ← bench_summarise samples;
  let io := lettuce_arch_console_puts "--- " io in
  let io := lettuce_arch_console_puts name io in
  let io := lettuce_arch_console_puts (String.append " ---" newline) io in
  io ← print_bench_line "  p50:  " (p50_t b) freq io;
  io ← print_bench_line "  p95:  " (p95_t b) freq io;
  io ← print_bench_line "  p99:  " (p99_t b) freq io;
  io ← print_bench_line "  min:  " (min_t b) freq io;
  io ← print_bench_line "  max:  " (max_t b) freq io;
  io ← print_bench_line "  mean: " (mean_t b) freq io;
  match case_letter name with
  | None => Some (samples, io)
  | Some c_buf =>
      let io := lettuce_arch_console_puts "BENCH," io in
      let io := lettuce_arch_console_puts c_buf io in
      io ← print_field io (p50_t b);
      io ← print_field io (p95_t b);
      io ← print_field io (p99_t b);
      io ← print_field io (mean_t b);
      io ← print_field io (min_t b);
      io ← print_field io (max_t b);
      Some (samples, lettuce_arch_console_puts newline io)
  end.

(** ** Feature report: [poe.c] *)

Definition lettuce_arch_features_probe_and_print (h : hw_state) (io : io_state) : io_state :=
  let line s io := lettuce_arch_console_puts (String.append s newline) io in
  let io := line "Architecture Feature Status:"%string io in
  let io := lettuce_arch_console_puts "  PAC: "%string io in
  let io := line (if lettuce_arch_has_pac h then "YES (active continuation signing)"%string else "NO"%string) io in
  let io := lettuce_arch_console_puts "  MTE: "%string io in
  let io := line (if lettuce_arch_has_mte h
                  then "YES (instructions present; unbacked tag RAM in default virt; optional)"%string
                  else "NO (operating normally without MTE)"%string) io in
  let io := lettuce_arch_console_puts "  POE: "%string io in
  line (if lettuce_arch_has_poe h then "YES"%string else "NO (fallback to optimized MMU/ASID backend)"%string) io.

(** ** Sorting *)

(** Sifting [key] leaves a gap below the elements greater than it. *)
Lemma bench_sift_spec (pre post : list Z) (x key : Z) :
  ∃ a b y, pre = a ++ b ∧
    bench_sift (length pre) key (pre ++ x :: post) = Some (a ++ y :: b ++ post, Z.of_nat (length a)) ∧
    Forall (λ z, key < z) b ∧ (∀ z, last a = Some z → z ≤ key).
Proof.
  revert x post. induction pre as [|p pre IH] using rev_ind; intros x post.
  { exists [], [], x. split_and!; [done..|constructor|done]. }
  rewrite length_app. cbn [length]. rewrite Nat.add_1_r. cbn [bench_sift].
  assert (((pre ++ [p]) ++ x :: post) = pre ++ p :: x :: post) as Hl by by rewrite <- app_assoc.
  rewrite Hl, arr_get_nat, list_lookup_middle by done. cbn [mbind option_bind].
  destruct (Z.ltb_spec key p) as [Hlt|Hge].
  - rewrite arr_set_Some by (rewrite length_app; cbn; lia). cbn [mbind option_bind]. rewrite Nat2Z.id.
    pose proof (insert_app_r pre (p :: x :: post) 1 p) as Hi. rewrite Nat.add_1_r in Hi. rewrite Hi. cbn [insert list_insert].
    destruct (IH p (p :: post)) as (a & b & y & -> & -> & Hb & Ha). exists a, (b ++ [p]), y.
    rewrite <- !app_assoc. split_and!; [done|done| |done]. apply Forall_app. auto.
  - exists (pre ++ [p]), [], x. rewrite app_nil_r, length_app. cbn. rewrite Nat.add_1_r.
    split_and!; [done|by rewrite Hl|constructor|]. intros z. rewrite last_snoc. intros [= <-]. done.
Qed.

Lemma sorted_last_bound (a : list Z) (key z : Z) :
  StronglySorted Z.le a → (∀ z, last a = Some z → z ≤ key) → z ∈ a → z ≤ key.
Proof.
  intros Hs Hl Hz. destruct a as [|y a _] using rev_ind; [by apply elem_of_nil in Hz|].
  specialize (Hl y). rewrite last_snoc in Hl. specialize (Hl eq_refl).
  apply elem_of_app in Hz as [Hz|Hz%list_elem_of_singleton]; [|by subst].
  pose proof (StronglySorted_app_1_elem_of _ _ _ z y Hs Hz ltac:(by apply list_elem_of_singleton)). lia.
Qed.

(** One round of the outer loop inserts an element into the sorted prefix. *)
Lemma bench_insert (pre post : list Z) (key : Z) :
  StronglySorted Z.le pre →
  ∃ pre', ('(samples, j) ← bench_sift (length pre) key (pre ++ key :: post); arr_set samples j key) =
      Some (pre' ++ post) ∧ StronglySorted Z.le pre' ∧ pre' ≡ₚ key :: pre.
Proof.
  intros Hs. destruct (bench_sift_spec pre post key key) as (a & b & y & -> & -> & Hb & Ha). cbn [mbind option_bind].
  apply StronglySorted_app in Hs as (Hab & Hsa & Hsb). exists (a ++ key :: b). split_and!.
  - rewrite arr_set_Some by (rewrite length_app; cbn; lia). rewrite Nat2Z.id.
    pose proof (insert_app_r a (y :: b ++ post) 0 key) as Hi. rewrite Nat.add_0_r in Hi. rewrite Hi.
    by rewrite <- app_assoc.
  - apply StronglySorted_app. split_and!; [|done|].
    + intros x1 x2 H1 H2. apply elem_of_cons in H2 as [-> | H2]; [exact (sorted_last_bound a key x1 Hsa Ha H1)|by apply Hab].
    + constructor; [done|]. eapply Forall_impl; [exact Hb|]. cbn. lia.
  - by rewrite Permutation_middle.
Qed.

Lemma bench_sort_spec (samples : list Z) :
  length samples = Z.to_nat BENCH_SAMPLES →
  ∃ s, bench_sort samples = Some s ∧ StronglySorted Z.le s ∧ s ≡ₚ samples.
Proof.
  intros Hlen. change (Z.to_nat BENCH_SAMPLES) with 50%nat in Hlen. unfold bench_sort.
  match goal with |- context [for_range ?n 1 ?body samples] =>
    destruct (for_range_inv (λ i s, s ≡ₚ samples ∧ ∃ pre post, s = pre ++ post ∧ Z.of_nat (length pre) = i ∧
      StronglySorted Z.le pre) n 1 body samples) as (s & -> & Hp & pre & post & -> & Hl & Hs) end.
  - split; [done|]. destruct samples as [|x samples]; [done|]. exists [x], samples. split_and!; [done..|].
    repeat constructor.
  - intros k s Hk (Hp & pre & post & -> & Hl & Hs). change (Z.to_nat (BENCH_SAMPLES - 1)) with 49%nat in Hk.
    apply Permutation_length in Hp as Hpl. rewrite length_app, Hlen in Hpl. destruct post as [|key post]; [cbn in Hpl; lia|].
    rewrite <- Hl, arr_get_nat, list_lookup_middle by done. cbn [mbind option_bind]. rewrite Nat2Z.id.
    destruct (bench_insert pre post key Hs) as (pre' & -> & Hs' & Hp'). eexists. split; [done|]. split.
    + rewrite <- Hp, Hp'. apply Permutation_middle.
    + exists pre', post. split_and!; [done| |done]. rewrite (Permutation_length Hp'). cbn. lia.
  - change (1 + Z.of_nat (Z.to_nat (BENCH_SAMPLES - 1))) with 50 in Hl. apply Permutation_length in Hp as Hpl.
    rewrite length_app, Hlen in Hpl. destruct post; [|cbn in Hpl; lia]. rewrite app_nil_r in *. eauto.
Qed.

(** ** Order statistics *)

Definition count (P : Z → bool) (l : list Z) : Z := Z.of_nat (length (filter (λ x, P x = true) l)).

(** [v] is a [q]-th percentile: [q] per cent are not above it, and no more below it. *)
Definition is_percentile (q v : Z) (l : list Z) : Prop :=
  q * Z.of_nat (length l) ≤ 100 * count (λ x, x <=? v) l ∧ 100 * count (λ x, x <? v) l ≤ q * Z.of_nat (length l).

Lemma count_perm (P : Z → bool) (l k : list Z) : l ≡ₚ k → count P l = count P k.
Proof. intros Hp. unfold count. by rewrite Hp. Qed.

Lemma count_all (P : Z → bool) (l : list Z) : Forall (λ x, P x = true) l → count P l = Z.of_nat (length l).
Proof.
  intros H. unfold count. induction H as [|x l Hx _ IH]; [done|]. rewrite filter_cons_True by done. cbn. lia.
Qed.

Lemma count_app (P : Z → bool) (l k : list Z) : count P (l ++ k) = count P l + count P k.
Proof. unfold count. rewrite filter_app, length_app. lia. Qed.

Lemma count_none (P : Z → bool) (l : list Z) : Forall (λ x, P x = false) l → count P l = 0.
Proof.
  intros H. unfold count. induction H as [|x l Hx _ IH]; [done|]. by rewrite filter_cons_False by congruence.
Qed.

Lemma count_bounds (P : Z → bool) (l : list Z) : 0 ≤ count P l ≤ Z.of_nat (length l).
Proof. unfold count. pose proof (length_filter (λ x, P x = true) l). lia. Qed.

(** The element at index [i] of a sorted list has [i] elements not above it before it and
    none below it after it. *)
Lemma sorted_rank (s : list Z) (i : nat) (v : Z) :
  StronglySorted Z.le s → s !! i = Some v →
  Z.of_nat i + 1 ≤ count (λ x, x <=? v) s ∧ count (λ x, x <? v) s ≤ Z.of_nat i.
Proof.
  intros Hs Hv. rewrite <- (take_drop_middle _ _ _ Hv) in Hs |- *. pose proof (lookup_lt_Some _ _ _ Hv) as Hi.
  apply StronglySorted_app in Hs as (Hlow & _ & Hup). apply StronglySorted_inv in Hup as [_ Hup].
  rewrite !count_app. split.
  - rewrite (count_all _ (take i s)), length_take.
    + change (v :: drop (S i) s) with ([v] ++ drop (S i) s). rewrite count_app, (count_all _ [v]) by
        (repeat constructor; by rewrite Z.leb_refl). cbn [length]. pose proof (count_bounds (λ x, x <=? v) (drop (S i) s)). lia.
    + apply Forall_forall. intros x Hx. apply Z.leb_le, Hlow; [done|by left].
  - rewrite (count_none _ (v :: _)).
    + pose proof (count_bounds (λ x, x <? v) (take i s)). rewrite length_take in *. lia.
    + constructor; [apply Z.ltb_irrefl|]. eapply Forall_impl; [exact Hup|]. cbn. intros x Hx. apply Z.ltb_ge. done.
Qed.

Lemma sorted_percentile (s samples : list Z) (q i v : Z) :
  StronglySorted Z.le s → s ≡ₚ samples → arr_get s i = Some v →
  q * Z.of_nat (length samples) ≤ 100 * (i + 1) → 100 * i ≤ q * Z.of_nat (length samples) →
  is_percentile q v samples.
Proof.
  intros Hs Hp Hv H1 H2. pose proof (arr_get_Some_range _ _ _ Hv) as Hi. rewrite arr_get_lookup in Hv by lia.
  destruct (sorted_rank s _ v Hs Hv) as [R1 R2]. unfold is_percentile.
  rewrite <- !(count_perm _ _ _ Hp). lia.
Qed.

Lemma sorted_extremes (s samples : list Z) (lo hi : Z) :
  StronglySorted Z.le s → s ≡ₚ samples → arr_get s 0 = Some lo → arr_get s (Z.of_nat (length s) - 1) = Some hi →
  lo ∈ samples ∧ hi ∈ samples ∧ ∀ x, x ∈ samples → lo ≤ x ≤ hi.
Proof.
  intros Hs Hp Hlo Hhi. destruct s as [|y s]; [done|]. injection Hlo as <-.
  rewrite arr_get_lookup in Hhi by (cbn; lia). rewrite <- !Hp. split; [by left|].
  split; [by eapply list_elem_of_lookup_2|]. intros x Hx. rewrite <- Hp in Hx. split.
  - apply StronglySorted_inv in Hs as [_ Hs]. rewrite Forall_forall in Hs.
    apply elem_of_cons in Hx as [-> | Hx]; [done|by apply Hs].
  - eapply (sorted_last_bound (y :: s)); [done| |done]. intros z Hz. rewrite last_lookup in Hz.
    replace (Z.to_nat _) with (pred (length (y :: s))) in Hhi by (cbn; lia). rewrite Hz in Hhi. by injection Hhi as ->.
Qed.

Definition total (l : list Z) : Z := foldr Z.add 0 l.

Lemma total_app (l k : list Z) : total (l ++ k) = total l + total k.
Proof. unfold total. rewrite foldr_app. induction l as [|x l IH]; cbn; [done|]. rewrite IH. lia. Qed.

#[export] Instance total_perm : Proper ((≡ₚ) ==> (=)) total.
Proof. intros l k Hp. induction Hp; cbn; unfold total in *; cbn; lia. Qed.

Lemma bench_sum_spec (s : list Z) :
  length s = Z.to_nat BENCH_SAMPLES → bench_sum s = Some (u64 (total s)).
Proof.
  intros Hlen. unfold bench_sum. match goal with |- for_range ?n 0 ?body 0 = _ =>
    destruct (for_range_inv (λ i sum, sum = u64 (total (take (Z.to_nat i) s))) n 0 body 0) as (x & -> & ->) end.
  - done.
  - intros k x Hk ->. destruct (lookup_lt_is_Some_2 s (Z.to_nat k)) as [y Hy]; [lia|].
    rewrite arr_get_lookup, Hy by lia. cbn [mbind option_bind]. eexists. split; [done|].
    replace (Z.to_nat (k + 1)) with (S (Z.to_nat k)) by lia. rewrite (take_S_r _ _ _ Hy), total_app. cbn.
    unfold u64. rewrite Zplus_mod_idemp_l. f_equal. lia.
  - rewrite Z.add_0_l, Nat2Z.id, <- Hlen, take_ge by lia. done.
Qed.

(** The figures [b] are the order statistics of [samples]; the sum of the samples is a
    64-bit number. *)
Record order_statistics (b : bench_summary) (samples : list Z) : Prop := {
  os_min : min_t b ∈ samples;
  os_max : max_t b ∈ samples;
  os_range : ∀ x, x ∈ samples → min_t b ≤ x ≤ max_t b;
  os_p50 : is_percentile 50 (p50_t b) samples;
  os_p95 : is_percentile 95 (p95_t b) samples;
  os_p99 : is_percentile 99 (p99_t b) samples;
  os_mean : mean_t b = u64 (total samples) / BENCH_SAMPLES
}.

Lemma bench_summarise_spec (s samples : list Z) :
  Z.of_nat (length samples) = BENCH_SAMPLES → Forall is_u64 samples → StronglySorted Z.le s → s ≡ₚ samples →
  ∃ b, bench_summarise s = Some b ∧ order_statistics b samples ∧
    Forall is_u64 [p50_t b; p95_t b; p99_t b; min_t b; max_t b; mean_t b].
Proof.
  intros Hlen Hall Hs Hp. pose proof (Permutation_length Hp) as Hl. unfold BENCH_SAMPLES in Hlen.
  assert (∀ i, 0 ≤ i < 50 → ∃ v, arr_get s i = Some v ∧ is_u64 v) as Hget.
  { intros i Hi. destruct (arr_get_is_Some s i) as [v Hv]; [lia|]. exists v. split; [done|].
    rewrite <- Hp in Hall. rewrite arr_get_lookup in Hv by lia. by eapply Forall_lookup_1 in Hall. }
  destruct (Hget 0) as (lo & Hlo & Rlo); [lia|]. destruct (Hget 49) as (hi & Hhi & Rhi); [lia|].
  destruct (Hget 25) as (p50 & H50 & R50); [lia|]. destruct (Hget 47) as (p95 & H95 & R95); [lia|].
  destruct (sorted_extremes s samples lo hi) as (? & ? & ?); [done..|by replace (Z.of_nat (length s) - 1) with 49 by lia|].
  exists {| min_t := lo; max_t := hi; p50_t := p50; p95_t := p95; p99_t := hi; mean_t := u64 (total samples) / BENCH_SAMPLES |}.
  split_and!; cbn [min_t max_t p50_t p95_t p99_t mean_t].
  - unfold bench_summarise. rewrite bench_sum_spec by (unfold BENCH_SAMPLES; lia). change (BENCH_SAMPLES - 1) with 49.
    change (BENCH_SAMPLES / 2) with 25. change ((BENCH_SAMPLES * 95 + 99) / 100 - 1) with 47.
    by rewrite Hlo, Hhi, H50, H95, (total_perm _ _ Hp).
  - constructor; cbn [min_t max_t p50_t p95_t p99_t mean_t]; try done.
    + apply (sorted_percentile s samples 50 25); try done; lia.
    + apply (sorted_percentile s samples 95 47); try done; lia.
    + apply (sorted_percentile s samples 99 49); try done; lia.
  - repeat (constructor; [done|]). constructor; [|constructor]. pose proof (u64_range (total samples)).
    unfold is_u64, BENCH_SAMPLES in *. split; [apply Z.div_pos; lia|apply Z.div_lt_upper_bound; lia].
Qed.

(** ** The text of a report *)

(** [t] ticks of a counter of [freq] Hz in nanoseconds; the product is a 64-bit number. *)
Definition ticks_to_ns (t freq : Z) : Z := if 0 <? freq then u64 (t * 1000000000) / freq else 0.

Definition line_text (freq : Z) (line : string * Z) : list Z :=
  text_bytes line.1 ++ decimal line.2 ++ text_bytes " ticks (~" ++ decimal (ticks_to_ns line.2 freq) ++
  text_bytes (String.append " ns)" newline).

Definition field_text (v : Z) : list Z := text_bytes "," ++ decimal v.

(** The labelled figures, and the record for the tools, of a benchmark named ["Case X"]. *)
Definition report_lines (b : bench_summary) : list (string * Z) :=
  [("  p50:  ", p50_t b); ("  p95:  ", p95_t b); ("  p99:  ", p99_t b);
   ("  min:  ", min_t b); ("  max:  ", max_t b); ("  mean: ", mean_t b)]%string.

Definition record_text (name : string) (b : bench_summary) : list Z :=
  match case_letter name with
  | None => []
  | Some c => text_bytes "BENCH," ++ text_bytes c ++
      mjoin (field_text <$> [p50_t b; p95_t b; p99_t b; mean_t b; min_t b; max_t b]) ++ text_bytes newline
  end.

Definition report_text (name : string) (freq : Z) (b : bench_summary) : list Z :=
  text_bytes "--- " ++ text_bytes name ++ text_bytes (String.append " ---" newline) ++
  mjoin (line_text freq <$> report_lines b) ++ record_text name b.

(** [text] added to the console. *)
Definition shows (text : list Z) (io : io_state) : io_state :=
  {| io_mem := io_mem io; io_console := io_console io ++ text |}.

Lemma shows_app (text1 text2 : list Z) (io : io_state) : shows text2 (shows text1 io) = shows (text1 ++ text2) io.
Proof. unfold shows. cbn. by rewrite app_assoc. Qed.

Lemma puts_shows (text : string) (io : io_state) : lettuce_arch_console_puts text io = shows (text_bytes text) io.
Proof. apply puts_spec. Qed.

Lemma print_dec_shows (v : Z) (io : io_state) :
  is_u64 v → lettuce_arch_console_print_dec v io = Some (shows (decimal v) io).
Proof. apply print_dec_spec. Qed.

Lemma print_bench_line_shows (lbl : string) (t freq : Z) (io : io_state) :
  is_u64 t → print_bench_line lbl t freq io = Some (shows (line_text freq (lbl, t)) io).
Proof.
  intros Ht. unfold print_bench_line. fold (ticks_to_ns t freq).
  assert (is_u64 (ticks_to_ns t freq)) as Hns.
  { unfold ticks_to_ns. destruct (Z.ltb_spec 0 freq); [|unfold is_u64; lia]. pose proof (u64_range (t * 1000000000)) as Hr.
    unfold is_u64 in *. split; [apply Z.div_pos; lia|]. apply Z.div_lt_upper_bound; nia. }
  rewrite puts_shows, print_dec_shows by done. cbn [mbind option_bind]. rewrite puts_shows, print_dec_shows by done.
  cbn [mbind option_bind]. by rewrite puts_shows, !shows_app.
Qed.

Lemma print_field_shows (v : Z) (io : io_state) : is_u64 v → print_field io v = Some (shows (field_text v) io).
Proof. intros Hv. unfold print_field. by rewrite puts_shows, print_dec_shows, shows_app. Qed.

Lemma print_bench_stats_shows (name : string) (samples s : list Z) (b : bench_summary) (freq : Z) (io : io_state) :
  bench_sort samples = Some s → bench_summarise s = Some b →
  Forall is_u64 [p50_t b; p95_t b; p99_t b; min_t b; max_t b; mean_t b] →
  print_bench_stats name samples freq io = Some (s, shows (report_text name freq b) io).
Proof.
  intros Hs Hb Hall. unfold print_bench_stats. rewrite Hs. cbn [mbind option_bind]. rewrite Hb. cbn [mbind option_bind].
  rewrite !Forall_cons in Hall. destruct Hall as (? & ? & ? & ? & ? & ? & _).
  do 6 (rewrite print_bench_line_shows by done; cbn [mbind option_bind]).
  unfold report_text, report_lines, record_text. cbn [fmap list_fmap mjoin list_join].
  destruct (case_letter name) as [c|].
  - do 6 (rewrite print_field_shows by done; cbn [mbind option_bind]). do 2 f_equal.
    rewrite !puts_shows, !shows_app. f_equal. by rewrite ?app_nil_r, <- ?app_assoc.
  - do 2 f_equal. rewrite !puts_shows, !shows_app. f_equal. by rewrite ?app_nil_r, <- ?app_assoc.
Qed.

(** [text] is a report on [samples]. *)
Definition is_report (freq : Z) (name : string) (samples text : list Z) : Prop :=
  ∃ b, text = report_text name freq b ∧ order_statistics b samples.

Lemma bench_report_spec (name : string) (samples : list Z) (freq : Z) :
  Z.of_nat (length samples) = BENCH_SAMPLES → Forall is_u64 samples →
  ∃ s b, (∀ io, print_bench_stats name samples freq io = Some (s, shows (report_text name freq b) io)) ∧
    StronglySorted Z.le s ∧ s ≡ₚ samples ∧ order_statistics b samples.
Proof.
  intros Hlen Hall. destruct (bench_sort_spec samples) as (s & Hsort & Hs & Hp); [unfold BENCH_SAMPLES in *; lia|].
  destruct (bench_summarise_spec s samples Hlen Hall Hs Hp) as (b & Hb & Hos & Hu). exists s, b.
  split; [|done]. intros io. exact (print_bench_stats_shows name samples s b freq io Hsort Hb Hu).
Qed.

(** C34: a benchmark report shows the order statistics of its samples.  For any 50 samples
    the sorting loops end with the samples in order, no access leaves the array, and the
    report changes nothing but the console, to which it adds exactly [report_text] of the
    figures: the name, a line per figure with its label, its ticks and its nanoseconds, and
    for a benchmark named ["Case "] the record [BENCH,X,p50,p95,p99,mean,min,max].  The
    figures are the least and the greatest sample, a 50th, 95th and 99th percentile, and
    the mean, rounded down, of the 64-bit sum. *)
Theorem bench_report_is_order_statistics (name : string) (samples : list Z) (freq : Z) (io : io_state) :
  Z.of_nat (length samples) = BENCH_SAMPLES → Forall is_u64 samples →
  ∃ s b, print_bench_stats name samples freq io = Some (s,
      {| io_mem := io_mem io; io_console := io_console io ++ report_text name freq b |}) ∧
    StronglySorted Z.le s ∧ s ≡ₚ samples ∧ order_statistics b samples.
Proof.
  intros Hlen Hall. destruct (bench_report_spec name samples freq Hlen Hall) as (s & b & Hrun & H).
  exists s, b. split; [exact (Hrun io)|exact H].
Qed.

(** The text of a list of character codes. *)
Definition text_of (codes : list Z) : string :=
  foldr (λ d s, String (ascii_of_N (Z.to_N d)) s) EmptyString codes.

Lemma code_of_digit (d : Z) : 48 ≤ d ≤ 57 → code_of (ascii_of_N (Z.to_N d)) = d.
Proof. intros Hd. unfold code_of. rewrite N_ascii_embedding by lia. lia. Qed.

Definition starts_with_digit (text : string) : bool :=
  match text with String c _ => (48 <=? code_of c) && (code_of c <=? 57) | EmptyString => false end.

Lemma parse_digits_fold (codes : list Z) (rest : string) (num : Z) :
  Forall (λ d, 48 ≤ d ≤ 57) codes → starts_with_digit rest = false → is_u64 num →
  parse_digits (String.append (text_of codes) rest) num = u64 (foldl (λ v d, 10 * v + (d - 48)) num codes).
Proof.
  intros Hd Hrest. revert num. induction Hd as [|d codes Hd _ IH]; intros num Hnum.
  - cbn [foldl]. rewrite u64_small by done. destruct rest as [|c rest]; [done|]. unfold starts_with_digit in Hrest.
    change (parse_digits (String c rest) num = num). cbn [parse_digits]. by rewrite Hrest.
  - change (String.append (text_of (d :: codes)) rest) with
      (String (ascii_of_N (Z.to_N d)) (String.append (text_of codes) rest)).
    cbn [parse_digits foldl]. rewrite code_of_digit by done. rewrite (proj2 (Z.leb_le 48 d)), (proj2 (Z.leb_le d 57)) by lia. cbn [andb].
    rewrite IH by apply u64_range. clear IH Hnum. set (a := u64 (u64 (num * 10) + (d - 48))).
    assert (a mod 2 ^ 64 = (10 * num + (d - 48)) mod 2 ^ 64) as Ha.
    { subst a. unfold u64. rewrite Z.mod_mod, Zplus_mod_idemp_l by lia. f_equal. lia. }
    revert Ha. generalize a, (10 * num + (d - 48)). clear. induction codes as [|e codes IH]; intros x y Hxy; [done|].
    cbn. apply IH. rewrite (Zplus_mod (10 * x)), (Zplus_mod (10 * y)), (Zmult_mod 10 x), (Zmult_mod 10 y), Hxy. done.
Qed.

(** A test result is reported under the test's own number.  For a test named
    ["Test "] and a positive 64-bit number, as the console prints it, followed by anything
    that does not begin with a digit, [log_pass] recovers the number, prints the name and
    the record [TEST,number,PASS], and counts one more passed test; [log_fail] likewise. *)
Theorem test_number_round_trip (n : Z) (rest : string) (t : test_state) (io : io_state) :
  is_u64 n → 0 < n → starts_with_digit rest = false →
  let name := String.append "Test " (String.append (text_of (decimal n)) rest) in
  parse_test_number name = n ∧
  log_pass name t io = Some ({| g_tests_passed := u32 (g_tests_passed t + 1); g_tests_failed := g_tests_failed t |},
    {| io_mem := io_mem io; io_console := io_console io ++ text_bytes "[PASS] " ++ text_bytes name ++ text_bytes newline ++
         text_bytes "TEST," ++ decimal n ++ text_bytes ",PASS" ++ text_bytes newline |}) ∧
  log_fail name t io = Some ({| g_tests_passed := g_tests_passed t; g_tests_failed := u32 (g_tests_failed t + 1) |},
    {| io_mem := io_mem io; io_console := io_console io ++ text_bytes "[FAIL] " ++ text_bytes name ++ text_bytes newline ++
         text_bytes "TEST," ++ decimal n ++ text_bytes ",FAIL" ++ text_bytes newline |}).
Proof.
  intros Hn Hpos Hrest name. assert (parse_test_number name = n) as Hparse.
  { change (parse_test_number name) with (parse_digits (String.append (text_of (decimal n)) rest) 0).
    rewrite parse_digits_fold; [|by apply decimal_digits; lia|done|unfold is_u64; lia].
    change (foldl _ 0 _) with (dec_value (decimal n)). rewrite decimal_value by done. by apply u64_small. }
  split; [done|].
  assert (∀ mark verdict, log_result mark verdict name io = Some {| io_mem := io_mem io; io_console := io_console io ++
    text_bytes mark ++ text_bytes name ++ text_bytes newline ++ text_bytes "TEST," ++ decimal n ++
    text_bytes (String.append verdict newline) |}) as Hlog.
  { intros mark verdict. unfold log_result. rewrite Hparse, (proj2 (Z.ltb_lt 0 n)) by done. rewrite !puts_spec.
    rewrite print_dec_spec by done. cbn [mbind option_bind]. rewrite puts_spec. cbn [io_mem io_console].
    by rewrite <- !app_assoc. }
  split; [unfold log_pass|unfold log_fail]; by rewrite Hlog.
Qed.

(** ** Witnesses *)

Definition demo_samples : list Z := (λ i, (i * 37) mod 101) <$> seqZ 0 50.

(** The last line of the report on [demo_samples]. *)
Lemma bench_report_is_order_statistics_witness :
  ∃ s b, print_bench_stats "Case A: Direct EL1 Baseline" demo_samples 62500000 {| io_mem := ∅; io_console := [] |} =
      Some (s, {| io_mem := ∅; io_console := report_text "Case A: Direct EL1 Baseline" 62500000 b |}) ∧
    order_statistics b demo_samples ∧
    text_bytes (String.append "BENCH,A,50,96,100,50,0,100" newline) `suffix_of` report_text "Case A: Direct EL1 Baseline" 62500000 b.
Proof.
  destruct (bench_report_is_order_statistics "Case A: Direct EL1 Baseline" demo_samples 62500000
    {| io_mem := ∅; io_console := [] |}) as (s & b & H & _ & _ & Hb).
  - reflexivity.
  - apply Forall_forall. intros x Hx. unfold demo_samples in Hx. apply list_elem_of_fmap in Hx as (i & -> & _).
    pose proof (Z.mod_pos_bound (i * 37) 101). unfold is_u64. lia.
  - exists s, b. split; [exact H|]. split; [exact Hb|].
    assert ((λ r, drop (length (io_console r.2) - 28) (io_console r.2)) <$> print_bench_stats "Case A: Direct EL1 Baseline"
      demo_samples 62500000 {| io_mem := ∅; io_console := [] |} =
      Some (text_bytes (String.append "BENCH,A,50,96,100,50,0,100" newline))) as Hv by (vm_compute; reflexivity).
    rewrite H in Hv. set (text := report_text _ _ b) in *.
    change (Some (drop (length text - 28) text) = Some (text_bytes (String.append "BENCH,A,50,96,100,50,0,100" newline))) in Hv.
    apply (inj Some) in Hv. rewrite <- Hv. apply suffix_drop.
Defined.

Lemma test_number_round_trip_witness :
  parse_test_number "Test 21: Preemptive round-robin context switching verified across 3 MMU domains" = 21.
Proof.
  exact (proj1 (test_number_round_trip 21 ": Preemptive round-robin context switching verified across 3 MMU domains"
    {| g_tests_passed := 20; g_tests_failed := 0 |} {| io_mem := ∅; io_console := [] |}
    ltac:(unfold is_u64; lia) ltac:(lia) ltac:(reflexivity))).
Defined.
