(* ===== verification/Main.v ===== *)
(** * Bring-up: [kernel/arch/arm64/main.c]

    The part of [lettuce_arm64_main] that boots the kernel (up to the registration of the
    services), and [run_el0_service], with which it starts user code.  User code is an
    argument, [el0_code]: any function from the registers and the state it is entered
    with to the next exception it takes and what it did to user memory. *)

From Stdlib Require Import String.
From S2P Require Import Prelude Types Generation Context Capability CapabilitySpec Registry RegistrySpec Ipc.
From S2P Require Import Task Policy RoundRobin Eevdf Scheduler SchedulerSpec Mmu MmuSpec Timer Console Posix Cpu CpuSpec.

Definition SERVICE_CAMERA : Z := 10.
Definition SERVICE_DISPLAY : Z := 20.
Definition SERVICE_STORAGE : Z := 30.
Definition SERVICE_SENSOR : Z := 40.
Definition SERVICE_FAILING : Z := 99.

Definition OP_DRAW : Z := 1.
Definition OP_SAVE : Z := 1.
Definition OP_FAIL : Z := 1.

(** The addresses of the user-mode entry points of [entry.S]. *)
Record el0_symbols := {
  svc_display_entry : Z;
  svc_camera_entry : Z;
  svc_storage_entry : Z;
  svc_failing_entry : Z;
  svc_camera_call_display : Z;
  svc_display_call_storage : Z;
  svc_test_sysreg : Z;
  svc_test_kernel_mem : Z;
  svc_test_foreign_mem_a_to_b : Z;
  svc_test_foreign_mem_b_to_a : Z;
  svc_test_shared_write_a : Z;
  svc_test_shared_read_modify_b : Z;
  svc_test_shared_verify_a : Z;
  svc_minimal_return_entry : Z;
  svc_camera_cross_layer_call : Z;
  svc_camera_elevator_call : Z;
  svc_camera_invalid_cap_call : Z;
  task_counter_a : Z;
  task_counter_b : Z;
  task_counter_c : Z;
  task_posix_runner : Z;
  task_bench_syscall : Z
}.

Section main.
Context (pac_sign pac_auth : Z → Z → Z) (L : layout) (lettuce_exception_vectors : Z) (sym : el0_symbols)
  (registers : LettuceTrapFrame).

(** [SERVICE_CODE_VA + ((uintptr_t)sym - (uintptr_t)el0_service_code_start)] *)
Definition el0_service_va (s : Z) : Z := u64 (SERVICE_CODE_VA + u64 (s - ly_el0_service_code_start L)).

(** ** Boot *)

(** [pac.S]: load the key and set [SCTLR_EL1.EnIA]. *)
Definition lettuce_pac_init (h : hw_state) : hw_state :=
  let h := msr apiakeylo_el1 0x0123456789abcdef h in
  let h := msr apiakeyhi_el1 0xfedcba9876543210 h in
  msr sctlr_el1 (mrs sctlr_el1 h .| (1 .<< 31)) h.

Definition on_hw (f : hw_state → hw_state) (st : cpu_state) : cpu_state :=
  with_mmu (Mmu.with_hw (f (mmu_hw (cp_mmu st))) (cp_mmu st)) st.

Definition with_tables (caps : cap_state) (registry : list LettuceServiceRegistryEntry) (st : cpu_state) : cpu_state :=
  {| cp_vars := cp_vars st; cp_sched := cp_sched st; cp_caps := caps; cp_registry := registry;
     cp_timer := cp_timer st; cp_gic := cp_gic st; cp_fds := cp_fds st; cp_io := cp_io st |}.

Definition service (id layer domain : Z) : LettuceServiceDescriptor :=
  {| sd_id := id; sd_layer := layer; sd_domain := domain; sd_flags := LETTUCE_SERVICE_FLAG_ACTIVE |}.

(** The services, in the order of registration. *)
Definition boot_services : list LettuceServiceDescriptor :=
  [service SERVICE_CAMERA LETTUCE_LAYER_L3 DOMAIN_A;
   service SERVICE_DISPLAY LETTUCE_LAYER_L3 DOMAIN_B;
   service SERVICE_STORAGE LETTUCE_LAYER_L3 DOMAIN_C;
   service SERVICE_SENSOR LETTUCE_LAYER_L2 DOMAIN_C;
   service SERVICE_FAILING LETTUCE_LAYER_L3 DOMAIN_C].

(** The entry points, in the order of registration. *)
Definition boot_entries : list (Z * Z * Z) :=
  [(SERVICE_DISPLAY, OP_DRAW, el0_service_va (svc_display_entry sym));
   (SERVICE_STORAGE, OP_SAVE, el0_service_va (svc_storage_entry sym));
   (SERVICE_SENSOR, OP_SAVE, el0_service_va (svc_storage_entry sym));
   (SERVICE_FAILING, OP_FAIL, el0_service_va (svc_failing_entry sym))].

(** The results of the calls are ignored. *)
Fixpoint register_services (ds : list LettuceServiceDescriptor) (t : list LettuceServiceRegistryEntry)
    : option (list LettuceServiceRegistryEntry) :=
  match ds with
  | [] => Some t
  | d :: ds' => '(_, t) ← lettuce_service_registry_register d t; register_services ds' t
  end.

Fixpoint register_entries (es : list (Z * Z * Z)) (t : list LettuceServiceRegistryEntry)
    : option (list LettuceServiceRegistryEntry) :=
  match es with
  | [] => Some t
  | (s, o, f) :: es' => '(_, t) ← lettuce_dispatch_register s o f t; register_entries es' t
  end.

Definition line (s : string) : string := String.append s newline.

Definition banner (st : cpu_state) : cpu_state :=
  let rule := line "============================================================" in
  puts rule (puts (line "Lettuce ARM64 EL0 Service Execution Prototype") (puts rule st)).

(** The feature registers. *)
Definition print_probe (st : cpu_state) : option cpu_state :=
  let h := mmu_hw (cp_mmu st) in
  st ← print_hex (mrs id_aa64isar1_el1 h) (puts "  ID_AA64ISAR1_EL1: " (puts (line "CPU Feature Probe:") st));
  st ← print_hex (mrs id_aa64pfr1_el1 h) (puts "  ID_AA64PFR1_EL1:  " (puts newline st));
  st ← print_hex (mrs id_aa64mmfr3_el1 h) (puts "  ID_AA64MMFR3_EL1: " (puts newline st));
  Some (puts newline st).

(** The tables of services and capabilities. *)
Definition boot_tables (st : cpu_state) : option cpu_state :=
  '(_, registry) ← lettuce_service_registry_init (cp_registry st);
  caps ← lettuce_capability_init (cp_caps st);
  registry ← register_services boot_services registry;
  registry ← register_entries boot_entries registry;
  Some (with_tables caps registry st).

(** The processor and the address spaces. *)
Definition boot_cpu (st : cpu_state) : option cpu_state :=
  let st := on_hw (lettuce_arch_init lettuce_exception_vectors) (banner st) in
  m ← lettuce_mmu_init L (cp_mmu st);
  let st := puts (line "MMU initialized with EL0/EL1 permissions and 3 protection domains.") (with_mmu m st) in
  st ← print_probe st;
  Some (on_hw lettuce_pac_init st).

Definition boot (st : cpu_state) : option cpu_state := st ← boot_cpu st; boot_tables st.

(** ** Running a service in user mode *)

(** An exception taken from user code, with the registers at that moment; an interrupt
    comes with what the acknowledge register reads. *)
Inductive el0_exception :=
  | Synchronous (esr far : Z) (tf : LettuceTrapFrame)
  | Interrupt (iar : Z) (tf : LettuceTrapFrame).

Definition exception_frame (x : el0_exception) : LettuceTrapFrame :=
  match x with Synchronous _ _ tf | Interrupt _ tf => tf end.

Definition take_exception (x : el0_exception) (st : cpu_state) : option (trap_end * cpu_state) :=
  match x with
  | Synchronous esr far tf => lettuce_arch_sync_lower_el_handler pac_sign pac_auth esr far tf st
  | Interrupt iar tf => lettuce_arch_irq_lower_el_handler iar tf st
  end.

(** User code runs from one exception to the next: from the registers and the state it
    starts with to the exception it takes and the user memory it leaves.  It may also
    never take one ([None]). *)
Definition el0_code : Type := LettuceTrapFrame → cpu_state → option (el0_exception * gmap Z Z).

Definition with_memory (mem : gmap Z Z) (st : cpu_state) : cpu_state :=
  with_io {| io_mem := mem; io_console := io_console (cp_io st) |} st.

(** Until a handler calls [lettuce_el0_resume_kernel] with a status, at most [fuel]
    exceptions long. *)
Fixpoint el0_execution (user : el0_code) (fuel : nat) (tf : LettuceTrapFrame) (st : cpu_state)
    : option (Z * cpu_state) :=
  match fuel with
  | O => None
  | S fuel' =>
      '(x, mem) ← user tf st;
      '(e, st) ← take_exception x (with_memory mem st);
      match e with
      | ToUser tf' => el0_execution user fuel' tf' st
      | ToKernel status => Some (status, st)
      | Halted => None
      end
  end.

(** [entry.S]: execution starts at [entry_pc] on the stack [el0_sp] with [SPSR = EL0t] and
    the general registers as the kernel left them. *)
Definition lettuce_el0_enter (user : el0_code) (fuel : nat) (entry_pc el0_sp : Z) (st : cpu_state)
    : option (Z * cpu_state) :=
  el0_execution user fuel (set_return entry_pc 0 el0_sp registers) st.

Definition run_el0_service (user : el0_code) (fuel : nat) (s domain service : Z) (st : cpu_state)
    : option (Z * cpu_state) :=
  let st := with_identity service (cp_mmu st) st in
  let st := with_mmu (lettuce_mmu_enter domain (cp_mmu st)).2 st in
  let entry_pc := el0_service_va s in
  let stack_top := lettuce_arch_domain_stack_top domain in
  lettuce_el0_enter user fuel entry_pc stack_top st.

End main.
