(* ===== verification/Services.v ===== *)
(** * The user-mode services of [kernel/arch/arm64/entry.S]

    The instructions the bring-up services are written with, the services, and their
    execution up to the next exception or timer interrupt.  Fetches and data accesses are translated by the
    tables TTBR0 points to, so the exceptions of a service are what the address spaces
    of [Mmu.v] give it.  A data access without permission is a data abort with the
    syndrome of the level at which the translation stops. *)

From S2P Require Import Prelude Types Scheduler Mmu MmuSpec Timer Console Posix Cpu CpuSpec Main.

(** [ldr xt, =v]; [ldr xt, [xn]]; [str xt, [xn]]; [mov xd, #v]; [add xd, xn, #v];
    [cmp xn, xm]; [cmp xn, #v]; the branches go [k] instructions forward. *)
Inductive instr :=
  | LdrConst (t v : Z)
  | Ldr (t n : Z)
  | Str (t n : Z)
  | Mov (d v : Z)
  | AddImm (d n v : Z)
  | Cmp (n m : Z)
  | CmpImm (n v : Z)
  | B (k : Z)
  | BNe (k : Z)
  | Cbz (n k : Z)
  | Cbnz (n k : Z)
  | MrsSctlr (d : Z)
  | Svc (imm : Z).

(** Write a word to the page of the service and read it back. *)
Definition own_page_service (va word : Z) : list instr :=
  [LdrConst 1 va; LdrConst 2 word; Str 2 1; Ldr 3 1; Cmp 2 3; BNe 3; Mov 0 0; Svc 0; Mov 0 1; Svc 0].

(** Call a service with the capability at [cap] in the shared page, and check the
    status and the private page afterwards. *)
Definition calling_service (va word cap target op res gate : Z) : list instr :=
  [LdrConst 1 va; LdrConst 2 word; Str 2 1; LdrConst 4 cap; Ldr 3 4; Mov 0 target; Mov 1 op; Mov 2 res; Svc gate;
   Cbnz 0 8; LdrConst 1 va; LdrConst 2 word; Ldr 3 1; Cmp 2 3; BNe 3; Mov 0 0; Svc 0; Mov 0 1; Svc 0].

(** Read a word of another page. *)
Definition reading_service (va : Z) : list instr := [LdrConst 1 va; Ldr 0 1; Mov 0 0; Svc 0].

(** A scheduler task: read the private page and count in the shared page, for ever. *)
Definition counter_task (va counter : Z) : list instr :=
  [LdrConst 0 va; LdrConst 1 counter; Ldr 3 0; Ldr 2 1; AddImm 2 2 1; Str 2 1; B (-4)].

(** [write(1, buf, 10)], [getpid()], [clock_gettime(1, tp)]. *)
Definition posix_task : list instr :=
  [Mov 0 1; LdrConst 1 0x411c0020; Mov 2 10; Mov 8 1; Svc 5; CmpImm 0 10; BNe 11;
   Mov 8 4; Svc 5; Cbz 0 8; Mov 0 1; LdrConst 1 0x411c0040; Mov 8 5; Svc 5; Cbnz 0 3; Mov 0 0; Svc 0; Mov 0 1; Svc 0].

Definition syscall_task : list instr :=
  [Mov 8 4; Svc 5; Mov 0 1; LdrConst 1 0x411c0040; Mov 8 5; Svc 5; Mov 0 0; Svc 0].

Definition CAMERA_WORD : Z := 0x100a0001100a0001.
Definition DISPLAY_WORD : Z := 0x200b0001200b0001.
Definition STORAGE_WORD : Z := 0x300c0001300c0001.
Definition REQUEST_WORD : Z := 0xcafebabe00000001.
Definition RESPONSE_WORD : Z := 0xfeedface00000002.

(** The section [.service_text], in order. *)
Definition service_programs : list (list instr) :=
  [own_page_service 0x41100000 DISPLAY_WORD;
   own_page_service 0x41000000 CAMERA_WORD;
   own_page_service 0x41180000 STORAGE_WORD;
   [Mov 0 1; Svc 0];
   calling_service 0x41000000 CAMERA_WORD 0x411c0000 20 1 1 1;
   calling_service 0x41100000 DISPLAY_WORD 0x411c0008 30 1 2 1;
   [MrsSctlr 0; Mov 0 0; Svc 0];
   reading_service 0x40082000;
   reading_service 0x41100000;
   reading_service 0x41000000;
   [LdrConst 1 0x411c0000; LdrConst 2 REQUEST_WORD; Str 2 1; Mov 0 0; Svc 0];
   [LdrConst 1 0x411c0000; Ldr 0 1; LdrConst 2 REQUEST_WORD; Cmp 0 2; BNe 5; LdrConst 2 RESPONSE_WORD; Str 2 1; Mov 0 0;
    Svc 0; Mov 0 1; Svc 0];
   [LdrConst 1 0x411c0000; Ldr 0 1; LdrConst 2 RESPONSE_WORD; Cmp 0 2; BNe 3; Mov 0 0; Svc 0; Mov 0 1; Svc 0];
   [Mov 0 0; Svc 0];
   calling_service 0x41000000 CAMERA_WORD 0x411c0010 40 1 2 2;
   calling_service 0x41000000 CAMERA_WORD 0x411c0018 40 1 2 3;
   [Mov 0 20; Mov 1 1; Mov 2 1; LdrConst 3 0xdeadbeef; Svc 1; Svc 0];
   counter_task 0x41000000 0x411c0050;
   counter_task 0x41100000 0x411c0058;
   counter_task 0x41180000 0x411c0060;
   posix_task;
   syscall_task].

Definition service_text : list instr := concat service_programs.

(** The offset of the [i]-th service. *)
Definition service_offset (i : nat) : Z := 4 * Z.of_nat (length (concat (take i service_programs))).

Definition service_symbols (L : layout) : el0_symbols :=
  let at_ i := ly_el0_service_code_start L + service_offset i in
  {| svc_display_entry := at_ 0%nat; svc_camera_entry := at_ 1%nat; svc_storage_entry := at_ 2%nat;
     svc_failing_entry := at_ 3%nat; svc_camera_call_display := at_ 4%nat; svc_display_call_storage := at_ 5%nat;
     svc_test_sysreg := at_ 6%nat; svc_test_kernel_mem := at_ 7%nat; svc_test_foreign_mem_a_to_b := at_ 8%nat;
     svc_test_foreign_mem_b_to_a := at_ 9%nat; svc_test_shared_write_a := at_ 10%nat;
     svc_test_shared_read_modify_b := at_ 11%nat; svc_test_shared_verify_a := at_ 12%nat;
     svc_minimal_return_entry := at_ 13%nat; svc_camera_cross_layer_call := at_ 14%nat;
     svc_camera_elevator_call := at_ 15%nat; svc_camera_invalid_cap_call := at_ 16%nat;
     task_counter_a := at_ 17%nat; task_counter_b := at_ 18%nat; task_counter_c := at_ 19%nat;
     task_posix_runner := at_ 20%nat; task_bench_syscall := at_ 21%nat |}.

Section execution.
Context (L : layout).

(** ** Translation *)

Definition live_root (m : mmu_state) : Z := lettuce_mmu_active_ttbr0 m .& ADDR_MASK.

Definition user_access (m : mmu_state) (k : access) (va : Z) : option Z :=
  el0_access (tables_at L (mmu_tables m)) (live_root m) k va.

(** The level of the table that holds the descriptor the walk ends with. *)
Definition walk_level (m : mmu_state) (va : Z) : Z :=
  let ts := tables_at L (mmu_tables m) in
  let next (t : option (list Z)) (i : Z) : option Z :=
    d ← (t ← t; arr_get t (i .& 0x1ff)); if desc_valid d && desc_next d then Some (d .& ADDR_MASK) else None in
  match next (table_at ts (live_root m)) (va .>> 30) with
  | None => 1
  | Some t2 => match next (table_at ts t2) (va .>> 21) with None => 2 | Some _ => 3 end
  end.

(** The fault status code: [0b0001LL] for a translation, [0b0011LL] for a permission
    fault at level [LL]. *)
Definition fault_status (m : mmu_state) (va : Z) : Z :=
  match walk (tables_at L (mmu_tables m)) (live_root m) va with Some _ => 0xc | None => 0x4 end + walk_level m va.

Definition data_abort_esr (m : mmu_state) (k : access) (va : Z) : Z :=
  (0x24 .<< 26) .| (1 .<< 25) .| (match k with Write => 1 .<< 6 | _ => 0 end) .| fault_status m va.

Definition fetch_abort_esr (m : mmu_state) (va : Z) : Z := (0x20 .<< 26) .| (1 .<< 25) .| fault_status m va.

(** A trapped access to [SCTLR_EL1]. *)
Definition sysreg_esr : Z := (0x18 .<< 26) .| (1 .<< 25) .| (3 .<< 20) .| (1 .<< 10) .| 1.

(** ** One instruction *)

(** The condition flag Z of [PSTATE]. *)
Definition FLAG_Z : Z := 1 .<< 30.

Definition jump (k : Z) (tf : LettuceTrapFrame) : LettuceTrapFrame :=
  set_return (tf_elr tf + 4 * k) (tf_spsr tf) (tf_sp_el0 tf) tf.

Definition set_x (i v : Z) (tf : LettuceTrapFrame) : option LettuceTrapFrame :=
  x ← arr_set (tf_x tf) i v;
  Some {| tf_x := x; tf_lr := tf_lr tf; tf_elr := tf_elr tf; tf_spsr := tf_spsr tf; tf_sp_el0 := tf_sp_el0 tf |}.

Definition set_equal (b : bool) (tf : LettuceTrapFrame) : LettuceTrapFrame :=
  set_return (tf_elr tf) (if b then FLAG_Z else 0) (tf_sp_el0 tf) tf.

Inductive outcome :=
  | Goes (tf : LettuceTrapFrame) (mem : gmap Z Z)
  | Traps (x : el0_exception) (mem : gmap Z Z).

(** The program counter is [tf_elr]; the flags are in [tf_spsr]. *)
Definition exec_instr (m : mmu_state) (i : instr) (tf : LettuceTrapFrame) (mem : gmap Z Z) : option outcome :=
  let fault k va := Some (Traps (Synchronous (data_abort_esr m k va) va tf) mem) in
  match i with
  | LdrConst t v | Mov t v => tf ← set_x t v tf; Some (Goes (jump 1 tf) mem)
  | Ldr t n =>
      va ← arr_get (tf_x tf) n;
      match user_access m Read va with
      | None => fault Read va
      | Some _ => v ← load_le 8 va mem; tf ← set_x t v tf; Some (Goes (jump 1 tf) mem)
      end
  | Str t n =>
      va ← arr_get (tf_x tf) n; v ← arr_get (tf_x tf) t;
      match user_access m Write va with
      | None => fault Write va
      | Some _ => mem ← store_u64 va v mem; Some (Goes (jump 1 tf) mem)
      end
  | AddImm d n v => x ← arr_get (tf_x tf) n; tf ← set_x d (u64 (x + v)) tf; Some (Goes (jump 1 tf) mem)
  | Cmp n k => a ← arr_get (tf_x tf) n; b ← arr_get (tf_x tf) k; Some (Goes (jump 1 (set_equal (a =? b) tf)) mem)
  | CmpImm n v => a ← arr_get (tf_x tf) n; Some (Goes (jump 1 (set_equal (a =? v) tf)) mem)
  | B k => Some (Goes (jump k tf) mem)
  | BNe k => Some (Goes (jump (if Z.testbit (tf_spsr tf) 30 then 1 else k) tf) mem)
  | Cbz n k => v ← arr_get (tf_x tf) n; Some (Goes (jump (if v =? 0 then k else 1) tf) mem)
  | Cbnz n k => v ← arr_get (tf_x tf) n; Some (Goes (jump (if v =? 0 then 1 else k) tf) mem)
  | MrsSctlr _ => Some (Traps (Synchronous sysreg_esr 0 tf) mem)
  | Svc imm => Some (Traps (Synchronous (svc_esr imm) 0 (jump 1 tf)) mem)
  end.

Definition step (m : mmu_state) (tf : LettuceTrapFrame) (mem : gmap Z Z) : option outcome :=
  match user_access m Exec (tf_elr tf) with
  | None => Some (Traps (Synchronous (fetch_abort_esr m (tf_elr tf)) (tf_elr tf) tf) mem)
  | Some pa =>
      i ← arr_get service_text ((pa - ly_el0_service_code_start L) / 4);
      exec_instr m i tf mem
  end.

(** At most [fuel] instructions, up to the first exception. *)
Fixpoint run_user (fuel : nat) (m : mmu_state) (tf : LettuceTrapFrame) (mem : gmap Z Z) : option outcome :=
  match fuel with
  | O => Some (Goes tf mem)
  | S fuel' =>
      o ← step m tf mem;
      match o with
      | Goes tf mem => run_user fuel' m tf mem
      | Traps x mem => Some (Traps x mem)
      end
  end.

(** The services on a processor whose timer interrupts user code after [quantum]
    instructions without another exception. *)
Definition service_code (quantum : nat) : el0_code := λ tf st,
  o ← run_user quantum (cp_mmu st) tf (io_mem (cp_io st));
  Some (match o with Goes tf mem => (Interrupt GIC_INTID_VTIMER tf, mem) | Traps x mem => (x, mem) end).

End execution.
