(* ===== verification/MainSpec.v ===== *)
(** * What bring-up guarantees

    Booting establishes everything the other files assume of the kernel's state, and a
    run of user code comes back with the identity, the domain and the tables it was given,
    whatever exceptions it takes. *)

From Stdlib Require Import String.
From S2P Require Import Prelude Types Generation Context Capability CapabilitySpec Registry RegistrySpec Ipc.
From S2P Require Import Task Policy RoundRobin Eevdf Scheduler SchedulerSpec Mmu MmuSpec Timer Console Posix Cpu CpuSpec Main Services.

(** ** Steps that leave identity, domain and tables alone *)

Record mmu_quiet (m m' : mmu_state) : Prop := {
  mq_tables : mmu_tables m' = mmu_tables m;
  mq_domains : arch_domains m' = arch_domains m;
  mq_current : current_domain m' = current_domain m;
  mq_ttbr0 : lettuce_mmu_active_ttbr0 m' = lettuce_mmu_active_ttbr0 m;
  mq_el : Mmu.lettuce_arch_current_el (mmu_hw m') = Mmu.lettuce_arch_current_el (mmu_hw m)
}.

(** [sched_inv] is about the task table only. *)
Record tasks_ok (ts : task_state) : Prop := {
  to_inv : task_inv ts;
  to_running : ∀ i t, arr_get (g_task_table ts) i = Some t → tk_state t = LETTUCE_TASK_STATE_RUNNING → g_current_task ts = Some i;
  to_alive : ∀ c t, g_current_task ts = Some c → arr_get (g_task_table ts) c = Some t → task_is_active t = true
}.

Lemma sched_inv_tasks_ok (s : scheduler_state mmu_state) : sched_inv s ↔ tasks_ok (ss_tasks s).
Proof. split; intros []; by split. Qed.

(** Before [lettuce_scheduler_init]: nothing looks at the tasks. *)
Definition idle (s : scheduler_state mmu_state) : Prop :=
  g_scheduler_active s = false ∧ g_current_task (ss_tasks s) = None ∧
  Z.of_nat (length (g_task_table (ss_tasks s))) = LETTUCE_MAX_TASKS.

(** The tasks stay well-formed, if they are, and nothing is preempted. *)
Record sched_quiet (s s' : scheduler_state mmu_state) : Prop := {
  sq_tasks : tasks_ok (ss_tasks s) → tasks_ok (ss_tasks s');
  sq_idle : idle s → idle s';
  sq_active : g_scheduler_active s' = g_scheduler_active s;
  sq_preempts : g_preempt_count s' = g_preempt_count s;
  sq_limit : g_preempt_limit s' = g_preempt_limit s
}.

#[export] Instance sched_quiet_preorder : PreOrder sched_quiet.
Proof. split; [by intros s; split|]. intros a b c [] []. split; [auto|auto|congruence..]. Qed.

Record quiet (st st' : cpu_state) : Prop := {
  q_vars : cp_vars st' = cp_vars st;
  q_service : cp_service st' = cp_service st;
  q_caps : cp_caps st' = cp_caps st;
  q_registry : cp_registry st' = cp_registry st;
  q_sched : sched_quiet (cp_sched st) (cp_sched st');
  q_mmu : mmu_quiet (cp_mmu st) (cp_mmu st')
}.

#[export] Instance mmu_quiet_preorder : PreOrder mmu_quiet.
Proof. split; [by intros m; split|]. intros a b c [] []. split; congruence. Qed.

#[export] Instance quiet_preorder : PreOrder quiet.
Proof.
  split; [by intros st; split|]. intros a b c [? ? ? ? S1 M1] [? ? ? ? S2 M2]. split; try congruence; by etrans.
Qed.

Lemma q_active (st st' : cpu_state) : quiet st st' → g_scheduler_active (cp_sched st') = g_scheduler_active (cp_sched st).
Proof. intros [_ _ _ _ [] _]. done. Qed.

Lemma quiet_io (io : io_state) (st : cpu_state) : quiet st (with_io io st).
Proof. by split. Qed.

Lemma quiet_mmu (m : mmu_state) (st : cpu_state) : mmu_quiet (cp_mmu st) m → quiet st (with_mmu m st).
Proof. by split. Qed.

Lemma quiet_timer_gic (t : timer_state) (g : gic_log) (st : cpu_state) : quiet st (with_timer_gic t g st).
Proof. by split. Qed.

Lemma event_idle (e : sched_event) (s : scheduler_state mmu_state) :
  idle s → event_exec arch_enter e s = Some (Some (event_frame e), s).
Proof.
  intros (Ha & Hc & _). unfold event_exec, lettuce_scheduler_tick, lettuce_scheduler_yield, lettuce_scheduler_sleep_current,
    lettuce_task_current, do_schedule. rewrite Hc, Ha. by destruct e.
Qed.

Lemma event_keeps_idle (e : sched_event) (s s' : scheduler_state mmu_state) tf' :
  event_exec arch_enter e s = Some (tf', s') → idle s → idle s'.
Proof. intros Hx Hi. rewrite event_idle in Hx by done. by injection Hx as _ <-. Qed.

(** A change of the tasks and the scheduling policy only. *)
Lemma quiet_sched (m : sched_mem) (st : cpu_state) :
  (tasks_ok (ss_tasks (cp_sched st)) → tasks_ok (ss_tasks (with_mem m (cp_sched st)))) →
  (idle (cp_sched st) → idle (with_mem m (cp_sched st))) →
  quiet st (with_sched (with_mem m (cp_sched st)) st).
Proof. intros Hm Hi. by split. Qed.

(** A scheduling event keeps the tasks well-formed. *)
Lemma event_tasks_ok (e : sched_event) (s s' : scheduler_state mmu_state) tf' :
  frame_ok (event_frame e) → event_exec arch_enter e s = Some (tf', s') → tasks_ok (ss_tasks s) → tasks_ok (ss_tasks s').
Proof.
  intros Htf Hx Hok. apply sched_inv_tasks_ok in Hok.
  destruct (event_step arch_enter e s Hok Htf) as (tf1 & s1 & Hx1 & Hinv & _). rewrite Hx in Hx1. injection Hx1 as -> ->.
  by apply sched_inv_tasks_ok.
Qed.

Lemma quiet_faults (f : fault_state) (m : mmu_state) : mmu_quiet m (with_faults f m).
Proof. by split. Qed.

Lemma quiet_msr (r : sysreg) (v : Z) (m : mmu_state) :
  r ≠ CurrentEL → r ≠ ttbr0_el1 → r ≠ ttbr0_el2 → mmu_quiet m (Mmu.with_hw (msr r v (mmu_hw m)) m).
Proof.
  intros H1 H2 H3. split; try done; cbn.
  - change (lettuce_mmu_active_ttbr0 ?x) with (live_ttbr0 (mmu_hw x)). cbn. by apply live_ttbr0_msr.
  - by apply current_el_msr.
Qed.

Lemma print_hex_quiet (v : Z) (st st' : cpu_state) : print_hex v st = Some st' → quiet st st'.
Proof.
  unfold print_hex. destruct (lettuce_arch_console_print_hex v (cp_io st)) as [io|]; cbn; [|done].
  intros [= <-]. apply quiet_io.
Qed.

Lemma puts_quiet (s : string) (st st' : cpu_state) : quiet (puts s st) st' → quiet st st'.
Proof. intros H. etrans; [apply quiet_io|exact H]. Qed.

(** Invert the next print of a run. *)
Ltac quiet_print H :=
  match type of H with
  | (print_hex ?v ?s ≫= _) = Some _ =>
      let st1 := fresh "st" in let Hp := fresh "Hp" in
      destruct (print_hex v s) as [st1|] eqn:Hp; cbn [mbind option_bind] in H; [|discriminate H];
      apply print_hex_quiet in Hp; repeat (apply puts_quiet in Hp)
  end.

Lemma print_identity_quiet (st st' : cpu_state) : print_identity st = Some st' → quiet st st'.
Proof.
  unfold print_identity. intros H. do 2 quiet_print H. injection H as <-.
  etrans; [exact Hp|]. etrans; [exact Hp0|]. apply quiet_io.
Qed.

Lemma print_esr_elr_quiet (title : string) (esr elr : Z) (st st' : cpu_state) :
  print_esr_elr title esr elr st = Some st' → quiet st st'.
Proof.
  unfold print_esr_elr. intros H. quiet_print H. apply print_hex_quiet in H. apply puts_quiet in H. by etrans.
Qed.

Lemma handle_fault_quiet (esr far elr : Z) (m : mmu_state) : mmu_quiet m (lettuce_mmu_handle_fault esr far elr m).2.
Proof. unfold lettuce_mmu_handle_fault. case_match; apply quiet_faults. Qed.

Lemma sysreg_trap_quiet (esr elr : Z) (m : mmu_state) : mmu_quiet m (lettuce_arch_handle_sysreg_trap esr elr m).2.
Proof. unfold lettuce_arch_handle_sysreg_trap. case_match; apply quiet_faults. Qed.

(** A fault never goes back to user code. *)
Definition fault_end (code : Z) (e : trap_end) : Prop := e = Halted ∨ e = ToKernel code.

Lemma data_abort_quiet (esr far : Z) (tf : LettuceTrapFrame) (st st' : cpu_state) e :
  data_abort esr far tf st = Some (e, st') → quiet st st' ∧ fault_end (status_code LETTUCE_STATUS_ABORTED) e.
Proof.
  unfold data_abort. intros H. destruct (print_esr_elr _ _ _ st) as [s1|] eqn:H1; cbn [mbind option_bind] in H; [|done].
  apply print_esr_elr_quiet in H1. do 3 quiet_print H.
  destruct (print_identity _) as [s2|] eqn:H2 in H; cbn [mbind option_bind] in H; [|done].
  apply print_identity_quiet in H2. do 2 apply puts_quiet in H2.
  assert (quiet st s2) as Hq by (etrans; [exact H1|]; etrans; [exact Hp|]; etrans; [exact Hp0|]; etrans; [exact Hp1|exact H2]).
  pose proof (handle_fault_quiet esr far (tf_elr tf) (cp_mmu s2)) as Hm.
  destruct (lettuce_mmu_handle_fault _ _ _ _) as [[] m]; cbn in Hm; injection H as <- <-;
    (split; [etrans; [exact Hq|]; etrans; [by apply quiet_mmu|]; first [reflexivity|apply quiet_io]|by (left + right)]).
Qed.

Lemma sysreg_trap_end (esr : Z) (tf : LettuceTrapFrame) (st st' : cpu_state) e :
  sysreg_trap esr tf st = Some (e, st') → quiet st st' ∧ fault_end (status_code LETTUCE_STATUS_DENIED) e.
Proof.
  unfold sysreg_trap. intros H. destruct (print_esr_elr _ _ _ st) as [s1|] eqn:H1; cbn [mbind option_bind] in H; [|done].
  apply print_esr_elr_quiet in H1. quiet_print H.
  destruct (print_identity _) as [s2|] eqn:H2 in H; cbn [mbind option_bind] in H; [|done].
  apply print_identity_quiet in H2. apply puts_quiet in H2.
  assert (quiet st s2) as Hq by (etrans; [exact H1|]; etrans; [exact Hp|exact H2]).
  pose proof (sysreg_trap_quiet esr (tf_elr tf) (cp_mmu s2)) as Hm.
  destruct (lettuce_arch_handle_sysreg_trap _ _ _) as [[] m]; cbn in Hm; injection H as <- <-;
    (split; [etrans; [exact Hq|]; etrans; [by apply quiet_mmu|]; first [reflexivity|apply quiet_io]|by (left + right)]).
Qed.

Lemma instruction_abort_halts (esr far : Z) (tf : LettuceTrapFrame) (st st' : cpu_state) e :
  instruction_abort esr far tf st = Some (e, st') → e = Halted.
Proof.
  unfold instruction_abort. destruct (print_esr_elr _ _ _ st); cbn [mbind option_bind]; [|done].
  destruct (print_hex _ _); cbn [mbind option_bind]; [|done]. by intros [= <- _].
Qed.

(** ** With the scheduler stopped *)

Lemma do_schedule_stopped (now : Z) (tf : LettuceTrapFrame) (pre : bool) (s : scheduler_state mmu_state) :
  g_scheduler_active s = false → do_schedule arch_enter now (Some tf) pre s = Some (false, Some tf, s).
Proof. intros Ha. unfold do_schedule. by rewrite Ha. Qed.

(** A scheduling step updates the tasks and returns, or switches. *)
Lemma do_schedule_cases (now : Z) (tf : LettuceTrapFrame) (pre : bool) (s s' : scheduler_state mmu_state) hit tf' :
  do_schedule arch_enter now (Some tf) pre s = Some (hit, tf', s') →
  (hit = false ∧ tf' = Some tf ∧ (s' = s ∨ ∃ m, s' = with_mem m s)) ∨
  (g_scheduler_active s = true ∧ ∃ n curr tf1 m, tf' = Some tf1 ∧ switch_to arch_enter n curr pre tf m s = Some (hit, tf1, s')).
Proof.
  unfold do_schedule. destruct (g_scheduler_active s); cbn [negb]; [|intros [= <- <- <-]; auto].
  assert (∀ m, Some (false, Some tf, with_mem m s) = Some (hit, tf', s') →
    hit = false ∧ tf' = Some tf ∧ (s' = s ∨ ∃ m, s' = with_mem m s)) as Hkeep by (intros m [= <- <- <-]; eauto).
  destruct (wake_sleepers _ _ _) as [m1|]; cbn [mbind option_bind]; [|done].
  destruct (account_current _ _ _ _ _) as [[b m2]|]; cbn [mbind option_bind]; [|done].
  destruct b; [eauto|]. destruct (op_pick_next _ _ _) as [[[n|] m3]|]; cbn [mbind option_bind]; [| |done].
  - destruct (bool_decide _); [destruct (sm_update _ _ _); cbn; [eauto|done]|].
    destruct (switch_to _ _ _ _ _ _ _) as [[[h tf1] s1]|] eqn:Hs; cbn; [|done]. intros [= <- <- <-]. right. eauto 10.
  - destruct (lettuce_task_current _) as [c|]; [|eauto].
    destruct (arr_get _ c); cbn [mbind option_bind]; [|done]. destruct (state_is _ _); [|eauto].
    destruct (sm_update _ _ _); cbn; [eauto|done].
Qed.

(** Only a tick can hit the preemption limit. *)
Lemma voluntary_no_hit (now : Z) (tf : option LettuceTrapFrame) (s s' : scheduler_state mmu_state) hit tf' :
  do_schedule arch_enter now tf false s = Some (hit, tf', s') → hit = false.
Proof.
  destruct tf as [tf|]; [|by intros [= <- _ _]].
  intros [[? _]|(_ & n & curr & tf1 & m & _ & Hs)]%do_schedule_cases; [done|]. unfold switch_to in Hs. by run_inv Hs.
Qed.

Lemma sleep_no_hit (now ticks : Z) (tf : option LettuceTrapFrame) (s s' : scheduler_state mmu_state) hit tf' :
  lettuce_scheduler_sleep_current arch_enter now ticks tf s = Some (hit, tf', s') → hit = false.
Proof.
  unfold lettuce_scheduler_sleep_current. destruct (lettuce_task_current _) as [c|]; [|by intros [= <- _ _]].
  destruct (sm_update _ _ _) as [m|]; cbn [mbind option_bind]; [|done].
  destruct (op_on_task_sleep _ _ _) as [m'|]; cbn [mbind option_bind]; [|done]. apply voluntary_no_hit.
Qed.

Lemma nanosleep_cases (req now : Z) (tf : LettuceTrapFrame) h io (s s' : scheduler_state mmu_state) res hit tf' :
  lettuce_kernel_sys_nanosleep arch_enter req now (Some tf) h io s = Some (res, hit, tf', s') →
  hit = false ∧ ((s' = s ∧ tf' = Some tf) ∨ ∃ ticks, event_exec arch_enter (EvSleep now ticks tf) s = Some (tf', s')).
Proof.
  unfold lettuce_kernel_sys_nanosleep. destruct (req =? 0); [intros [= _ <- <- <-]; auto|].
  destruct (load_s64 (req + 8) (io_mem io)) as [ns|]; cbn [mbind option_bind]; [|done].
  destruct (_ || _); [intros [= _ <- <- <-]; auto|]. destruct (kernel_pointer true req); [intros [= _ <- <- <-]; auto|].
  destruct (load_s64 req (io_mem io)) as [sec|]; cbn [mbind option_bind]; [|done].
  destruct (lettuce_scheduler_sleep_current _ _ _ _ _) as [[[b x] y]|] eqn:Hx; cbn [mbind option_bind]; [|done].
  intros [= _ <- <- <-]. split; [by eapply sleep_no_hit|]. right. eexists. unfold event_exec. by rewrite Hx.
Qed.

Lemma yield_quiet (tf : LettuceTrapFrame) (st st' : cpu_state) e :
  frame_ok tf → g_scheduler_active (cp_sched st) = false → svc_yield tf st = Some (e, st') → quiet st st' ∧ e = ToUser tf.
Proof.
  intros Htf Ha. unfold svc_yield.
  pose proof (event_tasks_ok (EvYield (lettuce_timer_get_ticks (cp_timer st)) tf) (cp_sched st)) as Hev.
  pose proof (event_keeps_idle (EvYield (lettuce_timer_get_ticks (cp_timer st)) tf) (cp_sched st)) as Hid.
  unfold event_exec, lettuce_scheduler_yield in *. destruct (lettuce_task_current _) as [c|].
  - destruct (sm_update _ _ _) as [m|]; cbn [mbind option_bind] in *; [|done]. rewrite do_schedule_stopped in * by done.
    intros [= <- <-]. split; [|done]. apply quiet_sched; [by eapply Hev|by eapply Hid].
  - intros [= <- <-]. split; [by split|done].
Qed.

Lemma sleep_stopped (now ticks : Z) (tf : LettuceTrapFrame) (s s' : scheduler_state mmu_state) tf' :
  g_scheduler_active s = false → event_exec arch_enter (EvSleep now ticks tf) s = Some (tf', s') →
  tf' = Some tf ∧ (s' = s ∨ ∃ m, s' = with_mem m s).
Proof.
  intros Ha. unfold event_exec, lettuce_scheduler_sleep_current. destruct (lettuce_task_current _) as [c|].
  - destruct (sm_update _ _ _) as [m|]; cbn [mbind option_bind]; [|done].
    destruct (op_on_task_sleep _ _ _) as [m'|]; cbn [mbind option_bind]; [|done].
    rewrite do_schedule_stopped by done. intros [= <- <-]. split; [done|]. by right; exists m'.
  - intros [= <- <-]. split; [done|]. by left.
Qed.

Lemma syscall_quiet (tf : LettuceTrapFrame) (st st' : cpu_state) e :
  frame_ok tf → g_scheduler_active (cp_sched st) = false → svc_syscall tf st = Some (e, st') →
  quiet st st' ∧ ∃ tf', e = ToUser tf' ∧ frame_ok tf'.
Proof.
  intros Htf Ha Hs. destruct (frame_register tf 8 Htf ltac:(lia)) as [n Hn].
  destruct (decide (n = LETTUCE_SYS_NANOSLEEP)) as [->|Hne].
  - destruct (syscall_nanosleep tf st Htf Hn) as [x0 Heq]. rewrite Heq in Hs. clear Heq.
    destruct (lettuce_kernel_sys_nanosleep _ _ _ _ _ _ _) as [[[[res hit] tf1] s']|] eqn:Hr in Hs; cbn [mbind option_bind] in Hs; [|done].
    assert (hit = false ∧ tf1 = Some tf ∧ quiet st (with_sched s' st)) as (-> & -> & Hq).
    { destruct (nanosleep_cases _ _ _ _ _ _ _ _ _ _ Hr) as [-> [[-> ->]|(ticks & Hev)]]; [split_and!; [done..|by split]|]. split; [done|].
      pose proof (event_tasks_ok (EvSleep _ _ tf) _ _ _ Htf Hev) as Hok. pose proof (event_keeps_idle _ _ _ _ Hev) as Hid.
      destruct (sleep_stopped _ _ _ _ _ _ Ha Hev) as [-> [-> | [m ->]]].
      - split; [done|by split].
      - split; [done|by apply quiet_sched]. }
    cbn in Hs. destruct (set_x0 (u64 res) tf) as [tf'|] eqn:Hx; cbn in Hs; [|done]. injection Hs as <- <-.
    split; [done|]. eexists; split; [done|by eapply set_x0_ok].
  - destruct (syscall_io tf st n e st' Hn Hne Hs) as (io & v & tf' & -> & Hx & ->).
    split; [apply quiet_io|eexists; split; [done|by eapply set_x0_ok]].
Qed.

Lemma timer_quiet (st : cpu_state) : quiet st (handle_timer st).
Proof.
  unfold handle_timer, lettuce_timer_irq_handler, lettuce_timer_rearm. cbn [fst snd].
  match goal with |- context [with_timer_gic ?t ?g st] => transitivity (with_timer_gic t g st); [apply quiet_timer_gic|] end.
  apply quiet_mmu. cbn [g_timer_enabled g_timer_interval]. destruct (_ && _); [|by split].
  match goal with |- context [msr cntv_ctl_el0 1 (msr cntv_tval_el0 ?v ?h)] =>
    transitivity (Mmu.with_hw (msr cntv_tval_el0 v h) (cp_mmu st)); [by apply quiet_msr|] end.
  match goal with |- mmu_quiet ?m _ => by apply (quiet_msr cntv_ctl_el0 1 m) end.
Qed.

Lemma end_of_interrupt_quiet (intid : Z) (st : cpu_state) : quiet st (end_of_interrupt intid st).
Proof. unfold end_of_interrupt. case_match; [apply quiet_timer_gic|reflexivity]. Qed.

Lemma interrupt_quiet (iar : Z) (tf : LettuceTrapFrame) (st st' : cpu_state) e :
  g_scheduler_active (cp_sched st) = false → lettuce_arch_irq_lower_el_handler iar tf st = Some (e, st') →
  quiet st st' ∧ e = ToUser tf.
Proof.
  intros Ha. unfold lettuce_arch_irq_lower_el_handler, lettuce_scheduler_is_active.
  pose proof (timer_quiet st) as Ht. rewrite (q_active _ _ Ht), Ha. cbn [andb].
  destruct (_ =? GIC_INTID_VTIMER); cbn [mbind option_bind]; intros [= <- <-]; (split; [|done]);
    [etrans; [exact Ht|]|]; apply end_of_interrupt_quiet.
Qed.

(** ** A run of user code *)

Section execution.
Context (pac_sign pac_auth : Z → Z → Z) (L : layout) (registers : LettuceTrapFrame).

(** User code that was entered as service [svc] in domain [dom]: at any call depth, the
    identity at the bottom of the call stack is that, the tables are as in [st0], and no
    task was preempted. *)
Record entered (svc dom : Z) (st0 st : cpu_state) : Prop := {
  en_ok : calls_ok L st;
  en_caps : cp_caps st = cp_caps st0;
  en_registry : cp_registry st = cp_registry st0;
  en_sched : sched_quiet (cp_sched st0) (cp_sched st);
  en_known : ∀ i f, 0 ≤ i < depth st → arr_get (g_context_stack (cp_vars st)) i = Some f →
    mmu_known (cf_domain_id f) = true;
  en_root : if decide (depth st = 0) then cp_service st = svc ∧ current_domain (cp_mmu st) = dom
            else ∃ f, arr_get (g_context_stack (cp_vars st)) 0 = Some f ∧ cf_service_id f = svc ∧ cf_domain_id f = dom
}.

Lemma quiet_calls_ok (st st' : cpu_state) : quiet st st' → calls_ok L st → calls_ok L st'.
Proof.
  intros [Hv _ _ Hr _ [Ht Hd Hc H0 He]] [[[Hrt Hrd] (i & Hi & Hlive)] Hel Hs Hdom]. split.
  - split; [split; congruence|]. exists i. rewrite Hc, H0, Hd. done.
  - congruence.
  - by rewrite Hv.
  - by rewrite Hr.
Qed.

Lemma entered_quiet (svc dom : Z) (st0 st st' : cpu_state) :
  quiet st st' → entered svc dom st0 st → entered svc dom st0 st'.
Proof.
  intros Hq [Hok Hcaps Hreg Hstop Hk Hroot]. pose proof (quiet_calls_ok st st' Hq Hok).
  destruct Hq as [Hv Hs Hc Hr Ha [_ _ Hcur _ _]]. unfold depth in *. split; unfold depth; [done|congruence..|by etrans| |].
  - rewrite Hv. exact Hk.
  - rewrite Hv, Hs, Hcur. exact Hroot.
Qed.

Lemma current_known (st : cpu_state) : calls_ok L st → mmu_known (current_domain (cp_mmu st)) = true.
Proof.
  intros Hok. destruct (co_sync _ _ Hok) as [_ (i & Hi & _)].
  pose proof (mmu_known_index (current_domain (cp_mmu st))) as H. destruct (mmu_known _); [done|congruence].
Qed.

(** An accepted call pushes the current identity. *)
Lemma entered_call (svc dom : Z) (st0 st st' : cpu_state) (k : call_kind) (tf : LettuceTrapFrame) e :
  frame_ok tf → entered svc dom st0 st → svc_call pac_sign (kind_imm k) tf st = Some (e, st') →
  entered svc dom st0 st' ∧ ∃ tf', e = ToUser tf' ∧ frame_ok tf'.
Proof.
  intros Htf Hen Hx. pose proof Hen as [Hok Hcaps Hreg Hstop Hk Hroot]. pose proof (so_depth _ (co_stack _ _ Hok)) as Hd.
  destruct (svc_message_spec tf Htf) as (m & Hm & _).
  destruct (validate_call k m (kernel_view st)) as [[s o]|] eqn:Hv.
  2:{ unfold svc_call in Hx. rewrite Hm in Hx. cbn [mbind option_bind] in Hx. by rewrite (svc_call_validates k tf st m Hm), Hv in Hx. }
  destruct (svc_call_cases pac_sign k tf st m s o Hm Hv Htf (co_stack _ _ Hok)) as
    [(tf' & code & Heq & Hset & _)|[[-> ->]|(r & d & v & -> & -> & Hr & _ & Hp & Hlt & Heq)]].
  - rewrite Heq in Hx. injection Hx as <- <-. split; [done|eexists; split; [done|by eapply set_x0_ok]].
  - unfold svc_call in Hx. rewrite Hm in Hx. cbn [mbind option_bind] in Hx. by rewrite (svc_call_validates k tf st m Hm), Hv in Hx.
  - rewrite Heq in Hx. injection Hx as <- <-. split; [|by eexists].
    destruct (call_step pac_sign L k tf st m r d v Hok Hv (validate_target _ _ _ _ Hv) Hlt Hr Hp) as
      (Hok1 & _ & _ & Hd1 & _ & _ & Htop & Hlow).
    set (st1 := called k (res_target r) v st) in *. unfold depth in Hd. fold (depth st) in Hd. split; try done.
    + etrans; [exact Hstop|by split].
    + intros i f Hi Hf. destruct (decide (i = depth st)) as [-> | Hne].
      * rewrite Htop in Hf. injection Hf as <-. by apply current_known.
      * rewrite Hlow in Hf by lia. by apply (Hk i f ltac:(lia)).
    + rewrite decide_False by lia. destruct (decide (depth st = 0)) as [H0|Hne].
      * rewrite H0 in Htop. rewrite Htop. eexists. split; [done|]. exact Hroot.
      * rewrite Hlow by lia. exact Hroot.
Qed.

(** A return pops one identity; at the bottom it leaves for the kernel. *)
Lemma entered_return (svc dom : Z) (st0 st st' : cpu_state) (tf : LettuceTrapFrame) e :
  frame_ok tf → entered svc dom st0 st → svc_return pac_auth tf st = Some (e, st') →
  entered svc dom st0 st' ∧ match e with ToUser tf' => frame_ok tf' | _ => depth st' = 0 end.
Proof.
  intros Htf Hen Hx. pose proof Hen as [Hok Hcaps Hreg Hstop Hk Hroot]. pose proof (co_stack _ _ Hok) as [Hsz Hd].
  fold (depth st) in Hd. destruct (decide (depth st = 0)) as [H0|Hne].
  - unfold svc_return in Hx. destruct (frame_register tf 0 Htf ltac:(lia)) as [x0 Hx0]. rewrite Hx0 in Hx.
    cbn [mbind option_bind] in Hx. unfold depth in H0. rewrite H0 in Hx. cbn in Hx. injection Hx as <- <-. by split.
  - destruct (arr_get_is_Some (g_context_stack (cp_vars st)) (depth st - 1)) as [f Hf]; [unfold LETTUCE_ARCH_CONTEXT_MAX in *; lia|].
    destruct (return_step pac_auth L tf st f Hok Htf ltac:(lia) Hf (Hk (depth st - 1) f ltac:(lia) Hf)) as
      (tf' & st1 & Heq & Hok1 & Hxs & _ & _ & _ & _ & Hsv & Hdm & Hd1 & Hstk & _ & Hreg1).
    assert (cp_caps st1 = cp_caps st ∧ sched_quiet (cp_sched st) (cp_sched st1)) as [Hc1 Ha1].
    { clear -Heq. unfold svc_return in Heq. run_inv Heq; by split. }
    rewrite Heq in Hx. injection Hx as <- <-. split; [|unfold frame_ok; by rewrite Hxs]. split; try congruence.
    + by etrans.
    + intros i g Hi Hg. rewrite Hstk in Hg. by apply (Hk i g ltac:(lia)).
    + destruct (decide (depth st1 = 0)) as [Hz|Hnz].
      * replace (depth st - 1) with 0 in Hf by lia. destruct Hroot as (g & Hg & Hgs & Hgd). rewrite Hf in Hg.
        injection Hg as <-. by rewrite Hsv, Hdm.
      * by rewrite Hstk.
Qed.

(** Kernel code takes over again only at the bottom of the call stack or after a fault. *)
Definition comes_back (st : cpu_state) (status : Z) : Prop :=
  depth st = 0 ∨ status = status_code LETTUCE_STATUS_ABORTED ∨ status = status_code LETTUCE_STATUS_DENIED.

Definition goes_on (svc dom : Z) (st0 : cpu_state) (e : trap_end) (st' : cpu_state) : Prop :=
  match e with
  | ToUser tf => entered svc dom st0 st' ∧ frame_ok tf
  | ToKernel status => entered svc dom st0 st' ∧ comes_back st' status
  | Halted => True
  end.

Lemma goes_on_quiet (svc dom : Z) (st0 st st' : cpu_state) e :
  entered svc dom st0 st → quiet st st' → (∃ tf, e = ToUser tf ∧ frame_ok tf) → goes_on svc dom st0 e st'.
Proof. intros Hen Hq (tf & -> & Htf). split; [by eapply entered_quiet|done]. Qed.

Lemma goes_on_fault (svc dom code : Z) (st0 st st' : cpu_state) e :
  entered svc dom st0 st → quiet st st' → fault_end code e →
  code = status_code LETTUCE_STATUS_ABORTED ∨ code = status_code LETTUCE_STATUS_DENIED → goes_on svc dom st0 e st'.
Proof. intros Hen Hq [-> | ->] Hc; [done|]. split; [by eapply entered_quiet|by right]. Qed.

Lemma entered_stopped (svc dom : Z) (st0 st : cpu_state) :
  g_scheduler_active (cp_sched st0) = false → entered svc dom st0 st → g_scheduler_active (cp_sched st) = false.
Proof. intros H0 Hen. by rewrite (sq_active _ _ (en_sched _ _ _ _ Hen)). Qed.

Lemma svc_kind_imm (imm : Z) :
  (imm =? LETTUCE_SVC_CALL) || (imm =? LETTUCE_SVC_CROSS_LAYER) || (imm =? LETTUCE_SVC_ELEVATOR) = true →
  ∃ k, imm = kind_imm k.
Proof.
  rewrite !orb_true_iff, !Z.eqb_eq. intros [[->| ->]| ->]; [by exists SameLayer|by exists CrossLayer|by exists Elevator].
Qed.

(** Every supervisor call, by its immediate. *)
Lemma svc_goes_on (svc dom imm : Z) (st0 st st' : cpu_state) (tf : LettuceTrapFrame) e :
  g_scheduler_active (cp_sched st0) = false → frame_ok tf → entered svc dom st0 st →
  svc_handler pac_sign pac_auth imm tf st = Some (e, st') →
  goes_on svc dom st0 e st'.
Proof.
  intros Hst0 Htf Hen Hx. pose proof (entered_stopped _ _ _ _ Hst0 Hen) as Hstop. unfold svc_handler in Hx.
  destruct (imm =? LETTUCE_SVC_RETURN).
  { destruct (entered_return _ _ _ _ _ _ _ Htf Hen Hx) as [Hen' He].
    destruct e; [done|by split; [|left]|done]. }
  destruct (_ || _) eqn:Hcall.
  { destruct (svc_kind_imm _ Hcall) as [k ->].
    by destruct (entered_call _ _ _ _ _ k _ _ Htf Hen Hx) as (Hen' & tf' & -> & Hok'). }
  destruct (_ =? LETTUCE_SVC_YIELD); [destruct (yield_quiet _ _ _ _ Htf Hstop Hx) as [Hq ->]; eauto using goes_on_quiet|].
  destruct (_ =? LETTUCE_SVC_SYSCALL); [destruct (syscall_quiet _ _ _ _ Htf Hstop Hx) as [Hq ?]; eauto using goes_on_quiet|].
  destruct (print_hex _ _); cbn in Hx; [|done]. by injection Hx as <- <-.
Qed.

Lemma take_exception_goes_on (svc dom : Z) (st0 st st' : cpu_state) (x : el0_exception) e :
  g_scheduler_active (cp_sched st0) = false → frame_ok (exception_frame x) → entered svc dom st0 st → take_exception pac_sign pac_auth x st = Some (e, st') →
  goes_on svc dom st0 e st'.
Proof.
  intros Hst0 Htf Hen. destruct x as [esr far tf|iar tf]; cbn [take_exception exception_frame] in *.
  2:{ intros Hx. destruct (interrupt_quiet _ _ _ _ _ (entered_stopped _ _ _ _ Hst0 Hen) Hx) as [Hq ->]. eauto using goes_on_quiet. }
  unfold lettuce_arch_sync_lower_el_handler. destruct (_ =? 0x15); [by apply svc_goes_on|].
  destruct (_ || _); [intros [Hq He]%data_abort_quiet; eauto using goes_on_fault|].
  destruct (_ || _); [intros [Hq He]%sysreg_trap_end; eauto using goes_on_fault|].
  destruct (_ || _); [by intros ->%instruction_abort_halts|].
  destruct (print_hex _ _); cbn [mbind option_bind]; [|done]. by intros [= <- _].
Qed.

(** User code leaves 30 registers, as it finds them. *)
Definition code_ok (user : el0_code) : Prop :=
  ∀ tf st x mem, frame_ok tf → user tf st = Some (x, mem) → frame_ok (exception_frame x).

Lemma el0_execution_comes_back (user : el0_code) (fuel : nat) (svc dom : Z) (tf : LettuceTrapFrame)
    (st0 st st' : cpu_state) status :
  g_scheduler_active (cp_sched st0) = false → code_ok user → frame_ok tf → entered svc dom st0 st →
  el0_execution pac_sign pac_auth user fuel tf st = Some (status, st') → entered svc dom st0 st' ∧ comes_back st' status.
Proof.
  intros Hst0 Huser. revert tf st. induction fuel as [|fuel IH]; intros tf st Htf Hen; cbn [el0_execution]; [done|].
  destruct (user tf st) as [[x mem]|] eqn:Hx; cbn [mbind option_bind]; [|done].
  destruct (take_exception _ _ x _) as [[e st1]|] eqn:Heq; cbn [mbind option_bind]; [|done].
  pose proof (take_exception_goes_on _ _ _ _ _ _ _ Hst0 (Huser _ _ _ _ Htf Hx)
    (entered_quiet _ _ _ _ _ (quiet_io _ _) Hen) Heq) as Hg. destruct e; cbn in Hg; [by destruct Hg; apply IH| |done].
  by intros [= <- <-].
Qed.

(** C14: user code comes back as it was sent.  A run of a service, whatever the code does
    with its registers and memory, whatever exceptions it takes and however it calls other
    services on the way, changes no capability and no registration; when it comes back
    with the call stack empty, the kernel holds the identity and the domain the run was
    started with, and the hardware uses that domain's tables.  It comes back with a
    non-empty stack only after a fault that was expected, with the status of one. *)
Theorem el0_execution_returns_as_entered (user : el0_code) (fuel : nat) (s domain service status : Z)
    (st st' : cpu_state) :
  calls_ok L st → depth st = 0 → g_scheduler_active (cp_sched st) = false → frame_ok registers → code_ok user →
  run_el0_service pac_sign pac_auth L registers user fuel s domain service st = Some (status, st') →
  cp_caps st' = cp_caps st ∧ cp_registry st' = cp_registry st ∧ calls_ok L st' ∧
  (depth st' = 0 → cp_service st' = service ∧
     current_domain (cp_mmu st') = if mmu_known domain then domain else current_domain (cp_mmu st)) ∧
  (depth st' ≠ 0 → status = status_code LETTUCE_STATUS_ABORTED ∨ status = status_code LETTUCE_STATUS_DENIED).
Proof.
  intros Hok H0 Hstop Hregs Huser Hrun. destruct (mmu_enter_sync L domain (cp_mmu st) (co_sync _ _ Hok)) as [Hsync Hcur].
  set (dom := if mmu_known domain then domain else current_domain (cp_mmu st)) in *.
  unfold run_el0_service, lettuce_el0_enter in Hrun.
  apply (el0_execution_comes_back _ _ service dom _ st) in Hrun; [|done|done|exact Hregs|].
  - destruct Hrun as [[Hok' Hcaps Hreg _ _ Hroot] Hback]. split_and!; try done.
    + intros Hz. by rewrite Hz, decide_True in Hroot by done.
    + intros Hz. by destruct Hback.
  - split; try done.
    + split; try apply Hok; [exact Hsync|]. cbn. rewrite enter_el. apply Hok.
    + intros i f Hi. change (depth _) with (depth st) in Hi. lia.
    + change (depth _) with (depth st). by rewrite decide_True.
Qed.

(** What a run that starts on a non-empty stack returns to. *)
Lemma run_returns_to_the_top (domain service far : Z) (st : cpu_state) (tf : LettuceTrapFrame) f :
  calls_ok L st → 0 < depth st → arr_get (g_context_stack (cp_vars st)) (depth st - 1) = Some f →
  mmu_known (cf_domain_id f) = true → frame_ok tf →
  let st1 := with_mmu (lettuce_mmu_enter domain (cp_mmu st)).2 (with_identity service (cp_mmu st) st) in
  ∃ tf' st', take_exception pac_sign pac_auth (Synchronous (svc_esr LETTUCE_SVC_RETURN) far tf) st1 = Some (ToUser tf', st') ∧
    tf_elr tf' = (if g_pac_enabled (cp_vars st) then pac_auth (cf_elr f) (cf_service_id f) else cf_elr f) ∧
    cp_service st' = cf_service_id f ∧ current_domain (cp_mmu st') = cf_domain_id f.
Proof.
  intros Hok Hpos Hf Hk Htf st1. destruct (mmu_enter_sync L domain (cp_mmu st) (co_sync _ _ Hok)) as [Hsync _].
  assert (calls_ok L st1) as Hok1 by (split; try apply Hok; [exact Hsync|]; cbn; rewrite enter_el; apply Hok).
  destruct (return_step pac_auth L tf st1 f Hok1 Htf Hpos Hf Hk) as (tf' & st' & Heq & _ & _ & _ & He & _ & _ & Hs & Hd & _).
  exists tf', st'. split; [exact Heq|done].
Qed.

(** C13: a fault in a nested call leaves the callers behind.  After an expected fault the
    kernel is resumed with the call stack as it was; the next service that is run and
    returns does not reach the kernel: it resumes the caller of the service that
    faulted, under that caller's identity and in its domain. *)
Theorem fault_leaves_the_callers_behind (esr far far' domain service status : Z) (st st1 : cpu_state)
    (tf tf1 : LettuceTrapFrame) f :
  calls_ok L st → frame_ok tf1 → 0 < depth st →
  arr_get (g_context_stack (cp_vars st)) (depth st - 1) = Some f → mmu_known (cf_domain_id f) = true →
  data_abort esr far tf st = Some (ToKernel status, st1) →
  let started := with_mmu (lettuce_mmu_enter domain (cp_mmu st1)).2 (with_identity service (cp_mmu st1) st1) in
  ∃ tf' st', take_exception pac_sign pac_auth (Synchronous (svc_esr LETTUCE_SVC_RETURN) far' tf1) started =
      Some (ToUser tf', st') ∧
    tf_elr tf' = (if g_pac_enabled (cp_vars st) then pac_auth (cf_elr f) (cf_service_id f) else cf_elr f) ∧
    cp_service st' = cf_service_id f ∧ current_domain (cp_mmu st') = cf_domain_id f.
Proof.
  intros Hok Htf1 Hpos Hf Hk [Hq _]%data_abort_quiet. pose proof (q_vars _ _ Hq) as Hv.
  unfold depth in *. rewrite <- Hv in Hpos, Hf |- *.
  apply run_returns_to_the_top; [by eapply quiet_calls_ok|done..].
Qed.

End execution.

(** ** A concrete run

    The scheduler is stopped; service 10 calls service 20, which returns, and returns
    itself. *)

(** A run whose outcome is [a], from a computation of the outcome alone. *)
Lemma outcome_Some {A B : Type} (o : option (A * B)) (a : A) : fst <$> o = Some a → ∃ b, o = Some (a, b).
Proof. destruct o as [[a' b]|]; cbn; [intros [= ->]; by exists b|done]. Qed.

Lemma outcome_view {A B C : Type} (f : B → C) (o : option (A * B)) (a : A) (b : B) (c : C) :
  o = Some (a, b) → (f ∘ snd) <$> o = Some c → f b = c.
Proof. intros ->. cbn. by intros [= ->]. Qed.

Definition main_demo : cpu_state :=
  cpu_with 10 demo_ready (cpu_demo_off demo_ready) ipc_demo_caps ipc_demo_registry.

Lemma main_demo_calls_ok : calls_ok demo_layout main_demo.
Proof. apply cpu_with_calls_ok. Qed.

(** Code at the entry point of service 20, after the call, and at the start. *)
Definition main_code : el0_code := λ tf st,
  let event := if tf_elr tf =? 4096 then Synchronous (svc_esr LETTUCE_SVC_RETURN) 0 (frame_of 0)
               else if tf_elr tf =? tf_elr call_frame then Synchronous (svc_esr LETTUCE_SVC_RETURN) 0 (frame_of 0)
               else Synchronous (svc_esr LETTUCE_SVC_CALL) 0 call_frame in
  Some (event, io_mem (cp_io st)).

Lemma main_code_ok : code_ok main_code.
Proof. unfold code_ok, main_code. intros tf st x mem _ [= <- <-]. repeat case_match; reflexivity. Qed.

#[local] Abbreviation main_run :=
  (run_el0_service demo_sign demo_sign demo_layout (frame_of 0) main_code 8 0x40112000 100 10 main_demo).

Lemma el0_execution_returns_as_entered_witness :
  ∃ st', main_run = Some (0, st') ∧ depth st' = 0 ∧ cp_service st' = 10 ∧ current_domain (cp_mmu st') = 100.
Proof.
  destruct (outcome_Some main_run 0) as [st' Hx]; [vm_compute; reflexivity|].
  assert (depth st' = 0) as Hd by (apply (outcome_view depth _ _ _ _ Hx); vm_compute; reflexivity).
  destruct (el0_execution_returns_as_entered demo_sign demo_sign demo_layout (frame_of 0) main_code 8 0x40112000 100 10 0
    main_demo st') as (_ & _ & _ & Hs & _).
  - exact main_demo_calls_ok.
  - reflexivity.
  - reflexivity.
  - reflexivity.
  - exact main_code_ok.
  - exact Hx.
  - exists st'. split; [exact Hx|]. split; [exact Hd|]. exact (Hs Hd).
Defined.

(** Service 10 calls service 20, which faults as the test expects. *)
Definition main_armed : cpu_state := with_mmu (lettuce_mmu_expect_data_abort (cp_mmu main_demo)) main_demo.

Lemma main_armed_entered : entered demo_layout 10 100 main_armed main_armed.
Proof.
  assert (calls_ok demo_layout main_armed) as Hok
    by (eapply quiet_calls_ok; [apply quiet_mmu, quiet_faults|exact main_demo_calls_ok]).
  split; [exact Hok|reflexivity..| |].
  - change (depth main_armed) with 0. intros i f Hi. lia.
  - change (depth main_armed) with 0. rewrite decide_True by done. split; [reflexivity|vm_compute; reflexivity].
Qed.

Definition call_20 : el0_exception := Synchronous (svc_esr LETTUCE_SVC_CALL) 0 call_frame.

Definition frame_20 : LettuceTrapFrame :=
  set_return 4096 0 (lettuce_arch_domain_stack_top 200) call_frame.

Lemma fault_leaves_the_callers_behind_witness :
  ∃ st1 st2 tf' st', take_exception demo_sign demo_sign call_20 main_armed = Some (ToUser frame_20, st1) ∧
    data_abort 0x92000007 0x41080000 (frame_of 0) st1 = Some (ToKernel (status_code LETTUCE_STATUS_ABORTED), st2) ∧
    take_exception demo_sign demo_sign (Synchronous (svc_esr LETTUCE_SVC_RETURN) 0 (frame_of 0))
      (with_mmu (lettuce_mmu_enter 300 (cp_mmu st2)).2 (with_identity 30 (cp_mmu st2) st2)) = Some (ToUser tf', st') ∧
    cp_service st' = 10 ∧ current_domain (cp_mmu st') = 100.
Proof.
  destruct (outcome_Some (take_exception demo_sign demo_sign call_20 main_armed) (ToUser frame_20)) as [st1 Hx];
    [vm_compute; reflexivity|].
  pose proof (take_exception_goes_on _ _ _ _ _ _ _ _ call_20 _ (eq_refl : g_scheduler_active (cp_sched main_armed) = false) eq_refl main_armed_entered Hx) as Hen. cbn [goes_on] in Hen. destruct Hen as [Hen _].
  assert (depth st1 = 1) as Hd by (apply (outcome_view depth _ _ _ _ Hx); vm_compute; reflexivity).
  destruct (outcome_Some (data_abort 0x92000007 0x41080000 (frame_of 0) st1) (ToKernel (status_code LETTUCE_STATUS_ABORTED)))
    as [st2 Hf]; [apply (outcome_view (λ st, fst <$> data_abort _ _ _ st) _ _ _ _ Hx); vm_compute; reflexivity|].
  pose (view st := (λ f, (cf_service_id f, cf_domain_id f)) <$> arr_get (g_context_stack (cp_vars st)) 0).
  assert (view st1 = Some (10, 100)) as Hg by (apply (outcome_view view _ _ _ _ Hx); vm_compute; reflexivity).
  unfold view in Hg. destruct (arr_get (g_context_stack (cp_vars st1)) 0) as [f|] eqn:Hg'; [|discriminate Hg].
  cbn in Hg. injection Hg as Hs Hdm.
  destruct (fault_leaves_the_callers_behind demo_sign demo_sign demo_layout 0x92000007 0x41080000 0 300 30
    (status_code LETTUCE_STATUS_ABORTED) st1 st2 (frame_of 0) (frame_of 0) f) as (tf' & st' & Hr & _ & H1 & H2).
  - apply Hen.
  - reflexivity.
  - rewrite Hd. lia.
  - rewrite Hd. exact Hg'.
  - rewrite Hdm. reflexivity.
  - exact Hf.
  - exists st1, st2, tf', st'. split; [exact Hx|]. split; [exact Hf|]. split; [exact Hr|]. split; congruence.
Defined.

(** ** Boot *)

(** The memory the boot code finds: every static table has its size and the program's
    initialiser, and the kernel does not run at EL2. *)
Record boot_memory (L : layout) (st : cpu_state) : Prop := {
  bm_mmu : mmu_boot L (cp_mmu st);
  bm_el : Mmu.lettuce_arch_current_el (mmu_hw (cp_mmu st)) ≠ 2;
  bm_caps : Z.of_nat (length (capability_table (cp_caps st))) = LETTUCE_CAPABILITY_TABLE_SIZE;
  bm_slots : Z.of_nat (length (free_slots (cp_caps st))) = LETTUCE_CAPABILITY_TABLE_SIZE;
  bm_registry : cp_registry st = registry_boot;
  bm_stack : stack_ok (cp_vars st);
  bm_service : is_u32 (cp_service st)
}.

(** A symbol of user code lies on the page the linker gives it. *)
Definition in_code_page (L : layout) (s : Z) : Prop :=
  ly_el0_service_code_start L ≤ s < ly_el0_service_code_start L + 4096.

Lemma service_va_spec (L : layout) (s : Z) :
  in_code_page L s → el0_service_va L s = SERVICE_CODE_VA + (s - ly_el0_service_code_start L).
Proof.
  unfold in_code_page, el0_service_va, SERVICE_CODE_VA, u64. intros Hs.
  rewrite (Z.mod_small (s - _)) by lia. by rewrite Z.mod_small by lia.
Qed.

(** The entry points are executable in every domain. *)
Lemma service_va_reaches (L : layout) (m : mmu_state) (i : fin 3) (s : Z) :
  layout_ok L → mmu_ready L m → in_code_page L s → reaches L m i Exec (el0_service_va L s) s.
Proof.
  intros Hlo Hr Hs. rewrite (reaches_exact L) by done.
  exists (code_page SERVICE_CODE_VA (ly_el0_service_code_start L)). rewrite service_va_spec by done.
  assert ((SERVICE_CODE_VA + (s - ly_el0_service_code_start L)) mod 4096 = s - ly_el0_service_code_start L) as Hm.
  { unfold in_code_page, SERVICE_CODE_VA in *. Z.to_euclidean_division_equations. lia. }
  rewrite Hm. split_and!; [|done|cbn; lia..]. unfold domain_pages, common_pages. case_match; [|case_match]; set_solver.
Qed.

Lemma mmu_init_el (L : layout) (m m' : mmu_state) :
  lettuce_mmu_init L m = Some m' →
  Mmu.lettuce_arch_current_el (mmu_hw m') = Mmu.lettuce_arch_current_el (mmu_hw m).
Proof.
  unfold lettuce_mmu_init. destruct (init_tables _ _); cbn [mbind option_bind]; [|done].
  destruct (zero_pages _); cbn [mbind option_bind]; [|done]. intros Heq. apply (inj Some) in Heq as <-.
  unfold lettuce_mmu_set_current_domain, lettuce_mmu_invalidate_all. cbn [mmu_hw Mmu.with_hw].
  repeat case_match; by rewrite ?current_el_msr, ?write_ttbr_el, ?current_el_tlbi, ?current_el_msr.
Qed.

Lemma mmu_init_sync (L : layout) (m : mmu_state) :
  mmu_boot L m → ∃ m', lettuce_mmu_init L m = Some m' ∧ mmu_sync L m' ∧ current_domain m' = DOMAIN_A ∧
    Mmu.lettuce_arch_current_el (mmu_hw m') = Mmu.lettuce_arch_current_el (mmu_hw m).
Proof.
  intros Hb. destruct (mmu_init_spec L m Hb) as (m' & Hi & Hr & Hc & Ht & _). exists m'.
  split_and!; [done| |done|by eapply mmu_init_el]. split; [done|]. exists 0%fin. rewrite Hc. split; [done|].
  by rewrite (domain_ttbr0 L) by done.
Qed.

(** A step that only writes registers that control neither the exception level nor the
    translation. *)
Lemma on_hw_quiet (f : hw_state → hw_state) (st : cpu_state) :
  (∀ m, mmu_quiet m (Mmu.with_hw (f (mmu_hw m)) m)) → quiet st (on_hw f st).
Proof. intros Hf. apply quiet_mmu, Hf. Qed.

Lemma arch_init_quiet (vectors : Z) (m : mmu_state) : mmu_quiet m (Mmu.with_hw (lettuce_arch_init vectors (mmu_hw m)) m).
Proof. unfold lettuce_arch_init. repeat case_match; by (apply quiet_msr || split). Qed.

Lemma quiet_msr_after (r : sysreg) (v : Z) (h : hw_state) (m : mmu_state) :
  r ≠ CurrentEL → r ≠ ttbr0_el1 → r ≠ ttbr0_el2 → mmu_quiet m (Mmu.with_hw h m) → mmu_quiet m (Mmu.with_hw (msr r v h) m).
Proof. intros H1 H2 H3 Hq. etrans; [exact Hq|]. by apply (quiet_msr r v (Mmu.with_hw h m)). Qed.

Lemma pac_init_quiet (m : mmu_state) : mmu_quiet m (Mmu.with_hw (lettuce_pac_init (mmu_hw m)) m).
Proof.
  unfold lettuce_pac_init. do 3 (apply quiet_msr_after; [done..|]). by split.
Qed.

Lemma print_hex_total (v : Z) (st : cpu_state) : ∃ st', print_hex v st = Some st' ∧ quiet st st'.
Proof.
  destruct (print_hex_prints v (cp_io st)) as (io & Hio & _). unfold print_hex. rewrite Hio. cbn.
  eexists. split; [done|apply quiet_io].
Qed.

Lemma banner_quiet (st : cpu_state) : quiet st (banner st).
Proof. unfold banner. by do 3 (etrans; [|apply quiet_io]). Qed.

Lemma print_probe_total (st : cpu_state) : ∃ st', print_probe st = Some st' ∧ quiet st st'.
Proof.
  unfold print_probe. set (h := mmu_hw (cp_mmu st)).
  destruct (print_hex_total (mrs id_aa64isar1_el1 h) (puts "  ID_AA64ISAR1_EL1: " (puts (line "CPU Feature Probe:") st)))
    as (s1 & -> & Q1). do 2 apply puts_quiet in Q1. cbn [mbind option_bind].
  destruct (print_hex_total (mrs id_aa64pfr1_el1 h) (puts "  ID_AA64PFR1_EL1:  " (puts newline s1))) as (s2 & -> & Q2).
  do 2 apply puts_quiet in Q2. cbn [mbind option_bind].
  destruct (print_hex_total (mrs id_aa64mmfr3_el1 h) (puts "  ID_AA64MMFR3_EL1: " (puts newline s2))) as (s3 & -> & Q3).
  do 2 apply puts_quiet in Q3. cbn [mbind option_bind]. eexists. split; [done|].
  etrans; [exact Q1|]. etrans; [exact Q2|]. etrans; [exact Q3|]. apply quiet_io.
Qed.

(** *** The registry after boot *)

Definition areg_services (ds : list LettuceServiceDescriptor) : gmap Z LettuceServiceDescriptor :=
  list_to_map ((λ d, (sd_id d, d)) <$> ds).

Definition areg_entries (es : list (Z * Z * Z)) : gmap (Z * Z) Z :=
  list_to_map es.

Lemma register_services_spec (ds : list LettuceServiceDescriptor) (t : list LettuceServiceRegistryEntry) (a : areg) :
  reg_refines t a → Forall (λ d, 0 < sd_id d < 256 ∧ sd_layer d ≤ 4 ∧ services a !! sd_id d = None) ds →
  NoDup (sd_id <$> ds) →
  ∃ t', register_services ds t = Some t' ∧
    reg_refines t' {| services := areg_services ds ∪ services a; entry_points := entry_points a |}.
Proof.
  intros Href Hds Hnd. revert t a Href Hds. induction ds as [|d ds IH]; intros t a Href Hds; cbn [register_services].
  { exists t. split; [done|]. unfold areg_services. cbn. rewrite (left_id_L ∅ (∪)). by destruct a. }
  apply Forall_cons in Hds as [(Hid & Hl & Hnone) Hds]. cbn in Hnd. apply NoDup_cons in Hnd as [Hni Hnd].
  destruct (refine_reg_exec (RegisterCall d) t a Href) as (t1 & Hx & Href1); [cbn; unfold is_u32; lia|].
  cbn [areg_exec] in Hx, Href1. rewrite decide_True in Hx, Href1 by done. cbn [snd fst reg_exec] in Hx, Href1.
  destruct (lettuce_service_registry_register d t) as [[b t2]|]; [|done]. cbn in Hx |- *. injection Hx as -> ->.
  destruct (IH Hnd t1 _ Href1) as (t' & -> & Href').
  { rewrite Forall_forall in Hds |- *. intros x Hx. destruct (Hds x Hx) as (? & ? & ?). cbn. split_and!; try done; [lia..|].
    rewrite lookup_insert_ne; [done|]. intros Heq. apply Hni. rewrite Heq. by apply list_elem_of_fmap_2. }
  exists t'. split; [done|]. cbn in Href'. unfold areg_services in *. cbn.
  rewrite <- insert_union_l, insert_union_r; [done|]. apply not_elem_of_list_to_map_1.
  rewrite <- list_fmap_compose. exact Hni.
Qed.

Lemma register_entries_spec (es : list (Z * Z * Z)) (t : list LettuceServiceRegistryEntry) (a : areg) :
  reg_refines t a →
  Forall (λ e, (∃ d, services a !! e.1.1 = Some d ∧ flag_active (sd_flags d) = true) ∧ is_u32 e.1.1 ∧ 0 < e.1.2 < 64 ∧
    e.2 ≠ 0 ∧ entry_points a !! e.1 = None) es →
  NoDup es.*1 →
  ∃ t', register_entries es t = Some t' ∧
    reg_refines t' {| services := services a; entry_points := areg_entries es ∪ entry_points a |}.
Proof.
  intros Href Hes Hnd. revert t a Href Hes. induction es as [|[[s o] f] es IH]; intros t a Href Hes; cbn [register_entries].
  { exists t. split; [done|]. unfold areg_entries. cbn. rewrite (left_id_L ∅ (∪)). by destruct a. }
  apply Forall_cons in Hes as [((d & Hd & Hact) & Hs & Ho & Hf & Hnone) Hes]. cbn in *. apply NoDup_cons in Hnd as [Hni Hnd].
  destruct (refine_reg_exec (DispatchRegisterCall s o f) t a Href) as (t1 & Hx & Href1); [split; [done|unfold is_u32; lia]|].
  cbn [areg_exec] in Hx, Href1. rewrite Hd, decide_True in Hx, Href1 by done. cbn [snd fst reg_exec] in Hx, Href1.
  destruct (lettuce_dispatch_register s o f t) as [[b t2]|]; [|done]. cbn in Hx |- *. injection Hx as -> ->.
  destruct (IH Hnd t1 _ Href1) as (t' & -> & Href').
  { rewrite Forall_forall in Hes |- *. intros x Hx. destruct (Hes x Hx) as (? & ? & ? & ? & ?). cbn. split_and!; try done; try lia.
    rewrite lookup_insert_ne; [done|]. intros Heq. apply Hni. rewrite Heq. by apply list_elem_of_fmap_2. }
  exists t'. split; [done|]. cbn in Href'. unfold areg_entries in *. cbn.
  rewrite <- insert_union_l, insert_union_r; [done|]. by apply not_elem_of_list_to_map_1.
Qed.

Definition boot_registry (L : layout) (sym : el0_symbols) : areg :=
  {| services := areg_services boot_services; entry_points := areg_entries (boot_entries L sym) |}.

Definition symbols_ok (L : layout) (sym : el0_symbols) : Prop :=
  in_code_page L (svc_display_entry sym) ∧ in_code_page L (svc_storage_entry sym) ∧ in_code_page L (svc_failing_entry sym).

Lemma boot_services_known (i : Z) (d : LettuceServiceDescriptor) :
  areg_services boot_services !! i = Some d → mmu_known (sd_domain d) = true ∧ sd_id d = i.
Proof.
  intros Hd%elem_of_list_to_map_2. unfold boot_services in Hd. cbn in Hd.
  repeat (apply elem_of_cons in Hd as [[= -> ->]|Hd]; [done|]). by apply elem_of_nil in Hd.
Qed.

Lemma boot_registry_spec (L : layout) (sym : el0_symbols) (t : list LettuceServiceRegistryEntry) :
  t = registry_boot → symbols_ok L sym →
  ∃ t0 t1 t2, lettuce_service_registry_init t = Some (true, t0) ∧ register_services boot_services t0 = Some t1 ∧
    register_entries (boot_entries L sym) t1 = Some t2 ∧ reg_refines t2 (boot_registry L sym).
Proof.
  intros -> (Hs1 & Hs2 & Hs3).
  destruct (register_services_spec boot_services registry_boot areg_empty) as (t1 & H1 & R1).
  { apply registry_boot_refines. }
  { apply (bool_decide_unpack _). vm_compute. exact I. }
  { apply (bool_decide_unpack _). vm_compute. exact I. }
  destruct (register_entries_spec (boot_entries L sym) t1 _ R1) as (t2 & H2 & R2).
  - assert (∀ s, in_code_page L s → el0_service_va L s ≠ 0) as Hnz
      by (intros s Hs; rewrite service_va_spec by done; unfold in_code_page, SERVICE_CODE_VA in *; lia).
    unfold boot_entries.
    repeat (apply Forall_cons_2 || apply Forall_nil_2);
      (split_and!; [by eexists|vm_compute; by split|reflexivity|reflexivity|by apply Hnz|reflexivity]).
  - cbn. apply (bool_decide_unpack _). vm_compute. exact I.
  - exists registry_boot, t1, t2. split_and!; [apply registry_init_spec, registry_boot_inv|done|done|].
    cbn in R2. by rewrite !(right_id_L ∅ (∪)) in R2.
Qed.

Lemma with_tables_calls_ok (L : layout) (st : cpu_state) caps registry (a : areg) :
  mmu_sync L (cp_mmu st) → Mmu.lettuce_arch_current_el (mmu_hw (cp_mmu st)) ≠ 2 → stack_ok (cp_vars st) →
  reg_refines registry a → (∀ i d, services a !! i = Some d → mmu_known (sd_domain d) = true) →
  calls_ok L (with_tables caps registry st).
Proof.
  intros Hsync Hel Hstk Href Hk. split; try done. cbn [cp_registry with_tables]. intros i d Hl. apply (Hk i).
  unfold lettuce_service_registry_lookup in Hl. destruct (_ || _) eqn:Hi; [done|]. b2p.
  destruct (arr_get registry i) as [x|] eqn:Hx; [|done]. cbn in Hl.
  destruct (Z.eqb_spec (sd_id (re_descriptor x)) i) as [Hid|]; [|done]. injection Hl as <-.
  apply (rr_services _ _ Href). eauto.
Qed.

(** What boot leaves alone besides the MMU. *)
Record same_rest (st st' : cpu_state) : Prop := {
  sr_vars : cp_vars st' = cp_vars st;
  sr_service : cp_service st' = cp_service st;
  sr_caps : cp_caps st' = cp_caps st;
  sr_registry : cp_registry st' = cp_registry st
}.

#[export] Instance same_rest_preorder : PreOrder same_rest.
Proof. split; [by intros st; split|]. intros a b c [] []. split; congruence. Qed.

Lemma quiet_rest (st st' : cpu_state) : quiet st st' → same_rest st st'.
Proof. by intros []. Qed.

Lemma with_mmu_rest (m : mmu_state) (st : cpu_state) : same_rest st (with_mmu m st) ∧ cp_mmu (with_mmu m st) = m.
Proof. by split. Qed.

Lemma quiet_sync (L : layout) (m m' : mmu_state) : mmu_quiet m m' → mmu_sync L m → mmu_sync L m'.
Proof.
  intros [Ht Hd Hc H0 _] [[Hr1 Hr2] (i & Hi1 & Hi2)]. split; [split; congruence|]. exists i. by rewrite Hc, H0, Hd.
Qed.

(** Up to pointer authentication. *)
Lemma boot_hardware (L : layout) (vectors : Z) (st : cpu_state) :
  boot_memory L st →
  let st0 := on_hw (lettuce_arch_init vectors) (banner st) in
  ∃ m, lettuce_mmu_init L (cp_mmu st0) = Some m ∧
  ∀ text, ∃ st2, print_probe (puts text (with_mmu m st0)) = Some st2 ∧
  let st3 := on_hw lettuce_pac_init st2 in
  same_rest st st3 ∧ mmu_sync L (cp_mmu st3) ∧ current_domain (cp_mmu st3) = DOMAIN_A ∧
  Mmu.lettuce_arch_current_el (mmu_hw (cp_mmu st3)) ≠ 2.
Proof.
  intros [Hb Hel _ _ _ _ _] st0.
  assert (quiet st st0) as Q0 by (etrans; [apply banner_quiet|apply on_hw_quiet, arch_init_quiet]).
  assert (mmu_boot L (cp_mmu st0)) as Hb0 by (destruct Hb; by split).
  destruct (mmu_init_sync L (cp_mmu st0) Hb0) as (m & Hi & Hsync & Hdom & Hel'). exists m. split; [done|]. intros text.
  destruct (print_probe_total (puts text (with_mmu m st0))) as (st2 & Hst2 & Q2). apply puts_quiet in Q2.
  exists st2. split; [done|]. intros st3.
  assert (quiet (with_mmu m st0) st3) as Q3 by (etrans; [exact Q2|apply on_hw_quiet, pac_init_quiet]).
  destruct (with_mmu_rest m st0) as [R1 M1]. pose proof (q_mmu _ _ Q3) as Q. rewrite M1 in Q. split_and!.
  - etrans; [by apply quiet_rest|]. etrans; [exact R1|by apply quiet_rest].
  - by eapply quiet_sync.
  - rewrite (mq_current _ _ Q). exact Hdom.
  - rewrite (mq_el _ _ Q), Hel', (mq_el _ _ (q_mmu _ _ Q0)). exact Hel.
Qed.

Lemma fresh_designates_nothing (h : Z) (e : LettuceCapabilityEntry) : ¬ cap_designates cap_fresh h e.
Proof.
  intros (slot & gen & _ & He & Ha & _). cbn [capability_table cap_fresh] in He.
  pose proof (arr_get_Some_range _ _ _ He) as Hr. rewrite length_replicate in Hr.
  rewrite arr_get_replicate in He by done. by injection He as <-.
Qed.

(** What boot establishes, of the state [st] before. *)
Record booted (L : layout) (sym : el0_symbols) (st st' : cpu_state) : Prop := {
  bt_kernel : kernel_inv (kernel_view st');
  bt_calls : calls_ok L st';
  bt_vars : cp_vars st' = cp_vars st;
  bt_domain : current_domain (cp_mmu st') = DOMAIN_A;
  bt_caps : cp_caps st' = cap_fresh;
  bt_registry : reg_refines (cp_registry st') (boot_registry L sym);
  bt_unauthorised : ∀ k m r d, ¬ authorized k m (kernel_view st') r d;
  bt_entries : ∀ s o f i, (s, o, f) ∈ boot_entries L sym →
    ∃ pa, in_code_page L pa ∧ reaches L (cp_mmu st') i Exec f pa
}.

Lemma bind_Some_l {A B : Type} (x : A) (f : A → option B) : (Some x ≫= f) = f x.
Proof. done. Qed.

Lemma boot_tables_spec (L : layout) (sym : el0_symbols) (st st3 : cpu_state) :
  layout_ok L → symbols_ok L sym → boot_memory L st → same_rest st st3 → mmu_sync L (cp_mmu st3) →
  current_domain (cp_mmu st3) = DOMAIN_A → Mmu.lettuce_arch_current_el (mmu_hw (cp_mmu st3)) ≠ 2 →
  ∃ st', boot_tables L sym st3 = Some st' ∧ booted L sym st st'.
Proof.
  intros Hlo Hsym [_ _ Hc Hf Hr Hstk Hsv] [V S C R] Hsync Hdom Hel. rewrite Hr in R.
  destruct (boot_registry_spec L sym (cp_registry st3) R Hsym) as (t0 & t1 & t2 & Ht0 & Ht1 & Ht2 & Href).
  unfold boot_tables. rewrite Ht0, bind_Some_l, (cap_init_spec (cp_caps st3)) by (by rewrite C).
  rewrite bind_Some_l, Ht1, bind_Some_l, Ht2, bind_Some_l.
  exists (with_tables cap_fresh t2 st3). split; [done|]. split.
  - split; [apply cap_fresh_inv|by eexists|]. change (is_u32 (cp_service st3)). by rewrite S.
  - apply (with_tables_calls_ok L st3 cap_fresh t2 (boot_registry L sym)); [done..|by rewrite V|done|].
    intros i d Hd. by apply boot_services_known in Hd as [? _].
  - exact V.
  - exact Hdom.
  - done.
  - exact Href.
  - intros k msg r d [_ _ _ _ _ _ _ (e & He & _) _]. by apply fresh_designates_nothing in He.
  - intros s o f i Hin. destruct Hsym as (Hs1 & Hs2 & Hs4).
    assert (∃ pa, in_code_page L pa ∧ f = el0_service_va L pa) as (pa & Hpa & ->).
    { unfold boot_entries in Hin. repeat (apply elem_of_cons in Hin as [[= _ _ ->]|Hin]; [by eauto|]).
      by apply elem_of_nil in Hin. }
    exists pa. split; [done|]. apply service_va_reaches; [done|apply Hsync|done].
Qed.

Lemma boot_spec (L : layout) (vectors : Z) (sym : el0_symbols) (st : cpu_state) :
  layout_ok L → symbols_ok L sym → boot_memory L st →
  ∃ st', boot L vectors sym st = Some st' ∧ booted L sym st st'.
Proof.
  intros Hlo Hsym Hmem. unfold boot, boot_cpu. destruct (boot_hardware L vectors st Hmem) as (m & -> & Hprobe). cbn [mbind option_bind].
  destruct (Hprobe (line "MMU initialized with EL0/EL1 permissions and 3 protection domains.")) as (st2 & -> & H3).
  cbn [mbind option_bind]. destruct H3 as (Hrest & Hsync & Hdom & Hel). by apply boot_tables_spec.
Qed.

(** C16: booting establishes the invariants the other claims start from.  From the
    memory the loader leaves, boot succeeds.  The registry then holds exactly the five
    services and the four entry points of the program, and every entry point is
    executable user code in every domain; the hardware runs domain A's tables; and
    there is no capability, so that no call between services is authorised until the
    kernel grants one. *)
Theorem boot_establishes_invariants (L : layout) (vectors : Z) (sym : el0_symbols) (st : cpu_state) :
  layout_ok L → symbols_ok L sym → boot_memory L st →
  ∃ st', boot L vectors sym st = Some st' ∧ booted L sym st st'.
Proof. exact (boot_spec L vectors sym st). Qed.

Lemma refused_registration_changes_nothing (s o f : Z) (t t' : list LettuceServiceRegistryEntry) :
  lettuce_dispatch_register s o f t = Some (false, t') → t' = t.
Proof. unfold lettuce_dispatch_register. intros H. run_inv H; done. Qed.

(** The test program registers three entry points again later; the first registration
    stays. *)
Lemma reregistration_is_ignored (L : layout) (sym : el0_symbols) (t : list LettuceServiceRegistryEntry) (s o f f' : Z) :
  reg_refines t (boot_registry L sym) → (s, o, f) ∈ boot_entries L sym →
  lettuce_dispatch_register s o f' t = Some (false, t).
Proof.
  intros Href Hin.
  assert (is_u32 s ∧ is_u32 o ∧ areg_entries (boot_entries L sym) !! (s, o) = Some f) as (Hs & Ho & Hf).
  { unfold boot_entries in Hin |- *. unfold areg_entries.
    repeat (apply elem_of_cons in Hin as [[= -> -> ->]|Hin]; [split_and!; [vm_compute; by split..|reflexivity]|]).
    by apply elem_of_nil in Hin. }
  destruct (refine_dispatch_register t (boot_registry L sym) s o f' Href Hs Ho) as (t' & Hx & _).
  assert ((areg_exec (DispatchRegisterCall s o f') (boot_registry L sym)).1 = RegBool false) as Hfalse.
  { cbn [areg_exec]. case_match; [|done]. rewrite decide_False; [done|]. cbn [entry_points boot_registry]. rewrite Hf. naive_solver. }
  rewrite Hfalse in Hx. cbn [reg_exec] in Hx. destruct (lettuce_dispatch_register s o f' t) as [[b t1]|] eqn:Hd; [|done].
  cbn in Hx. injection Hx as -> ->. by rewrite (refused_registration_changes_nothing _ _ _ _ _ Hd).
Qed.

(** ** A concrete boot *)

Definition boot_demo : cpu_state :=
  let st := cpu_with 0 demo_mmu (cpu_demo_off demo_mmu) cap_fresh registry_boot in
  with_vars (lettuce_pac_enable false (cp_vars st)) st.

Definition demo_symbols : el0_symbols := service_symbols demo_layout.

Lemma boot_demo_memory : boot_memory demo_layout boot_demo.
Proof.
  split; [exact demo_mmu_boot|vm_compute; discriminate|by vm_compute..| | |].
  - reflexivity.
  - split; [reflexivity|]. cbn. unfold LETTUCE_ARCH_CONTEXT_MAX. lia.
  - vm_compute. by split.
Qed.

Lemma boot_establishes_invariants_witness :
  ∃ st', boot demo_layout 0x40080800 demo_symbols boot_demo = Some st' ∧ calls_ok demo_layout st' ∧
    current_domain (cp_mmu st') = 100.
Proof.
  destruct (boot_establishes_invariants demo_layout 0x40080800 demo_symbols boot_demo) as (st' & Hb & Hbt).
  - exact demo_layout_ok.
  - repeat split; vm_compute; discriminate.
  - exact boot_demo_memory.
  - exists st'. split; [exact Hb|]. split; [exact (bt_calls _ _ _ _ Hbt)|exact (bt_domain _ _ _ _ Hbt)].
Defined.
