(* ===== verification/Preempt.v ===== *)
(** * User code under the scheduler

    [MainSpec.v] follows a service that the kernel runs with the scheduler stopped.  Here
    the scheduler may be active: any exception may hand the processor to another task, in
    another domain.  What stays true is weaker (whose code runs changes) but holds for all
    user code, all interrupts and both policies. *)

From S2P Require Import Prelude Types Generation Context Capability CapabilitySpec Registry RegistrySpec Ipc.
From S2P Require Import Task Policy RoundRobin Eevdf Scheduler SchedulerSpec Mmu MmuSpec Timer Console Posix Cpu CpuSpec Main MainSpec.

(** An active scheduler has preempted fewer tasks than its limit. *)
Record within_budget (s : scheduler_state mmu_state) : Prop := {
  wb_count : 0 ≤ g_preempt_count s;
  wb_limit : g_preempt_limit s < 2 ^ 64;
  wb_reached : 0 < g_preempt_limit s → g_preempt_count s ≤ g_preempt_limit s;
  wb_active : 0 < g_preempt_limit s → g_scheduler_active s = true → g_preempt_count s < g_preempt_limit s
}.

(** What a step of the scheduler does to the tasks. *)
Definition tasks_move (s s' : scheduler_state mmu_state) : Prop :=
  (tasks_ok (ss_tasks s) → tasks_ok (ss_tasks s')) ∧ (idle s → idle s').

(** What it may do beyond the tasks. *)
Record sched_moves (s s' : scheduler_state mmu_state) : Prop := {
  sv_arch : ss_arch s' = ss_arch s ∨ ∃ d, ss_arch s' = arch_enter d (ss_arch s);
  sv_limit : g_preempt_limit s' = g_preempt_limit s;
  sv_budget : within_budget s → within_budget s'
}.

Lemma sched_moves_mem (m : sched_mem) (s s' : scheduler_state mmu_state) :
  sched_moves (with_mem m s) s' → sched_moves s s'.
Proof. intros [Ha Hl Hb]. split; [exact Ha|exact Hl|]. intros [] . apply Hb. by split. Qed.

Lemma sched_moves_refl (s : scheduler_state mmu_state) : sched_moves s s.
Proof. split; auto. Qed.

Lemma sched_moves_with_mem (m : sched_mem) (s : scheduler_state mmu_state) : sched_moves s (with_mem m s).
Proof. split; [by left|done|]. intros []. by split. Qed.

Lemma copy_length (n : nat) (i : Z) (src : list Z) (x x' : list Z) :
  for_range n i (λ r x, v ← arr_get src r; arr_set x r v) x = Some x' → length x' = length x.
Proof.
  intros Hx. apply (for_range_keeps (λ y, length y = length x)) in Hx; [done| |done].
  intros k s s' Hs <-. destruct (arr_get src k); cbn in Hs; [|done]. by apply arr_set_length in Hs.
Qed.

Lemma restore_frame_ok (c : LettuceTaskContext) (tf tf' : LettuceTrapFrame) :
  restore_frame c tf = Some tf' → frame_ok tf → frame_ok tf'.
Proof.
  unfold restore_frame, frame_ok. destruct (for_range _ _ _ _) as [x|] eqn:Hx; cbn [mbind option_bind]; [|done].
  destruct (arr_get _ 30); cbn; [|done]. intros [= <-]. cbn. by rewrite (copy_length _ _ _ _ _ Hx).
Qed.

Lemma switch_moves (n : Z) (curr : option Z) (pre : bool) (tf tf' : LettuceTrapFrame) (m : sched_mem)
    (s s' : scheduler_state mmu_state) hit :
  g_scheduler_active s = true → frame_ok tf → switch_to arch_enter n curr pre tf m s = Some (hit, tf', s') →
  sched_moves s s' ∧ frame_ok tf'.
Proof.
  intros Hact Htf. unfold switch_to. destruct (arr_get _ n) as [t|]; cbn [mbind option_bind]; [|done].
  destruct (shares_domain _ _ _) as [b|]; cbn [mbind option_bind]; [|done].
  destruct (sm_update _ _ _); cbn [mbind option_bind]; [|done].
  destruct (restore_frame _ _) as [tf1|] eqn:Hr; cbn [mbind option_bind]; [|done].
  intros [= <- <- <-]. split; [|by eapply restore_frame_ok]. split; cbn; [destruct b; eauto|done|].
  intros [Hc Hl Hn Ha]. destruct pre; cbn; [|by split].
  destruct (Z.ltb_spec 0 (g_preempt_limit s)) as [Hpos|Hnon]; cbn.
  - specialize (Ha Hpos Hact). rewrite (u64_small (_ + 1)) by (unfold is_u64; lia).
    destruct (Z.leb_spec (g_preempt_limit s) (g_preempt_count s + 1)); split; cbn; try done; try lia.
  - split; cbn; try lia; try done. pose proof (u64_range (g_preempt_count s + 1)) as Hr64. unfold is_u64 in Hr64. lia.
Qed.

Lemma schedule_moves (now : Z) (pre : bool) (tf : LettuceTrapFrame) (s s' : scheduler_state mmu_state) hit o :
  frame_ok tf → do_schedule arch_enter now (Some tf) pre s = Some (hit, o, s') →
  sched_moves s s' ∧ ∃ tf', o = Some tf' ∧ frame_ok tf'.
Proof.
  intros Htf [(-> & -> & [-> | [m ->]])|(Ha & n & curr & tf1 & m & -> & Hs)]%do_schedule_cases.
  - split; [apply sched_moves_refl|eauto].
  - split; [apply sched_moves_with_mem|eauto].
  - destruct (switch_moves _ _ _ _ _ _ _ _ _ Ha Htf Hs). eauto.
Qed.

(** Every scheduling event, with its preemption flag. *)
Definition event_run (e : sched_event) (s : scheduler_state mmu_state)
    : option (bool * option LettuceTrapFrame * scheduler_state mmu_state) :=
  match e with
  | EvTick now tf => lettuce_scheduler_tick arch_enter now (Some tf) s
  | EvYield now tf => lettuce_scheduler_yield arch_enter now (Some tf) s
  | EvSleep now ticks tf => lettuce_scheduler_sleep_current arch_enter now ticks (Some tf) s
  end.

Lemma event_moves (e : sched_event) (s s' : scheduler_state mmu_state) hit o :
  frame_ok (event_frame e) → event_run e s = Some (hit, o, s') →
  sched_moves s s' ∧ tasks_move s s' ∧ ∃ tf', o = Some tf' ∧ frame_ok tf'.
Proof.
  intros Htf Hx. assert (event_exec arch_enter e s = Some (o, s')) as Hev.
  { unfold event_exec, event_run in *. destruct e; by rewrite Hx. }
  assert (tasks_move s s') as Ht by (split; [by apply (event_tasks_ok e s s' o)|by apply (event_keeps_idle e s s' o)]).
  assert (sched_moves s s' ∧ ∃ tf', o = Some tf' ∧ frame_ok tf') as [? ?]; [|done].
  destruct e as [now tf|now tf|now n tf]; cbn [event_run event_frame] in *.
  - by apply (schedule_moves now true tf s s' hit).
  - unfold lettuce_scheduler_yield in Hx. destruct (lettuce_task_current _) as [c|].
    2:{ injection Hx as <- <- <-. split; [apply sched_moves_refl|eauto]. }
    destruct (sm_update _ _ _) as [m|]; cbn [mbind option_bind] in Hx; [|done].
    destruct (schedule_moves _ _ _ _ _ _ _ Htf Hx) as [Hm ?]. split; [by eapply sched_moves_mem|done].
  - unfold lettuce_scheduler_sleep_current in Hx. destruct (lettuce_task_current _) as [c|].
    2:{ injection Hx as <- <- <-. split; [apply sched_moves_refl|eauto]. }
    destruct (sm_update _ _ _) as [m|]; cbn [mbind option_bind] in Hx; [|done].
    destruct (op_on_task_sleep _ _ _) as [m'|]; cbn [mbind option_bind] in Hx; [|done].
    destruct (schedule_moves _ _ _ _ _ _ _ Htf Hx) as [Hm ?]. split; [by eapply sched_moves_mem|done].
Qed.

(** ** Containment *)

Section contained.
Context (pac_sign pac_auth : Z → Z → Z) (L : layout).

(** What user code cannot break, of the state [st0] it was entered in. *)
Record contained (st0 st : cpu_state) : Prop := {
  ct_calls : calls_ok L st;
  ct_known : ∀ i f, 0 ≤ i < depth st → arr_get (g_context_stack (cp_vars st)) i = Some f → mmu_known (cf_domain_id f) = true;
  ct_caps : cp_caps st = cp_caps st0;
  ct_registry : cp_registry st = cp_registry st0;
  ct_idle : idle (cp_sched st0) → idle (cp_sched st);
  ct_tasks : tasks_ok (ss_tasks (cp_sched st0)) → tasks_ok (ss_tasks (cp_sched st));
  ct_limit : g_preempt_limit (cp_sched st) = g_preempt_limit (cp_sched st0);
  ct_budget : within_budget (cp_sched st0) → within_budget (cp_sched st)
}.

Lemma sched_quiet_budget (s s' : scheduler_state mmu_state) : sched_quiet s s' → within_budget s → within_budget s'.
Proof. intros [_ _ Ha Hp Hl] []. split; rewrite ?Ha, ?Hp, ?Hl; done. Qed.

Lemma contained_quiet (st0 st st' : cpu_state) : quiet st st' → contained st0 st → contained st0 st'.
Proof.
  intros Hq [Hok Hk Hc Hr Hi Ht Hl Hb]. pose proof (quiet_calls_ok _ _ _ Hq Hok). pose proof (sched_quiet_budget _ _ (q_sched _ _ Hq)).
  destruct Hq as [Hv _ Hc' Hr' [Ht' Hi' _ _ Hl'] _]. split; unfold depth; rewrite ?Hv; auto; congruence.
Qed.

Lemma contained_sched (st0 st : cpu_state) (s : scheduler_state mmu_state) :
  sched_moves (cp_sched st) s → tasks_move (cp_sched st) s → contained st0 st → contained st0 (with_sched s st).
Proof.
  intros [Ha Hl Hb] [Ht Hid] [[Hs He Hstk Hd] Hk Hc Hr Hi0 Ht0 Hl0 Hb0].
  split; try done; [|cbn; auto|cbn; auto|cbn; congruence|cbn; auto].
  unfold cp_mmu in *. split; try done; unfold cp_mmu; cbn.
  - destruct Ha as [-> | [d ->]]; [done|]. by destruct (mmu_enter_sync L d (ss_arch (cp_sched st)) Hs).
  - destruct Ha as [-> | [d ->]]; [done|]. unfold arch_enter. by rewrite enter_el.
Qed.

(** Any state is at some identity's bottom. *)
Lemma contained_entered (st0 st : cpu_state) : contained st0 st → ∃ svc dom, entered L svc dom st st.
Proof.
  intros [Hc Hk _ _ _ _ _ _]. destruct (co_stack _ _ Hc) as [Hsz Hd]. fold (depth st) in Hd.
  destruct (decide (depth st = 0)) as [H0|H0].
  - exists (cp_service st), (current_domain (cp_mmu st)). split; try done. by rewrite decide_True.
  - destruct (arr_get_is_Some (g_context_stack (cp_vars st)) 0) as [f Hf]; [unfold LETTUCE_ARCH_CONTEXT_MAX in *; lia|].
    exists (cf_service_id f), (cf_domain_id f). split; try done. rewrite decide_False by done. by exists f.
Qed.

Lemma entered_contained (svc dom : Z) (st0 st st' : cpu_state) :
  entered L svc dom st st' → contained st0 st → contained st0 st'.
Proof.
  intros [Hok Hc Hr Hs Hk _] [_ _ Hc0 Hr0 Hi Ht Hl Hb]. pose proof (sched_quiet_budget _ _ Hs).
  destruct Hs as [Hts Hid _ _ Hls]. split; auto; congruence.
Qed.

Definition stays (st0 : cpu_state) (e : trap_end) (st' : cpu_state) : Prop :=
  match e with
  | ToUser tf => contained st0 st' ∧ frame_ok tf
  | ToKernel _ => contained st0 st'
  | Halted => True
  end.

Lemma stays_fault (st0 st st' : cpu_state) (code : Z) e :
  quiet st st' ∧ fault_end code e → contained st0 st → stays st0 e st'.
Proof. intros [Hq [-> | ->]] Hct; cbn; [done|]. by eapply contained_quiet. Qed.

Lemma after_schedule_stays (st0 st st' : cpu_state) (ev : sched_event) r e :
  frame_ok (event_frame ev) → contained st0 st → event_run ev (cp_sched st) = Some r →
  after_schedule r st = Some (e, st') → stays st0 e st'.
Proof.
  intros Htf Hct Hr Hx. destruct r as [[hit o] s].
  destruct (event_moves ev _ _ _ _ Htf Hr) as (Hm & Ht & tf' & -> & Htf'). cbn in Hx.
  destruct hit; injection Hx as <- <-; cbn.
  - apply (contained_sched st0 (with_timer_gic (cp_timer st) (lettuce_gic_end_of_interrupt GIC_INTID_VTIMER (cp_gic st)) st));
      [done|done|]. eapply contained_quiet, Hct. apply quiet_timer_gic.
  - split; [|done]. by apply contained_sched.
Qed.

Lemma syscall_stays (st0 st st' : cpu_state) (tf : LettuceTrapFrame) e :
  frame_ok tf → contained st0 st → svc_syscall tf st = Some (e, st') → stays st0 e st'.
Proof.
  intros Htf Hct Hs. destruct (frame_register tf 8 Htf ltac:(lia)) as [n Hn].
  destruct (decide (n = LETTUCE_SYS_NANOSLEEP)) as [->|Hne].
  2:{ destruct (syscall_io tf st n e st' Hn Hne Hs) as (io & v & tf' & -> & Hx & ->).
      split; [by eapply contained_quiet, Hct; apply quiet_io|by eapply set_x0_ok]. }
  destruct (syscall_nanosleep tf st Htf Hn) as [x0 Heq]. rewrite Heq in Hs. clear Heq.
  destruct (lettuce_kernel_sys_nanosleep _ _ _ _ _ _ _) as [[[[res hit] tf1] s']|] eqn:Hr in Hs; cbn [mbind option_bind] in Hs; [|done].
  assert (∃ tf2, tf1 = Some tf2 ∧ frame_ok tf2 ∧ contained st0 (with_sched s' st)) as (tf2 & -> & Htf2 & Hct2).
  { destruct (nanosleep_cases _ _ _ _ _ _ _ _ _ _ Hr) as [-> [[-> ->]|(ticks & Hev)]].
    - exists tf. split_and!; [done..|]. by apply contained_sched; [apply sched_moves_refl| |].
    - unfold event_exec in Hev. destruct (lettuce_scheduler_sleep_current _ _ _ _ _) as [[[h o] s1]|] eqn:Hsl; cbn in Hev; [|done].
      injection Hev as -> ->. destruct (event_moves (EvSleep _ ticks tf) _ _ _ _ Htf Hsl) as (Hm & Ht & tf' & -> & Htf').
      exists tf'. split_and!; [done..|]. by apply contained_sched. }
  destruct (nanosleep_cases _ _ _ _ _ _ _ _ _ _ Hr) as [-> _]. cbn in Hs.
  destruct (set_x0 (u64 res) tf2) as [tf'|] eqn:Hx; cbn in Hs; [|done]. injection Hs as <- <-.
  split; [done|by eapply set_x0_ok].
Qed.

Lemma svc_stays (st0 st st' : cpu_state) (imm : Z) (tf : LettuceTrapFrame) e :
  frame_ok tf → contained st0 st → svc_handler pac_sign pac_auth imm tf st = Some (e, st') → stays st0 e st'.
Proof.
  intros Htf Hct Hx. destruct (contained_entered _ _ Hct) as (svc & dom & Hen). unfold svc_handler in Hx.
  destruct (imm =? LETTUCE_SVC_RETURN).
  { destruct (entered_return pac_auth L svc dom st st st' tf e Htf Hen Hx) as [Hen' He]. pose proof (entered_contained _ _ _ _ _ Hen' Hct).
    by destruct e. }
  destruct (_ || _) eqn:Hcall.
  { destruct (svc_kind_imm _ Hcall) as [k ->].
    destruct (entered_call pac_sign L svc dom st st st' k tf e Htf Hen Hx) as (Hen' & tf' & -> & Hok').
    split; [by eapply entered_contained|done]. }
  destruct (_ =? LETTUCE_SVC_YIELD).
  { unfold svc_yield in Hx. destruct (lettuce_scheduler_yield _ _ _ _) as [r|] eqn:Hr; cbn [mbind option_bind] in Hx; [|done].
    by apply (after_schedule_stays st0 st st' (EvYield (lettuce_timer_get_ticks (cp_timer st)) tf) r e). }
  destruct (_ =? LETTUCE_SVC_SYSCALL); [by eapply syscall_stays|].
  destruct (print_hex _ _); cbn in Hx; [|done]. by injection Hx as <- <-.
Qed.

Lemma tick_stays (st0 st st' : cpu_state) (iar : Z) (tf : LettuceTrapFrame) e :
  frame_ok tf → contained st0 st → lettuce_arch_irq_lower_el_handler iar tf st = Some (e, st') → stays st0 e st'.
Proof.
  intros Htf Hct Hx. unfold lettuce_arch_irq_lower_el_handler in Hx.
  assert (∀ intid e1 st1, stays st0 e1 st1 →
    match e1 with ToUser tf1 => Some (ToUser tf1, end_of_interrupt intid st1) | e1 => Some (e1, st1) end = Some (e, st') →
    stays st0 e st') as Hend.
  { intros intid e1 st1 Hst Heq. destruct e1; injection Heq as <- <-; [|done..].
    destruct Hst. split; [|done]. eapply contained_quiet; [apply end_of_interrupt_quiet|done]. }
  destruct (_ =? GIC_INTID_VTIMER); cbn [mbind option_bind] in Hx; [|by apply (Hend _ (ToUser tf) st (conj Hct Htf) Hx)].
  pose proof (contained_quiet _ _ _ (timer_quiet st) Hct) as Hct1.
  destruct (_ && _); cbn [mbind option_bind] in Hx; [|by apply (Hend _ (ToUser tf) _ (conj Hct1 Htf) Hx)].
  destruct (lettuce_scheduler_tick _ _ _ _) as [r|] eqn:Hr; cbn [mbind option_bind] in Hx; [|done].
  destruct (after_schedule r _) as [[e1 st1]|] eqn:Ha; cbn [mbind option_bind] in Hx; [|done].
  eapply Hend; [|exact Hx].
  by apply (after_schedule_stays st0 (handle_timer st) st1 (EvTick (lettuce_timer_get_ticks (cp_timer (handle_timer st))) tf) r e1).
Qed.

Lemma take_exception_stays (st0 st st' : cpu_state) (x : el0_exception) e :
  frame_ok (exception_frame x) → contained st0 st → take_exception pac_sign pac_auth x st = Some (e, st') → stays st0 e st'.
Proof.
  intros Htf Hct. destruct x as [esr far tf|iar tf]; cbn [take_exception exception_frame] in *; [|by apply tick_stays].
  unfold lettuce_arch_sync_lower_el_handler. destruct (_ =? 0x15); [by apply svc_stays|].
  destruct (_ || _); [intros H%data_abort_quiet; by eapply stays_fault|].
  destruct (_ || _); [intros H%sysreg_trap_end; by eapply stays_fault|].
  destruct (_ || _); [by intros ->%instruction_abort_halts|].
  destruct (print_hex _ _); cbn [mbind option_bind]; [|done]. by intros [= <- _].
Qed.

Lemma el0_execution_contained (user : el0_code) (fuel : nat) (tf : LettuceTrapFrame) (st0 st st' : cpu_state) status :
  code_ok user → frame_ok tf → contained st0 st →
  el0_execution pac_sign pac_auth user fuel tf st = Some (status, st') → contained st0 st'.
Proof.
  intros Huser. revert tf st. induction fuel as [|fuel IH]; intros tf st Htf Hct; cbn [el0_execution]; [done|].
  destruct (user tf st) as [[x mem]|] eqn:Hx; cbn [mbind option_bind]; [|done].
  destruct (take_exception _ _ x _) as [[e st1]|] eqn:Heq; cbn [mbind option_bind]; [|done].
  apply (take_exception_stays st0) in Heq; [|by eapply Huser|eapply contained_quiet, Hct; apply quiet_io].
  destruct e; cbn in Heq; [by destruct Heq; apply IH| |done]. by intros [= <- <-].
Qed.

End contained.

(** ** Round robin takes the processor back

    A task that never gives up the processor is interrupted by the timer.  Under round
    robin every tick either uses up a part of its time slice or preempts it, so the
    preemption limit is reached and the kernel continues. *)

Definition slice_of_current (s : scheduler_state mmu_state) : Z :=
  match g_current_task (ss_tasks s) ≫= arr_get (g_task_table (ss_tasks s)) with
  | Some t => tk_time_slice_ticks t
  | None => 0
  end.

(** Ticks until the limit, at most, when no quantum is longer than [Q]. *)
Definition ticks_left (Q : Z) (s : scheduler_state mmu_state) : Z :=
  (g_preempt_limit s - g_preempt_count s) * (Q + 1) + slice_of_current s.

(** The running task [c] is the rotation point, and another task is ready. *)
Record contended (Q c : Z) (s : scheduler_state mmu_state) : Prop := {
  cd_inv : sched_inv s;
  cd_policy : g_current_policy_type s = LETTUCE_SCHED_POLICY_RR;
  cd_active : g_scheduler_active s = true;
  cd_current : g_current_task (ss_tasks s) = Some c;
  cd_running : ∃ t, arr_get (g_task_table (ss_tasks s)) c = Some t ∧ tk_state t = LETTUCE_TASK_STATE_RUNNING ∧
    tk_generation t ≤ 10 ∧ 0 ≤ tk_time_slice_ticks t;
  cd_turn : g_rr_last_idx (ss_vars s) = c;
  cd_other : ∃ j t, j ≠ c ∧ arr_get (g_task_table (ss_tasks s)) j = Some t ∧ ready_visible t;
  cd_quanta : ∀ i t, arr_get (g_task_table (ss_tasks s)) i = Some t → 0 ≤ tk_quantum_ticks t ≤ Q;
  cd_budget : 0 ≤ g_preempt_count s < g_preempt_limit s;
  cd_limit : g_preempt_limit s < 2 ^ 64
}.

Lemma rr_wake_spares (now : Z) (m m' : sched_mem) (i : Z) t :
  wake_sleepers g_lettuce_sched_rr_ops now m = Some m' → arr_get (sm_tasks m) i = Some t →
  tk_state t ≠ LETTUCE_TASK_STATE_SLEEPING → arr_get (sm_tasks m') i = Some t.
Proof.
  intros Hw Ht Hs. apply (for_range_keeps (λ x, arr_get (sm_tasks x) i = Some t) _ _ _ _ _) in Hw; [done| |done].
  clear m m' Hw Ht. intros k x x' Hx Ht. unfold wake_slot in Hx.
  destruct (task_scan k (sm_tasks x)) as [[q|]|]; cbn in Hx; [|by injection Hx as <-|done].
  destruct (arr_get (sm_tasks x) q) as [u|] eqn:Hu; cbn in Hx; [|done].
  destruct (state_is _ _ && _) eqn:Hsl; [|by injection Hx as <-]. b2p.
  match goal with H : state_is _ _ = true |- _ => apply state_is_true in H end.
  unfold sm_update in Hx. destruct (task_update_Some (sm_tasks x) q (set_state LETTUCE_TASK_STATE_READY) u Hu) as (tb & Hup & _ & _ & Hget).
  rewrite Hup in Hx. cbn in Hx. injection Hx as <-. cbn. rewrite Hget. rewrite decide_False; [done|]. intros ->. congruence.
Qed.

(** The accounting of a tick. *)
Lemma rr_account_running (c : Z) t (tf : LettuceTrapFrame) (m : sched_mem) :
  arr_get (sm_tasks m) c = Some t → tk_state t = LETTUCE_TASK_STATE_RUNNING → 0 ≤ tk_time_slice_ticks t →
  length (ctx_x (tk_context t)) = 31%nat → frame_ok tf →
  ∃ b m' t', account_current g_lettuce_sched_rr_ops (Some c) true tf m = Some (b, m') ∧
    (∀ i, i ≠ c → arr_get (sm_tasks m') i = arr_get (sm_tasks m) i) ∧
    arr_get (sm_tasks m') c = Some t' ∧ task_ident t' = task_ident t ∧
    if b then tk_state t' = LETTUCE_TASK_STATE_RUNNING ∧ tk_time_slice_ticks t' = tk_time_slice_ticks t - 1 ∧
              0 ≤ tk_time_slice_ticks t'
    else tk_state t' = LETTUCE_TASK_STATE_READY.
Proof.
  intros Ht Hs Hsl Hctx Htf. unfold account_current. rewrite Ht. cbn [mbind option_bind].
  assert (negb (state_is (tk_state t) LETTUCE_TASK_STATE_RUNNING) = false) as Hrun by by rewrite Hs.
  rewrite Hrun. cbn [op_on_tick g_lettuce_sched_rr_ops op_on_task_ready rr_on_task_ready]. unfold rr_on_tick. rewrite Ht.
  cbn [mbind option_bind]. rewrite Hrun. unfold sm_update.
  match goal with |- context [task_update c ?f _] => destruct (task_update_Some (sm_tasks m) c f t Ht) as (tb & -> & _ & _ & Hget) end.
  cbn [mbind option_bind sm_tasks with_tasks]. rewrite Hget, decide_True by done. cbn [mbind option_bind].
  set (t1 := set_time_slice _ _). assert (tk_context t1 = tk_context t) as Hc1 by by destruct t.
  assert (tk_time_slice_ticks t1 = slice_after (tk_time_slice_ticks t) 1) as Hsl1 by by destruct t.
  assert (task_ident t1 = task_ident t ∧ tk_state t1 = tk_state t) as [Hid1 Hst1] by by destruct t.
  unfold slice_after in Hsl1. destruct (Z.ltb_spec 0 (tk_time_slice_ticks t1)) as [Hpos|Hnon]; cbn [andb].
  - exists true, (with_tasks tb m), t1. split_and!; [done| |cbn; by rewrite Hget, decide_True|done|congruence| |lia].
    + intros i Hi. cbn. by rewrite Hget, decide_False by congruence.
    + destruct (Z.leb_spec 1 (tk_time_slice_ticks t)); lia.
  - rewrite save_frame_spec by (done || congruence). cbn [mbind option_bind].
    assert (arr_get tb c = Some t1) as Ht1 by by rewrite Hget, decide_True.
    match goal with |- context [task_update c ?f tb] => destruct (task_update_Some tb c f t1 Ht1) as (tb2 & -> & _ & _ & Hget2) end.
    cbn [mbind option_bind]. eexists false, _, _. split_and!; [done| |cbn; by rewrite Hget2, decide_True| |].
    + intros i Hi. cbn. by rewrite Hget2, decide_False, Hget, decide_False by congruence.
    + rewrite <- Hid1. clear. by destruct t1.
    + clear. by destruct t1.
Qed.

(** The answer of round robin is another task. *)
Lemma rr_picks_another (c j : Z) (m : sched_mem) tj :
  sm_ok m → 0 ≤ c < LETTUCE_MAX_TASKS → g_rr_last_idx (sm_vars m) = c → j ≠ c →
  arr_get (sm_tasks m) j = Some tj → ready_visible tj →
  ∃ n t m', n ≠ c ∧ rr_pick_next (Some c) m = Some (Some n, m') ∧ g_rr_last_idx (sm_vars m') = n ∧
    arr_get (sm_tasks m) n = Some t ∧ ready_visible t ∧ arr_get (sm_tasks m') n = Some (renew_quantum t) ∧
    same_core (sm_tasks m) (sm_tasks m').
Proof.
  intros Hok Hc Hlast Hjc Hj Hrj. pose proof (arr_get_Some_range _ _ _ Hj) as Hjr. rewrite (so_len _ Hok) in Hjr.
  destruct (rr_pick_exact (Some c) m Hok) as
    [(i & t & m' & Hi & Ht & Hr & Hfirst & Hp & Hl & Hcore & Hn)|(Hnone & _)]; [by intros ? [= <-]| |by destruct (Hnone j tj)].
  cbn [rr_offset] in *. rewrite Hlast in *. exists (rr_slot c i), t, m'. split_and!; try done. intros Heq.
  assert (1 + rr_wait c j ≠ 16) as Hne.
  { intros H16. apply Hjc. rewrite <- (rr_slot_wait c j Hjr), H16. unfold rr_slot, LETTUCE_MAX_TASKS in *.
    rewrite Zplus_mod, Z_mod_same_full, Z.add_0_r, Zmod_mod. by apply Z.mod_small. }
  pose proof (rr_wait_range c j) as Hw. unfold LETTUCE_MAX_TASKS in *.
  assert (i = 16) as ->.
  { unfold rr_slot, LETTUCE_MAX_TASKS in Heq. destruct (decide (i = 16)); [done|].
    rewrite <- (Z.mod_small c 16) in Heq at 2 by done. pose proof (Z.div_mod (c + i) 16). pose proof (Z.div_mod c 16). lia. }
  apply (Hfirst (1 + rr_wait c j) tj); [lia| |done]. by rewrite rr_slot_wait.
Qed.

(** The counters of a preempting switch. *)
Lemma preempting_switch (n c : Z) (tf tf' : LettuceTrapFrame) (m : sched_mem) (s s' : scheduler_state mmu_state) hit :
  0 ≤ g_preempt_count s < g_preempt_limit s → g_preempt_limit s < 2 ^ 64 → g_scheduler_active s = true →
  switch_to arch_enter n (Some c) true tf m s = Some (hit, tf', s') →
  g_preempt_limit s' = g_preempt_limit s ∧ g_preempt_count s' = g_preempt_count s + 1 ∧
  g_current_task (ss_tasks s') = Some n ∧ ss_vars s' = sm_vars m ∧
  g_current_policy_type s' = g_current_policy_type s ∧
  (∃ t, arr_get (sm_tasks m) n = Some t ∧ ∀ i, arr_get (g_task_table (ss_tasks s')) i =
     if decide (n = i) then Some (set_state LETTUCE_TASK_STATE_RUNNING t) else arr_get (sm_tasks m) i) ∧
  if hit then g_preempt_count s' = g_preempt_limit s ∧ g_scheduler_active s' = false
  else g_preempt_count s' < g_preempt_limit s ∧ g_scheduler_active s' = true.
Proof.
  intros Hb Hl Hact. unfold switch_to. destruct (arr_get (sm_tasks m) n) as [t|] eqn:Ht; cbn [mbind option_bind]; [|done].
  destruct (shares_domain _ _ _) as [same|]; cbn [mbind option_bind]; [|done]. unfold sm_update.
  destruct (task_update_Some (sm_tasks m) n (set_state LETTUCE_TASK_STATE_RUNNING) t Ht) as (tb & -> & _ & _ & Hget).
  cbn [mbind option_bind]. destruct (restore_frame _ _) as [tf1|]; cbn [mbind option_bind]; [|done].
  intros [= <- <- <-]. cbn. rewrite (u64_small (_ + 1)) by (unfold is_u64; lia). rewrite (proj2 (Z.ltb_lt 0 _)) by lia. cbn.
  split_and!; try done; [eauto|]. destruct (Z.leb_spec (g_preempt_limit s) (g_preempt_count s + 1)); cbn; split; try done; lia.
Qed.

(** A memory that evolved from the task table keeps the quanta and the ready tasks. *)
Lemma evolves_quanta (Q : Z) (c : option Z) (tb tb' : list LettuceTask) :
  evolves c tb tb' → (∀ i t, arr_get tb i = Some t → 0 ≤ tk_quantum_ticks t ≤ Q) →
  ∀ i t, arr_get tb' i = Some t → 0 ≤ tk_quantum_ticks t ≤ Q.
Proof.
  intros [Hl He] Hq i t' Ht'. destruct (arr_get_is_Some tb i) as [t Ht].
  { rewrite <- Hl. by eapply arr_get_Some_range. }
  destruct (He i t Ht) as (x & Hx & Hid & _). simplify_eq. apply task_ident_fields in Hid as (_ & _ & _ & _ & -> & _).
  by eapply Hq.
Qed.

Lemma evolves_ready (c i : Z) (tb tb' : list LettuceTask) t :
  evolves (Some c) tb tb' → i ≠ c → arr_get tb i = Some t → ready_visible t →
  ∃ t', arr_get tb' i = Some t' ∧ ready_visible t'.
Proof.
  intros [_ He] Hic Ht [Hs Hv]. destruct (He i t Ht) as (t' & Ht' & Hid & Hn). exists t'. split; [done|].
  apply task_ident_fields in Hid as (_ & Hg & _). destruct Hn as [_ Hst]; [congruence|].
  assert (tk_state t' = LETTUCE_TASK_STATE_READY) as Hr by (destruct Hst as [?|[? _]]; congruence).
  split; [done|]. unfold task_visible in *. by rewrite Hr, Hg, <- Hs.
Qed.

(** What one tick does in a contended state. *)
Definition tick_progress (Q : Z) (s : scheduler_state mmu_state) (hit : bool) (s' : scheduler_state mmu_state) : Prop :=
  g_preempt_limit s' = g_preempt_limit s ∧
  if hit then g_preempt_count s' = g_preempt_limit s ∧ g_scheduler_active s' = false
  else (∃ c', contended Q c' s') ∧ ticks_left Q s' < ticks_left Q s.

(** The slice lasts. *)
Lemma slice_tick (Q c : Z) (m : sched_mem) (s : scheduler_state mmu_state) t t' :
  contended Q c s → arr_get (g_task_table (ss_tasks s)) c = Some t → sched_inv (with_mem m s) →
  evolves (Some c) (g_task_table (ss_tasks s)) (sm_tasks m) → sm_vars m = ss_vars s → arr_get (sm_tasks m) c = Some t' →
  tk_state t' = LETTUCE_TASK_STATE_RUNNING → tk_generation t' = tk_generation t →
  tk_time_slice_ticks t' = tk_time_slice_ticks t - 1 → 0 ≤ tk_time_slice_ticks t' →
  tick_progress Q s false (with_mem m s).
Proof.
  intros [Hinv Hpol Hact Hc (u & Hu & Hrun & Hg & Hsl) Hturn (j & x & Hj & Hx & Hrv) Hq Hb Hlim] Ht Hinv' He Hv Ht' Hrun' Hg' Hsl' Hpos.
  rewrite Ht in Hu. injection Hu as <-. split; [done|]. split.
  - exists c. split; try done; cbn.
    + exists t'. split_and!; try done. lia.
    + by rewrite Hv.
    + exists j. destruct (evolves_ready _ _ _ _ _ He Hj Hx Hrv) as (x' & ? & ?). by exists x'.
    + by eapply evolves_quanta.
  - unfold ticks_left, slice_of_current. cbn. rewrite Hc. cbn. rewrite Ht, Ht'. lia.
Qed.

(** The processor goes to the next task. *)
Lemma switch_tick (Q c n : Z) (m2 m : sched_mem) (tf tf' : LettuceTrapFrame) (s s' : scheduler_state mmu_state) hit t2 tn :
  contended Q c s → sched_inv s' → evolves (Some c) (g_task_table (ss_tasks s)) (sm_tasks m2) →
  arr_get (sm_tasks m2) c = Some t2 → tk_state t2 = LETTUCE_TASK_STATE_READY → tk_generation t2 ≤ 10 →
  n ≠ c → same_core (sm_tasks m2) (sm_tasks m) → arr_get (sm_tasks m2) n = Some tn → ready_visible tn →
  arr_get (sm_tasks m) n = Some (renew_quantum tn) → g_rr_last_idx (sm_vars m) = n →
  switch_to arch_enter n (Some c) true tf m s = Some (hit, tf', s') → tick_progress Q s hit s'.
Proof.
  intros [Hinv Hpol Hact Hc (u & Hu & Hrun & Hg & Hsl) Hturn _ Hq Hb Hlim] Hinv' He Ht2 Hs2 Hg2 Hn Hcore Htn [Hrn Hvn] Hmn Hlast Hsw.
  destruct (preempting_switch _ _ _ _ _ _ _ _ Hb Hlim Hact Hsw) as (Hl' & Hc' & Hcur & Hvars & Hpol' & (x & Hx & Hget) & Hend).
  rewrite Hmn in Hx. injection Hx as <-. split; [done|]. destruct hit; [done|]. destruct Hend as [Hlt Hact'].
  pose proof (Hget n) as Hgn. rewrite decide_True in Hgn by done.
  assert (0 ≤ tk_quantum_ticks tn ≤ Q) as Hqn by by eapply (evolves_quanta Q _ _ _ He).
  split.
  - exists n. destruct (same_core_Some _ _ c t2 Hcore Ht2) as (t3 & Ht3 & (Hst & Hgen & _)%task_core_fields).
    split; try done; try congruence.
    + eexists. split; [exact Hgn|]. unfold task_visible in Hvn. b2p. destruct tn; cbn in *. split_and!; (done || lia).
    + exists c, t3. split; [done|]. rewrite Hget, decide_False by done. split; [done|]. split; [congruence|].
      unfold task_visible. rewrite Hst, Hs2, Hgen. cbn. by apply Z.leb_le.
    + intros i t Ht. rewrite Hget in Ht. case_decide as Hi; [injection Ht as <-; destruct tn; cbn in *; lia|].
      destruct (arr_get_is_Some (sm_tasks m2) i) as [y Hy].
      { rewrite <- (same_core_length _ _ Hcore). by eapply arr_get_Some_range. }
      destruct (same_core_Some _ _ i y Hcore Hy) as (z & Hz & (_ & _ & _ & _ & _ & _ & Hqz & _)%task_core_fields).
      simplify_eq. rewrite Hqz. by eapply (evolves_quanta Q _ _ _ He).
    + lia.
  - unfold ticks_left. rewrite Hl', Hc'. unfold slice_of_current at 1. rewrite Hcur. cbn. rewrite Hgn.
    assert (0 ≤ slice_of_current s) by (unfold slice_of_current; rewrite Hc; cbn; rewrite Hu; done).
    destruct tn; cbn in *. nia.
Qed.

Lemma rr_tick (Q c now : Z) (tf : LettuceTrapFrame) (s : scheduler_state mmu_state) :
  contended Q c s → frame_ok tf →
  ∃ hit tf' s', lettuce_scheduler_tick arch_enter now (Some tf) s = Some (hit, Some tf', s') ∧ frame_ok tf' ∧
    tick_progress Q s hit s'.
Proof.
  intros Hcd Htf. pose proof Hcd as [Hinv Hpol Hact Hc (t & Ht & Hrun & Hg & Hsl) Hturn (j & tj & Hj & Htj & Hrj) _ _ _].
  destruct (before_pick arch_enter now true tf s Hinv Htf) as (m1 & b & m2 & Hw & Ha & He & Hok & _ & _).
  destruct (do_schedule_spec arch_enter now true tf s Hinv Hact Htf) as (hit & tf' & s' & Hx & Hinv' & _).
  exists hit, tf', s'. destruct (schedule_moves _ _ _ _ _ _ _ Htf Hx) as (_ & tf1 & [= <-] & Htf'). split_and!; [done..|].
  rewrite Hpol in Hw, Ha. cbn in Hw, Ha. rewrite Hc in Ha, He.
  pose proof (rr_wake_spares _ _ _ c t Hw Ht ltac:(congruence)) as Ht1.
  destruct (rr_account_running c t tf m1 Ht1 Hrun Hsl) as (b' & m' & t' & Ha' & _ & Ht' & Hid & Hb); [|done|].
  { by apply (ti_task _ (si_tasks _ Hinv) _ _ Ht). }
  rewrite Ha in Ha'. injection Ha' as <- <-. apply task_ident_fields in Hid as (_ & Hgen & _).
  assert (sm_vars m2 = ss_vars s) as Hvars by (by rewrite (rr_account_vars _ _ _ _ _ _ Ha), (rr_wake_vars _ _ _ Hw)).
  unfold lettuce_scheduler_tick, do_schedule in Hx. rewrite Hact, Hpol in Hx. cbn [negb policy_ops_of] in Hx.
  unfold lettuce_task_current in Hx. rewrite Hc, Hw in Hx. cbn [mbind option_bind] in Hx. rewrite Ha in Hx. cbn [mbind option_bind] in Hx.
  destruct b; [injection Hx as <- <- <-; destruct Hb as (? & ? & ?); by apply (slice_tick Q c m2 s t t')|].
  destruct (evolves_ready _ _ _ _ _ He Hj Htj Hrj) as (t2 & Ht2 & Hr2).
  destruct (rr_picks_another c j m2 t2) as (n & tn & m3 & Hn & Hp & Hlast & Htn & Hrn & Hmn & Hcore);
    [done|by apply (ti_current _ (si_tasks _ Hinv))|by rewrite Hvars|done..|].
  cbn [op_pick_next g_lettuce_sched_rr_ops] in Hx. rewrite Hp in Hx. cbn [mbind option_bind] in Hx. rewrite bool_decide_false in Hx by congruence.
  destruct (switch_to _ _ _ _ _ _ _) as [[[h tf2] s2]|] eqn:Hsw in Hx; cbn [mbind option_bind] in Hx; [|done].
  injection Hx as -> -> ->. assert (tk_generation t' ≤ 10) by congruence.
  by apply (switch_tick Q c n m2 m3 tf tf' s s' hit t' tn).
Qed.

(** Code that computes and never calls the kernel: only the timer interrupts it. *)
Definition only_ticks (user : el0_code) : Prop :=
  ∀ tf st, frame_ok tf → ∃ iar tf' mem, user tf st = Some (Interrupt iar tf', mem) ∧
    lettuce_gic_acknowledge iar = GIC_INTID_VTIMER ∧ frame_ok tf'.

Lemma contended_arch (Q c svc : Z) (m : mmu_state) (s : scheduler_state mmu_state) :
  contended Q c s → contended Q c (set_service_mmu svc m s).
Proof. intros []. split; try done. by apply set_service_mmu_inv. Qed.

Section preemption.
Context (pac_sign pac_auth : Z → Z → Z).

(** One timer interrupt of a contended processor. *)
Lemma tick_interrupt (Q c iar : Z) (tf : LettuceTrapFrame) (st : cpu_state) :
  contended Q c (cp_sched st) → lettuce_preempt_is_enabled (cp_vars st) = true →
  lettuce_gic_acknowledge iar = GIC_INTID_VTIMER → frame_ok tf →
  ∃ e hit st', take_exception pac_sign pac_auth (Interrupt iar tf) st = Some (e, st') ∧
    cp_vars st' = cp_vars st ∧ tick_progress Q (cp_sched st) hit (cp_sched st') ∧
    if hit then e = ToKernel (status_code LETTUCE_STATUS_OK) else ∃ tf', e = ToUser tf' ∧ frame_ok tf'.
Proof.
  intros Hcd Hen Hiar Htf. cbn [take_exception]. unfold lettuce_arch_irq_lower_el_handler. rewrite Hiar. cbv zeta.
  rewrite Z.eqb_refl.
  assert (∃ m, cp_sched (handle_timer st) = set_service_mmu (cp_service st) m (cp_sched st)) as [m Hs] by by eexists.
  assert (cp_vars (handle_timer st) = cp_vars st) as Hv by done. set (st1 := handle_timer st) in *. clearbody st1.
  unfold lettuce_scheduler_is_active. rewrite Hs, Hv, Hen. cbn [g_scheduler_active set_service_mmu]. rewrite (cd_active _ _ _ Hcd).
  cbn [andb]. destruct (rr_tick Q c (lettuce_timer_get_ticks (cp_timer st1)) tf _ (contended_arch Q c (cp_service st) m _ Hcd) Htf)
    as (hit & tf' & s' & -> & Htf' & Hp).
  assert (tick_progress Q (cp_sched st) hit s') as Hp' by done.
  unfold after_schedule, end_of_interrupt. destruct hit; cbn [mbind option_bind].
  - eexists _, true, _. split_and!; [done|by rewrite <- Hv|done|done].
  - eexists _, false, _. split; [done|]. split_and!; [by rewrite <- Hv|done|by eexists].
Qed.

Lemma ticks_reach_the_limit (user : el0_code) (Q c : Z) (fuel : nat) (tf : LettuceTrapFrame) (st : cpu_state) :
  only_ticks user → contended Q c (cp_sched st) → lettuce_preempt_is_enabled (cp_vars st) = true → frame_ok tf →
  ticks_left Q (cp_sched st) < Z.of_nat fuel →
  ∃ st', el0_execution pac_sign pac_auth user fuel tf st = Some (status_code LETTUCE_STATUS_OK, st') ∧
    g_preempt_count (cp_sched st') = g_preempt_limit (cp_sched st) ∧ g_scheduler_active (cp_sched st') = false.
Proof.
  intros Huser. revert c tf st. induction fuel as [|fuel IH]; intros c tf st Hcd Hen Htf Hf; cbn [el0_execution].
  { assert (0 ≤ slice_of_current (cp_sched st)) as Hs.
    { unfold slice_of_current. destruct (cd_running _ _ _ Hcd) as (t & Ht & _ & _ & Hs).
      rewrite (cd_current _ _ _ Hcd). cbn. by rewrite Ht. }
    destruct (cd_running _ _ _ Hcd) as (t & Ht & _).
    pose proof (cd_budget _ _ _ Hcd). pose proof (cd_quanta _ _ _ Hcd c t Ht). unfold ticks_left in Hf. nia. }
  destruct (Huser tf st Htf) as (iar & tf1 & mem & -> & Hiar & Htf1). cbn [mbind option_bind].
  destruct (tick_interrupt Q c iar tf1 (with_memory mem st) Hcd Hen Hiar Htf1) as (e & hit & st1 & -> & Hv & [Hl Hp] & He).
  cbn [mbind option_bind]. destruct hit.
  - subst e. by exists st1.
  - destruct He as (tf' & -> & Htf'). destruct Hp as [[c' Hcd'] Hlt]. cbn [cp_sched with_memory] in *.
    destruct (IH c' tf' st1 Hcd') as (st' & -> & Hc & Ha); [by rewrite Hv|done|change (cp_sched (with_memory mem st)) with (cp_sched st) in *; lia|].
    exists st'. split_and!; [done| |done]. rewrite Hc. exact Hl.
Qed.

End preemption.

(** ** Claims *)

(** C3: whatever user code does while the kernel waits for it, with preemption, yields,
    sleeps and calls among several services, the kernel's own state stays sound.  When
    the processor comes back, the call stack is within its bounds, the hardware
    translates for the current domain, which is a known one, capabilities and registry
    are what they were, the RUNNING task is the current one, and no more tasks were
    preempted than the limit allows. *)
Theorem user_code_is_contained (pac_sign pac_auth : Z → Z → Z) (L : layout) (user : el0_code) (fuel : nat)
    (tf : LettuceTrapFrame) (st st' : cpu_state) status :
  calls_ok L st → depth st = 0 → sched_inv (cp_sched st) → within_budget (cp_sched st) → code_ok user → frame_ok tf →
  el0_execution pac_sign pac_auth user fuel tf st = Some (status, st') →
  calls_ok L st' ∧ cp_caps st' = cp_caps st ∧ cp_registry st' = cp_registry st ∧
  (∀ i t, arr_get (g_task_table (ss_tasks (cp_sched st'))) i = Some t → tk_state t = LETTUCE_TASK_STATE_RUNNING →
     lettuce_task_current (ss_tasks (cp_sched st')) = Some i) ∧
  (0 < g_preempt_limit (cp_sched st) → g_preempt_count (cp_sched st') ≤ g_preempt_limit (cp_sched st)).
Proof.
  intros Hok Hd Hinv Hb Huser Htf Hx. apply sched_inv_tasks_ok in Hinv as Ht.
  destruct (el0_execution_contained pac_sign pac_auth L user fuel tf st st st' status Huser Htf) as [Hok' _ Hc Hr _ Ht' Hl Hb'];
    [|done|].
  { split; try done. intros; lia. }
  specialize (Ht' Ht). apply sched_inv_tasks_ok in Ht'. split_and!; [done..|apply Ht'|]. rewrite <- Hl. by apply Hb'.
Qed.

(** C38: a task that others wait for cannot keep the processor.  Round robin is active
    with preemption enabled, a positive limit of preemptions that is not reached yet, and
    quanta of at most [Q]; the running task is the rotation point, and another task is
    ready, both in slots of generation at most 10.  Then tasks that only compute (never
    call the kernel) are interrupted by the timer until the limit is reached: the kernel
    continues, after at most [ticks_left] timer interrupts, with exactly the preemptions
    it asked for and the scheduler stopped. *)
Theorem preemption_regains_the_processor (pac_sign pac_auth : Z → Z → Z) (user : el0_code) (Q c : Z) (fuel : nat)
    (tf : LettuceTrapFrame) (st : cpu_state) :
  only_ticks user → contended Q c (cp_sched st) → lettuce_preempt_is_enabled (cp_vars st) = true → frame_ok tf →
  ticks_left Q (cp_sched st) < Z.of_nat fuel →
  ∃ st', el0_execution pac_sign pac_auth user fuel tf st = Some (status_code LETTUCE_STATUS_OK, st') ∧
    g_preempt_count (cp_sched st') = g_preempt_limit (cp_sched st) ∧ g_scheduler_active (cp_sched st') = false.
Proof. apply ticks_reach_the_limit. Qed.

(** ** Two tasks that compute *)

Definition preempt_demo : cpu_state :=
  with_sched (lettuce_scheduler_set_preempt_limit 4 (cp_sched cpu_demo)) cpu_demo.

Definition ticking_code : el0_code := λ tf st, Some (Interrupt GIC_INTID_VTIMER tf, io_mem (cp_io st)).

(** Calls service 20, and computes there. *)
Definition nested_code : el0_code := λ tf st,
  Some (if depth st =? 0 then Synchronous (svc_esr LETTUCE_SVC_CALL) 0 call_frame else Interrupt GIC_INTID_VTIMER tf,
        io_mem (cp_io st)).

Lemma preempt_demo_calls_ok : calls_ok demo_layout preempt_demo.
Proof. destruct cpu_demo_calls_ok. by split. Qed.

Lemma preempt_demo_inv : sched_inv (cp_sched preempt_demo).
Proof. destruct cpu_demo_sched_inv. by split. Qed.

Lemma preempt_demo_contended : contended 5 0 (cp_sched preempt_demo).
Proof.
  split; [exact preempt_demo_inv|reflexivity..| | | | |vm_compute; by split|vm_compute; done].
  - eexists. split; [vm_compute; reflexivity|]. vm_compute. by repeat split.
  - reflexivity.
  - exists 1. eexists. split; [done|]. split; [vm_compute; reflexivity|]. by split.
  - assert (Forall (λ t, 0 ≤ tk_quantum_ticks t ≤ 5) (g_task_table (ss_tasks (cp_sched preempt_demo)))) as Hq
      by (apply (bool_decide_unpack _); vm_compute; exact I).
    intros i t Ht. unfold arr_get in Ht. destruct (0 <=? i); [|done].
    by eapply Forall_lookup_1 in Hq.
Qed.

#[local] Abbreviation nested_run := (el0_execution demo_sign demo_sign nested_code 60 (frame_of 0) preempt_demo).

Lemma user_code_is_contained_witness :
  ∃ st', nested_run = Some (0, st') ∧ depth st' = 1 ∧ calls_ok demo_layout st' ∧ g_preempt_count (cp_sched st') ≤ 4.
Proof.
  destruct (outcome_Some nested_run 0) as [st' Hx]; [vm_compute; reflexivity|].
  assert (depth st' = 1) as Hd by (apply (outcome_view depth _ _ _ _ Hx); vm_compute; reflexivity).
  destruct (user_code_is_contained demo_sign demo_sign demo_layout nested_code 60 (frame_of 0) preempt_demo st' 0)
    as (Hok & _ & _ & _ & Hl).
  - exact preempt_demo_calls_ok.
  - reflexivity.
  - exact preempt_demo_inv.
  - split; vm_compute; done.
  - unfold code_ok, nested_code. intros tf st x mem Htf [= <- <-]. destruct (_ =? 0); [reflexivity|exact Htf].
  - reflexivity.
  - exact Hx.
  - exists st'. split; [exact Hx|]. split; [exact Hd|]. split; [exact Hok|]. apply Hl. reflexivity.
Defined.

Lemma preemption_regains_the_processor_witness :
  ∃ st', el0_execution demo_sign demo_sign ticking_code 24 (frame_of 0) preempt_demo = Some (0, st') ∧
    g_preempt_count (cp_sched st') = 4 ∧ g_scheduler_active (cp_sched st') = false.
Proof.
  apply (preemption_regains_the_processor demo_sign demo_sign ticking_code 5 0 24 (frame_of 0) preempt_demo).
  - intros tf st Htf. eexists _, _, _. split; [reflexivity|]. split; [reflexivity|exact Htf].
  - exact preempt_demo_contended.
  - reflexivity.
  - reflexivity.
  - vm_compute. reflexivity.
Defined.
