(* ===== verification/Layout.v ===== *)
(** * The memory layout of the C structures

    The rules by which AArch64 lays out C types, the structures of the kernel written with
    them, and the static assertions and offset comments of the headers.  [Machine] reads
    the offsets the assembly uses from here. *)

From Stdlib Require Import String.
From S2P Require Import Prelude Types Capability Registry Memory SharedBuffer Task.

(** ** Sizes, alignments and offsets *)

(** A scalar is aligned to its size. *)
Inductive ctype :=
  | Scalar (size : Z)
  | Array (n : Z) (t : ctype)
  | Struct (fields : list (string * ctype)).

Definition align_up (o a : Z) : Z := (o + a - 1) / a * a.

Fixpoint alignof (t : ctype) : Z :=
  match t with
  | Scalar n => n
  | Array _ t => alignof t
  | Struct fs => (fix go fs := match fs with [] => 1 | (_, t) :: fs' => Z.max (alignof t) (go fs') end) fs
  end.

Fixpoint sizeof (t : ctype) : Z :=
  match t with
  | Scalar n => n
  | Array n t => n * sizeof t
  | Struct fs =>
      align_up ((fix go o fs := match fs with [] => o | (_, t) :: fs' => go (align_up o (alignof t) + sizeof t) fs' end) 0 fs)
               (alignof (Struct fs))
  end.

(** The fields of a structure with their offsets. *)
Fixpoint place (o : Z) (fs : list (string * ctype)) : list (string * Z * ctype) :=
  match fs with
  | [] => []
  | (f, t) :: fs' => (f, align_up o (alignof t), t) :: place (align_up o (alignof t) + sizeof t) fs'
  end.

Definition fields_of (t : ctype) : list (string * Z * ctype) :=
  match t with Struct fs => place 0 fs | _ => [] end.

Fixpoint lookup_field (f : string) (l : list (string * Z * ctype)) : option Z :=
  match l with
  | [] => None
  | (g, o, _) :: l' => if String.eqb f g then Some o else lookup_field f l'
  end.

Definition offsetof (t : ctype) (f : string) : option Z := lookup_field f (fields_of t).

(** ** The types of the sources *)

Definition uint8_t : ctype := Scalar 1.
Definition uint16_t : ctype := Scalar 2.
Definition uint32_t : ctype := Scalar 4.
Definition uint64_t : ctype := Scalar 8.
Definition c_bool : ctype := Scalar 1.
Definition size_t : ctype := Scalar 8.
Definition uintptr_t : ctype := Scalar 8.
Definition pointer : ctype := Scalar 8.
(** An [enum] without a fixed type. *)
Definition plain_enum : ctype := Scalar 4.

Definition LettuceServiceId : ctype := uint32_t.
Definition LettuceResourceId : ctype := uint32_t.
Definition LettuceDomainId : ctype := uint32_t.
Definition LettuceOperationId : ctype := uint32_t.
Definition LettuceCapabilityHandle : ctype := uint32_t.
Definition LettuceStatus_t : ctype := uint32_t.
Definition LettuceLayer_t : ctype := uint8_t.
Definition LettuceServiceFlags_t : ctype := uint32_t.
Definition LettuceTaskId : ctype := uint32_t.

#[local] Open Scope string_scope.

Definition service_descriptor_t : ctype := Struct
  [("id", LettuceServiceId); ("layer", LettuceLayer_t); ("reserved", Array 3 uint8_t);
   ("domain", LettuceDomainId); ("flags", LettuceServiceFlags_t)].

Definition call_message_t : ctype := Struct
  [("target_service_id", LettuceServiceId); ("operation_id", LettuceOperationId);
   ("resource_id", LettuceResourceId); ("capability_handle", LettuceCapabilityHandle)].

Definition dispatch_entry_t : ctype := Struct
  [("entry", pointer); ("active", c_bool); ("reserved", Array 7 uint8_t)].

Definition registry_entry_t : ctype := Struct
  [("descriptor", service_descriptor_t); ("operations", Array LETTUCE_DISPATCH_OPERATION_LIMIT dispatch_entry_t)].

Definition call_resolution_t : ctype := Struct [("caller", pointer); ("target", pointer); ("entry", pointer)].

Definition capability_entry_t : ctype := Struct
  [("generation", uint16_t); ("active", c_bool); ("reserved", uint8_t); ("owner", LettuceServiceId);
   ("target", LettuceServiceId); ("operation", LettuceOperationId); ("resource", LettuceResourceId);
   ("permissions", uint32_t)].

Definition trap_frame_t : ctype := Struct
  [("x", Array 30 uint64_t); ("lr", uint64_t); ("elr", uint64_t); ("spsr", uint64_t); ("sp_el0", uint64_t)].

Definition arch_context_frame_t : ctype := Struct
  [("service_id", LettuceServiceId); ("domain_id", LettuceDomainId); ("elr", uint64_t); ("spsr", uint64_t);
   ("sp_el0", uint64_t)].

Definition elevator_descriptor_t : ctype := Struct
  [("target_entry_pc", uint64_t); ("target_sp_el0", uint64_t); ("target_ttbr0_val", uint64_t);
   ("caller_ttbr0_val", uint64_t); ("target_service", LettuceServiceId); ("target_domain", LettuceDomainId);
   ("caller_service", LettuceServiceId); ("caller_domain", LettuceDomainId)].

Definition task_context_t : ctype := Struct
  [("x", Array 31 uint64_t); ("sp_el0", uint64_t); ("elr_el1", uint64_t); ("spsr_el1", uint64_t)].

Definition task_t : ctype := Struct
  [("id", LettuceTaskId); ("generation", uint16_t); ("priority", uint8_t); ("padding1", uint8_t);
   ("service_id", LettuceServiceId); ("domain_id", LettuceDomainId); ("state", plain_enum); ("weight", uint32_t);
   ("requested_slice_ticks", uint32_t); ("padding2", uint32_t); ("time_slice_ticks", uint64_t);
   ("quantum_ticks", uint64_t); ("vruntime", uint64_t); ("vdeadline", uint64_t);
   ("sleep_deadline_ticks", uint64_t); ("total_ticks_run", uint64_t); ("stack_base", uintptr_t);
   ("stack_size", size_t); ("name", pointer); ("context", task_context_t)].

Definition arch_domain_t : ctype := Struct
  [("ttbr0_val", uint64_t); ("l1_root", pointer); ("private_va", uintptr_t); ("private_pa", uintptr_t);
   ("stack_va", uintptr_t); ("stack_pa", uintptr_t); ("stack_top", uintptr_t); ("name", pointer);
   ("id", LettuceDomainId); ("asid", uint16_t); ("reserved", uint16_t)].

Definition allocation_t : ctype := Struct
  [("first_page", uint16_t); ("page_count", uint16_t); ("domain", LettuceDomainId); ("generation", uint16_t);
   ("active", c_bool); ("reserved", uint8_t)].

Definition shared_buffer_t : ctype := Struct
  [("size", size_t); ("resource", LettuceResourceId); ("read_capability", LettuceCapabilityHandle);
   ("write_capability", LettuceCapabilityHandle); ("owner", LettuceServiceId); ("generation", uint16_t);
   ("active", c_bool); ("reserved", Array 5 uint8_t); ("data", Array SharedBuffer.LETTUCE_SHARED_BUFFER_SIZE uint8_t)].

Definition all_structs : list ctype :=
  [service_descriptor_t; call_message_t; dispatch_entry_t; registry_entry_t; call_resolution_t; capability_entry_t;
   trap_frame_t; arch_context_frame_t; elevator_descriptor_t; task_context_t; task_t; arch_domain_t; allocation_t;
   shared_buffer_t].

(** ** The static assertions *)

#[local] Open Scope Z_scope.

Inductive assertion :=
  | SizeIs (t : ctype) (n : Z)
  | AlignIs (t : ctype) (n : Z)
  | OffsetIs (t : ctype) (f : string) (n : Z)
  | ValueIs (v n : Z).

Definition holds (a : assertion) : bool :=
  match a with
  | SizeIs t n => sizeof t =? n
  | AlignIs t n => alignof t =? n
  | OffsetIs t f n => match offsetof t f with Some o => o =? n | None => false end
  | ValueIs v n => v =? n
  end.

(** [abi.h] *)
Definition LETTUCE_ABI_UINT32_WIDTH : Z := 32.
Definition LETTUCE_ABI_STRUCT_ALIGNMENT : Z := 4.
Definition LETTUCE_ABI_VERSION : Z := u32 ((1 .<< 24) .| (0 .<< 16) .| 0).
Definition LETTUCE_ABI_COMPAT_VERSION : Z := u32 ((1 .<< 24) .| (0 .<< 16) .| 0).

Definition abi_h : list assertion := [ValueIs LETTUCE_ABI_UINT32_WIDTH 32; ValueIs LETTUCE_ABI_STRUCT_ALIGNMENT 4].
Definition types_h : list assertion :=
  [SizeIs LettuceServiceId 4; SizeIs LettuceResourceId 4; SizeIs LettuceDomainId 4; SizeIs LettuceOperationId 4].
Definition errors_h : list assertion := [SizeIs LettuceStatus_t 4].
Definition capability_h : list assertion := [SizeIs LettuceCapabilityHandle 4].
Definition service_h : list assertion :=
  [SizeIs LettuceLayer_t 1; SizeIs LettuceServiceFlags_t 4; SizeIs service_descriptor_t 16;
   AlignIs service_descriptor_t 4; OffsetIs service_descriptor_t "id" 0; OffsetIs service_descriptor_t "layer" 4;
   OffsetIs service_descriptor_t "domain" 8; OffsetIs service_descriptor_t "flags" 12].
Definition message_c : list assertion := [SizeIs call_message_t 16].
Definition kernel_h_entry : list assertion := [SizeIs dispatch_entry_t 16; AlignIs dispatch_entry_t 8].
Definition kernel_h_registry : list assertion := [SizeIs registry_entry_t (16 + 64 * 16)].
Definition kernel_h_resolution : list assertion := [SizeIs call_resolution_t 24].
Definition capability_internal_h : list assertion :=
  [SizeIs capability_entry_t 24; AlignIs capability_entry_t 4; OffsetIs capability_entry_t "generation" 0;
   OffsetIs capability_entry_t "active" 2].
Definition arch_h_frame : list assertion := [SizeIs trap_frame_t 272; AlignIs trap_frame_t 8].
Definition arch_h_context : list assertion :=
  [SizeIs arch_context_frame_t 32; AlignIs arch_context_frame_t 8; OffsetIs arch_context_frame_t "elr" 8].
Definition task_h : list assertion := [SizeIs task_t 376; AlignIs task_t 8].
Definition mmu_c : list assertion := [SizeIs arch_domain_t 72; OffsetIs arch_domain_t "ttbr0_val" 0].
Definition fixed_c : list assertion := [SizeIs allocation_t 12; AlignIs allocation_t 4].
Definition buffer_c : list assertion :=
  [SizeIs shared_buffer_t (32 + SharedBuffer.LETTUCE_SHARED_BUFFER_SIZE); OffsetIs shared_buffer_t "data" 32].

Definition static_assertions : list assertion :=
  abi_h ++ types_h ++ errors_h ++ capability_h ++ service_h ++ message_c ++ kernel_h_entry ++ kernel_h_registry ++
  kernel_h_resolution ++ capability_internal_h ++ arch_h_frame ++ arch_h_context ++ task_h ++ mmu_c ++ fixed_c ++ buffer_c.

(** The offsets that comments beside the fields state: [task.h], [capability_internal.h],
    [buffer.c] and [elevator.S]. *)
Definition documented_offsets : list assertion :=
  map (λ '(f, o), OffsetIs task_t f o)
    [("id", 0); ("generation", 4); ("priority", 6); ("padding1", 7); ("service_id", 8); ("domain_id", 12);
     ("state", 16); ("weight", 20); ("requested_slice_ticks", 24); ("padding2", 28); ("time_slice_ticks", 32);
     ("quantum_ticks", 40); ("vruntime", 48); ("vdeadline", 56); ("sleep_deadline_ticks", 64);
     ("total_ticks_run", 72); ("stack_base", 80); ("stack_size", 88); ("name", 96); ("context", 104)] ++
  map (λ '(f, o), OffsetIs capability_entry_t f o)
    [("generation", 0); ("active", 2); ("reserved", 3); ("owner", 4); ("target", 8); ("operation", 12);
     ("resource", 16); ("permissions", 20)] ++
  map (λ '(f, o), OffsetIs shared_buffer_t f o)
    [("size", 0); ("resource", 8); ("read_capability", 12); ("write_capability", 16); ("owner", 20);
     ("generation", 24); ("active", 26); ("reserved", 27); ("data", 32)] ++
  map (λ '(f, o), OffsetIs elevator_descriptor_t f o)
    [("target_entry_pc", 0); ("target_sp_el0", 8); ("target_ttbr0_val", 16); ("caller_ttbr0_val", 24);
     ("target_service", 32); ("target_domain", 36); ("caller_service", 40); ("caller_domain", 44)] ++
  map (λ '(f, o), OffsetIs trap_frame_t f o) [("elr", 248); ("spsr", 256); ("sp_el0", 264)].

(** ** What the rules guarantee *)

(** Scalars have sizes, arrays have lengths. *)
Fixpoint type_ok (t : ctype) : bool :=
  match t with
  | Scalar n => 0 <? n
  | Array n t => (0 <=? n) && type_ok t
  | Struct fs => (fix go fs := match fs with [] => true | (_, t) :: fs' => type_ok t && go fs' end) fs
  end.

(** Each field is aligned and starts where the previous one ends or later; the last ends
    before [size]. *)
Fixpoint placed (o size : Z) (l : list (string * Z * ctype)) : Prop :=
  match l with
  | [] => o ≤ size
  | (_, p, t) :: l' => o ≤ p ∧ p mod alignof t = 0 ∧ placed (p + sizeof t) size l'
  end.

Fixpoint type_ind (P : ctype → Prop) (Hs : ∀ n, P (Scalar n)) (Ha : ∀ n t, P t → P (Array n t))
    (Hf : ∀ fs, Forall (λ f, P f.2) fs → P (Struct fs)) (t : ctype) : P t :=
  match t with
  | Scalar n => Hs n
  | Array n t => Ha n t (type_ind P Hs Ha Hf t)
  | Struct fs => Hf fs ((fix go (fs : list (string * ctype)) : Forall (λ f, P f.2) fs :=
      match fs with
      | [] => Forall_nil_2 _
      | f :: fs' => Forall_cons_2 _ f fs' (type_ind P Hs Ha Hf f.2) (go fs')
      end) fs)
  end.

Lemma align_up_spec (o a : Z) : 0 < a → o ≤ align_up o a < o + a ∧ align_up o a mod a = 0.
Proof.
  intros Ha. unfold align_up. split; [|by apply Z.mod_mul; lia].
  pose proof (Z.div_mod (o + a - 1) a ltac:(lia)). pose proof (Z.mod_pos_bound (o + a - 1) a Ha). lia.
Qed.

Lemma type_ok_struct (fs : list (string * ctype)) :
  type_ok (Struct fs) = true → Forall (λ f, type_ok f.2 = true) fs.
Proof.
  cbn. induction fs as [|[f t] fs IH]; intros H; [constructor|]. apply andb_prop in H as [Ht H].
  constructor; [done|by apply IH].
Qed.

Lemma alignof_pos (t : ctype) : type_ok t = true → 0 < alignof t.
Proof.
  induction t as [n|n t IH|fs IH] using type_ind; intros Hok.
  - cbn in *. lia.
  - cbn in *. apply andb_prop in Hok as [_ ?]. auto.
  - cbn. clear IH Hok. induction fs as [|[f t] fs IH]; lia.
Qed.

Lemma alignof_field (fs : list (string * ctype)) (f : string * ctype) :
  f ∈ fs → alignof f.2 ≤ alignof (Struct fs).
Proof.
  cbn. induction fs as [|[g t] fs IH]; intros Hf; [by apply elem_of_nil in Hf|].
  apply elem_of_cons in Hf as [-> |Hf]; cbn; [lia|]. specialize (IH Hf). lia.
Qed.

(** Where the last field ends. *)
Fixpoint end_of (o : Z) (fs : list (string * ctype)) : Z :=
  match fs with
  | [] => o
  | (_, t) :: fs' => end_of (align_up o (alignof t) + sizeof t) fs'
  end.

Lemma sizeof_struct (fs : list (string * ctype)) :
  sizeof (Struct fs) = align_up (end_of 0 fs) (alignof (Struct fs)).
Proof. done. Qed.

Lemma end_of_ge (fs : list (string * ctype)) (o : Z) :
  Forall (λ f, type_ok f.2 = true ∧ 0 ≤ sizeof f.2) fs → o ≤ end_of o fs.
Proof.
  intros H. revert o. induction H as [|[f t] fs [Hok Hs] _ IH]; intros o; cbn in *; [lia|].
  pose proof (align_up_spec o (alignof t) (alignof_pos t Hok)).
  pose proof (IH (align_up o (alignof t) + sizeof t)). lia.
Qed.

Lemma sizeof_nonneg (t : ctype) : type_ok t = true → 0 ≤ sizeof t.
Proof.
  induction t as [n|n t IH|fs IH] using type_ind; intros Hok.
  - cbn in *. lia.
  - cbn in *. apply andb_prop in Hok as [? ?]. apply Z.mul_nonneg_nonneg; [lia|auto].
  - rewrite sizeof_struct. pose proof (align_up_spec (end_of 0 fs) _ (alignof_pos _ Hok)).
    assert (0 ≤ end_of 0 fs); [|lia]. apply end_of_ge. apply type_ok_struct in Hok.
    rewrite Forall_forall in *. intros f Hf. split; [by apply Hok|by apply IH, Hok].
Qed.

Lemma place_placed (fs : list (string * ctype)) (o size : Z) :
  Forall (λ f, type_ok f.2 = true) fs → end_of o fs ≤ size → placed o size (place o fs).
Proof.
  intros H. revert o. induction H as [|[f t] fs Hok _ IH]; intros o Ho; cbn in *; [done|].
  pose proof (align_up_spec o (alignof t) (alignof_pos t Hok)) as [? ?]. split_and!; [lia|done|by apply IH].
Qed.

(** Every structure built of well-formed types has disjoint, aligned fields inside it,
    and a size that keeps the elements of an array of it aligned. *)
Lemma struct_placed (fs : list (string * ctype)) :
  type_ok (Struct fs) = true →
  placed 0 (sizeof (Struct fs)) (fields_of (Struct fs)) ∧ sizeof (Struct fs) mod alignof (Struct fs) = 0.
Proof.
  intros Hok. rewrite sizeof_struct.
  pose proof (align_up_spec (end_of 0 fs) _ (alignof_pos _ Hok)) as [? ?].
  split; [|done]. apply place_placed; [by apply type_ok_struct|lia].
Qed.

(** ** The assertions of the sources *)

(** The layouts are what the sources say.  Under the AArch64 rules every static
    assertion of the sources holds, every offset that a comment (in the headers or in
    [elevator.S]) states is right, and in every structure the fields are aligned and do
    not overlap. *)
Lemma layouts_are_as_asserted :
  forallb holds static_assertions = true ∧ forallb holds documented_offsets = true ∧
  Forall (λ t, placed 0 (sizeof t) (fields_of t) ∧ sizeof t mod alignof t = 0) all_structs.
Proof.
  split; [vm_compute; reflexivity|]. split; [vm_compute; reflexivity|].
  repeat (apply Forall_cons_2; [apply struct_placed; vm_compute; reflexivity|]). apply Forall_nil_2.
Qed.
