(* ===== verification/Machine.v ===== *)
(** * The kernel's assembly: [exception.S], [entry.S], [elevator.S], [context_switch.S], [boot.S]

    The privileged instructions these files are written with, on a machine with 31
    general registers, the stack pointer, the system registers of an exception and a
    memory of 64-bit words; and the routines, instruction by instruction.  [None] is an
    access to a word that is not there, is not aligned, or goes through a misaligned
    stack pointer. *)

From Stdlib Require Import String.
From S2P Require Import Prelude Types Task Scheduler Mmu Cpu Layout.

(** ** The machine *)

Record machine := {
  m_x : list Z;
  m_sp : Z;
  m_elr_el1 : Z;
  m_spsr_el1 : Z;
  m_sp_el0 : Z;
  m_hw : hw_state;
  m_mem : gmap Z Z
}.

Definition with_x (x : list Z) (m : machine) : machine :=
  {| m_x := x; m_sp := m_sp m; m_elr_el1 := m_elr_el1 m; m_spsr_el1 := m_spsr_el1 m; m_sp_el0 := m_sp_el0 m;
     m_hw := m_hw m; m_mem := m_mem m |}.

Definition with_sp (sp : Z) (m : machine) : machine :=
  {| m_x := m_x m; m_sp := sp; m_elr_el1 := m_elr_el1 m; m_spsr_el1 := m_spsr_el1 m; m_sp_el0 := m_sp_el0 m;
     m_hw := m_hw m; m_mem := m_mem m |}.

Definition with_mem (mem : gmap Z Z) (m : machine) : machine :=
  {| m_x := m_x m; m_sp := m_sp m; m_elr_el1 := m_elr_el1 m; m_spsr_el1 := m_spsr_el1 m; m_sp_el0 := m_sp_el0 m;
     m_hw := m_hw m; m_mem := mem |}.

(** ** Instructions *)

(** A general register or [xzr]; a base register. *)
Inductive reg := X (n : nat) | XZR.
Inductive base := SP | Xb (n : nat).
Inductive sysname := ELR_EL1 | SPSR_EL1 | SP_EL0 | TTBR0_EL1.

Inductive insn :=
  | Sub_sp (n : Z)                        (* sub sp, sp, #n *)
  | Add_sp (n : Z)                        (* add sp, sp, #n *)
  | Stp (r1 r2 : reg) (b : base) (o : Z)  (* stp r1, r2, [b, #o] *)
  | Str (r : reg) (b : base) (o : Z)
  | Ldp (n1 n2 : nat) (b : base) (o : Z)
  | Ldr (n : nat) (b : base) (o : Z)
  | Mrs (n : nat) (s : sysname)
  | Msr (s : sysname) (r : reg)
  | Mov_from_sp (n : nat)                 (* mov xn, sp *)
  | Mov_to_sp (n : nat)                   (* mov sp, xn *)
  | Adrp (n : nat) (a : Z)                (* the page of the symbol at a *)
  | Add_lo12 (n m : nat) (a : Z)          (* add xn, xm, :lo12:a *)
  | Add_sp_lo12 (m : nat) (a : Z)         (* add sp, xm, :lo12:a *)
  | Barrier.                              (* isb, dsb *)

Definition get_reg (r : reg) (m : machine) : option Z := match r with X n => m_x m !! n | XZR => Some 0 end.

Definition set_reg (n : nat) (v : Z) (m : machine) : option machine :=
  if decide (n < length (m_x m))%nat then Some (with_x (<[n := v]> (m_x m)) m) else None.

Definition get_sys (s : sysname) (m : machine) : Z :=
  match s with
  | ELR_EL1 => m_elr_el1 m
  | SPSR_EL1 => m_spsr_el1 m
  | SP_EL0 => m_sp_el0 m
  | TTBR0_EL1 => mrs ttbr0_el1 (m_hw m)
  end.

Definition set_sys (s : sysname) (v : Z) (m : machine) : machine :=
  {| m_x := m_x m; m_sp := m_sp m;
     m_elr_el1 := match s with ELR_EL1 => v | _ => m_elr_el1 m end;
     m_spsr_el1 := match s with SPSR_EL1 => v | _ => m_spsr_el1 m end;
     m_sp_el0 := match s with SP_EL0 => v | _ => m_sp_el0 m end;
     m_hw := match s with TTBR0_EL1 => msr ttbr0_el1 v (m_hw m) | _ => m_hw m end;
     m_mem := m_mem m |}.

(** The address of an access; through the stack pointer it must be 16-byte aligned. *)
Definition address (b : base) (o : Z) (m : machine) : option Z :=
  match b with
  | SP => if m_sp m mod 16 =? 0 then Some (m_sp m + o) else None
  | Xb n => a ← m_x m !! n; Some (a + o)
  end.

Definition load (a : Z) (m : machine) : option Z := if a mod 8 =? 0 then m_mem m !! a else None.

Definition store (a v : Z) (m : machine) : option machine :=
  if a mod 8 =? 0 then _ ← m_mem m !! a; Some (with_mem (<[a := v]> (m_mem m)) m) else None.

Definition exec1 (i : insn) (m : machine) : option machine :=
  match i with
  | Sub_sp n => Some (with_sp (u64 (m_sp m - n)) m)
  | Add_sp n => Some (with_sp (u64 (m_sp m + n)) m)
  | Stp r1 r2 b o =>
      a ← address b o m; v1 ← get_reg r1 m; v2 ← get_reg r2 m; m ← store a v1 m; store (a + 8) v2 m
  | Str r b o => a ← address b o m; v ← get_reg r m; store a v m
  | Ldp n1 n2 b o =>
      a ← address b o m; v1 ← load a m; v2 ← load (a + 8) m; m ← set_reg n1 v1 m; set_reg n2 v2 m
  | Ldr n b o => a ← address b o m; v ← load a m; set_reg n v m
  | Mrs n s => set_reg n (get_sys s m) m
  | Msr s r => v ← get_reg r m; Some (set_sys s v m)
  | Mov_from_sp n => set_reg n (m_sp m) m
  | Mov_to_sp n => v ← m_x m !! n; Some (with_sp v m)
  | Adrp n a => set_reg n (a - a mod 4096) m
  | Add_lo12 n k a => v ← m_x m !! k; set_reg n (u64 (v + a mod 4096)) m
  | Add_sp_lo12 k a => v ← m_x m !! k; Some (with_sp (u64 (v + a mod 4096)) m)
  | Barrier => Some m
  end.

Fixpoint exec (code : list insn) (m : machine) : option machine :=
  match code with
  | [] => Some m
  | i :: code' => m' ← exec1 i m; exec code' m'
  end.

(** ** [exception.S] *)

(** The four vectors that save a frame share this prologue and this epilogue; between them
    [mov x0, sp] and the call of the C handler. *)
Definition vector_save : list insn :=
  [Sub_sp 272;
   Stp (X 0) (X 1) SP 0; Stp (X 2) (X 3) SP 16; Stp (X 4) (X 5) SP 32; Stp (X 6) (X 7) SP 48;
   Stp (X 8) (X 9) SP 64; Stp (X 10) (X 11) SP 80; Stp (X 12) (X 13) SP 96; Stp (X 14) (X 15) SP 112;
   Stp (X 16) (X 17) SP 128; Stp (X 18) (X 19) SP 144; Stp (X 20) (X 21) SP 160; Stp (X 22) (X 23) SP 176;
   Stp (X 24) (X 25) SP 192; Stp (X 26) (X 27) SP 208; Stp (X 28) (X 29) SP 224; Str (X 30) SP 240;
   Mrs 21 ELR_EL1; Mrs 22 SPSR_EL1; Stp (X 21) (X 22) SP 248; Mrs 23 SP_EL0; Str (X 23) SP 264;
   Mov_from_sp 0].

Definition vector_restore : list insn :=
  [Ldr 23 SP 264; Msr SP_EL0 (X 23); Ldp 21 22 SP 248; Msr ELR_EL1 (X 21); Msr SPSR_EL1 (X 22);
   Ldp 0 1 SP 0; Ldp 2 3 SP 16; Ldp 4 5 SP 32; Ldp 6 7 SP 48; Ldp 8 9 SP 64; Ldp 10 11 SP 80; Ldp 12 13 SP 96;
   Ldp 14 15 SP 112; Ldp 16 17 SP 128; Ldp 18 19 SP 144; Ldp 20 21 SP 160; Ldp 22 23 SP 176; Ldp 24 25 SP 192;
   Ldp 26 27 SP 208; Ldp 28 29 SP 224; Ldr 30 SP 240; Add_sp 272].

(** ** [entry.S] *)

(** Up to the [eret]; [g_el1_saved_sp] is the address of the variable. *)
Definition el0_enter (g_el1_saved_sp : Z) : list insn :=
  [Sub_sp 96;
   Stp (X 19) (X 20) SP 0; Stp (X 21) (X 22) SP 16; Stp (X 23) (X 24) SP 32; Stp (X 25) (X 26) SP 48;
   Stp (X 27) (X 28) SP 64; Stp (X 29) (X 30) SP 80;
   Adrp 2 g_el1_saved_sp; Mov_from_sp 3; Str (X 3) (Xb 2) (g_el1_saved_sp mod 4096);
   Msr ELR_EL1 (X 0); Msr SP_EL0 (X 1); Msr SPSR_EL1 XZR; Barrier].

(** Up to the [ret]. *)
Definition el0_resume_kernel (g_el1_saved_sp : Z) : list insn :=
  [Adrp 2 g_el1_saved_sp; Ldr 3 (Xb 2) (g_el1_saved_sp mod 4096); Mov_to_sp 3;
   Ldp 19 20 SP 0; Ldp 21 22 SP 16; Ldp 23 24 SP 32; Ldp 25 26 SP 48; Ldp 27 28 SP 64; Ldp 29 30 SP 80; Add_sp 96].

(** ** [elevator.S] *)

Definition elevator_asm_transition : list insn :=
  [Ldr 2 (Xb 0) 16; Barrier; Msr TTBR0_EL1 (X 2); Barrier;
   Ldr 3 (Xb 0) 0; Ldr 4 (Xb 0) 8; Str (X 3) (Xb 1) 248; Str XZR (Xb 1) 256; Str (X 4) (Xb 1) 264].

(** ** [context_switch.S] *)

Definition switch_save : list insn :=
  [Stp (X 19) (X 20) (Xb 0) (19 * 8); Stp (X 21) (X 22) (Xb 0) (21 * 8); Stp (X 23) (X 24) (Xb 0) (23 * 8);
   Stp (X 25) (X 26) (Xb 0) (25 * 8); Stp (X 27) (X 28) (Xb 0) (27 * 8); Stp (X 29) (X 30) (Xb 0) (29 * 8);
   Mov_from_sp 2; Str (X 2) (Xb 0) (31 * 8)].

Definition switch_restore : list insn :=
  [Ldp 19 20 (Xb 1) (19 * 8); Ldp 21 22 (Xb 1) (21 * 8); Ldp 23 24 (Xb 1) (23 * 8); Ldp 25 26 (Xb 1) (25 * 8);
   Ldp 27 28 (Xb 1) (27 * 8); Ldp 29 30 (Xb 1) (29 * 8); Ldr 2 (Xb 1) (31 * 8); Mov_to_sp 2].

(** [cbz xn, l; code; l:] *)
Definition unless_zero (n : nat) (code : list insn) (m : machine) : option machine :=
  v ← m_x m !! n; if v =? 0 then Some m else exec code m.

Definition lettuce_arch_context_switch (m : machine) : option machine :=
  m ← unless_zero 0 switch_save m; unless_zero 1 switch_restore m.

(** ** [boot.S] *)

(** [1: cmp x0, x1; b.hs 2f; stp x2, x2, [x0], #16; b 1b; 2:], at most [fuel] turns. *)
Fixpoint clear_bss (fuel : nat) (m : machine) : option machine :=
  match fuel with
  | O => None
  | S fuel' =>
      x0 ← m_x m !! 0%nat; x1 ← m_x m !! 1%nat;
      if x1 <=? x0 then Some m else
      m ← exec [Stp (X 2) (X 2) (Xb 0) 0] m; m ← set_reg 0 (u64 (x0 + 16)) m; clear_bss fuel' m
  end.

(** From [_start] to the call of [lettuce_arm64_main]. *)
Definition start (bss_start bss_end boot_stack_top : Z) (fuel : nat) (m : machine) : option machine :=
  m ← exec [Adrp 0 bss_start; Add_lo12 0 0 bss_start; Adrp 1 bss_end; Add_lo12 1 1 bss_end] m;
  m ← set_reg 2 0 m;
  m ← clear_bss fuel m;
  exec [Adrp 0 boot_stack_top; Add_sp_lo12 0 boot_stack_top] m.

(** ** The C view of memory *)

(** A word field of the structure [t] at [a]. *)
Definition read_field (t : ctype) (f : string) (a : Z) (mem : gmap Z Z) : option Z :=
  o ← offsetof t f; mem !! (a + o).

(** The first [n] elements of an array of words. *)
Definition read_words (t : ctype) (f : string) (n : nat) (a : Z) (mem : gmap Z Z) : option (list Z) :=
  o ← offsetof t f; mapM (λ i, mem !! (a + o + 8 * Z.of_nat i)) (seq 0 n).

(** [*(LettuceTrapFrame * )a] *)
Definition read_frame (a : Z) (mem : gmap Z Z) : option LettuceTrapFrame :=
  x ← read_words trap_frame_t "x" 30 a mem;
  lr ← read_field trap_frame_t "lr" a mem;
  elr ← read_field trap_frame_t "elr" a mem;
  spsr ← read_field trap_frame_t "spsr" a mem;
  sp_el0 ← read_field trap_frame_t "sp_el0" a mem;
  Some {| tf_x := x; tf_lr := lr; tf_elr := elr; tf_spsr := spsr; tf_sp_el0 := sp_el0 |}.

(** The fields of an elevator descriptor the assembly uses. *)
Definition read_elevator (a : Z) (mem : gmap Z Z) : option (Z * Z * Z) :=
  pc ← read_field elevator_descriptor_t "target_entry_pc" a mem;
  sp ← read_field elevator_descriptor_t "target_sp_el0" a mem;
  ttbr ← read_field elevator_descriptor_t "target_ttbr0_val" a mem;
  Some (pc, sp, ttbr).

(** The registers an exception return leaves to user code, and an exception takes from it. *)
Definition user_frame (m : machine) : LettuceTrapFrame :=
  {| tf_x := take 30 (m_x m); tf_lr := default 0 (m_x m !! 30%nat); tf_elr := m_elr_el1 m; tf_spsr := m_spsr_el1 m;
     tf_sp_el0 := m_sp_el0 m |}.
