(* ===== verification/MachineSpec.v ===== *)
(** * What the kernel's assembly does

    The exception vectors hand the interrupted registers to the C handlers as a trap
    frame and install the frame they leave; the entry and exit of user mode keep what
    the calling convention promises to C code; a run of user code on the machine is the
    run of [Main.v]; the elevator's instructions are the transition of [Cpu.v].
    The kernel context switch and early boot do what their comments say. *)

From Stdlib Require Import String.
From S2P Require Import Prelude Types Context Registry Ipc Task Scheduler SchedulerSpec Mmu Timer Posix Cpu CpuSpec.
From S2P Require Import Main MainSpec Preempt Layout Machine.

(** ** Stores *)

(** [n] words at [b]. *)
Definition room (b : Z) (n : nat) (mem : gmap Z Z) : Prop :=
  ∀ i : nat, (i < n)%nat → is_Some (mem !! (b + 8 * Z.of_nat i)).

Definition same_words (mem mem' : gmap Z Z) : Prop := ∀ a, is_Some (mem' !! a) ↔ is_Some (mem !! a).

(** Words stored at offsets from [b], in order. *)
Definition store_all (b : Z) (ws : list (Z * Z)) (mem : gmap Z Z) : gmap Z Z :=
  foldl (λ mem w, <[b + w.1 := w.2]> mem) mem ws.

Fixpoint find_word (o : Z) (ws : list (Z * Z)) : option Z :=
  match ws with
  | [] => None
  | (p, v) :: ws' => match find_word o ws' with Some w => Some w | None => if o =? p then Some v else None end
  end.

Lemma lookup_store_all (b o : Z) (ws : list (Z * Z)) (mem : gmap Z Z) :
  store_all b ws mem !! (b + o) = match find_word o ws with Some v => Some v | None => mem !! (b + o) end.
Proof.
  revert mem. induction ws as [|[p v] ws IH]; intros mem; [done|]. cbn [store_all foldl find_word fst snd].
  fold (store_all b ws (<[b + p := v]> mem)). rewrite IH. destruct (find_word o ws); [done|].
  destruct (Z.eqb_spec o p) as [->|]; [by rewrite lookup_insert_eq|]. by rewrite lookup_insert_ne by lia.
Qed.

Lemma lookup_word (o a b v : Z) (ws : list (Z * Z)) (mem : gmap Z Z) :
  find_word o ws = Some v → a = b + o → store_all b ws mem !! a = Some v.
Proof. intros Hf ->. by rewrite lookup_store_all, Hf. Qed.

Lemma lookup_outside (a b : Z) (n : nat) (ws : list (Z * Z)) (mem : gmap Z Z) :
  forallb (λ w, (0 <=? w.1) && (w.1 <? 8 * Z.of_nat n)) ws = true → a < b ∨ b + 8 * Z.of_nat n ≤ a →
  store_all b ws mem !! a = mem !! a.
Proof.
  intros Hws Ha. revert mem. induction ws as [|[p v] ws IH]; intros mem; [done|]. cbn in Hws. b2p.
  cbn [store_all foldl fst snd]. fold (store_all b ws (<[b + p := v]> mem)). rewrite IH by done.
  by rewrite lookup_insert_ne by lia.
Qed.

Lemma same_words_refl (mem : gmap Z Z) : same_words mem mem.
Proof. by intros a. Qed.

Lemma same_words_trans (m1 m2 m3 : gmap Z Z) : same_words m1 m2 → same_words m2 m3 → same_words m1 m3.
Proof. intros H1 H2 a. rewrite (H2 a). apply H1. Qed.

Lemma same_words_insert (a v : Z) (mem : gmap Z Z) : is_Some (mem !! a) → same_words mem (<[a := v]> mem).
Proof.
  intros Ha k. destruct (decide (a = k)) as [->|]; [by rewrite lookup_insert_eq|by rewrite lookup_insert_ne].
Qed.

Lemma room_same (b : Z) (n : nat) (mem mem' : gmap Z Z) : same_words mem mem' → room b n mem → room b n mem'.
Proof. intros Hs Hr i Hi. apply Hs. by apply Hr. Qed.

Lemma room_word (b o : Z) (n : nat) (mem : gmap Z Z) :
  room b n mem → 0 ≤ o → o mod 8 = 0 → o + 8 ≤ 8 * Z.of_nat n → is_Some (mem !! (b + o)).
Proof.
  intros Hr H0 H8 Hn. pose proof (Z.div_mod o 8 ltac:(lia)). pose proof (Z.div_pos o 8 H0 ltac:(lia)).
  replace o with (8 * Z.of_nat (Z.to_nat (o / 8))) by lia. apply Hr. lia.
Qed.

(** Stores into a room keep it. *)
Lemma store_all_same (b : Z) (n : nat) (ws : list (Z * Z)) (mem : gmap Z Z) :
  room b n mem → forallb (λ w, (0 <=? w.1) && (w.1 mod 8 =? 0) && (w.1 + 8 <=? 8 * Z.of_nat n)) ws = true →
  same_words mem (store_all b ws mem).
Proof.
  revert mem. induction ws as [|[p v] ws IH]; intros mem Hr Hws; [apply same_words_refl|]. cbn in Hws. b2p.
  assert (same_words mem (<[b + p := v]> mem)) as Hs by (apply same_words_insert; by eapply room_word).
  eapply same_words_trans; [exact Hs|]. apply IH; [|done]. by eapply room_same.
Qed.

(** ** Stepping through code *)

#[local] Abbreviation mk := Build_machine.

Section steps.
Context (x : list Z) (sp e s u : Z) (h : hw_state).

(** The address in a base register: the stack pointer is a multiple of 16. *)
Definition base_at (r : base) (a : Z) : Prop :=
  match r with SP => sp = a ∧ a mod 16 = 0 | Xb k => x !! k = Some a ∧ a mod 8 = 0 end.

Lemma sp_base : sp mod 16 = 0 → base_at SP sp.
Proof using. done. Qed.

Lemma base_mod8 (r : base) (a o : Z) : base_at r a → o mod 8 = 0 → (a + o) mod 8 = 0.
Proof using.
  intros Hb Ho. assert (a mod 8 = 0) as Ha.
  { destruct r; destruct Hb as [_ Ha]; [|done]. pose proof (Z.div_mod a 16 ltac:(lia)).
    replace a with ((2 * (a / 16)) * 8) by lia. by apply Z.mod_mul. }
  by rewrite <- Zplus_mod_idemp_l, Ha, Z.add_0_l.
Qed.

Lemma base_address (r : base) (a o : Z) (mem : gmap Z Z) :
  base_at r a → address r o (mk x sp e s u h mem) = Some (a + o).
Proof using.
  unfold address. destruct r as [|k]; cbn [m_sp m_x].
  - intros [-> Ha]. by rewrite Ha.
  - intros [-> _]. done.
Qed.

Lemma store_word (a v : Z) (mem : gmap Z Z) :
  a mod 8 = 0 → is_Some (mem !! a) → store a v (mk x sp e s u h mem) = Some (mk x sp e s u h (<[a := v]> mem)).
Proof using. intros Ha [w Hw]. unfold store. cbn. by rewrite Ha, Hw. Qed.

Lemma load_word (a v : Z) (mem : gmap Z Z) :
  a mod 8 = 0 → mem !! a = Some v → load a (mk x sp e s u h mem) = Some v.
Proof using. intros Ha Hv. unfold load. cbn. by rewrite Ha. Qed.

Lemma mod8_next (o : Z) : o mod 8 = 0 → (o + 8) mod 8 = 0.
Proof using. intros Ho. rewrite <- (Z.mul_1_l 8) at 1. by rewrite Z.mod_add. Qed.

(** A store of a pair into the room above a base register. *)
Lemma exec_stp (b : base) (a : Z) (Hb : base_at b a) (n : nat) (ws : list (Z * Z)) (mem : gmap Z Z) r1 r2 o v1 v2 code :
  room a n (store_all a ws mem) → 0 ≤ o → o mod 8 = 0 → o + 16 ≤ 8 * Z.of_nat n →
  get_reg r1 (mk x sp e s u h mem) = Some v1 → get_reg r2 (mk x sp e s u h mem) = Some v2 →
  exec (Stp r1 r2 b o :: code) (mk x sp e s u h (store_all a ws mem)) =
  exec code (mk x sp e s u h (store_all a (ws ++ [(o, v1); (o + 8, v2)]) mem)).
Proof using.
  intros Hr H0 H8 Hn H1 H2. cbn [exec exec1]. rewrite (base_address b a) by done. cbn [mbind option_bind].
  assert (∀ r v mem', get_reg r (mk x sp e s u h mem) = Some v → get_reg r (mk x sp e s u h mem') = Some v) as Hreg
    by (intros []; done).
  rewrite (Hreg r1 v1), (Hreg r2 v2) by done. cbn [mbind option_bind].
  pose proof (mod8_next o H8) as H8'.
  rewrite store_word by (first [by eapply base_mod8 | eapply room_word; [done|lia|done|lia]]).
  cbn [mbind option_bind].
  replace (a + o + 8) with (a + (o + 8)) by lia.
  rewrite store_word; [|by eapply base_mod8|].
  - unfold store_all. by rewrite foldl_app.
  - apply same_words_insert; [eapply room_word; [done|lia|done|lia]|].
    eapply room_word; [done|lia|done|lia].
Qed.

Lemma exec_str (b : base) (a : Z) (Hb : base_at b a) (n : nat) (ws : list (Z * Z)) (mem : gmap Z Z) r o v code :
  room a n (store_all a ws mem) → 0 ≤ o → o mod 8 = 0 → o + 8 ≤ 8 * Z.of_nat n →
  get_reg r (mk x sp e s u h mem) = Some v →
  exec (Str r b o :: code) (mk x sp e s u h (store_all a ws mem)) =
  exec code (mk x sp e s u h (store_all a (ws ++ [(o, v)]) mem)).
Proof using.
  intros Hr H0 H8 Hn H1. cbn [exec exec1]. rewrite (base_address b a) by done. cbn [mbind option_bind].
  assert (get_reg r (mk x sp e s u h (store_all a ws mem)) = Some v) as -> by by destruct r.
  cbn [mbind option_bind].
  rewrite store_word by (first [by eapply base_mod8 | by eapply room_word]).
  unfold store_all. by rewrite foldl_app.
Qed.

Lemma exec_ldp (b : base) (a : Z) (Hb : base_at b a) (mem : gmap Z Z) n1 n2 o v1 v2 code :
  o mod 8 = 0 → mem !! (a + o) = Some v1 → mem !! (a + (o + 8)) = Some v2 →
  (n1 < length x)%nat → (n2 < length x)%nat →
  exec (Ldp n1 n2 b o :: code) (mk x sp e s u h mem) =
  exec code (mk (<[n2 := v2]> (<[n1 := v1]> x)) sp e s u h mem).
Proof using.
  intros H8 H1 H2 Hn1 Hn2. cbn [exec exec1]. rewrite (base_address b a) by done. cbn [mbind option_bind].
  pose proof (mod8_next o H8) as H8'.
  rewrite (load_word (a + o) v1) by (done || by eapply base_mod8). cbn [mbind option_bind].
  replace (a + o + 8) with (a + (o + 8)) by lia.
  rewrite (load_word (a + (o + 8)) v2) by (done || by eapply base_mod8). cbn [mbind option_bind].
  unfold set_reg. cbn. rewrite decide_True by done. cbn. rewrite length_insert, decide_True by done. done.
Qed.

Lemma exec_ldr (b : base) (a : Z) (Hb : base_at b a) (mem : gmap Z Z) n o v code :
  o mod 8 = 0 → mem !! (a + o) = Some v → (n < length x)%nat →
  exec (Ldr n b o :: code) (mk x sp e s u h mem) = exec code (mk (<[n := v]> x) sp e s u h mem).
Proof using.
  intros H8 H1 Hn. cbn [exec exec1]. rewrite (base_address b a) by done. cbn [mbind option_bind].
  rewrite (load_word _ v) by (done || by eapply base_mod8). cbn [mbind option_bind].
  unfold set_reg. cbn. by rewrite decide_True.
Qed.

Lemma exec_sub_sp (mem : gmap Z Z) n code :
  exec (Sub_sp n :: code) (mk x sp e s u h mem) = exec code (mk x (u64 (sp - n)) e s u h mem).
Proof using. done. Qed.

Lemma exec_add_sp (mem : gmap Z Z) n code :
  exec (Add_sp n :: code) (mk x sp e s u h mem) = exec code (mk x (u64 (sp + n)) e s u h mem).
Proof using. done. Qed.

Lemma exec_mrs (mem : gmap Z Z) n r code :
  (n < length x)%nat →
  exec (Mrs n r :: code) (mk x sp e s u h mem) =
  exec code (mk (<[n := get_sys r (mk x sp e s u h mem)]> x) sp e s u h mem).
Proof using. intros Hn. cbn [exec exec1]. unfold set_reg. cbn [m_x]. by rewrite decide_True. Qed.

Lemma exec_msr (mem : gmap Z Z) r v n code :
  get_reg n (mk x sp e s u h mem) = Some v →
  exec (Msr r n :: code) (mk x sp e s u h mem) = exec code (set_sys r v (mk x sp e s u h mem)).
Proof using. intros Hn. cbn [exec exec1]. by rewrite Hn. Qed.

Lemma exec_nil (m : machine) : exec [] m = Some m.
Proof using. done. Qed.

Lemma exec_barrier (mem : gmap Z Z) code :
  exec (Barrier :: code) (mk x sp e s u h mem) = exec code (mk x sp e s u h mem).
Proof using. done. Qed.

Lemma exec_mov_from_sp (mem : gmap Z Z) n code :
  (n < length x)%nat →
  exec (Mov_from_sp n :: code) (mk x sp e s u h mem) = exec code (mk (<[n := sp]> x) sp e s u h mem).
Proof using. intros Hn. cbn [exec exec1]. unfold set_reg. cbn [m_x]. by rewrite decide_True. Qed.

Lemma exec_mov_to_sp (mem : gmap Z Z) n v code :
  x !! n = Some v → exec (Mov_to_sp n :: code) (mk x sp e s u h mem) = exec code (mk x v e s u h mem).
Proof using. intros Hn. cbn [exec exec1 m_x]. by rewrite Hn. Qed.

Lemma exec_adrp (mem : gmap Z Z) n a code :
  (n < length x)%nat →
  exec (Adrp n a :: code) (mk x sp e s u h mem) = exec code (mk (<[n := a - a mod 4096]> x) sp e s u h mem).
Proof using. intros Hn. cbn [exec exec1]. unfold set_reg. cbn [m_x]. by rewrite decide_True. Qed.

Lemma exec_add_lo12 (mem : gmap Z Z) n k a v code :
  x !! k = Some v → (n < length x)%nat →
  exec (Add_lo12 n k a :: code) (mk x sp e s u h mem) = exec code (mk (<[n := u64 (v + a mod 4096)]> x) sp e s u h mem).
Proof using. intros Hk Hn. cbn [exec exec1 m_x]. rewrite Hk. cbn [mbind option_bind]. unfold set_reg. cbn [m_x]. by rewrite decide_True. Qed.

Lemma exec_add_sp_lo12 (mem : gmap Z Z) k a v code :
  x !! k = Some v →
  exec (Add_sp_lo12 k a :: code) (mk x sp e s u h mem) = exec code (mk x (u64 (v + a mod 4096)) e s u h mem).
Proof using. intros Hk. cbn [exec exec1 m_x]. by rewrite Hk. Qed.

(** Loads and stores through a general register. *)
Lemma exec_ldr_reg (mem : gmap Z Z) n k b o v code :
  x !! k = Some b → (b + o) mod 8 = 0 → mem !! (b + o) = Some v → (n < length x)%nat →
  exec (Ldr n (Xb k) o :: code) (mk x sp e s u h mem) = exec code (mk (<[n := v]> x) sp e s u h mem).
Proof using.
  intros Hk H8 H1 Hn. cbn [exec exec1 address m_x]. rewrite Hk. cbn [mbind option_bind].
  rewrite (load_word _ v) by done. cbn [mbind option_bind]. unfold set_reg. cbn [m_x]. by rewrite decide_True.
Qed.

Lemma exec_str_reg (mem : gmap Z Z) r k b o v code :
  x !! k = Some b → (b + o) mod 8 = 0 → is_Some (mem !! (b + o)) → get_reg r (mk x sp e s u h mem) = Some v →
  exec (Str r (Xb k) o :: code) (mk x sp e s u h mem) = exec code (mk x sp e s u h (<[b + o := v]> mem)).
Proof using.
  intros Hk H8 H1 Hr. cbn [exec exec1 address m_x]. rewrite Hk. cbn [mbind option_bind].
  rewrite Hr. cbn [mbind option_bind]. by rewrite store_word.
Qed.

End steps.

(** ** Trap frames in memory *)

(** The words of a trap frame, in the order of the structure. *)
Definition frame_words (tf : LettuceTrapFrame) : list Z := tf_x tf ++ [tf_lr tf; tf_elr tf; tf_spsr tf; tf_sp_el0 tf].

Definition frame_at (a : Z) (tf : LettuceTrapFrame) (mem : gmap Z Z) : Prop :=
  frame_ok tf ∧ ∀ i w, frame_words tf !! i = Some w → mem !! (a + 8 * Z.of_nat i) = Some w.

(** Name the 31 registers, or the 30 of a frame. *)
Ltac name_list x :=
  match goal with
  | H : length x = _ |- _ =>
      repeat (destruct x as [|? x]; [discriminate H|cbn [length] in H; apply eq_add_S in H]);
      destruct x; [clear H|discriminate H]
  end.

Lemma word_offset (t : ctype) (f : string) (o a : Z) (mem : gmap Z Z) (v : Z) :
  offsetof t f = Some o → mem !! (a + o) = Some v → read_field t f a mem = Some v.
Proof. unfold read_field. by intros -> . Qed.

Lemma offset_x : offsetof trap_frame_t "x" = Some 0. Proof. done. Qed.
Lemma offset_lr : offsetof trap_frame_t "lr" = Some 240. Proof. done. Qed.
Lemma offset_elr : offsetof trap_frame_t "elr" = Some 248. Proof. done. Qed.
Lemma offset_spsr : offsetof trap_frame_t "spsr" = Some 256. Proof. done. Qed.
Lemma offset_sp_el0 : offsetof trap_frame_t "sp_el0" = Some 264. Proof. done. Qed.

(** The structure's fields are its words. *)
Lemma frame_at_read (a : Z) (tf : LettuceTrapFrame) (mem : gmap Z Z) :
  frame_at a tf mem ↔ read_frame a mem = Some tf.
Proof.
  split.
  - intros [Hok Hat]. unfold frame_ok in Hok. destruct tf as [x lr elr spsr sp]. cbn in Hok.
    unfold frame_words in Hat. cbn in Hat.
    assert (∀ i w, x !! i = Some w → mem !! (a + 8 * Z.of_nat i) = Some w) as Hx.
    { intros i w Hi. apply Hat. rewrite lookup_app_l by (by eapply lookup_lt_Some). done. }
    assert (∀ k, (k < 4)%nat → mem !! (a + (240 + 8 * Z.of_nat k)) = [lr; elr; spsr; sp] !! k) as Ht.
    { intros k Hk. destruct ([lr; elr; spsr; sp] !! k) as [w|] eqn:Hw; [|by apply lookup_ge_None in Hw; cbn in Hw; lia].
      replace (240 + 8 * Z.of_nat k) with (8 * Z.of_nat (30 + k)) by lia. apply Hat.
      by rewrite lookup_app_r, Hok, Nat.add_comm, Nat.add_sub by lia. }
    unfold read_frame, read_words. rewrite offset_x. cbn [mbind option_bind].
    rewrite (proj2 (mapM_Some _ (seq 0 30) x)).
    2:{ apply Forall2_same_length_lookup_2; [by rewrite length_seq|]. intros i k w Hk Hw.
        apply lookup_seq in Hk as [-> _]. rewrite Z.add_0_r. by apply Hx. }
    cbn [mbind option_bind].
    rewrite (word_offset _ "lr" 240 a mem lr) by (done || exact (Ht 0%nat ltac:(lia))).
    rewrite (word_offset _ "elr" 248 a mem elr) by (done || exact (Ht 1%nat ltac:(lia))).
    rewrite (word_offset _ "spsr" 256 a mem spsr) by (done || exact (Ht 2%nat ltac:(lia))).
    rewrite (word_offset _ "sp_el0" 264 a mem sp) by (done || exact (Ht 3%nat ltac:(lia))). done.
  - unfold read_frame, read_words. rewrite offset_x.
    cbn [mbind option_bind]. destruct (mapM _ _) as [x|] eqn:Hx; cbn [mbind option_bind]; [|done].
    apply mapM_Some in Hx. pose proof (Forall2_length _ _ _ Hx) as Hl. rewrite length_seq in Hl.
    unfold read_field.
    rewrite offset_lr.
    rewrite offset_elr.
    rewrite offset_spsr.
    rewrite offset_sp_el0. cbn [mbind option_bind].
    destruct (mem !! (a + 240)) as [lr|] eqn:Hlr; cbn [mbind option_bind]; [|done].
    destruct (mem !! (a + 248)) as [elr|] eqn:Helr; cbn [mbind option_bind]; [|done].
    destruct (mem !! (a + 256)) as [spsr|] eqn:Hspsr; cbn [mbind option_bind]; [|done].
    destruct (mem !! (a + 264)) as [sp|] eqn:Hspel; cbn [mbind option_bind]; [|done].
    intros [= <-]. split; [done|]. unfold frame_words. cbn. intros i w Hi.
    destruct (decide (i < 30)%nat) as [Hlt|Hge].
    + rewrite lookup_app_l in Hi by lia. 
      destruct (Forall2_lookup_r _ _ _ _ _ Hx Hi) as (k & Hk & Hm). apply lookup_seq in Hk as [-> _].
      by rewrite Z.add_0_r in Hm.
    + rewrite lookup_app_r in Hi by lia. rewrite <- Hl in Hi.
      destruct (i - 30)%nat as [|[|[|[|k]]]] eqn:Hk; cbn in Hi; try discriminate Hi; injection Hi as <-;
        [assert (i = 30%nat) as -> by lia|assert (i = 31%nat) as -> by lia|assert (i = 32%nat) as -> by lia
        |assert (i = 33%nat) as -> by lia]; done.
Qed.

(** ** The vectors *)

(** Stores through the stack pointer are collected as a list of words in a room of [n]. *)
#[local] Ltac in_room n := eapply room_same; [apply (store_all_same _ n); [eassumption|reflexivity]|eassumption].
#[local] Ltac stp_step n :=
  first [erewrite (exec_stp _ _ _ _ _ _ SP _ (sp_base _ _ ltac:(eassumption)) n) by (first [in_room n|lia|reflexivity])
        |erewrite (exec_str _ _ _ _ _ _ SP _ (sp_base _ _ ltac:(eassumption)) n) by (first [in_room n|lia|reflexivity])];
  cbn [app].

#[local] Ltac tidy := try unfold set_sys; cbn [get_sys set_sys m_x m_sp m_elr_el1 m_spsr_el1 m_sp_el0 m_hw m_mem insert list_insert].

(** The frame on the stack is the interrupted registers; nothing outside it changes. *)
Lemma vector_save_spec (m : machine) :
  length (m_x m) = 31%nat → m_sp m mod 16 = 0 → 272 ≤ m_sp m < 2 ^ 64 → room (m_sp m - 272) 34 (m_mem m) →
  ∃ m', exec vector_save m = Some m' ∧ m_sp m' = m_sp m - 272 ∧ length (m_x m') = 31%nat ∧
    m_x m' !! 0%nat = Some (m_sp m - 272) ∧ m_hw m' = m_hw m ∧
    frame_at (m_sp m - 272) (user_frame m) (m_mem m') ∧ same_words (m_mem m) (m_mem m') ∧
    (∀ a, a < m_sp m - 272 ∨ m_sp m ≤ a → m_mem m' !! a = m_mem m !! a).
Proof.
  destruct m as [x sp e s u h mem]. cbn [m_x m_sp m_hw m_mem]. intros Hx Hsp Hr Hroom.
  assert ((sp - 272) mod 16 = 0) as Hsp'.
  { pose proof (Z.div_mod sp 16 ltac:(lia)). replace (sp - 272) with ((sp / 16 - 17) * 16) by lia. by apply Z.mod_mul. }
  assert (u64 (sp - 272) = sp - 272) as Hu by (apply u64_small; unfold is_u64; lia).
  unfold vector_save. rewrite exec_sub_sp, Hu. name_list x. change mem with (store_all (sp - 272) [] mem) at 1.
  do 16 stp_step 34%nat.
  do 2 (rewrite exec_mrs by (cbn; lia); tidy). stp_step 34%nat.
  rewrite exec_mrs by (cbn; lia); tidy. stp_step 34%nat. rewrite exec_mov_from_sp by (cbn; lia). tidy.
  eexists. split; [reflexivity|]. cbn [m_x m_sp m_hw m_mem]. split; [done|]. split; [done|]. split; [done|].
  split; [done|]. split; [|split; [apply (store_all_same _ 34); [done|reflexivity]|]].
  - split; [done|]. intros i w Hi. apply (lookup_word (8 * Z.of_nat i)); [|done].
    do 34 (destruct i as [|i]; [exact Hi|]). discriminate Hi.
  - intros a Ha. apply (lookup_outside _ _ 34); [reflexivity|lia].
Qed.

(** Loads from words whose addresses a hypothesis [Hat] gives. *)
#[local] Ltac word Hat :=
  match goal with |- _ !! (_ + ?o) = _ => let i := eval vm_compute in (Z.to_nat (o / 8)) in exact (Hat i _ eq_refl) end.
#[local] Ltac ldp_step Hat :=
  first [erewrite (exec_ldp _ _ _ _ _ _ SP _ (sp_base _ _ ltac:(eassumption))) by (first [word Hat|cbn; lia|reflexivity])
        |erewrite (exec_ldr _ _ _ _ _ _ SP _ (sp_base _ _ ltac:(eassumption))) by (first [word Hat|cbn; lia|reflexivity])];
  tidy.

(** The registers after the return are the frame's; memory is untouched. *)
Lemma vector_restore_spec (m : machine) (tf : LettuceTrapFrame) :
  length (m_x m) = 31%nat → m_sp m mod 16 = 0 → 0 ≤ m_sp m < 2 ^ 64 - 272 → frame_at (m_sp m) tf (m_mem m) →
  ∃ m', exec vector_restore m = Some m' ∧ user_frame m' = tf ∧ m_sp m' = m_sp m + 272 ∧ m_mem m' = m_mem m ∧
    m_hw m' = m_hw m ∧ length (m_x m') = 31%nat.
Proof.
  destruct m as [x sp e s u h mem]. cbn [m_x m_sp m_hw m_mem]. intros Hx Hsp Hr [Hok Hat].
  assert (u64 (sp + 272) = sp + 272) as Hu by (apply u64_small; unfold is_u64; lia).
  destruct tf as [y lr elr spsr sp0]. unfold frame_ok, frame_words in *. cbn [tf_x tf_lr tf_elr tf_spsr tf_sp_el0] in *.
  name_list x. rename Hok into Hy. name_list y. cbn [app] in Hat.
  unfold vector_restore. ldp_step Hat. rewrite exec_msr with (v := sp0) by done. tidy.
  ldp_step Hat. rewrite exec_msr with (v := elr) by done. tidy. rewrite exec_msr with (v := spsr) by done. tidy.
  do 16 ldp_step Hat. rewrite exec_add_sp, Hu. by eexists.
Qed.

(** ** Entering and leaving user mode *)

(** Consecutive words. *)
Definition words_at (b : Z) (ws : list Z) (mem : gmap Z Z) : Prop :=
  ∀ i w, ws !! i = Some w → mem !! (b + 8 * Z.of_nat i) = Some w.

(** The registers a C function must preserve, and its return address: x19 to x30. *)
Definition callee_saved (m : machine) : list Z := drop 19 (m_x m).

Section entry.
Context (g_el1_saved_sp : Z) (Hcell : g_el1_saved_sp mod 8 = 0).

Lemma el0_enter_spec (m : machine) (pc sp_el0 : Z) :
  length (m_x m) = 31%nat → m_sp m mod 16 = 0 → 96 ≤ m_sp m < 2 ^ 64 → room (m_sp m - 96) 12 (m_mem m) →
  is_Some (m_mem m !! g_el1_saved_sp) → g_el1_saved_sp < m_sp m - 96 ∨ m_sp m ≤ g_el1_saved_sp →
  m_x m !! 0%nat = Some pc → m_x m !! 1%nat = Some sp_el0 →
  ∃ m', exec (el0_enter g_el1_saved_sp) m = Some m' ∧ m_sp m' = m_sp m - 96 ∧ length (m_x m') = 31%nat ∧
    user_frame m' = set_return pc 0 sp_el0 (user_frame m') ∧ m_hw m' = m_hw m ∧
    m_mem m' !! g_el1_saved_sp = Some (m_sp m - 96) ∧ words_at (m_sp m - 96) (callee_saved m) (m_mem m') ∧
    same_words (m_mem m) (m_mem m') ∧
    (∀ a, a ≠ g_el1_saved_sp → a < m_sp m - 96 ∨ m_sp m ≤ a → m_mem m' !! a = m_mem m !! a).
Proof using Hcell.
  destruct m as [x sp e s u h mem]. unfold callee_saved. cbn [m_x m_sp m_hw m_mem].
  intros Hx Hsp Hr Hroom Hin Hout Hx0 Hx1.
  assert ((sp - 96) mod 16 = 0) as Hsp'.
  { pose proof (Z.div_mod sp 16 ltac:(lia)). replace (sp - 96) with ((sp / 16 - 6) * 16) by lia. by apply Z.mod_mul. }
  assert (u64 (sp - 96) = sp - 96) as Hu by (apply u64_small; unfold is_u64; lia).
  unfold el0_enter. rewrite exec_sub_sp, Hu. name_list x. injection Hx0 as ->. injection Hx1 as ->.
  change mem with (store_all (sp - 96) [] mem) at 1. do 6 stp_step 12%nat.
  rewrite exec_adrp by (cbn; lia). rewrite exec_mov_from_sp by (rewrite length_insert; cbn; lia). tidy.
  match goal with |- context [store_all (sp - 96) ?ws mem] => set (mem1 := store_all (sp - 96) ws mem) end.
  assert (same_words mem mem1) as Hsame by (apply (store_all_same _ 12); [done|reflexivity]).
  assert (∀ a, a < sp - 96 ∨ sp ≤ a → mem1 !! a = mem !! a) as Houts
    by (intros a Ha; apply (lookup_outside _ _ 12); [reflexivity|lia]).
  erewrite exec_str_reg with (b := g_el1_saved_sp - g_el1_saved_sp mod 4096);
    [|reflexivity|by rewrite Z.sub_add|rewrite Z.sub_add; by apply Hsame|reflexivity].
  rewrite Z.sub_add. rewrite exec_msr with (v := pc) by done. tidy. rewrite exec_msr with (v := sp_el0) by done. tidy.
  rewrite exec_msr with (v := 0) by done. tidy. cbn [exec exec1 mbind option_bind].
  eexists. split; [reflexivity|]. cbn [m_x m_sp m_hw m_mem]. split; [done|]. split; [done|]. split; [done|]. split; [done|].
  split; [by rewrite lookup_insert_eq|]. split; [|split].
  - intros i w Hi. rewrite lookup_insert_ne by (apply lookup_lt_Some in Hi; cbn in Hi; lia).
    apply (lookup_word (8 * Z.of_nat i)); [|done]. do 12 (destruct i as [|i]; [exact Hi|]). discriminate Hi.
  - eapply same_words_trans; [exact Hsame|]. apply same_words_insert. by apply Hsame.
  - intros a Hne Ha. rewrite lookup_insert_ne by done. by apply Houts.
Qed.

Lemma el0_resume_spec (m : machine) (b : Z) (regs : list Z) :
  length (m_x m) = 31%nat → m_mem m !! g_el1_saved_sp = Some b → b mod 16 = 0 → 0 ≤ b < 2 ^ 64 - 96 →
  length regs = 12%nat → words_at b regs (m_mem m) →
  ∃ m', exec (el0_resume_kernel g_el1_saved_sp) m = Some m' ∧ m_sp m' = b + 96 ∧ length (m_x m') = 31%nat ∧
    callee_saved m' = regs ∧ m_x m' !! 0%nat = m_x m !! 0%nat ∧ m_mem m' = m_mem m ∧ m_hw m' = m_hw m.
Proof using Hcell.
  destruct m as [x sp e s u h mem]. unfold callee_saved. cbn [m_x m_sp m_hw m_mem].
  intros Hx Hc Hb Hr Hl Hat. unfold words_at in Hat.
  assert (u64 (b + 96) = b + 96) as Hu by (apply u64_small; unfold is_u64; lia).
  name_list x. name_list regs. unfold el0_resume_kernel.
  rewrite exec_adrp by (cbn; lia). tidy.
  erewrite exec_ldr_reg with (b := g_el1_saved_sp - g_el1_saved_sp mod 4096);
    [|reflexivity|by rewrite Z.sub_add|by rewrite Z.sub_add|cbn; lia]. tidy.
  erewrite exec_mov_to_sp by reflexivity. do 6 ldp_step Hat. rewrite exec_add_sp, Hu. by eexists.
Qed.

End entry.

(** ** The handlers leave well-formed frames *)

Definition leaves_frame (e : trap_end) : Prop := match e with ToUser tf => frame_ok tf | _ => True end.

Section handlers.
Context (pac_sign pac_auth : Z → Z → Z).

Lemma set_x0_leaves {A} (v : Z) (tf : LettuceTrapFrame) (a : A) e a' :
  frame_ok tf → (tf ← set_x0 v tf; Some (ToUser tf, a)) = Some (e, a') → leaves_frame e.
Proof.
  intros Htf. destruct (set_x0 v tf) as [tf'|] eqn:Hx; cbn; [|done]. intros [= <- _]. by eapply set_x0_ok.
Qed.

Lemma schedule_leaves (ev : sched_event) r (st st' : cpu_state) e :
  frame_ok (event_frame ev) → event_run ev (cp_sched st) = Some r → after_schedule r st = Some (e, st') → leaves_frame e.
Proof.
  intros Htf Hr. destruct r as [[hit o] s']. apply event_moves in Hr as (_ & _ & tf' & -> & Htf'); [|done].
  cbn. destruct hit; by intros [= <- _].
Qed.

Lemma svc_call_leaves (imm : Z) (tf : LettuceTrapFrame) (st st' : cpu_state) e :
  frame_ok tf → svc_call pac_sign imm tf st = Some (e, st') → leaves_frame e.
Proof.
  intros Htf. unfold svc_call. destruct (svc_message tf) as [msg|]; cbn [mbind option_bind]; [|done].
  destruct (if imm =? LETTUCE_SVC_CALL then _ else _) as [[s o]|]; cbn [mbind option_bind]; [|done].
  destruct (negb (status_is_ok s)); [by apply set_x0_leaves|].
  destruct o as [res|]; cbn [mbind option_bind]; [|done].
  destruct (res_entry res) as [entry|]; [|by apply set_x0_leaves].
  destruct (_ =? NULL); [by apply set_x0_leaves|].
  destruct (lettuce_arch_context_push _ _ _ _ _ _ _) as [[pushed v]|]; cbn [mbind option_bind]; [|done].
  destruct (negb pushed); [by apply set_x0_leaves|].
  destruct (_ && _); by intros [= <- _].
Qed.

Lemma svc_return_leaves (tf : LettuceTrapFrame) (st st' : cpu_state) e :
  frame_ok tf → svc_return pac_auth tf st = Some (e, st') → leaves_frame e.
Proof.
  intros Htf. unfold svc_return. destruct (arr_get (tf_x tf) 0) as [x0|]; cbn [mbind option_bind]; [|done].
  destruct (0 <? _); [|by intros [= <- _]].
  destruct (lettuce_arch_context_pop _ _) as [[o v]|]; cbn [mbind option_bind]; [|done].
  destruct o as [f|]; cbn [mbind option_bind]; [|done]. by apply set_x0_leaves.
Qed.

Lemma svc_syscall_leaves (tf : LettuceTrapFrame) (st st' : cpu_state) e :
  frame_ok tf → svc_syscall tf st = Some (e, st') → leaves_frame e.
Proof.
  intros Htf Hs. destruct (frame_register tf 8 Htf ltac:(lia)) as [n Hn].
  destruct (decide (n = LETTUCE_SYS_NANOSLEEP)) as [->|Hne].
  2:{ destruct (syscall_io tf st n e st' Hn Hne Hs) as (io & v & tf' & _ & Hx & ->). by eapply set_x0_ok. }
  destruct (syscall_nanosleep tf st Htf Hn) as [x0 Heq]. rewrite Heq in Hs. clear Heq.
  destruct (lettuce_kernel_sys_nanosleep _ _ _ _ _ _ _) as [[[[res hit] tf1] s']|] eqn:Hr in Hs; cbn [mbind option_bind] in Hs; [|done].
  assert (∃ tf2, tf1 = Some tf2 ∧ frame_ok tf2) as (tf2 & -> & Htf2).
  { destruct (nanosleep_cases _ _ _ _ _ _ _ _ _ _ Hr) as [_ [[_ ->]|(ticks & Hev)]]; [by exists tf|].
    unfold event_exec in Hev. destruct (lettuce_scheduler_sleep_current _ _ _ _ _) as [[[h o] s1]|] eqn:Hsl; cbn in Hev; [|done].
    injection Hev as -> ->. by destruct (event_moves (EvSleep _ ticks tf) _ _ _ _ Htf Hsl) as (_ & _ & tf' & -> & ?); exists tf'. }
  destruct (after_schedule _ _) as [[e1 st1]|] eqn:Ha; cbn [mbind option_bind] in Hs; [|done].
  cbn in Ha. destruct hit; injection Ha as <- <-; [by injection Hs as <- _|]. by eapply set_x0_leaves.
Qed.

Lemma svc_handler_leaves (imm : Z) (tf : LettuceTrapFrame) (st st' : cpu_state) e :
  frame_ok tf → svc_handler pac_sign pac_auth imm tf st = Some (e, st') → leaves_frame e.
Proof.
  intros Htf. unfold svc_handler. destruct (imm =? LETTUCE_SVC_RETURN); [by apply svc_return_leaves|].
  destruct (_ || _); [by apply svc_call_leaves|].
  destruct (_ =? LETTUCE_SVC_YIELD).
  { unfold svc_yield. destruct (lettuce_scheduler_yield _ _ _ _) as [r|] eqn:Hr; cbn [mbind option_bind]; [|done].
    by apply (schedule_leaves (EvYield (lettuce_timer_get_ticks (cp_timer st)) tf)). }
  destruct (_ =? LETTUCE_SVC_SYSCALL); [by apply svc_syscall_leaves|].
  destruct (print_hex _ _); cbn [mbind option_bind]; [|done]. by intros [= <- _].
Qed.

Lemma fault_leaves (code : Z) (P : Prop) e : P ∧ fault_end code e → leaves_frame e.
Proof. by intros [_ [-> | ->]]. Qed.

Lemma take_exception_leaves (x : el0_exception) (st st' : cpu_state) e :
  frame_ok (exception_frame x) → take_exception pac_sign pac_auth x st = Some (e, st') → leaves_frame e.
Proof.
  intros Htf. destruct x as [esr far tf|iar tf]; cbn [take_exception exception_frame] in *.
  - unfold lettuce_arch_sync_lower_el_handler. destruct (_ =? 0x15); [by apply svc_handler_leaves|].
    destruct (_ || _); [intros H%data_abort_quiet; by eapply fault_leaves|].
    destruct (_ || _); [intros H%sysreg_trap_end; by eapply fault_leaves|].
    destruct (_ || _); [by intros ->%instruction_abort_halts|].
    destruct (print_hex _ _); cbn [mbind option_bind]; [|done]. by intros [= <- _].
  - unfold lettuce_arch_irq_lower_el_handler.
    assert (∀ intid e1 st1, leaves_frame e1 →
      match e1 with ToUser tf1 => Some (ToUser tf1, end_of_interrupt intid st1) | e1 => Some (e1, st1) end = Some (e, st') →
      leaves_frame e) as Hend by (intros intid [] st1 ?; by intros [= <- _]).
    destruct (_ =? GIC_INTID_VTIMER); cbn [mbind option_bind]; [|by apply (Hend _ (ToUser tf))].
    destruct (_ && _); cbn [mbind option_bind]; [|by apply (Hend _ (ToUser tf))].
    destruct (lettuce_scheduler_tick _ _ _ _) as [r|] eqn:Hr; cbn [mbind option_bind]; [|done].
    destruct (after_schedule r _) as [[e1 st1]|] eqn:Ha; cbn [mbind option_bind]; [|done]. apply Hend.
    eapply (schedule_leaves (EvTick (lettuce_timer_get_ticks (cp_timer (handle_timer st))) tf) r (handle_timer st)); done.
Qed.

End handlers.

(** ** A run of user code on the machine *)

(** The exception [x] with the frame the handler reads from the stack. *)
Definition with_exception_frame (tf : LettuceTrapFrame) (x : el0_exception) : el0_exception :=
  match x with Synchronous esr far _ => Synchronous esr far tf | Interrupt iar _ => Interrupt iar tf end.

(** User code has run to an exception with the registers [tf]; EL1's stack pointer and the
    kernel's memory are as they were. *)
Definition interrupted (tf : LettuceTrapFrame) (m : machine) : machine :=
  mk (tf_x tf ++ [tf_lr tf]) (m_sp m) (tf_elr tf) (tf_spsr tf) (tf_sp_el0 tf) (m_hw m) (m_mem m).

Section run.
Context (pac_sign pac_auth : Z → Z → Z) (user : el0_code).
(** The address of [g_el1_saved_sp] and the kernel's stack. *)
Context (g_el1_saved_sp stack_bottom stack_top : Z).

(** What compiled C code between [m] and [m'] keeps: the size of memory, the variable only
    the assembly uses, and the stack above the trap frame it was called with. *)
Record c_code (m m' : machine) : Prop := {
  cc_regs : length (m_x m') = 31%nat;
  cc_words : same_words (m_mem m) (m_mem m');
  cc_cell : m_mem m' !! g_el1_saved_sp = m_mem m !! g_el1_saved_sp;
  cc_stack : ∀ a, m_sp m + 272 ≤ a < stack_top → m_mem m' !! a = m_mem m !! a
}.

(** Exceptions until a handler calls [lettuce_el0_resume_kernel].  The handler is called
    with the address of the frame in [x0] and computes [take_exception] on what it reads
    there: it returns having stored the resumed frame, or leaves with a status. *)
Inductive machine_run : machine → cpu_state → Z → machine → cpu_state → Prop :=
  | RunLeaves m st x mem m1 a tf s st' m2 m3 :
      user (user_frame m) st = Some (x, mem) →
      exec vector_save (interrupted (exception_frame x) m) = Some m1 →
      m_x m1 !! 0%nat = Some a → read_frame a (m_mem m1) = Some tf →
      take_exception pac_sign pac_auth (with_exception_frame tf x) (with_memory mem st) = Some (ToKernel s, st') →
      c_code m1 m2 → m_x m2 !! 0%nat = Some (u64 s) →
      exec (el0_resume_kernel g_el1_saved_sp) m2 = Some m3 →
      machine_run m st s m3 st'
  | RunReturns m st x mem m1 a tf tf' st1 m2 m3 s m4 st' :
      user (user_frame m) st = Some (x, mem) →
      exec vector_save (interrupted (exception_frame x) m) = Some m1 →
      m_x m1 !! 0%nat = Some a → read_frame a (m_mem m1) = Some tf →
      take_exception pac_sign pac_auth (with_exception_frame tf x) (with_memory mem st) = Some (ToUser tf', st1) →
      c_code m1 m2 → m_sp m2 = m_sp m1 → read_frame a (m_mem m2) = Some tf' →
      exec vector_restore m2 = Some m3 →
      machine_run m3 st1 s m4 st' →
      machine_run m st s m4 st'.

(** The machine while user code runs: the kernel's stack pointer is [b], the saved
    registers [regs] are above it, there is room for a trap frame below. *)
Record in_user_mode (b : Z) (regs : list Z) (m : machine) : Prop := {
  iu_regs : length (m_x m) = 31%nat;
  iu_sp : m_sp m = b;
  iu_align : b mod 16 = 0;
  iu_stack : 0 ≤ stack_bottom ≤ b - 272 ∧ b + 96 ≤ stack_top < 2 ^ 64;
  iu_room : room (b - 272) 34 (m_mem m);
  iu_cell : m_mem m !! g_el1_saved_sp = Some b;
  iu_cell_mod : g_el1_saved_sp mod 8 = 0;
  iu_apart : g_el1_saved_sp < stack_bottom ∨ stack_top ≤ g_el1_saved_sp;
  iu_saved : length regs = 12%nat ∧ words_at b regs (m_mem m)
}.

Context (Huser : code_ok user).

Lemma interrupted_frame (tf : LettuceTrapFrame) (m : machine) : frame_ok tf → user_frame (interrupted tf m) = tf.
Proof.
  unfold frame_ok. destruct tf as [x lr elr spsr sp]. cbn. intros Hx. unfold user_frame. cbn.
  rewrite take_app_length' by done. rewrite lookup_app_r by lia. by rewrite Hx.
Qed.

Lemma with_same_frame (x : el0_exception) : with_exception_frame (exception_frame x) x = x.
Proof. by destruct x. Qed.

(** Entering a vector from user mode: the handler reads the interrupted registers. *)
Lemma vector_entered (b : Z) (regs : list Z) (m : machine) (tf : LettuceTrapFrame) :
  in_user_mode b regs m → frame_ok tf →
  ∃ m1, exec vector_save (interrupted tf m) = Some m1 ∧ m_sp m1 = b - 272 ∧ m_x m1 !! 0%nat = Some (b - 272) ∧
    read_frame (b - 272) (m_mem m1) = Some tf ∧ length (m_x m1) = 31%nat ∧ same_words (m_mem m) (m_mem m1) ∧
    m_mem m1 !! g_el1_saved_sp = Some b ∧ (∀ a, b ≤ a → m_mem m1 !! a = m_mem m !! a).
Proof.
  intros [Hr Hsp Hal Hst Hroom Hcell Hmod Hap [Hl Hat]] Htf. unfold frame_ok in Htf.
  destruct (vector_save_spec (interrupted tf m)) as (m1 & Hx & Hs1 & Hr1 & Hx0 & _ & Hf & Hsame & Hout);
    cbn [interrupted m_x m_sp m_mem]; rewrite ?Hsp; try done; [rewrite length_app; cbn; lia|lia|].
  cbn [interrupted m_x m_sp m_mem] in Hs1, Hx0, Hf, Hsame, Hout. rewrite Hsp in *.
  fold (interrupted tf m) in Hf. rewrite interrupted_frame in Hf by done.
  exists m1. split_and!; try done; [by apply frame_at_read|by rewrite Hout by lia|intros a Ha; apply Hout; lia].
Qed.

(** Back in user mode after a handler that returns. *)
Lemma vector_left (b : Z) (regs : list Z) (m m1 m2 : machine) (tf : LettuceTrapFrame) :
  in_user_mode b regs m → m_sp m1 = b - 272 → same_words (m_mem m) (m_mem m1) →
  m_mem m1 !! g_el1_saved_sp = Some b → (∀ a, b ≤ a → m_mem m1 !! a = m_mem m !! a) →
  c_code m1 m2 → m_sp m2 = m_sp m1 → read_frame (b - 272) (m_mem m2) = Some tf →
  ∃ m3, exec vector_restore m2 = Some m3 ∧ user_frame m3 = tf ∧ in_user_mode b regs m3 ∧
    ∀ a, b ≤ a < stack_top → m_mem m3 !! a = m_mem m !! a.
Proof.
  intros [Hr Hsp Hal Hst Hroom Hcell Hmod Hap [Hl Hat]] Hs1 Hsame Hc1 Hout [Hr2 Hw2 Hc2 Hst2] Hs2 Hf.
  apply frame_at_read in Hf. rewrite <- Hs1, <- Hs2 in Hf.
  assert ((b - 272) mod 16 = 0) as Hal'.
  { pose proof (Z.div_mod b 16 ltac:(lia)). replace (b - 272) with ((b / 16 - 17) * 16) by lia. by apply Z.mod_mul. }
  destruct (vector_restore_spec m2 tf Hr2) as (m3 & Hx & Huf & Hs3 & Hm3 & _ & Hr3); [congruence|lia|done|].
  assert (∀ a, b ≤ a < stack_top → m_mem m3 !! a = m_mem m !! a) as Hkeep.
  { intros a Ha. rewrite Hm3, Hst2 by lia. apply Hout. lia. }
  exists m3. split_and!; try done. split; try done; [lia| | |].
  - rewrite Hm3. eapply room_same, Hroom. by eapply same_words_trans.
  - by rewrite Hm3, Hc2.
  - split; [done|]. intros i w Hi. pose proof (lookup_lt_Some _ _ _ Hi). rewrite Hkeep by lia. by apply Hat.
Qed.

(** Back in the kernel after a handler that leaves. *)
Lemma kernel_resumed (b : Z) (regs : list Z) (m m1 m2 : machine) :
  in_user_mode b regs m → m_sp m1 = b - 272 → m_mem m1 !! g_el1_saved_sp = Some b →
  (∀ a, b ≤ a → m_mem m1 !! a = m_mem m !! a) → c_code m1 m2 →
  ∃ m3, exec (el0_resume_kernel g_el1_saved_sp) m2 = Some m3 ∧ m_sp m3 = b + 96 ∧ callee_saved m3 = regs ∧
    m_x m3 !! 0%nat = m_x m2 !! 0%nat ∧ ∀ a, b ≤ a < stack_top → m_mem m3 !! a = m_mem m !! a.
Proof.
  intros [Hr Hsp Hal Hst Hroom Hcell Hmod Hap [Hl Hat]] Hs1 Hc1 Hout [Hr2 Hw2 Hc2 Hst2].
  assert (∀ a, b ≤ a < stack_top → m_mem m2 !! a = m_mem m !! a) as Hkeep.
  { intros a Ha. rewrite Hst2 by lia. apply Hout. lia. }
  destruct (el0_resume_spec g_el1_saved_sp Hmod m2 b regs) as (m3 & Hx & Hs3 & _ & Hreg & Hx0 & Hm3 & _); try done.
  - by rewrite Hc2.
  - lia.
  - intros i w Hi. pose proof (lookup_lt_Some _ _ _ Hi). rewrite Hkeep by lia. by apply Hat.
  - exists m3. split_and!; try done. intros a Ha. rewrite Hm3. by apply Hkeep.
Qed.

(** A run of the machine is a run of the model, and the kernel gets its registers back. *)
Lemma machine_run_sound (b s : Z) (regs : list Z) (m m' : machine) (st st' : cpu_state) :
  machine_run m st s m' st' → in_user_mode b regs m → frame_ok (user_frame m) →
  (∃ fuel, el0_execution pac_sign pac_auth user fuel (user_frame m) st = Some (s, st')) ∧
  m_sp m' = b + 96 ∧ callee_saved m' = regs ∧ m_x m' !! 0%nat = Some (u64 s) ∧
  ∀ a, b ≤ a < stack_top → m_mem m' !! a = m_mem m !! a.
Proof using Huser.
  induction 1 as [m st x mem m1 a tf s st' m2 m3 Hu Hsave Hx0 Hf Hte Hcc Hs Hres
                 |m st x mem m1 a tf tf' st1 m2 m3 s m4 st' Hu Hsave Hx0 Hf Hte Hcc Hsp Hf' Hrest Hrun IH]; intros Hin Hok;
    (assert (frame_ok (exception_frame x)) as Htf by (by eapply Huser));
    destruct (vector_entered b regs m (exception_frame x) Hin Htf) as (m1' & Hsave' & Hs1 & Hx0' & Hf1 & _ & Hsame & Hcell & Hout);
    rewrite Hsave in Hsave'; injection Hsave' as <-; rewrite Hx0 in Hx0'; injection Hx0' as ->;
    rewrite Hf in Hf1; injection Hf1 as ->; rewrite with_same_frame in Hte.
  - destruct (kernel_resumed b regs m m1 m2 Hin Hs1 Hcell Hout Hcc) as (m3' & Hres' & Hs3 & Hreg & Hx3 & Hkeep).
    rewrite Hres in Hres'. injection Hres' as <-.
    split; [exists 1%nat; cbn; by rewrite Hu; cbn; rewrite Hte|]. split_and!; try done. by rewrite Hx3.
  - destruct (vector_left b regs m m1 m2 tf' Hin Hs1 Hsame Hcell Hout Hcc Hsp Hf') as (m3' & Hrest' & Huf & Hin3 & Hkeep).
    rewrite Hrest in Hrest'. injection Hrest' as <-.
    destruct IH as ([fuel Hex] & H1 & H2 & H3 & H4); [done|rewrite Huf; by apply take_exception_leaves in Hte|].
    split; [exists (Datatypes.S fuel); cbn; rewrite Hu; cbn; rewrite Hte; cbn; by rewrite <- Huf|].
    split_and!; try done. intros k Hk. rewrite H4 by done. by apply Hkeep.
Qed.

(** Storing a frame. *)
Lemma frame_stored (b : Z) (tf : LettuceTrapFrame) (mem : gmap Z Z) :
  room b 34 mem → frame_ok tf →
  ∃ mem', read_frame b mem' = Some tf ∧ same_words mem mem' ∧ ∀ a, a < b ∨ b + 272 ≤ a → mem' !! a = mem !! a.
Proof.
  intros Hroom Htf. destruct tf as [x lr elr spsr sp]. unfold frame_ok in Htf. cbn in Htf. rename Htf into Hx. name_list x.
  match goal with |- context [read_frame b _ = Some ?tf] => set (tf0 := tf) end.
  exists (store_all b (imap (λ i w, (8 * Z.of_nat i, w)) (frame_words tf0)) mem). split; [|split].
  - apply frame_at_read. split; [done|]. intros i w Hi. apply (lookup_word (8 * Z.of_nat i)); [|done].
    do 34 (destruct i as [|i]; [exact Hi|]). discriminate Hi.
  - apply (store_all_same _ 34); [done|reflexivity].
  - intros a Ha. apply (lookup_outside _ _ 34); [reflexivity|lia].
Qed.

(** Every run of the model is one of the machine. *)
Lemma machine_run_complete (b s : Z) (regs : list Z) (fuel : nat) (m : machine) (st st' : cpu_state) :
  el0_execution pac_sign pac_auth user fuel (user_frame m) st = Some (s, st') →
  in_user_mode b regs m → frame_ok (user_frame m) → ∃ m', machine_run m st s m' st'.
Proof using Huser.
  revert m st. induction fuel as [|fuel IH]; intros m st Hex Hin Hok; cbn [el0_execution] in Hex; [done|].
  destruct (user (user_frame m) st) as [[x mem]|] eqn:Hu; cbn [mbind option_bind] in Hex; [|done].
  destruct (take_exception _ _ x _) as [[e st1]|] eqn:Hte; cbn [mbind option_bind] in Hex; [|done].
  assert (frame_ok (exception_frame x)) as Htf by (by eapply Huser).
  destruct (vector_entered b regs m (exception_frame x) Hin Htf) as (m1 & Hsave & Hs1 & Hx0 & Hf & Hr1 & Hsame & Hcell & Hout).
  assert (with_exception_frame (exception_frame x) x = x) as Hsf by apply with_same_frame.
  assert (room (b - 272) 34 (m_mem m1)) as Hroom by (eapply room_same, iu_room, Hin; done).
  destruct e as [tf'|s'|]; [| |done].
  - assert (frame_ok tf') as Htf' by (by apply take_exception_leaves in Hte).
    destruct (frame_stored (b - 272) tf' (m_mem m1) Hroom Htf') as (mem2 & Hf2 & Hs2 & Ho2).
    pose proof (iu_stack _ _ _ Hin) as Hst. pose proof (iu_apart _ _ _ Hin) as Hap.
    assert (c_code m1 (with_mem mem2 m1)) as Hcc.
    { split; cbn; [done|done|apply Ho2; lia|]. intros a Ha. apply Ho2. lia. }
    destruct (vector_left b regs m m1 (with_mem mem2 m1) tf' Hin Hs1 Hsame Hcell Hout Hcc eq_refl Hf2)
      as (m3 & Hrest & Huf & Hin3 & _).
    destruct (IH m3 st1) as [m4 Hrun]; [by rewrite Huf|done|by rewrite Huf|].
    exists m4. eapply RunReturns; try done. by rewrite Hsf.
  - injection Hex as -> ->.
    assert (∃ m2, set_reg 0 (u64 s) m1 = Some m2 ∧ c_code m1 m2 ∧ m_x m2 !! 0%nat = Some (u64 s)) as (m2 & _ & Hcc & Hx2).
    { unfold set_reg. rewrite decide_True by lia. eexists. split; [done|]. split.
      - split; cbn; [by rewrite length_insert|apply same_words_refl|done|done].
      - cbn. rewrite list_lookup_insert_eq by lia. done. }
    destruct (kernel_resumed b regs m m1 m2 Hin Hs1 Hcell Hout Hcc) as (m3 & Hres & _).
    exists m3. eapply RunLeaves; try done. by rewrite Hsf.
Qed.

End run.

(** The machine when C code calls [lettuce_el0_enter(pc, sp_el0)]: there is room on the
    stack for the saved registers and a trap frame. *)
Record ready_to_enter (g_el1_saved_sp stack_bottom stack_top pc sp_el0 : Z) (m : machine) : Prop := {
  re_regs : length (m_x m) = 31%nat;
  re_arguments : m_x m !! 0%nat = Some pc ∧ m_x m !! 1%nat = Some sp_el0;
  re_align : m_sp m mod 16 = 0;
  re_stack : 0 ≤ stack_bottom ≤ m_sp m - 368 ∧ m_sp m ≤ stack_top < 2 ^ 64;
  re_room : room (m_sp m - 368) 46 (m_mem m);
  re_cell : is_Some (m_mem m !! g_el1_saved_sp) ∧ g_el1_saved_sp mod 8 = 0;
  re_apart : g_el1_saved_sp < stack_bottom ∨ stack_top ≤ g_el1_saved_sp
}.

Lemma room_part (b b' : Z) (n n' k : nat) (mem : gmap Z Z) :
  room b n mem → b' = b + 8 * Z.of_nat k → (k + n' <= n)%nat → room b' n' mem.
Proof.
  intros Hr -> Hn i Hi. replace (b + 8 * Z.of_nat k + 8 * Z.of_nat i) with (b + 8 * Z.of_nat (k + i)) by lia.
  apply Hr. lia.
Qed.

(** The state the entry leaves for user code. *)
Lemma el0_entered (g_el1_saved_sp stack_bottom stack_top pc sp_el0 : Z) (m : machine) :
  ready_to_enter g_el1_saved_sp stack_bottom stack_top pc sp_el0 m →
  ∃ m1, exec (el0_enter g_el1_saved_sp) m = Some m1 ∧
    in_user_mode g_el1_saved_sp stack_bottom stack_top (m_sp m - 96) (callee_saved m) m1 ∧
    user_frame m1 = set_return pc 0 sp_el0 (user_frame m1) ∧ frame_ok (user_frame m1) ∧
    ∀ a, m_sp m ≤ a < stack_top → m_mem m1 !! a = m_mem m !! a.
Proof.
  intros [Hr [Hx0 Hx1] Hal Hst Hroom [Hc Hmod] Hap].
  destruct (el0_enter_spec g_el1_saved_sp Hmod m pc sp_el0) as (m1 & Hx & Hs1 & Hr1 & Huf & _ & Hcell & Hat & Hsame & Hout);
    try done; [lia|by apply (room_part _ _ _ _ 34 _ Hroom); lia|lia|].
  exists m1. split; [done|]. split; [split; try done|].
  - pose proof (Z.div_mod (m_sp m) 16 ltac:(lia)). replace (m_sp m - 96) with ((m_sp m / 16 - 6) * 16) by lia.
    by apply Z.mod_mul.
  - lia.
  - eapply room_same; [exact Hsame|]. apply (room_part _ _ _ _ 0 _ Hroom); lia.
  - split; [|done]. unfold callee_saved. by rewrite length_drop, Hr.
  - split; [done|]. split; [|intros a Ha; apply Hout; lia].
    unfold frame_ok. cbn. by rewrite length_take, Hr1.
Qed.

Section call.
Context (pac_sign pac_auth : Z → Z → Z) (user : el0_code).
Context (g_el1_saved_sp stack_bottom stack_top : Z).

(** C8: entering user mode is a call.  The instructions of [lettuce_el0_enter] run; from
    there the exceptions on the machine, each with its vector's save and restore around the
    C handler, are the execution of the model ([lettuce_el0_enter] of [Main.v]), from the
    registers the machine has; and when a handler resumes the kernel, the caller of
    [lettuce_el0_enter] gets the status, the stack pointer, the registers x19 to x30 and the
    stack it had, whatever user code did to the registers. *)
Theorem entering_user_mode_is_a_call (pc sp_el0 : Z) (m : machine) (st : cpu_state) :
  ready_to_enter g_el1_saved_sp stack_bottom stack_top pc sp_el0 m → code_ok user →
  ∃ m1, exec (el0_enter g_el1_saved_sp) m = Some m1 ∧
    (∀ s st', (∃ fuel, lettuce_el0_enter pac_sign pac_auth (user_frame m1) user fuel pc sp_el0 st = Some (s, st')) ↔
              ∃ m', machine_run pac_sign pac_auth user g_el1_saved_sp stack_top m1 st s m' st') ∧
    ∀ s m' st', machine_run pac_sign pac_auth user g_el1_saved_sp stack_top m1 st s m' st' →
      m_x m' !! 0%nat = Some (u64 s) ∧ m_sp m' = m_sp m ∧ callee_saved m' = callee_saved m ∧
      ∀ a, m_sp m ≤ a < stack_top → m_mem m' !! a = m_mem m !! a.
Proof.
  intros Hre Huser. destruct (el0_entered _ _ _ _ _ _ Hre) as (m1 & Hx & Hin & Huf & Hok & Hkeep).
  exists m1. split; [done|]. unfold lettuce_el0_enter. rewrite <- Huf.
  pose proof (λ s m' st' Hrun, machine_run_sound pac_sign pac_auth user g_el1_saved_sp stack_bottom stack_top Huser
    _ s _ m1 m' st st' Hrun Hin Hok) as Hsound.
  split.
  - intros s st'. split.
    + intros [fuel Hex]. by eapply machine_run_complete.
    + intros [m' Hrun]. by apply (Hsound s m').
  - intros s m' st' Hrun. destruct (Hsound s m' st' Hrun) as (_ & Hs & Hreg & Hx0 & Hmem).
    split; [done|]. split; [lia|]. split; [done|]. intros a Ha. rewrite Hmem by lia. by apply Hkeep.
Qed.

End call.


(** ** The elevator *)

(** Through general register [k], which holds [a]. *)
#[local] Ltac reg_base := split; [reflexivity|assumption].
#[local] Ltac ldr_reg k a := erewrite (exec_ldr _ _ _ _ _ _ (Xb k) a) by (first [reg_base|eassumption|reflexivity|cbn; lia]); tidy.
#[local] Ltac in_room_at n := first [eassumption|eapply room_same; [apply (store_all_same _ n); [eassumption|reflexivity]|eassumption]].
#[local] Ltac str_reg k a size :=
  first [erewrite (exec_stp _ _ _ _ _ _ (Xb k) a) with (n := size) by (first [reg_base|in_room_at size|lia|reflexivity])
        |erewrite (exec_str _ _ _ _ _ _ (Xb k) a) with (n := size) by (first [reg_base|in_room_at size|lia|reflexivity])];
  cbn [app].

Lemma read_elevator_words (a pc sp ttbr : Z) (mem : gmap Z Z) :
  read_elevator a mem = Some (pc, sp, ttbr) → mem !! (a + 0) = Some pc ∧ mem !! (a + 8) = Some sp ∧ mem !! (a + 16) = Some ttbr.
Proof.
  unfold read_elevator, read_field. cbn [elevator_descriptor_t].
  change (offsetof elevator_descriptor_t "target_entry_pc") with (Some 0).
  change (offsetof elevator_descriptor_t "target_sp_el0") with (Some 8).
  change (offsetof elevator_descriptor_t "target_ttbr0_val") with (Some 16). cbn [mbind option_bind].
  destruct (mem !! (a + 0)), (mem !! (a + 8)), (mem !! (a + 16)); cbn; try discriminate. by intros [= -> -> ->].
Qed.

Lemma frame_room (a : Z) (tf : LettuceTrapFrame) (mem : gmap Z Z) : frame_at a tf mem → room a 34 mem.
Proof.
  intros [Hok Hat] i Hi. destruct (frame_words tf !! i) as [w|] eqn:Hw; [exists w; by apply Hat|].
  apply lookup_ge_None in Hw. unfold frame_words, frame_ok in *. rewrite length_app, Hok in Hw. cbn in Hw. lia.
Qed.

(** The instructions are the transition of [Cpu.v]: the frame [x1] points to is set up for
    the target of the descriptor [x0] points to, [TTBR0_EL1] is the target's. *)
Lemma elevator_instructions (m : machine) (desc : LettuceElevatorDescriptor) (tf : LettuceTrapFrame) (d f : Z) (mmu : mmu_state) :
  length (m_x m) = 31%nat → m_x m !! 0%nat = Some d → m_x m !! 1%nat = Some f → d mod 8 = 0 → f mod 8 = 0 →
  read_elevator d (m_mem m) = Some (target_entry_pc desc, target_sp_el0 desc, target_ttbr0_val desc) →
  read_frame f (m_mem m) = Some tf → m_hw m = mmu_hw mmu →
  ∃ m', exec elevator_asm_transition m = Some m' ∧
    read_frame f (m_mem m') = Some (lettuce_elevator_asm_transition desc tf mmu).1 ∧
    m_hw m' = mmu_hw (lettuce_elevator_asm_transition desc tf mmu).2 ∧
    m_sp m' = m_sp m ∧ callee_saved m' = callee_saved m ∧
    ∀ a, a < f ∨ f + 272 ≤ a → m_mem m' !! a = m_mem m !! a.
Proof.
  destruct m as [x sp e s u h mem]. unfold callee_saved. cbn [m_x m_sp m_hw m_mem].
  intros Hx H0 H1 Hd Hf Hdesc Hframe ->. apply read_elevator_words in Hdesc as (Hpc & Hsp & Htt).
  apply frame_at_read in Hframe. pose proof (frame_room _ _ _ Hframe) as Hroom. destruct Hframe as [Hok Hat].
  name_list x. injection H0 as ->. injection H1 as ->. unfold elevator_asm_transition.
  ldr_reg 0%nat d. rewrite exec_barrier. rewrite exec_msr with (v := target_ttbr0_val desc) by done. tidy.
  rewrite exec_barrier. do 2 ldr_reg 0%nat d. change mem with (store_all f [] mem) at 1. do 3 str_reg 1%nat f 34%nat.
  eexists. split; [reflexivity|]. cbn [exec m_x m_sp m_hw m_mem]. split; [|split; [done|split; [done|split; [done|]]]].
  - apply frame_at_read. destruct tf as [y lr elr spsr sp0]. unfold frame_ok in *. cbn in Hok. name_list y.
    split; [done|]. intros i w Hi. rewrite lookup_store_all.
    do 34 (destruct i as [|i]; [first [exact Hi|match goal with |- context [mem !! (f + 8 * Z.of_nat ?k)] => exact (Hat k w Hi) end]|]). discriminate Hi.
  - intros a Ha. apply (lookup_outside _ _ 34); [reflexivity|lia].
Qed.

(** ** The kernel context switch *)

(** What a context keeps of a kernel thread: x19 to x30, and the stack pointer in the
    place of [sp_el0]. *)
Definition kernel_context (a : Z) (mem : gmap Z Z) : option (list Z * Z) :=
  x ← read_words task_context_t "x" 31 a mem; sp ← read_field task_context_t "sp_el0" a mem; Some (drop 19 x, sp).

Lemma context_offset_x : offsetof task_context_t "x" = Some 0. Proof. done. Qed.
Lemma context_offset_sp : offsetof task_context_t "sp_el0" = Some 248. Proof. done. Qed.

Lemma kernel_context_words (a sp : Z) (regs : list Z) (mem : gmap Z Z) :
  kernel_context a mem = Some (regs, sp) → length regs = 12%nat ∧ words_at (a + 152) (regs ++ [sp]) mem.
Proof.
  unfold kernel_context, read_words, read_field. rewrite context_offset_x, context_offset_sp. cbn [mbind option_bind].
  destruct (mapM _ _) as [x|] eqn:Hx; cbn [mbind option_bind]; [|done].
  destruct (mem !! (a + 248)) as [w|] eqn:Hw; cbn [mbind option_bind]; [|done]. intros [= <- <-].
  apply mapM_Some in Hx. pose proof (Forall2_length _ _ _ Hx) as Hl. rewrite length_seq in Hl.
  assert (length (drop 19 x) = 12%nat) as Hd by (rewrite length_drop; lia). split; [done|]. intros i v Hi.
  destruct (decide (i < 12)%nat).
  - rewrite lookup_app_l, lookup_drop in Hi by lia.
    destruct (Forall2_lookup_r _ _ _ _ _ Hx Hi) as (k & Hk & Hm). apply lookup_seq in Hk as [-> _].
    rewrite <- Hm. f_equal. lia.
  - pose proof (lookup_lt_Some _ _ _ Hi) as Hlt. rewrite length_app, Hd in Hlt. cbn in Hlt.
    assert (i = 12%nat) as -> by lia. rewrite lookup_app_r, Hd in Hi by lia. injection Hi as <-. rewrite <- Hw. f_equal. lia.
Qed.

Lemma kernel_context_intro (a sp : Z) (regs : list Z) (mem : gmap Z Z) :
  room a 32 mem → length regs = 12%nat → words_at (a + 152) (regs ++ [sp]) mem → kernel_context a mem = Some (regs, sp).
Proof.
  intros Hroom Hl Hat. unfold kernel_context, read_words, read_field. rewrite context_offset_x, context_offset_sp.
  cbn [mbind option_bind]. destruct (mapM _ _) as [x|] eqn:Hx.
  2:{ apply mapM_None, Exists_exists in Hx as (i & Hi%elem_of_seq & Hn). destruct (Hroom i ltac:(lia)) as [w Hw].
      rewrite Z.add_0_r in Hn. congruence. }
  cbn [mbind option_bind]. apply mapM_Some in Hx. pose proof (Forall2_length _ _ _ Hx) as Hlx. rewrite length_seq in Hlx.
  replace (mem !! (a + 248)) with (Some sp).
  2:{ symmetry. replace (a + 248) with (a + 152 + 8 * Z.of_nat 12) by lia. apply Hat. by rewrite lookup_app_r, Hl by lia. }
  cbn [mbind option_bind]. do 2 f_equal. apply list_eq. intros i. rewrite lookup_drop.
  destruct (regs !! i) as [w|] eqn:Hw.
  - pose proof (lookup_lt_Some _ _ _ Hw). destruct (x !! (19 + i)%nat) as [v|] eqn:Hv.
    2:{ apply lookup_ge_None in Hv. lia. }
    destruct (Forall2_lookup_r _ _ _ _ _ Hx Hv) as (k & Hk & Hm). apply lookup_seq in Hk as [-> _]. rewrite <- Hm.
    replace (a + 0 + 8 * Z.of_nat (0 + (19 + i))) with (a + 152 + 8 * Z.of_nat i) by lia.
    apply Hat. by rewrite lookup_app_l by lia.
  - apply lookup_ge_None in Hw. apply lookup_ge_None. lia.
Qed.

#[local] Ltac next_word Hat :=
  match goal with |- _ !! (_ + ?o) = _ => let i := eval vm_compute in (Z.to_nat (o / 8 - 19)) in exact (Hat i _ _ eq_refl eq_refl) end.

Lemma switch_save_spec (m : machine) (prev : Z) :
  length (m_x m) = 31%nat → m_x m !! 0%nat = Some prev → prev mod 8 = 0 → room prev 32 (m_mem m) →
  ∃ m', exec switch_save m = Some m' ∧ length (m_x m') = 31%nat ∧ m_x m' !! 1%nat = m_x m !! 1%nat ∧
    kernel_context prev (m_mem m') = Some (callee_saved m, m_sp m) ∧
    ∀ a, a < prev ∨ prev + 256 ≤ a → m_mem m' !! a = m_mem m !! a.
Proof.
  destruct m as [x sp e s u h mem]. unfold callee_saved. cbn [m_x m_sp m_hw m_mem].
  intros Hx H0 Hp8 Hroom. name_list x. injection H0 as ->. unfold switch_save.
  change mem with (store_all prev [] mem) at 1. do 6 str_reg 0%nat prev 32%nat.
  rewrite exec_mov_from_sp by (cbn; lia). tidy. str_reg 0%nat prev 32%nat.
  eexists. split; [reflexivity|]. cbn [exec m_x m_sp m_hw m_mem]. split; [done|]. split; [done|]. split.
  - apply kernel_context_intro; [in_room_at 32%nat|done|]. intros i w Hi.
    apply (lookup_word (152 + 8 * Z.of_nat i)); [|lia]. do 13 (destruct i as [|i]; [exact Hi|]). discriminate Hi.
  - intros a Ha. apply (lookup_outside _ _ 32); [reflexivity|lia].
Qed.

Lemma switch_restore_spec (m : machine) (next sp : Z) (regs : list Z) :
  length (m_x m) = 31%nat → m_x m !! 1%nat = Some next → next mod 8 = 0 → kernel_context next (m_mem m) = Some (regs, sp) →
  ∃ m', exec switch_restore m = Some m' ∧ length (m_x m') = 31%nat ∧ callee_saved m' = regs ∧ m_sp m' = sp ∧
    m_mem m' = m_mem m.
Proof.
  destruct m as [x sp0 e s u h mem]. unfold callee_saved. cbn [m_x m_sp m_hw m_mem].
  intros Hx H1 Hn8 Hc. apply kernel_context_words in Hc as [Hl Hw].
  assert (∀ i w o, (regs ++ [sp]) !! i = Some w → o = 152 + 8 * Z.of_nat i → mem !! (next + o) = Some w) as Hat.
  { intros i w o Hi ->. rewrite <- (Hw i w Hi). f_equal. lia. }
  name_list x. name_list regs. injection H1 as ->. unfold switch_restore. cbn [app] in Hat.
  do 6 (erewrite (exec_ldp _ _ _ _ _ _ (Xb 1%nat) next) by (first [reg_base|reflexivity|cbn; lia|next_word Hat]); tidy).
  erewrite (exec_ldr _ _ _ _ _ _ (Xb 1%nat) next) by (first [reg_base|reflexivity|cbn; lia|next_word Hat]). tidy.
  erewrite exec_mov_to_sp by reflexivity. by eexists.
Qed.

(** A context is its 32 words. *)
Lemma kernel_context_same (a : Z) (mem mem' : gmap Z Z) :
  (∀ k, a ≤ k < a + 256 → mem' !! k = mem !! k) → kernel_context a mem' = kernel_context a mem.
Proof.
  intros Hk. unfold kernel_context, read_words, read_field. rewrite context_offset_x, context_offset_sp.
  cbn [mbind option_bind]. rewrite (Hk (a + 248)) by lia. f_equal.
  apply Forall_mapM_ext, Forall_forall. intros i Hi%elem_of_seq. apply Hk. lia.
Qed.

(** A switch leaves the caller's context in [*prev], and goes on with that of [*next]. *)
Lemma context_switch_spec (m : machine) (prev next sp : Z) (regs : list Z) :
  length (m_x m) = 31%nat → m_x m !! 0%nat = Some prev → m_x m !! 1%nat = Some next → prev ≠ 0 → next ≠ 0 →
  prev mod 8 = 0 → next mod 8 = 0 → room prev 32 (m_mem m) → prev + 256 ≤ next ∨ next + 256 ≤ prev →
  kernel_context next (m_mem m) = Some (regs, sp) →
  ∃ m', lettuce_arch_context_switch m = Some m' ∧ callee_saved m' = regs ∧ m_sp m' = sp ∧ length (m_x m') = 31%nat ∧
    kernel_context prev (m_mem m') = Some (callee_saved m, m_sp m) ∧
    ∀ a, a < prev ∨ prev + 256 ≤ a → m_mem m' !! a = m_mem m !! a.
Proof.
  intros Hx H0 H1 Hp Hn Hp8 Hn8 Hroom Hap Hc. apply Z.eqb_neq in Hp, Hn.
  destruct (switch_save_spec m prev Hx H0 Hp8 Hroom) as (m1 & Hs & Hx1 & H1' & Hctx & Hout).
  rewrite H1 in H1'. assert (kernel_context next (m_mem m1) = Some (regs, sp)) as Hc1 
    by (rewrite (kernel_context_same next (m_mem m)); [done|intros k Hk; apply Hout; lia]).
  destruct (switch_restore_spec m1 next sp regs Hx1 H1' Hn8 Hc1) as (m2 & Hr & Hx2 & Hregs & Hsp & Hmem).
  exists m2. unfold lettuce_arch_context_switch, unless_zero. rewrite H0. cbn [mbind option_bind]. rewrite Hp, Hs.
  cbn [mbind option_bind]. rewrite H1'. cbn [mbind option_bind]. rewrite Hn, Hmem. by split_and!.
Qed.

(** Without a context to leave, the switch only goes on with [*next]. *)
Lemma context_switch_from_null (m : machine) (next sp : Z) (regs : list Z) :
  length (m_x m) = 31%nat → m_x m !! 0%nat = Some 0 → m_x m !! 1%nat = Some next → next ≠ 0 → next mod 8 = 0 →
  kernel_context next (m_mem m) = Some (regs, sp) →
  ∃ m', lettuce_arch_context_switch m = Some m' ∧ callee_saved m' = regs ∧ m_sp m' = sp ∧ m_mem m' = m_mem m.
Proof.
  intros Hx H0 H1 Hn%Z.eqb_neq Hn8 Hc. destruct (switch_restore_spec m next sp regs Hx H1 Hn8 Hc) as (m' & Hr & _ & Hregs & Hsp & Hmem).
  exists m'. unfold lettuce_arch_context_switch, unless_zero. rewrite H0. cbn [mbind option_bind Z.eqb]. rewrite H1.
  cbn [mbind option_bind]. by rewrite Hn.
Qed.

(** The machine is about to switch from [*prev], which may be [NULL], to [*next]. *)
Record switching (prev next : Z) (m : machine) : Prop := {
  sw_registers : length (m_x m) = 31%nat;
  sw_prev : m_x m !! 0%nat = Some prev;
  sw_next : m_x m !! 1%nat = Some next;
  sw_to : next ≠ 0 ∧ next mod 8 = 0;
  sw_from : prev ≠ 0 → prev mod 8 = 0 ∧ room prev 32 (m_mem m) ∧ (prev + 256 ≤ next ∨ next + 256 ≤ prev)
}.

(** C26: a context switch resumes exactly.  [lettuce_arch_context_switch], instruction by
    instruction, goes on with the stack pointer and the registers [x19] to [x30], the return
    address among them, of [*next], and writes to [*prev] only.  Whatever runs afterwards,
    if the words of [*prev] are what the switch left there, a switch back to it, from any
    other context or from none ([NULL]), goes on with exactly the stack pointer, registers
    and return address of the caller of the first switch, and writes only to the context it
    leaves.  The offsets in the instructions are those of the C structure. *)
Theorem context_switch_resumes_exactly (m : machine) (prev next sp : Z) (regs : list Z) :
  switching prev next m → prev ≠ 0 → kernel_context next (m_mem m) = Some (regs, sp) →
  ∃ m1, lettuce_arch_context_switch m = Some m1 ∧ callee_saved m1 = regs ∧ m_sp m1 = sp ∧
    (∀ a, a < prev ∨ prev + 256 ≤ a → m_mem m1 !! a = m_mem m !! a) ∧
    ∀ m2 from, switching from prev m2 → (∀ a, prev ≤ a < prev + 256 → m_mem m2 !! a = m_mem m1 !! a) →
      ∃ m3, lettuce_arch_context_switch m2 = Some m3 ∧ callee_saved m3 = callee_saved m ∧ m_sp m3 = m_sp m ∧
        ∀ a, from = 0 ∨ a < from ∨ from + 256 ≤ a → m_mem m3 !! a = m_mem m2 !! a.
Proof.
  intros [Hx H0 H1 [Hn Hn8] Hfrom] Hp Hc. destruct (Hfrom Hp) as (Hp8 & Hroom & Hap).
  destruct (context_switch_spec m prev next sp regs Hx H0 H1 Hp Hn Hp8 Hn8 Hroom Hap Hc) as (m1 & Hs & Hr & Hsp & _ & Hk & Hout).
  exists m1. split_and!; [done..|]. intros m2 from [Hx2 H02 H12 _ Hfrom2] Hsame.
  rewrite <- (kernel_context_same prev _ (m_mem m2) Hsame) in Hk. destruct (decide (from = 0)) as [->|Hne].
  - destruct (context_switch_from_null m2 prev _ _ Hx2 H02 H12 Hp Hp8 Hk) as (m3 & Hs3 & Hr3 & Hsp3 & Hm3).
    exists m3. rewrite Hm3. by split_and!.
  - destruct (Hfrom2 Hne) as (Hf8 & Hroom2 & Hap2).
    destruct (context_switch_spec m2 from prev _ _ Hx2 H02 H12 Hne Hp Hf8 Hp8 Hroom2 Hap2 Hk) as (m3 & Hs3 & Hr3 & Hsp3 & _ & _ & Hout3).
    exists m3. split_and!; try done. intros a [?|Ha]; [done|by apply Hout3].
Qed.

(** ** Boot *)

(** [n] turns of the loop clear [n] pairs of words. *)
Lemma clear_bss_spec (n fuel : nat) (m : machine) (a : Z) :
  length (m_x m) = 31%nat → m_x m !! 0%nat = Some a → m_x m !! 1%nat = Some (a + 16 * Z.of_nat n) →
  m_x m !! 2%nat = Some 0 → a mod 8 = 0 → 0 ≤ a → a + 16 * Z.of_nat n < 2 ^ 64 → room a (2 * n) (m_mem m) → (n < fuel)%nat →
  ∃ m', clear_bss fuel m = Some m' ∧ length (m_x m') = 31%nat ∧
    ∀ k, m_mem m' !! k = if bool_decide (a ≤ k < a + 16 * Z.of_nat n) && (k mod 8 =? 0) then Some 0 else m_mem m !! k.
Proof.
  revert fuel m a. induction n as [|n IH]; intros [|fuel] [x sp e s u h mem] a; cbn [m_x m_mem];
    intros Hx H0 H1 H2 Ha8 Ha0 Ha Hroom Hf; try lia; cbn [clear_bss m_x]; rewrite H0, H1; cbn [mbind option_bind].
  { rewrite (proj2 (Z.leb_le _ _)) by lia. eexists. split; [reflexivity|]. split; [done|]. intros k.
    rewrite bool_decide_false by lia. done. }
  rewrite (proj2 (Z.leb_gt _ _)) by lia. change mem with (store_all a [] mem) at 1.
  erewrite (exec_stp _ _ _ _ _ _ (Xb 0) a (conj H0 Ha8) 2); try done; [|intros i Hi; apply Hroom; lia].
  cbn [exec app mbind option_bind]. unfold set_reg. cbn [m_x]. rewrite decide_True by lia. cbn [mbind option_bind].
  rewrite u64_small by (unfold is_u64; lia).
  set (mem1 := store_all a _ mem).
  assert (same_words mem mem1) as Hs by (apply (store_all_same _ 2); [intros i Hi; apply Hroom; lia|reflexivity]).
  destruct (IH fuel (mk (<[0%nat := a + 16]> x) sp e s u h mem1) (a + 16)) as (m' & Hc & Hl & Hm); cbn [m_x m_mem].
  all: rewrite ?length_insert, ?list_lookup_insert_eq, ?list_lookup_insert_ne by lia; try done; try lia.
  - rewrite H1. f_equal. lia.
  - by rewrite <- Zplus_mod_idemp_l, Zplus_mod_idemp_l, <- Zplus_mod_idemp_l, Ha8.
  - eapply (room_part a _ (2 * S n) _ 2); [eapply room_same; [exact Hs|done]|lia|lia].
  - exists m'. split; [exact Hc|]. split; [exact Hl|]. intros k. rewrite Hm. cbn [m_mem].
    unfold mem1, store_all. cbn [foldl fst snd]. rewrite Z.add_0_r.
    pose proof (Z.div_mod k 8 ltac:(lia)) as Hk. pose proof (Z.div_mod a 8 ltac:(lia)) as Hda.
    destruct (Z.eqb_spec (k mod 8) 0) as [Hk8|Hk8].
    + destruct (decide (k < a + 16)) as [Hlt|Hge].
      * rewrite (bool_decide_false (a + 16 ≤ k < _)) by lia. cbn [andb].
        destruct (decide (a ≤ k)); [rewrite bool_decide_true by lia|rewrite bool_decide_false by lia; rewrite !lookup_insert_ne by lia; done].
        assert (k = a ∨ k = a + (0 + 8)) as [-> | ->] by lia; [rewrite lookup_insert_ne by lia|]; by rewrite lookup_insert_eq.
      * rewrite !lookup_insert_ne by lia. rewrite (bool_decide_ext (a + 16 ≤ k < _) (a ≤ k < a + 16 * Z.of_nat (S n))) by lia. done.
    + rewrite !andb_false_r. rewrite !lookup_insert_ne by (intros <-; apply Hk8; first [done|by apply mod8_next]). done.
Qed.

(** [_start] clears the words of [.bss], all of them and no others, and calls the kernel
    with the stack pointer at the top of the boot stack. *)
Lemma start_spec (bss_start bss_end boot_stack_top : Z) (fuel : nat) (m : machine) :
  length (m_x m) = 31%nat → 0 ≤ bss_start ≤ bss_end → bss_end < 2 ^ 64 → 0 ≤ boot_stack_top < 2 ^ 64 →
  bss_start mod 4096 = 0 → bss_end mod 4096 = 0 →
  room bss_start (Z.to_nat ((bss_end - bss_start) / 8)) (m_mem m) → (bss_end - bss_start) / 16 < Z.of_nat fuel →
  ∃ m', start bss_start bss_end boot_stack_top fuel m = Some m' ∧ m_sp m' = boot_stack_top ∧
    ∀ k, m_mem m' !! k = if bool_decide (bss_start ≤ k < bss_end) && (k mod 8 =? 0) then Some 0 else m_mem m !! k.
Proof.
  destruct m as [x sp e s u h mem]. cbn [m_x m_mem]. intros Hx Hb He Ht Hb0 He0 Hroom Hf.
  pose proof (Z.div_mod bss_start 4096 ltac:(lia)). pose proof (Z.div_mod bss_end 4096 ltac:(lia)).
  set (n := Z.to_nat ((bss_end - bss_start) / 16)).
  assert (bss_end = bss_start + 16 * Z.of_nat n) as Hn.
  { unfold n. replace (bss_end - bss_start) with ((bss_end / 4096 - bss_start / 4096) * 256 * 16) by lia.
    rewrite Z.div_mul by lia. lia. }
  assert (∀ a, a - a mod 4096 + a mod 4096 = a) as Hpage by lia.
  name_list x. unfold start.
  do 2 (rewrite exec_adrp by (cbn; lia); tidy; erewrite exec_add_lo12 by (first [reflexivity|cbn; lia]); tidy).
  rewrite !Hpage, !u64_small by (unfold is_u64; lia). rewrite exec_nil. cbn [mbind option_bind].
  unfold set_reg. cbn [m_x]. rewrite decide_True by (cbn; lia). cbn [mbind option_bind insert list_insert with_x].
  edestruct (clear_bss_spec n fuel) as (m1 & -> & Hl & Hm); cycle -1.
  { destruct m1 as [x1 sp1 e1 s1 u1 h1 mem1]. cbn [mbind option_bind m_x m_mem] in *. name_list x1.
    rewrite exec_adrp by (cbn; lia). tidy. erewrite exec_add_sp_lo12 by reflexivity. rewrite Hpage, u64_small by (unfold is_u64; lia).
    eexists. split; [reflexivity|]. split; [done|]. cbn [m_mem]. intros k. rewrite Hm, Hn. reflexivity. }
  all: cbn [with_x m_x m_mem]; try done; try lia.
  - by rewrite Hn.
  - replace bss_start with (bss_start / 4096 * 512 * 8) by lia. by apply Z.mod_mul.
  - intros i Hi. apply Hroom. replace (bss_end - bss_start) with (2 * Z.of_nat n * 8) by lia. rewrite Z.div_mul by lia. lia.
  - unfold n. pose proof (Z.div_pos (bss_end - bss_start) 16 ltac:(lia) ltac:(lia)). lia.
Qed.

(** ** Witnesses *)

(** A kernel stack of 64 words below 0x8800, the variable at 0x100. *)
Definition demo_machine : machine :=
  {| m_x := 0x40112000 :: 0x41010000 :: map Z.of_nat (seq 2 29); m_sp := 0x8800; m_elr_el1 := 0; m_spsr_el1 := 5; m_sp_el0 := 0;
     m_hw := mmu_hw (cp_mmu main_demo);
     m_mem := list_to_map ((0x100, 0) :: map (λ i, (0x8600 + 8 * Z.of_nat i, 7)) (seq 0 96)) |}.

Lemma demo_machine_ready : ready_to_enter 0x100 0x8000 0x8900 0x40112000 0x41010000 demo_machine.
Proof.
  split; try reflexivity; cbn [demo_machine m_sp m_mem]; try lia; try (split; [by eexists|reflexivity]); try done.
  intros i Hi. do 46 (destruct i as [|i]; [by eexists|]). lia.
Qed.

(** The registers user code starts with. *)
Definition demo_user_frame : LettuceTrapFrame :=
  {| tf_x := 0x40112000 :: 0x41010000 :: 0 :: 0x87a0 :: map Z.of_nat (seq 4 26); tf_lr := 30; tf_elr := 0x40112000; tf_spsr := 0;
     tf_sp_el0 := 0x41010000 |}.

Lemma entering_user_mode_is_a_call_witness :
  ∃ m1 m' st', exec (el0_enter 0x100) demo_machine = Some m1 ∧
    machine_run demo_sign demo_sign main_code 0x100 0x8900 m1 main_demo 0 m' st' ∧
    m_x m' !! 0%nat = Some 0 ∧ m_sp m' = 0x8800 ∧ callee_saved m' = map Z.of_nat (seq 19 12).
Proof.
  destruct (entering_user_mode_is_a_call demo_sign demo_sign main_code 0x100 0x8000 0x8900 0x40112000 0x41010000
    demo_machine main_demo demo_machine_ready main_code_ok) as (m1 & Hx & Hiff & Hret).
  assert (user_frame m1 = demo_user_frame) as Hf.
  { assert (user_frame <$> exec (el0_enter 0x100) demo_machine = Some demo_user_frame) as He by (vm_compute; reflexivity).
    rewrite Hx in He. exact (inj Some _ _ He). }
  rewrite Hf in Hiff.
  destruct (outcome_Some (lettuce_el0_enter demo_sign demo_sign demo_user_frame main_code 8 0x40112000 0x41010000 main_demo) 0)
    as [st' Hrun]; [vm_compute; reflexivity|].
  destruct (proj1 (Hiff 0 st') (ex_intro _ 8%nat Hrun)) as [m' Hm].
  destruct (Hret 0 m' st' Hm) as (H0 & Hs & Hreg & _).
  exists m1, m', st'. split; [exact Hx|]. split; [exact Hm|]. split; [exact H0|]. split; [exact Hs|exact Hreg].
Defined.

(** Contexts at 0x1000 and 0x2000; word [i] of the second holds [500 + i]. *)
Definition switch_machine : machine :=
  {| m_x := 0x1000 :: 0x2000 :: map Z.of_nat (seq 2 29); m_sp := 0x8800; m_elr_el1 := 0; m_spsr_el1 := 5; m_sp_el0 := 0;
     m_hw := mmu_hw (cp_mmu main_demo);
     m_mem := list_to_map (flat_map (λ i, [(0x1000 + 8 * Z.of_nat i, 0); (0x2000 + 8 * Z.of_nat i, 500 + Z.of_nat i)]) (seq 0 32)) |}.

(** The second context, with its own registers, switches back. *)
Definition switch_back (mem : gmap Z Z) : machine :=
  {| m_x := 0x2000 :: 0x1000 :: replicate 29 9; m_sp := 0x9000; m_elr_el1 := 0; m_spsr_el1 := 5; m_sp_el0 := 0;
     m_hw := mmu_hw (cp_mmu main_demo); m_mem := mem |}.

Lemma context_switch_resumes_exactly_witness :
  ∃ m1 m3, lettuce_arch_context_switch switch_machine = Some m1 ∧
    callee_saved m1 = map (λ i, 500 + Z.of_nat i) (seq 19 12) ∧ m_sp m1 = 531 ∧
    lettuce_arch_context_switch (switch_back (m_mem m1)) = Some m3 ∧
    callee_saved m3 = map Z.of_nat (seq 19 12) ∧ m_sp m3 = 0x8800.
Proof.
  destruct (context_switch_resumes_exactly switch_machine 0x1000 0x2000 531 (map (λ i, 500 + Z.of_nat i) (seq 19 12)))
    as (m1 & Hs & Hr & Hsp & Hout & Hback).
  - split; [reflexivity..|by split|]. intros _. split; [reflexivity|]. split; [|left; lia].
    intros i Hi. do 32 (destruct i as [|i]; [by eexists|]). lia.
  - lia.
  - vm_compute. reflexivity.
  - destruct (Hback (switch_back (m_mem m1)) 0x2000) as (m3 & Hs3 & Hr3 & Hsp3 & _).
    + split; [reflexivity..|by split|]. intros _. split; [reflexivity|]. split; [|right; lia].
      intros i Hi. change (m_mem (switch_back (m_mem m1))) with (m_mem m1). rewrite Hout by lia.
      do 32 (destruct i as [|i]; [by eexists|]). lia.
    + reflexivity.
    + exists m1, m3. split; [exact Hs|]. split; [exact Hr|]. split; [exact Hsp|]. split; [exact Hs3|]. split; [exact Hr3|exact Hsp3].
Defined.
