(* ===== verification/Harness.v ===== *)
(** * The bring-up tests: [lettuce_arm64_main] after boot

    Tests 1 to 17 of [kernel/arch/arm64/main.c]: the program the kernel runs on itself,
    over any user code.  A statement of the program is a step on the kernel's state, the
    two counters of results, the interrupt mask and the time; sequencing is that of a
    state monad with failure. *)

From Stdlib Require Import String.
From S2P Require Import Prelude Types Capability Registry Ipc Scheduler Mmu Console Posix Cpu CpuSpec Report Main.

Definition RES_FRAMEBUFFER : Z := 1.
Definition RES_DISK : Z := 2.

(** [w_unmasked]: the kernel takes interrupts ([DAIF.I] is clear).  [w_time] counts the
    kernel's observations of the outside world ([HarnessTasks.v]). *)
Record world := { w_cpu : cpu_state; w_tests : test_state; w_unmasked : bool; w_time : nat }.

Definition on_cpu (st : cpu_state) (w : world) : world :=
  {| w_cpu := st; w_tests := w_tests w; w_unmasked := w_unmasked w; w_time := w_time w |}.
Definition set_unmasked (b : bool) (w : world) : world :=
  {| w_cpu := w_cpu w; w_tests := w_tests w; w_unmasked := b; w_time := w_time w |}.

(** After boot, with interrupts masked. *)
Definition started_world (st : cpu_state) : world :=
  {| w_cpu := st; w_tests := {| g_tests_passed := 0; g_tests_failed := 0 |}; w_unmasked := false; w_time := 0 |}.

(** ** Statements *)

Definition prog (A : Type) : Type := world → option (A * world).

#[export] Instance prog_ret : MRet prog := λ A x w, Some (x, w).
#[export] Instance prog_bind : MBind prog := λ A B f p w, '(x, w) ← p w; f x w.

(** Reading the state, and a step of it. *)
Definition get {A : Type} (f : cpu_state → A) : prog A := λ w, Some (f (w_cpu w), w).
Definition modify (f : cpu_state → option cpu_state) : prog unit :=
  λ w, st ← f (w_cpu w); Some (tt, on_cpu st w).
Definition on_mmu (f : mmu_state → mmu_state) : prog unit := modify (λ st, Some (with_mmu (f (cp_mmu st)) st)).

Definition say (text : string) : prog unit := modify (λ st, Some (puts text st)).

(** [if (ok) log_pass(pass); else log_fail(fail);] *)
Definition log_outcome (pass fail : string) (ok : bool) : prog unit := λ w,
  '(t, io) ← (if ok then log_pass pass (w_tests w) (cp_io (w_cpu w)) else log_fail fail (w_tests w) (cp_io (w_cpu w)));
  Some (tt, {| w_cpu := with_io io (w_cpu w); w_tests := t; w_unmasked := w_unmasked w; w_time := w_time w |}).

(** Calls whose result is ignored. *)
Definition dispatch_register (s o f : Z) : prog unit := modify (λ st,
  '(_, t) ← lettuce_dispatch_register s o f (cp_registry st); Some (with_tables (cp_caps st) t st)).

Definition capability_create (owner target op permissions res : Z) : prog Z := λ w,
  let st := w_cpu w in
  '(h, caps) ← lettuce_capability_create owner target op permissions res (cp_caps st);
  Some (h, on_cpu (with_tables caps (cp_registry st) st) w).

(** [shared_words[i] = v;] *)
Definition shared_word (i v : Z) : prog unit := modify (λ st,
  mem ← store_u64 (SHARED_PAGE_VA + 8 * i) v (io_mem (cp_io st)); Some (with_memory mem st)).

Section tests.
Context (pac_sign pac_auth : Z → Z → Z) (L : layout) (sym : el0_symbols) (registers : LettuceTrapFrame).
Context (user : el0_code) (fuel : nat).

(** The kernel continuation runs inside an exception handler: interrupts are masked. *)
Definition run (s domain service : Z) : prog Z := λ w,
  '(status, st) ← run_el0_service pac_sign pac_auth L registers user fuel s domain service (w_cpu w);
  Some (status, set_unmasked false (on_cpu st w)).

Definition title (text : string) : prog unit := say (String.append newline (line text)).

Definition is_status (s : LettuceStatus) (status : Z) : bool := status =? status_code s.

(** The identity and domain a test ends with. *)
Definition camera_restored : prog bool :=
  s ← get cp_service; d ← get (λ st, lettuce_mmu_current_domain (cp_mmu st));
  mret ((s =? SERVICE_CAMERA) && (d =? DOMAIN_A)).

(** ** Tests 1 to 5: entry, return, identity, private pages *)

Definition test_1 : prog unit :=
  title "--- Test 1: EL1 -> EL0 Entry ---" ;;
  t1_status ← run (svc_minimal_return_entry sym) DOMAIN_A SERVICE_CAMERA;
  log_outcome "Test 1: EL1 -> EL0 transition and execution succeeded" "Test 1: EL1 -> EL0 transition failed"
    (is_status LETTUCE_STATUS_OK t1_status).

Definition test_2 : prog unit :=
  title "--- Test 2: EL0 -> EL1 SVC Return ---" ;;
  t2_status ← run (svc_minimal_return_entry sym) DOMAIN_B SERVICE_DISPLAY;
  log_outcome "Test 2: EL0 -> EL1 SVC #0 return succeeded with status OK" "Test 2: EL0 -> EL1 SVC return failed"
    (is_status LETTUCE_STATUS_OK t2_status).

Definition test_3 : prog unit :=
  title "--- Test 3: Kernel Authoritative ServiceId Preserved ---" ;;
  modify (λ st, Some (with_identity SERVICE_CAMERA (cp_mmu st) st)) ;;
  _ ← run (svc_minimal_return_entry sym) DOMAIN_A SERVICE_CAMERA;
  s ← get cp_service;
  log_outcome "Test 3: Kernel authoritative ServiceId maintained across EL0 execution"
    "Test 3: ServiceId corrupted across EL0 execution" (s =? SERVICE_CAMERA).

Definition test_4 : prog unit :=
  title "--- Test 4: Kernel Authoritative DomainId Preserved ---" ;;
  on_mmu (λ m, (lettuce_mmu_enter DOMAIN_B m).2) ;;
  _ ← run (svc_minimal_return_entry sym) DOMAIN_B SERVICE_DISPLAY;
  d ← get (λ st, lettuce_mmu_current_domain (cp_mmu st));
  log_outcome "Test 4: Kernel authoritative DomainId maintained across EL0 execution"
    "Test 4: DomainId corrupted across EL0 execution" (d =? DOMAIN_B).

Definition test_5 : prog unit :=
  title "--- Test 5: Own Private Page Accessible from EL0 ---" ;;
  a ← run (svc_camera_entry sym) DOMAIN_A SERVICE_CAMERA;
  b ← run (svc_display_entry sym) DOMAIN_B SERVICE_DISPLAY;
  c ← run (svc_storage_entry sym) DOMAIN_C SERVICE_STORAGE;
  log_outcome "Test 5: Services can read/write their own private pages at EL0"
    "Test 5: Private page access from EL0 failed"
    (is_status LETTUCE_STATUS_OK a && is_status LETTUCE_STATUS_OK b && is_status LETTUCE_STATUS_OK c).

(** ** Tests 6 to 9: faults and the shared page *)

Definition fault_observed : prog bool := get (λ st, lettuce_mmu_expected_fault_observed (cp_mmu st)).
Definition last_far : prog Z := get (λ st, lettuce_mmu_last_fault_far (cp_mmu st)).
Definition last_esr : prog Z := get (λ st, lettuce_mmu_last_fault_esr (cp_mmu st)).

(** Run a service that is to fault at [va]. *)
Definition run_expecting (va s domain service : Z) : prog bool :=
  on_mmu (lettuce_mmu_expect_fault va) ;;
  status ← run s domain service;
  observed ← fault_observed;
  mret (is_status LETTUCE_STATUS_ABORTED status && observed).

Definition test_6 : prog unit :=
  title "--- Test 6: Foreign Private Page Faults from EL0 ---" ;;
  a ← run_expecting PRIVATE_B_VA (svc_test_foreign_mem_a_to_b sym) DOMAIN_A SERVICE_CAMERA;
  far_a ← last_far;
  b ← run_expecting PRIVATE_A_VA (svc_test_foreign_mem_b_to_a sym) DOMAIN_B SERVICE_DISPLAY;
  far_b ← last_far;
  log_outcome "Test 6: Foreign domain access correctly raised MMU translation fault"
    "Test 6: Foreign domain isolation failed"
    (a && (far_a =? PRIVATE_B_VA) && b && (far_b =? PRIVATE_A_VA)).

Definition kernel_test_va : Z := 0x40082000.

Definition test_7 : prog unit :=
  title "--- Test 7: EL0 Cannot Access Kernel Memory ---" ;;
  aborted ← run_expecting kernel_test_va (svc_test_kernel_mem sym) DOMAIN_A SERVICE_CAMERA;
  t7_esr ← last_esr;
  let t7_fsc := t7_esr .& 0x3f in
  far ← last_far;
  log_outcome "Test 7: EL0 access to kernel memory raised MMU permission fault"
    "Test 7: Kernel memory protection failed"
    (aborted && (far =? kernel_test_va) && ((0xc <=? t7_fsc) && (t7_fsc <=? 0xf))).

Definition test_8 : prog unit :=
  title "--- Test 8: EL0 Traps on Privileged Register Access ---" ;;
  on_mmu lettuce_arch_expect_sysreg_trap ;;
  t8_status ← run (svc_test_sysreg sym) DOMAIN_A SERVICE_CAMERA;
  t8_esr ← last_esr;
  let t8_ec := (t8_esr .>> 26) .& 0x3f in
  observed ← get (λ st, lettuce_arch_sysreg_trap_observed (cp_mmu st));
  log_outcome "Test 8: Privileged register access from EL0 prevented and trapped"
    "Test 8: Privilege register boundary failed"
    (is_status LETTUCE_STATUS_DENIED t8_status && observed && ((t8_ec =? 0x18) || (t8_ec =? 0x00))).

Definition test_9 : prog unit :=
  title "--- Test 9: Controlled Shared Page Across EL0 Domains ---" ;;
  a ← run (svc_test_shared_write_a sym) DOMAIN_A SERVICE_CAMERA;
  b ← run (svc_test_shared_read_modify_b sym) DOMAIN_B SERVICE_DISPLAY;
  c ← run (svc_test_shared_verify_a sym) DOMAIN_A SERVICE_CAMERA;
  log_outcome "Test 9: Controlled shared page communication verified across EL0 domains"
    "Test 9: Shared page communication failed"
    (is_status LETTUCE_STATUS_OK a && is_status LETTUCE_STATUS_OK b && is_status LETTUCE_STATUS_OK c).

(** ** Tests 10 to 12: calls between services *)

Definition test_10 : prog Z :=
  title "--- Test 10: Same-Layer EL0 Service Call ---" ;;
  cap_cam_disp ← capability_create SERVICE_CAMERA SERVICE_DISPLAY OP_DRAW LETTUCE_CAP_CALL RES_FRAMEBUFFER;
  shared_word 0 cap_cam_disp ;;
  t10_status ← run (svc_camera_call_display sym) DOMAIN_A SERVICE_CAMERA;
  restored ← camera_restored;
  log_outcome "Test 10: Same-Layer EL0 -> SVC -> EL0 transition and restoration succeeded"
    "Test 10: Same-Layer EL0 service call failed" (is_status LETTUCE_STATUS_OK t10_status && restored) ;;
  mret cap_cam_disp.

Definition test_11 : prog unit :=
  title "--- Test 11: Target Error Status Propagation ---" ;;
  cap_cam_fail ← capability_create SERVICE_CAMERA SERVICE_FAILING OP_FAIL LETTUCE_CAP_CALL RES_FRAMEBUFFER;
  shared_word 0 cap_cam_fail ;;
  dispatch_register SERVICE_DISPLAY OP_DRAW (el0_service_va L (svc_failing_entry sym)) ;;
  t11_status ← run (svc_camera_call_display sym) DOMAIN_A SERVICE_CAMERA;
  restored ← camera_restored;
  dispatch_register SERVICE_DISPLAY OP_DRAW (el0_service_va L (svc_display_entry sym)) ;;
  log_outcome "Test 11: Target error correctly propagated to caller with domain restoration"
    "Test 11: Target error propagation failed" (is_status LETTUCE_STATUS_ERROR t11_status && restored).

Definition test_12 (cap_cam_disp : Z) : prog unit :=
  title "--- Test 12: Nested EL0 Context Restoration ---" ;;
  cap_disp_storage ← capability_create SERVICE_DISPLAY SERVICE_STORAGE OP_SAVE LETTUCE_CAP_CALL RES_DISK;
  shared_word 0 cap_cam_disp ;;
  shared_word 1 cap_disp_storage ;;
  dispatch_register SERVICE_DISPLAY OP_DRAW (el0_service_va L (svc_display_call_storage sym)) ;;
  dispatch_register SERVICE_STORAGE OP_SAVE (el0_service_va L (svc_storage_entry sym)) ;;
  t12_status ← run (svc_camera_call_display sym) DOMAIN_A SERVICE_CAMERA;
  restored ← camera_restored;
  log_outcome "Test 12: Nested 3-level EL0 service call and unwinding succeeded"
    "Test 12: Nested EL0 service call failed" (is_status LETTUCE_STATUS_OK t12_status && restored).

(** ** Tests 13 to 17: ASIDs, refused, cross-layer and elevator calls *)

Definition active_asid : prog Z := get (λ st, lettuce_mmu_active_asid (cp_mmu st)).

(** Run a service that is to take a level 3 translation fault at [va]. *)
Definition run_untranslated (va s domain service : Z) : prog bool :=
  aborted ← run_expecting va s domain service;
  esr ← last_esr;
  far ← last_far;
  mret (aborted && (far =? va) && ((esr .& 0x3f) =? 0x07)).

Definition test_13 : prog unit :=
  title "--- Test 13: Stale-TLB Cross-Domain Isolation ---" ;;
  t13_s1 ← run (svc_camera_entry sym) DOMAIN_A SERVICE_CAMERA;
  asid_a ← active_asid;
  s2_ok ← run_untranslated PRIVATE_A_VA (svc_test_foreign_mem_b_to_a sym) DOMAIN_B SERVICE_DISPLAY;
  asid_b ← active_asid;
  t13_s3 ← run (svc_display_entry sym) DOMAIN_B SERVICE_DISPLAY;
  s4_ok ← run_untranslated PRIVATE_B_VA (svc_test_foreign_mem_a_to_b sym) DOMAIN_A SERVICE_CAMERA;
  log_outcome "Test 13: Stale-TLB isolation verified bidirectionally across ASIDs"
    "Test 13: Stale-TLB isolation failed"
    (is_status LETTUCE_STATUS_OK t13_s1 && (asid_a =? 1) && s2_ok && (asid_b =? 2) &&
     is_status LETTUCE_STATUS_OK t13_s3 && s4_ok).

Definition test_14 : prog unit :=
  title "--- Test 14: ASID-Targeted Invalidation Helper ---" ;;
  on_mmu (lettuce_mmu_invalidate_domain DOMAIN_B) ;;
  on_mmu (lettuce_mmu_invalidate_asid 3) ;;
  on_mmu (λ m, (lettuce_mmu_enter DOMAIN_A m).2) ;;
  asid ← active_asid;
  d ← get (λ st, lettuce_mmu_current_domain (cp_mmu st));
  log_outcome "Test 14: ASID-targeted TLBI executed cleanly with proper barriers"
    "Test 14: ASID-targeted TLBI failed" ((asid =? 1) && (d =? DOMAIN_A)).

Definition test_15 : prog unit :=
  title "--- Test 15: Invalid Capability Rejection Before Domain Switch ---" ;;
  t15_status ← run (svc_camera_invalid_cap_call sym) DOMAIN_A SERVICE_CAMERA;
  restored ← camera_restored;
  log_outcome "Test 15: Invalid capability rejected before domain switch; caller domain preserved"
    "Test 15: Invalid capability rejection failed"
    (is_status LETTUCE_STATUS_CAPABILITY_DENIED t15_status && restored).

Definition test_16 : prog Z :=
  title "--- Test 16: Cross-Layer Protected EL0 Call ---" ;;
  cap_cam_sensor ← capability_create SERVICE_CAMERA SERVICE_SENSOR OP_SAVE LETTUCE_CAP_CALL RES_DISK;
  shared_word 2 cap_cam_sensor ;;
  t16_status ← run (svc_camera_cross_layer_call sym) DOMAIN_A SERVICE_CAMERA;
  restored ← camera_restored;
  log_outcome "Test 16: Cross-Layer L3 -> L2 EL0 mediated call succeeded"
    "Test 16: Cross-Layer EL0 call failed" (is_status LETTUCE_STATUS_OK t16_status && restored) ;;
  mret cap_cam_sensor.

Definition test_17 : prog Z :=
  title "--- Test 17: Elevator Protected Call ---" ;;
  cap_cam_elev ← capability_create SERVICE_CAMERA SERVICE_SENSOR OP_SAVE (LETTUCE_CAP_CALL .| LETTUCE_CAP_CRITICAL) RES_DISK;
  shared_word 3 cap_cam_elev ;;
  t17_status ← run (svc_camera_elevator_call sym) DOMAIN_A SERVICE_CAMERA;
  restored ← camera_restored;
  log_outcome "Test 17: Elevator protected call with critical capability succeeded"
    "Test 17: Elevator protected call failed" (is_status LETTUCE_STATUS_OK t17_status && restored) ;;
  mret cap_cam_elev.

(** The capabilities the rest of the program uses. *)
Record camera_caps := { cap_cam_disp : Z; cap_cam_sensor : Z; cap_cam_elev : Z }.

Definition bring_up_tests : prog camera_caps :=
  test_1 ;; test_2 ;; test_3 ;; test_4 ;; test_5 ;; test_6 ;; test_7 ;; test_8 ;; test_9 ;;
  disp ← test_10;
  test_11 ;; test_12 disp ;; test_13 ;; test_14 ;; test_15 ;;
  sensor ← test_16;
  elev ← test_17;
  mret {| cap_cam_disp := disp; cap_cam_sensor := sensor; cap_cam_elev := elev |}.

End tests.
