(* ===== verification/HarnessTasks.v ===== *)
(** * The bring-up program, continued: tests 18 to 25, benchmarks and summary

    The part of [lettuce_arm64_main] ([kernel/arch/arm64/main.c]) that enables pointer
    authentication, the timer and preemption, and the measurements.  The outside world is
    an argument: what the counter reads and which interrupts arrive, each time the kernel
    looks. *)

From Stdlib Require Import String.
From S2P Require Import Prelude Types Capability Registry Ipc Task Policy Scheduler SchedulerSpec Mmu Timer Console Posix.
From S2P Require Import Cpu CpuSpec Report Main Harness.

Definition LETTUCE_EEVDF_WEIGHT_NORMAL : Z := 1024.
Definition LETTUCE_EEVDF_WEIGHT_HIGH : Z := 2048.

Definition BENCH_CALLS_PER_SAMPLE : Z := 100.
Definition BENCH_WARMUP_CALLS : Z := 100.

(** [env_counter n] is the counter at the kernel's [n]-th observation, [env_interrupts n]
    what the acknowledge register reads for the interrupts taken just before it.
    [env_literal] are the addresses of string literals.  [env_pac_traps p m]:
    authenticating [p] with modifier [m] raises an exception (FEAT_FPAC), with the kernel
    registers [env_pac_frame] and the fault address [env_pac_far]. *)
Record environment := {
  env_counter : nat → Z;
  env_interrupts : nat → list Z;
  env_literal : string → Z;
  env_pac_traps : Z → Z → bool;
  env_pac_frame : LettuceTrapFrame;
  env_pac_far : Z
}.

Section tasks.
Context (pac_sign pac_auth : Z → Z → Z) (L : layout) (sym : el0_symbols) (registers : LettuceTrapFrame).
Context (user : el0_code) (fuel : nat) (env : environment).

#[local] Abbreviation run := (Harness.run pac_sign pac_auth L registers user fuel).

(** ** Statements *)

Definition fail {A : Type} : prog A := λ _, None.

Definition on_vars (f : cpu_vars → cpu_vars) : prog unit := modify (λ st, Some (with_vars (f (cp_vars st)) st)).

Definition on_sched (f : scheduler_state mmu_state → option (scheduler_state mmu_state)) : prog unit :=
  modify (λ st, s ← f (cp_sched st); Some (with_sched s st)).

Definition on_gic (f : gic_log → gic_log) : prog unit :=
  modify (λ st, Some (with_timer_gic (cp_timer st) (f (cp_gic st)) st)).

Definition timer_init (hz : Z) : prog unit := modify (λ st,
  let '(t, h) := lettuce_timer_init hz (cp_timer st) (mmu_hw (cp_mmu st)) in
  Some (with_mmu (Mmu.with_hw h (cp_mmu st)) (with_timer_gic t (cp_gic st) st))).

Definition ticks : prog Z := get (λ st, lettuce_timer_get_ticks (cp_timer st)).
Definition counter_frequency : prog Z := get (λ st, lettuce_arch_counter_frequency (mmu_hw (cp_mmu st))).

Definition poke (a v : Z) : prog unit := modify (λ st,
  mem ← store_u64 a v (io_mem (cp_io st)); Some (with_memory mem st)).
Definition peek (a : Z) : prog Z := λ w, v ← load_le 8 a (io_mem (cp_io (w_cpu w))); Some (v, w).

(** [ok && p] *)
Definition and_then (ok : bool) (p : prog bool) : prog bool := if ok then p else mret false.

(** The time passes: pending interrupts are taken if they are not masked. *)
Definition interrupts : prog unit := λ w,
  let st := if w_unmasked w
            then foldl (λ st iar, lettuce_arch_irq_el1_handler iar st) (w_cpu w) (env_interrupts env (w_time w))
            else w_cpu w in
  Some (tt, {| w_cpu := st; w_tests := w_tests w; w_unmasked := w_unmasked w; w_time := S (w_time w) |}).

Definition counter_read : prog Z := λ w,
  let st := on_hw (msr cntvct_el0 (u64 (env_counter env (w_time w)))) (w_cpu w) in
  Some (lettuce_arch_counter_read (mmu_hw (cp_mmu st)),
        {| w_cpu := st; w_tests := w_tests w; w_unmasked := w_unmasked w; w_time := S (w_time w) |}).

(** [irq.S] *)
Definition unmask (b : bool) : prog unit := λ w, Some (tt, set_unmasked b w).
Definition lettuce_arch_irq_enable : prog unit := unmask true ;; interrupts.
Definition lettuce_arch_irq_disable : prog unit := interrupts ;; unmask false.

Definition el0_enter (entry_pc el0_sp : Z) : prog Z := λ w,
  '(status, st) ← lettuce_el0_enter pac_sign pac_auth registers user fuel entry_pc el0_sp (w_cpu w);
  Some (status, set_unmasked false (on_cpu st w)).

Definition enter_domain (d : Z) : prog unit := on_mmu (λ m, (lettuce_mmu_enter d m).2).
Definition set_service (s : Z) : prog unit := modify (λ st, Some (with_identity s (cp_mmu st) st)).

(** ** Test 18: pointer authentication *)

Definition context_push (svc dom elr spsr sp_el0 : Z) : prog unit := modify (λ st,
  '(_, v) ← lettuce_arch_context_push pac_sign svc dom elr spsr sp_el0 (cp_vars st); Some (with_vars v st)).

Definition context_corrupt_top_elr (mask : Z) : prog unit := modify (λ st,
  v ← lettuce_arch_context_corrupt_top_elr mask (cp_vars st); Some (with_vars v st)).

(** The syndrome of a failed authentication with key IA. *)
Definition fpac_esr : Z := (0x1c .<< 26) .| (1 .<< 25).

(** The authentication in [lettuce_arch_context_pop] fails. *)
Definition pop_traps (v : cpu_vars) : bool :=
  g_pac_enabled v && (0 <? g_context_stack_depth v) &&
  match arr_get (g_context_stack v) (g_context_stack_depth v - 1) with
  | Some f => env_pac_traps env (cf_elr f) (cf_service_id f)
  | None => false
  end.

(** The handler resumes after the [autia] instruction, with the pointer as it was. *)
Definition context_pop : prog (option LettuceArchContextFrame) := λ w,
  let st := w_cpu w in
  '(auth, st) ←
    (if pop_traps (cp_vars st)
     then '(e, st) ← lettuce_arch_sync_el1_handler fpac_esr (env_pac_far env) (env_pac_frame env) st;
          match e with ToUser _ => Some (λ p _, p, st) | _ => None end
     else Some (pac_auth, st));
  '(f, v) ← lettuce_arch_context_pop auth (cp_vars st);
  Some (f, on_cpu (with_vars v st) w).

Definition test_18 (cap_cam_disp : Z) : prog unit :=
  title "--- Test 18: Pointer Authentication (PAC) Verification ---" ;;
  on_vars (lettuce_pac_enable true) ;;
  shared_word 0 cap_cam_disp ;;
  dispatch_register SERVICE_DISPLAY OP_DRAW (el0_service_va L (svc_display_entry sym)) ;;
  t18_valid ← run (svc_camera_call_display sym) DOMAIN_A SERVICE_CAMERA;
  restored ← camera_restored;
  let t18_valid_pass := is_status LETTUCE_STATUS_OK t18_valid && restored in
  context_push SERVICE_CAMERA DOMAIN_A 0x40081000 0 0x41002000 ;;
  context_corrupt_top_elr 0x10 ;;
  on_vars lettuce_pac_expect_trap ;;
  _ ← context_pop;
  t18_trap_pass ← get (λ st, lettuce_pac_trap_observed (cp_vars st));
  on_vars (lettuce_pac_enable false) ;;
  log_outcome "Test 18: PAC continuation signing valid and corrupted pointer trapped (EC=0x1c)"
    "Test 18: PAC continuation verification failed" (t18_valid_pass && t18_trap_pass).

(** ** Tests 19 and 20: feature probe and timer interrupts *)

Definition test_19 : prog unit :=
  title "--- Test 19: Hardware Architecture Feature Probing ---" ;;
  modify (λ st, Some (with_io (lettuce_arch_features_probe_and_print (mmu_hw (cp_mmu st)) (cp_io st)) st)) ;;
  test19_pass ← get (λ st, lettuce_arch_has_pac (mmu_hw (cp_mmu st)));
  log_outcome "Test 19: Architecture feature probing completed; accurate feature matrix reported"
    "Test 19: Architecture feature probing failed" test19_pass.

(** [while (get_ticks() < target) { if (counter_read() >= deadline) break; }] *)
Fixpoint wait_for_ticks (turns : nat) (target deadline : Z) : prog unit :=
  match turns with
  | O => fail
  | S turns' =>
      interrupts ;;
      now_ticks ← ticks;
      if now_ticks <? target then
        interrupts ;;
        now ← counter_read;
        if deadline <=? now then mret tt else wait_for_ticks turns' target deadline
      else mret tt
  end.

Definition test_20 (turns : nat) : prog unit :=
  title "--- Test 20: GICv2 and Generic Timer Interrupts ---" ;;
  on_gic lettuce_gic_init ;;
  timer_init 100 ;;
  on_gic (lettuce_gic_enable_interrupt GIC_INTID_VTIMER) ;;
  t20_start ← ticks;
  t20_freq ← counter_frequency;
  let t20_timeout_ticks := if 0 <? t20_freq then t20_freq / 4 else 15625000 in
  now ← counter_read;
  let t20_deadline := u64 (now + t20_timeout_ticks) in
  lettuce_arch_irq_enable ;;
  wait_for_ticks turns (u64 (t20_start + 3)) t20_deadline ;;
  lettuce_arch_irq_disable ;;
  t20_end ← ticks;
  let t20_ticks := u64 (t20_end - t20_start) in
  log_outcome "Test 20: GICv2 distributor/CPU interface initialized; timer IRQs received"
    "Test 20: Timer interrupts failed to fire" (2 <=? t20_ticks).

(** ** Tests 21 and 22: tasks *)

Definition CNT_A : Z := 0x411c0050.
Definition CNT_B : Z := 0x411c0058.
Definition CNT_C : Z := 0x411c0060.

Definition clear_counters : prog unit := poke CNT_A 0 ;; poke CNT_B 0 ;; poke CNT_C 0.

Definition task_create (service domain s : Z) (name : string) : prog (option Z) := λ w,
  let st := w_cpu w in
  '(task, ts) ← lettuce_task_create service domain (el0_service_va L s) (lettuce_arch_domain_stack_top domain)
                  (env_literal env name) (ss_tasks (cp_sched st));
  Some (task, on_cpu (with_sched (with_task_state ts (cp_sched st)) st) w).

(** A store to the fields of [*task]. *)
Definition task_store (task : option Z) (f : LettuceTask → LettuceTask) : prog unit := on_sched (λ s,
  slot ← task;
  table ← task_update slot f (g_task_table (ss_tasks s));
  Some (with_task_state {| g_task_table := table; g_current_task := g_current_task (ss_tasks s) |} s)).

Definition task_set_current (task : option Z) : prog unit := on_sched (λ s,
  Some (with_task_state (lettuce_task_set_current task (ss_tasks s)) s)).

Definition task_set_weight (task : option Z) (weight : Z) : prog unit := on_sched (λ s,
  table ← lettuce_task_set_weight task weight (g_task_table (ss_tasks s));
  Some (with_task_state {| g_task_table := table; g_current_task := g_current_task (ss_tasks s) |} s)).

Definition scheduler_init : prog unit := on_sched lettuce_scheduler_init.
Definition scheduler_stop : prog unit := on_sched (λ s, Some (lettuce_scheduler_stop s)).
Definition scheduler_start : prog unit := on_sched (λ s, Some (lettuce_scheduler_start s)).

(** The first task is made the running one; six preemptions, two rounds. *)
Definition start_running (task : option Z) : prog unit :=
  task_set_current task ;;
  task_store task (set_state LETTUCE_TASK_STATE_RUNNING) ;;
  on_sched (λ s, Some (lettuce_scheduler_set_preempt_limit 6 s)) ;;
  scheduler_start.

(** Enter the first task; the kernel is back when the limit is reached. *)
Definition run_preemptively : prog Z :=
  enter_domain DOMAIN_A ;;
  set_service SERVICE_CAMERA ;;
  lettuce_arch_irq_enable ;;
  res ← el0_enter (el0_service_va L (task_counter_a sym)) (lettuce_arch_domain_stack_top DOMAIN_A);
  lettuce_arch_irq_disable ;;
  scheduler_stop ;;
  mret res.

(** Every task counted, and there were enough switches. *)
Definition all_progressed (res : Z) : prog bool :=
  and_then (is_status LETTUCE_STATUS_OK res) (
  a ← peek CNT_A;
  and_then (0 <? a) (
  b ← peek CNT_B;
  and_then (0 <? b) (
  c ← peek CNT_C;
  preempts ← get (λ st, lettuce_scheduler_preempt_count (cp_sched st));
  switches ← get (λ st, lettuce_scheduler_cross_domain_switches (cp_sched st));
  mret ((0 <? c) && (5 <=? preempts) && (4 <=? switches))))).

Definition test_21 : prog unit :=
  title "--- Test 21: Preemptive Multitasking Across 3 Isolated Domains ---" ;;
  scheduler_init ;;
  clear_counters ;;
  t1 ← task_create SERVICE_CAMERA DOMAIN_A (task_counter_a sym) "TaskA";
  _ ← task_create SERVICE_DISPLAY DOMAIN_B (task_counter_b sym) "TaskB";
  _ ← task_create SERVICE_SENSOR DOMAIN_C (task_counter_c sym) "TaskC";
  start_running t1 ;;
  t21_res ← run_preemptively;
  test21_pass ← all_progressed t21_res;
  log_outcome "Test 21: Preemptive round-robin context switching verified across 3 MMU domains"
    "Test 21: Preemptive context switching across domains failed" test21_pass.

Definition task_state_of (task : option Z) : prog LettuceTaskState := λ w,
  slot ← task; t ← arr_get (g_task_table (ss_tasks (cp_sched (w_cpu w)))) slot; Some (tk_state t, w).

Definition dummy_frame : LettuceTrapFrame :=
  {| tf_x := replicate 30 0; tf_lr := 0; tf_elr := 0; tf_spsr := 0; tf_sp_el0 := 0 |}.

Fixpoint repeat_prog (n : nat) (p : prog unit) : prog unit :=
  match n with O => mret tt | S n' => p ;; repeat_prog n' p end.

(** A tick that leaves for a kernel continuation would resume a dead stack frame. *)
Definition scheduler_tick (tf : LettuceTrapFrame) : prog unit := modify (λ st,
  '(hit, _, s) ← lettuce_scheduler_tick arch_enter (lettuce_timer_get_ticks (cp_timer st)) (Some tf) (cp_sched st);
  if (hit : bool) then None else Some (with_sched s st)).

Definition test_22 : prog unit :=
  title "--- Test 22: Sleeping Task & Deadline Wakeup ---" ;;
  scheduler_init ;;
  tsleep ← task_create SERVICE_CAMERA DOMAIN_A (task_counter_a sym) "SleepTask";
  now ← ticks;
  task_store tsleep (set_sleep_deadline (u64 (now + 5))) ;;
  task_store tsleep (set_state LETTUCE_TASK_STATE_SLEEPING) ;;
  state ← task_state_of tsleep;
  let sleep_init_ok := state_is state LETTUCE_TASK_STATE_SLEEPING in
  repeat_prog 6 (modify (λ st, Some (handle_timer st))) ;;
  scheduler_start ;;
  scheduler_tick dummy_frame ;;
  scheduler_stop ;;
  state ← task_state_of tsleep;
  log_outcome "Test 22: Task sleeping state and timer deadline wakeup verified"
    "Test 22: Sleeping task deadline wakeup failed"
    (sleep_init_ok && (state_is state LETTUCE_TASK_STATE_READY || state_is state LETTUCE_TASK_STATE_RUNNING)).

(** ** Tests 23 to 25: elevator, system calls, EEVDF *)

Definition test_23 (cap_cam_elev : Z) : prog unit :=
  title "--- Test 23: Elevator Assembly Fast Path vs Reference Path ---" ;;
  shared_word 3 cap_cam_elev ;;
  on_vars (lettuce_elevator_set_use_asm false) ;;
  t23_ref ← run (svc_camera_elevator_call sym) DOMAIN_A SERVICE_CAMERA;
  shared_word 3 cap_cam_elev ;;
  on_vars (lettuce_elevator_set_use_asm true) ;;
  t23_asm ← run (svc_camera_elevator_call sym) DOMAIN_A SERVICE_CAMERA;
  restored ← camera_restored;
  log_outcome "Test 23: Elevator Assembly path and C reference path match identical authorization semantics"
    "Test 23: Elevator Assembly vs Reference comparison failed"
    (is_status LETTUCE_STATUS_OK t23_ref && is_status LETTUCE_STATUS_OK t23_asm && restored).

(** ["POSIX EL0\n"] *)
Definition posix_text : list Z := [80; 79; 83; 73; 88; 32; 69; 76; 48; 10].

Fixpoint poke_bytes (a : Z) (bytes : list Z) : prog unit :=
  match bytes with
  | [] => mret tt
  | b :: bytes' =>
      modify (λ st, mem ← store_byte a b (io_mem (cp_io st)); Some (with_memory mem st)) ;; poke_bytes (a + 1) bytes'
  end.

Definition with_fds (fds : list LettuceFileDescriptor) (st : cpu_state) : cpu_state :=
  {| cp_vars := cp_vars st; cp_sched := cp_sched st; cp_caps := cp_caps st; cp_registry := cp_registry st;
     cp_timer := cp_timer st; cp_gic := cp_gic st; cp_fds := fds; cp_io := cp_io st |}.

Definition sys_write (fd buf count : Z) : prog Z := λ w,
  '(res, io) ← lettuce_kernel_sys_write true fd buf count (cp_fds (w_cpu w)) (cp_io (w_cpu w));
  Some (res, on_cpu (with_io io (w_cpu w)) w).

Definition test_24 : prog unit :=
  title "--- Test 24: POSIX-Lite Syscall Layer ---" ;;
  modify (λ st, fds ← lettuce_fd_table_init (cp_fds st); Some (with_fds fds st)) ;;
  poke_bytes 0x411c0020 posix_text ;;
  t24_res ← run (task_posix_runner sym) DOMAIN_A SERVICE_CAMERA;
  fault_res ← sys_write 1 0x40082000 10;
  log_outcome "Test 24: POSIX-Lite syscalls (write/getpid/clock_gettime) and kernel memory rejection verified"
    "Test 24: POSIX-Lite syscall verification failed" (is_status LETTUCE_STATUS_OK t24_res && (fault_res =? - EFAULT)).

Definition test_25 : prog unit :=
  title "--- Test 25: EEVDF Preemptive Scheduling Across 3 MMU Domains ---" ;;
  scheduler_init ;;
  on_sched (λ s, Some (lettuce_scheduler_set_policy LETTUCE_SCHED_POLICY_EEVDF s)) ;;
  clear_counters ;;
  t25_1 ← task_create SERVICE_CAMERA DOMAIN_A (task_counter_a sym) "EEVDF_TaskA";
  t25_2 ← task_create SERVICE_DISPLAY DOMAIN_B (task_counter_b sym) "EEVDF_TaskB";
  t25_3 ← task_create SERVICE_SENSOR DOMAIN_C (task_counter_c sym) "EEVDF_TaskC";
  task_set_weight t25_1 LETTUCE_EEVDF_WEIGHT_HIGH ;;
  task_set_weight t25_2 LETTUCE_EEVDF_WEIGHT_NORMAL ;;
  task_set_weight t25_3 LETTUCE_EEVDF_WEIGHT_NORMAL ;;
  start_running t25_1 ;;
  timer_init 100 ;;
  t25_res ← run_preemptively;
  progressed ← all_progressed t25_res;
  policy ← get (λ st, lettuce_scheduler_get_policy (cp_sched st));
  log_outcome "Test 25: EEVDF preemptive scheduling and MMU domain isolation verified under hardware timer IRQs"
    "Test 25: EEVDF preemptive context switching across domains failed"
    (progressed && match policy with LETTUCE_SCHED_POLICY_EEVDF => true | LETTUCE_SCHED_POLICY_RR => false end).

Definition task_tests (turns : nat) (caps : camera_caps) : prog unit :=
  test_18 (cap_cam_disp caps) ;; test_19 ;; test_20 turns ;; test_21 ;; test_22 ;; test_23 (cap_cam_elev caps) ;;
  test_24 ;; test_25.

(** ** Benchmarks

    [for (s = 0; s < n; ++s) { start = counter_read(); CALLS times p;
    samples[s] = (counter_read() - start) / CALLS; }] *)

Fixpoint take_samples (n : nat) (p : prog unit) : prog (list Z) :=
  match n with
  | O => mret []
  | S n' =>
      start ← counter_read;
      repeat_prog (Z.to_nat BENCH_CALLS_PER_SAMPLE) p ;;
      stop ← counter_read;
      rest ← take_samples n' p;
      mret (u64 (stop - start) / BENCH_CALLS_PER_SAMPLE :: rest)
  end.

Definition measure (p : prog unit) : prog (list Z) :=
  repeat_prog (Z.to_nat BENCH_WARMUP_CALLS) p ;; take_samples (Z.to_nat BENCH_SAMPLES) p.

(** [run_el0_service(s, DOMAIN_A, SERVICE_CAMERA);] *)
Definition camera_run (s : Z) : prog unit := _ ← run s DOMAIN_A SERVICE_CAMERA; mret tt.

Definition direct_el1_synthetic_entry : LettuceStatus := LETTUCE_STATUS_OK.

Definition direct_call : prog unit := status ← mret direct_el1_synthetic_entry; mret tt.

Definition bench_a : prog (list Z) := measure direct_call.

Definition bench_b (caps : camera_caps) : prog (list Z) := measure (modify (λ st,
  _ ← lettuce_capability_check (cp_service st) (cap_cam_disp caps) SERVICE_DISPLAY OP_DRAW LETTUCE_CAP_CALL RES_FRAMEBUFFER
        (cp_caps st); Some st)).

Definition bench_c : prog (list Z) := measure (camera_run (svc_minimal_return_entry sym)).

(** [saved = lettuce_mmu_enter(d); lettuce_mmu_leave(saved);] *)
Definition enter_and_leave (d : Z) : prog unit := on_mmu (λ m,
  let '(saved, m) := lettuce_mmu_enter d m in lettuce_mmu_leave saved m).

Definition bench_d : prog (list Z) := measure (enter_and_leave DOMAIN_A).
Definition bench_e : prog (list Z) := measure (enter_and_leave DOMAIN_B).

Definition bench_f (caps : camera_caps) : prog (list Z) :=
  dispatch_register SERVICE_DISPLAY OP_DRAW (el0_service_va L (svc_display_entry sym)) ;;
  shared_word 0 (cap_cam_disp caps) ;;
  measure (camera_run (svc_camera_call_display sym)).

Definition bench_g (caps : camera_caps) : prog (list Z) :=
  shared_word 2 (cap_cam_sensor caps) ;; measure (camera_run (svc_camera_cross_layer_call sym)).

Definition bench_h (caps : camera_caps) : prog (list Z) :=
  on_vars (lettuce_elevator_set_use_asm false) ;;
  shared_word 3 (cap_cam_elev caps) ;;
  measure (camera_run (svc_camera_elevator_call sym)).

Definition bench_i : prog (list Z) :=
  on_vars (lettuce_pac_enable true) ;;
  samples ← measure (camera_run (svc_camera_call_display sym));
  on_vars (lettuce_pac_enable false) ;;
  mret samples.

Definition bench_j (caps : camera_caps) : prog (list Z) :=
  on_vars (lettuce_elevator_set_use_asm true) ;;
  shared_word 3 (cap_cam_elev caps) ;;
  measure (camera_run (svc_camera_elevator_call sym)).

Definition bench_k : prog (list Z) := measure (camera_run (task_bench_syscall sym)).

Definition bench_names : list string :=
  ["Case A: Direct EL1 Baseline"; "Case B: Independent Capability Check"; "Case C: EL1 -> EL0 -> SVC -> EL1 Roundtrip";
   "Case D: Same-Domain Fast Path"; "Case E: Cross-Domain MMU Switch Pair"; "Case F: Same-Layer EL0 Mediated Call";
   "Case G: Cross-Layer EL0 Mediated Call"; "Case H: Elevator Reference Call (C Path)";
   "Case I: Same-Layer EL0 Call + PAC"; "Case J: Elevator Fast Path (ASM Gate)"; "Case K: POSIX-Lite Syscall Roundtrip"]%string.

Fixpoint print_all (names : list string) (samples : list (list Z)) (freq : Z) : prog unit :=
  match names, samples with
  | name :: names', s :: samples' =>
      modify (λ st, '(_, io) ← print_bench_stats name s freq (cp_io st); Some (with_io io st)) ;;
      print_all names' samples' freq
  | _, _ => mret tt
  end.

(** The samples of the cases, in order. *)
Definition benchmarks (caps : camera_caps) : prog (list (list Z)) :=
  title "--- ARM64 Statistical Microbenchmarks ---" ;;
  freq ← counter_frequency;
  a ← bench_a; b ← bench_b caps; c ← bench_c; d ← bench_d; e ← bench_e; f ← bench_f caps; g ← bench_g caps;
  h ← bench_h caps; i ← bench_i; j ← bench_j caps; k ← bench_k;
  let samples := [a; b; c; d; e; f; g; h; i; j; k] in
  print_all bench_names samples freq ;;
  title "NOTE: generic counter ticks != CPU core cycles." ;;
  say (line "NOTE: QEMU TCG measurements reflect software emulation overhead, not silicon hardware cycles.") ;;
  mret samples.

(** ** The end of the program *)

Definition rule : string := "============================================================".

Definition print_count (v : Z) : prog unit := modify (λ st,
  io ← lettuce_arch_console_print_dec v (cp_io st); Some (with_io io st)).

Definition results : prog test_state := λ w, Some (w_tests w, w).

Definition summary : prog unit :=
  title rule ;;
  t ← results;
  let passed := g_tests_passed t in
  let failed := g_tests_failed t in
  (if (passed =? 25) && (failed =? 0) then
     say (line "All 25 ARM64 Execution/Runtime Foundation Tests Passed!") ;;
     say (line "EXECUTION RUNTIME FOUNDATION PASS")
   else
     say (line "ARM64 Execution/Runtime Foundation Tests Failed") ;;
     say (line "ARM64_EXECUTION_RUNTIME_FOUNDATION_FAIL") ;;
     say "Passed: " ;; print_count passed ;; say " / 25, Failed: " ;; print_count failed ;; say (line " / 25")) ;;
  say (line rule).

(** After boot, up to the idle loop. *)
Definition all_tests (turns : nat) : prog camera_caps :=
  caps ← bring_up_tests pac_sign pac_auth L sym registers user fuel;
  task_tests turns caps ;;
  mret caps.

Definition lettuce_arm64_main (turns : nat) : prog (list (list Z)) :=
  caps ← all_tests turns;
  samples ← benchmarks caps;
  summary ;;
  mret samples.

End tasks.
