(* ===== verification/HarnessSpec.v ===== *)
(** * What the bring-up tests do to the kernel

    What each statement of the test program keeps ([kernel_ok]) and grants ([does]), for
    any user code, and the seventeen tests: the kernel's tables afterwards are those of
    boot plus the capabilities the test program created. *)

From Stdlib Require Import String.
From S2P Require Import Prelude Types Generation Context Capability CapabilitySpec Registry RegistrySpec Ipc.
From S2P Require Import Task Policy RoundRobin Eevdf Scheduler SchedulerSpec Mmu MmuSpec Timer Console Posix Cpu CpuSpec.
From S2P Require Import Report Main Services MainSpec Preempt Harness.

Create HintDb harness.

(** Owner, target, operation, permissions, resource. *)
Record grant := { gr_owner : Z; gr_target : Z; gr_operation : Z; gr_permissions : Z; gr_resource : Z }.

Fixpoint grant_all (gs : list grant) (caps : cap_state) : option cap_state :=
  match gs with
  | [] => Some caps
  | g :: gs' =>
      '(_, caps) ← lettuce_capability_create (gr_owner g) (gr_target g) (gr_operation g) (gr_permissions g) (gr_resource g) caps;
      grant_all gs' caps
  end.

Lemma grant_all_app (gs gs' : list grant) (caps : cap_state) :
  grant_all (gs ++ gs') caps = grant_all gs caps ≫= grant_all gs'.
Proof.
  revert caps. induction gs as [|g gs IH]; intros caps; cbn; [done|].
  destruct (lettuce_capability_create _ _ _ _ _ caps) as [[h c]|]; cbn; [apply IH|done].
Qed.

Section spec.
Context (L : layout) (sym : el0_symbols).

(** The state between two statements of the test program. *)
Record kernel_ok (st : cpu_state) : Prop := {
  ko_calls : calls_ok L st;
  ko_known : ∀ i f, 0 ≤ i < depth st → arr_get (g_context_stack (cp_vars st)) i = Some f →
    mmu_known (cf_domain_id f) = true;
  ko_caps : cap_inv (cp_caps st);
  ko_registry : reg_refines (cp_registry st) (boot_registry L sym)
}.

Lemma kernel_ok_contained (st st' : cpu_state) : contained L st st' → kernel_ok st → kernel_ok st'.
Proof. intros [Hc Hk Hcaps Hreg _ _ _ _] [_ _ Hi Hr]. split; [done..|by rewrite Hcaps|by rewrite Hreg]. Qed.

Lemma kernel_ok_start (st : cpu_state) : kernel_ok st → contained L st st.
Proof. intros [Hc Hk _ _]. by split. Qed.

Lemma kernel_ok_quiet (st st' : cpu_state) : quiet st st' → kernel_ok st → kernel_ok st'.
Proof. intros Hq Hok. eapply kernel_ok_contained, Hok. by eapply contained_quiet, kernel_ok_start. Qed.

(** A step of the scheduler that keeps the address space or enters a domain. *)
Lemma kernel_ok_sched (s : scheduler_state mmu_state) (st : cpu_state) :
  (ss_arch s = cp_mmu st ∨ ∃ d, ss_arch s = (lettuce_mmu_enter d (cp_mmu st)).2) → kernel_ok st → kernel_ok (with_sched s st).
Proof.
  intros Hs [[H1 H2 H3 H4] Hk Hc Hr]. split; try done. split; try done; unfold cp_mmu in *; cbn.
  - destruct Hs as [-> | [d ->]]; [done|]. by destruct (mmu_enter_sync L d (ss_arch (cp_sched st)) H1).
  - destruct Hs as [-> | [d ->]]; [done|]. by rewrite enter_el.
Qed.

Lemma kernel_ok_enter (d : Z) (st : cpu_state) :
  kernel_ok st → kernel_ok (with_mmu (lettuce_mmu_enter d (cp_mmu st)).2 st).
Proof. apply kernel_ok_sched. right. by exists d. Qed.

Lemma kernel_ok_identity (svc : Z) (st : cpu_state) : kernel_ok st → kernel_ok (with_identity svc (cp_mmu st) st).
Proof. apply kernel_ok_sched. by left. Qed.

Lemma kernel_ok_caps (caps : cap_state) (st : cpu_state) :
  cap_inv caps → kernel_ok st → kernel_ok (with_tables caps (cp_registry st) st).
Proof. intros Hcaps [[H1 H2 H3 H4] Hk Hc Hr]. split; [by split|done..]. Qed.

(** ** What a statement does

    It keeps [kernel_ok], and changes the capabilities by creating those of [gs]. *)

Definition does {A : Type} (gs : list grant) (p : prog A) : Prop :=
  ∀ w a w', kernel_ok (w_cpu w) → p w = Some (a, w') →
    kernel_ok (w_cpu w') ∧ grant_all gs (cp_caps (w_cpu w)) = Some (cp_caps (w_cpu w')).

Lemma does_ret {A : Type} (x : A) : does [] (mret x).
Proof. by intros w a w' Hok [= _ <-]. Qed.

Lemma prog_bind_inv {A B : Type} (p : prog A) (f : A → prog B) (w w' : world) b :
  (p ≫= f) w = Some (b, w') → ∃ a w1, p w = Some (a, w1) ∧ f a w1 = Some (b, w').
Proof.
  unfold mbind, prog_bind. destruct (p w) as [[a w1]|]; cbn [mbind option_bind]; [|done]. by exists a, w1.
Qed.

Lemma does_bind {A B : Type} (gs gs' : list grant) (p : prog A) (f : A → prog B) :
  does gs p → (∀ a, does gs' (f a)) → does (gs ++ gs') (p ≫= f).
Proof.
  intros Hp Hf w b w' Hok (a & w1 & H1 & Hrun)%prog_bind_inv. destruct (Hp w a w1 Hok H1) as [Hok1 Hg1].
  destruct (Hf a w1 b w' Hok1 Hrun) as [Hok2 Hg2]. split; [done|]. by rewrite grant_all_app, Hg1.
Qed.

Lemma does_then {A B : Type} (gs : list grant) (p : prog A) (f : A → prog B) :
  does [] p → (∀ a, does gs (f a)) → does gs (p ≫= f).
Proof. apply (does_bind []). Qed.

Lemma does_get {A : Type} (f : cpu_state → A) : does [] (get f).
Proof. by intros w a w' Hok [= _ <-]. Qed.

Lemma does_modify (f : cpu_state → option cpu_state) :
  (∀ st st', f st = Some st' → kernel_ok st → kernel_ok st' ∧ cp_caps st' = cp_caps st) → does [] (modify f).
Proof.
  intros Hf w a w' Hok Hrun. unfold modify in Hrun. destruct (f (w_cpu w)) as [st|] eqn:Hst; cbn in Hrun; [|done].
  injection Hrun as _ <-. destruct (Hf _ _ Hst Hok) as [? Hc]. split; [done|]. cbn. by rewrite Hc.
Qed.

Lemma does_modify_quiet (f : cpu_state → option cpu_state) :
  (∀ st st', f st = Some st' → quiet st st') → does [] (modify f).
Proof.
  intros Hf. apply does_modify. intros st st' Hst Hok. pose proof (Hf _ _ Hst) as Hq.
  split; [by eapply kernel_ok_quiet|by destruct Hq].
Qed.

Lemma does_on_mmu (f : mmu_state → mmu_state) : (∀ m, mmu_quiet m (f m)) → does [] (on_mmu f).
Proof. intros Hf. apply does_modify_quiet. intros st st' [= <-]. by apply quiet_mmu. Qed.

Lemma does_say (text : string) : does [] (say text).
Proof. apply does_modify_quiet. intros st st' [= <-]. apply quiet_io. Qed.

Lemma does_log (pass fail : string) (ok : bool) : does [] (log_outcome pass fail ok).
Proof.
  intros w a w' Hok Hrun. unfold log_outcome in Hrun.
  destruct (if ok then _ else _) as [[t io]|]; cbn in Hrun; [|done]. injection Hrun as _ <-.
  split; [|done]. by eapply kernel_ok_quiet; [apply quiet_io|].
Qed.

Lemma does_shared_word (i v : Z) : does [] (shared_word i v).
Proof.
  apply does_modify_quiet. intros st st' Hst. destruct (store_u64 _ _ _); cbn in Hst; [|done].
  injection Hst as <-. apply quiet_io.
Qed.

Lemma does_enter (d : Z) : does [] (on_mmu (λ m, (lettuce_mmu_enter d m).2)).
Proof. apply does_modify. intros st st' [= <-] Hok. split; [by apply kernel_ok_enter|done]. Qed.

Lemma does_identity (svc : Z) : does [] (modify (λ st, Some (with_identity svc (cp_mmu st) st))).
Proof. apply does_modify. intros st st' [= <-] Hok. split; [by apply kernel_ok_identity|done]. Qed.

Lemma does_register (s o f f' : Z) : (s, o, f) ∈ boot_entries L sym → does [] (dispatch_register s o f').
Proof.
  intros Hin. apply does_modify. intros st st' Hst Hok. pose proof Hok as [_ _ Hcaps Hr].
  rewrite (reregistration_is_ignored L sym _ s o f f' Hr Hin) in Hst. cbn in Hst. injection Hst as <-.
  split; [by apply kernel_ok_caps|done].
Qed.

Lemma does_create (o t op p r : Z) :
  does [{| gr_owner := o; gr_target := t; gr_operation := op; gr_permissions := p; gr_resource := r |}]
    (capability_create o t op p r).
Proof.
  intros w a w' Hok Hrun. unfold capability_create in Hrun. cbn [grant_all gr_owner gr_target gr_operation gr_permissions gr_resource].
  destruct (lettuce_capability_create _ _ _ _ _ _) as [[h caps]|] eqn:Hc; cbn in Hrun |- *; [|done].
  injection Hrun as _ <-. split; [apply kernel_ok_caps; [eapply create_keeps_inv, Hc; apply Hok|done]|done].
Qed.

Lemma does_grant {A B : Type} (g : grant) (gs : list grant) (p : prog A) (f : A → prog B) :
  does [g] p → (∀ a, does gs (f a)) → does (g :: gs) (p ≫= f).
Proof. apply (does_bind [g]). Qed.

(** ** Statements that run user code *)

Section user.
Context (pac_sign pac_auth : Z → Z → Z) (registers : LettuceTrapFrame) (user : el0_code) (fuel : nat).
Context (Hregs : frame_ok registers) (Huser : code_ok user).

Lemma kernel_ok_enter_el0 (pc sp status : Z) (st st' : cpu_state) :
  kernel_ok st →
  lettuce_el0_enter pac_sign pac_auth registers user fuel pc sp st = Some (status, st') →
  kernel_ok st' ∧ cp_caps st' = cp_caps st.
Proof using Hregs Huser.
  intros Hok Hrun.
  assert (contained L st st') as Hct by (eapply el0_execution_contained, Hrun; [done| |by apply kernel_ok_start]; exact Hregs).
  split; [by eapply kernel_ok_contained|apply Hct].
Qed.

Lemma kernel_ok_run (s domain service status : Z) (st st' : cpu_state) :
  kernel_ok st →
  run_el0_service pac_sign pac_auth L registers user fuel s domain service st = Some (status, st') →
  kernel_ok st' ∧ cp_caps st' = cp_caps st.
Proof using Hregs Huser.
  intros Hok Hrun. apply (kernel_ok_identity service), (kernel_ok_enter domain) in Hok.
  by destruct (kernel_ok_enter_el0 _ _ status _ st' Hok Hrun).
Qed.

#[local] Abbreviation run_service := (run pac_sign pac_auth L registers user fuel).

Lemma does_run (s domain service : Z) : does [] (run_service s domain service).
Proof using Hregs Huser.
  intros w a w' Hok Hrun. unfold run in Hrun.
  destruct (run_el0_service _ _ _ _ _ _ _ _ _ _) as [[status st]|] eqn:Hst; cbn in Hrun; [|done].
  injection Hrun as _ <-. destruct (kernel_ok_run _ _ _ _ _ _ Hok Hst) as [? Hc]. split; [done|]. cbn. by rewrite Hc.
Qed.

End user.

Lemma does_expect_fault (va : Z) : does [] (on_mmu (lettuce_mmu_expect_fault va)).
Proof. apply does_on_mmu. intros m. apply quiet_faults. Qed.

Lemma does_expect_trap : does [] (on_mmu lettuce_arch_expect_sysreg_trap).
Proof. apply does_on_mmu. intros m. apply quiet_faults. Qed.

Lemma invalidate_asid_quiet (asid : Z) (m : mmu_state) : mmu_quiet m (lettuce_mmu_invalidate_asid asid m).
Proof. unfold lettuce_mmu_invalidate_asid. case_match; by split. Qed.

Lemma does_invalidate_asid (asid : Z) : does [] (on_mmu (lettuce_mmu_invalidate_asid asid)).
Proof. apply does_on_mmu, invalidate_asid_quiet. Qed.

Lemma does_invalidate_domain (d : Z) : does [] (on_mmu (lettuce_mmu_invalidate_domain d)).
Proof.
  apply does_on_mmu. intros m. unfold lettuce_mmu_invalidate_domain. case_match; [apply invalidate_asid_quiet|reflexivity].
Qed.

End spec.

#[export] Hint Resolve does_ret does_get does_say does_log does_shared_word does_enter does_identity does_create
  does_run does_expect_fault does_expect_trap does_invalidate_asid does_invalidate_domain : harness.

(** Go through a test statement by statement. *)
Ltac harness :=
  cbv zeta; repeat first
    [ solve [auto with harness]
    | apply does_then; [solve [auto with harness]|intros ?; cbv zeta]
    | apply does_grant; [solve [auto with harness]|intros ?; cbv zeta] ].

(** ** Tests 1 to 17 *)

Section tests.
Context (pac_sign pac_auth : Z → Z → Z) (L : layout) (sym : el0_symbols) (registers : LettuceTrapFrame).
Context (user : el0_code) (fuel : nat) (Hregs : frame_ok registers) (Huser : code_ok user).

#[local] Abbreviation does := (does L sym).

Lemma does_title (text : string) : does [] (title text).
Proof. apply does_say. Qed.

Lemma does_restored : does [] camera_restored.
Proof. unfold camera_restored. harness. Qed.

Lemma does_run_expecting (va s domain service : Z) :
  does [] (run_expecting pac_sign pac_auth L registers user fuel va s domain service).
Proof using Hregs Huser. unfold run_expecting, fault_observed. harness. Qed.

#[local] Hint Resolve does_title does_restored does_run_expecting : harness.

Lemma does_run_untranslated (va s domain service : Z) :
  does [] (run_untranslated pac_sign pac_auth L registers user fuel va s domain service).
Proof using Hregs Huser. unfold run_untranslated, last_esr, last_far. harness. Qed.

(** The entry points the tests register are registered already. *)
Lemma does_register_display (f : Z) : does [] (dispatch_register SERVICE_DISPLAY OP_DRAW f).
Proof. apply (does_register L sym _ _ (el0_service_va L (svc_display_entry sym))). by apply elem_of_cons; left. Qed.

Lemma does_register_storage (f : Z) : does [] (dispatch_register SERVICE_STORAGE OP_SAVE f).
Proof.
  apply (does_register L sym _ _ (el0_service_va L (svc_storage_entry sym))). apply elem_of_cons; right. by apply elem_of_cons; left.
Qed.

#[local] Hint Resolve does_run_untranslated does_register_display does_register_storage : harness.

Definition grant_display : grant :=
  {| gr_owner := SERVICE_CAMERA; gr_target := SERVICE_DISPLAY; gr_operation := OP_DRAW; gr_permissions := LETTUCE_CAP_CALL;
     gr_resource := RES_FRAMEBUFFER |}.
Definition grant_failing : grant :=
  {| gr_owner := SERVICE_CAMERA; gr_target := SERVICE_FAILING; gr_operation := OP_FAIL; gr_permissions := LETTUCE_CAP_CALL;
     gr_resource := RES_FRAMEBUFFER |}.
Definition grant_storage : grant :=
  {| gr_owner := SERVICE_DISPLAY; gr_target := SERVICE_STORAGE; gr_operation := OP_SAVE; gr_permissions := LETTUCE_CAP_CALL;
     gr_resource := RES_DISK |}.
Definition grant_sensor (permissions : Z) : grant :=
  {| gr_owner := SERVICE_CAMERA; gr_target := SERVICE_SENSOR; gr_operation := OP_SAVE; gr_permissions := permissions;
     gr_resource := RES_DISK |}.

(** What the test program grants, in order. *)
Definition bring_up_grants : list grant :=
  [grant_display; grant_failing; grant_storage; grant_sensor LETTUCE_CAP_CALL;
   grant_sensor (LETTUCE_CAP_CALL .| LETTUCE_CAP_CRITICAL)].

Lemma does_bring_up_tests :
  does bring_up_grants (bring_up_tests pac_sign pac_auth L sym registers user fuel).
Proof using Hregs Huser.
  unfold bring_up_tests.
  do 9 (apply does_then; [unfold test_1, test_2, test_3, test_4, test_5, test_6, test_7, test_8, test_9, last_far, last_esr;
                          harness|intros _]).
  unfold bring_up_grants.
  apply (does_bind L sym [grant_display]); [unfold test_10, grant_display; harness|intros cap_cam_disp].
  apply (does_bind L sym [grant_failing]); [unfold test_11, grant_failing; harness|intros _].
  apply (does_bind L sym [grant_storage]); [unfold test_12, grant_storage; harness|intros _].
  do 3 (apply does_then; [unfold test_13, test_14, test_15, active_asid; harness|intros _]).
  apply (does_bind L sym [grant_sensor _]); [unfold test_16, grant_sensor; harness|intros sensor].
  apply (does_bind L sym [grant_sensor _]); [unfold test_17, grant_sensor; harness|intros elev]. apply does_ret.
Qed.

End tests.

(** ** Authority after the tests *)

(** The calls the granted capabilities are for. *)
Definition granted_calls (gs : list grant) : list (Z * Z * Z * Z) :=
  (λ g, (gr_owner g, gr_target g, gr_operation g, gr_resource g)) <$> gs.

Definition entry_call (e : LettuceCapabilityEntry) : Z * Z * Z * Z :=
  (ce_owner e, ce_target e, ce_operation e, ce_resource e).

(** The table the grants build holds nothing else. *)
Lemma granted_table :
  ∃ caps, grant_all bring_up_grants cap_fresh = Some caps ∧
    ∀ h e, cap_designates caps h e → entry_call e ∈ granted_calls bring_up_grants.
Proof.
  destruct (grant_all bring_up_grants cap_fresh) as [caps|] eqn:Hg.
  2:{ exfalso. assert (is_Some (grant_all bring_up_grants cap_fresh)) as [? H] by (vm_compute; eexists; reflexivity). congruence. }
  exists caps. split; [done|]. intros h e (slot & gen & _ & He & Ha & _).
  assert ((λ c, forallb (λ e, negb (ce_active e) || bool_decide (entry_call e ∈ granted_calls bring_up_grants))
    (capability_table c)) <$> grant_all bring_up_grants cap_fresh = Some true) as Hall by (vm_compute; reflexivity).
  rewrite Hg in Hall. cbn [fmap option_fmap option_map] in Hall. injection Hall as Hall.
  pose proof (arr_forall _ _ _ _ Hall He) as Hp. cbn beta in Hp. rewrite Ha in Hp. by apply bool_decide_eq_true in Hp.
Qed.

Lemma boot_entries_lookup (L : layout) (sym : el0_symbols) (t : list LettuceServiceRegistryEntry) (s o : Z) d :
  reg_refines t (boot_registry L sym) → is_u32 s → is_u32 o → lettuce_dispatch_lookup s o t = Some (Some d) →
  (s, o, de_entry d) ∈ boot_entries L sym.
Proof.
  intros Href Hs Ho Hd. pose proof (refine_dispatch_lookup t _ s o Href Hs Ho) as Hx. unfold reg_exec in Hx. rewrite Hd in Hx.
  cbn [mbind option_bind fmap option_fmap option_map] in Hx.
  assert (areg_entries (boot_entries L sym) !! (s, o) = Some (de_entry d)) as He by (symmetry; by injection Hx).
  by apply elem_of_list_to_map_2 in He.
Qed.
