(* ===== verification/HarnessTasksSpec.v ===== *)
(** * What tests 18 to 25 and the benchmarks do to the kernel

    They enable pointer authentication, interrupts and both scheduling policies, and run
    user code under preemption.  Whatever that code does, and whatever the outside world
    answers, the kernel's tables stay those of boot plus the grants of tests 10 to 17.
    With the services of [Services.v] as user code, all 25 tests pass.  The benchmarks are
    a straight-line trace of effects, which ends when the services they call return. *)

From Stdlib Require Import String.
From S2P Require Import Prelude Types Generation Context Capability CapabilitySpec Registry RegistrySpec Ipc.
From S2P Require Import Task Policy RoundRobin Eevdf Scheduler SchedulerSpec Mmu MmuSpec Timer Console Posix Cpu CpuSpec.
From S2P Require Import Report Main Services MainSpec Preempt Harness HarnessTasks HarnessSpec.

(** ** The kernel's variables *)

Lemma kernel_ok_vars (L : layout) (sym : el0_symbols) (v : cpu_vars) (st : cpu_state) :
  stack_ok v →
  (∀ i f, 0 ≤ i < g_context_stack_depth v → arr_get (g_context_stack v) i = Some f → mmu_known (cf_domain_id f) = true) →
  kernel_ok L sym st → kernel_ok L sym (with_vars v st).
Proof. intros Hv Hd [[H1 H2 H3 H4] Hk Hc Hr]. split; [by split|done..]. Qed.

(** A flag that is not part of the call stack. *)
Definition keeps_stack (v v' : cpu_vars) : Prop :=
  g_context_stack v' = g_context_stack v ∧ g_context_stack_depth v' = g_context_stack_depth v.

Lemma kernel_ok_flags (L : layout) (sym : el0_symbols) (v : cpu_vars) (st : cpu_state) :
  keeps_stack (cp_vars st) v → kernel_ok L sym st → kernel_ok L sym (with_vars v st).
Proof.
  intros [Hs Hd] Hok. pose proof Hok as [[_ _ [] _] Hk _ _].
  apply kernel_ok_vars; [split; by rewrite ?Hs, ?Hd|by rewrite Hs, Hd|done].
Qed.

Lemma push_keeps (L : layout) (sym : el0_symbols) (pac_sign : Z → Z → Z) (svc dom elr spsr sp : Z) (st : cpu_state) b v :
  mmu_known dom = true → lettuce_arch_context_push pac_sign svc dom elr spsr sp (cp_vars st) = Some (b, v) →
  kernel_ok L sym st → kernel_ok L sym (with_vars v st).
Proof.
  intros Hdom Hp Hok. pose proof Hok as [[_ _ [Hlen Hd] _] Hk _ _]. unfold lettuce_arch_context_push in Hp.
  destruct (Z.leb_spec LETTUCE_ARCH_CONTEXT_MAX (g_context_stack_depth (cp_vars st))) as [Hfull|Hroom].
  { injection Hp as _ <-. by apply kernel_ok_flags. }
  rewrite arr_set_Some in Hp by lia. cbn in Hp. injection Hp as _ <-. apply kernel_ok_vars; [| |done].
  - split; cbn; [by rewrite length_insert|lia].
  - cbn. intros i f Hi Hf. rewrite arr_get_insert in Hf by lia. case_decide; [by injection Hf as <-|].
    apply (Hk i f); [unfold depth; lia|done].
Qed.

Lemma corrupt_keeps (L : layout) (sym : el0_symbols) (mask : Z) (st : cpu_state) v :
  lettuce_arch_context_corrupt_top_elr mask (cp_vars st) = Some v → kernel_ok L sym st → kernel_ok L sym (with_vars v st).
Proof.
  intros Hp Hok. pose proof Hok as [[_ _ [Hlen Hd] _] Hk _ _]. unfold lettuce_arch_context_corrupt_top_elr in Hp.
  destruct (Z.ltb_spec 0 (g_context_stack_depth (cp_vars st))) as [Hpos|]; [|injection Hp as <-; by apply kernel_ok_flags].
  destruct (arr_get _ _) as [f|] eqn:Hf; cbn [mbind option_bind] in Hp; [|done].
  rewrite arr_set_Some in Hp by lia. cbn in Hp. injection Hp as <-. apply kernel_ok_vars; [| |done].
  - split; cbn; [by rewrite length_insert|lia].
  - cbn. intros i x Hi Hx. rewrite arr_get_insert in Hx by lia. case_decide as Heq; [|by apply (Hk i x)].
    injection Hx as <-. cbn. apply (Hk (g_context_stack_depth (cp_vars st) - 1) f); [unfold depth; lia|done].
Qed.

Lemma pop_keeps (L : layout) (sym : el0_symbols) (auth : Z → Z → Z) (st : cpu_state) r v :
  lettuce_arch_context_pop auth (cp_vars st) = Some (r, v) → kernel_ok L sym st → kernel_ok L sym (with_vars v st).
Proof.
  intros Hp Hok. pose proof Hok as [[_ _ [Hlen Hd] _] Hk _ _]. unfold lettuce_arch_context_pop in Hp.
  destruct (Z.eqb_spec (g_context_stack_depth (cp_vars st)) 0); [injection Hp as _ <-; by apply kernel_ok_flags|].
  destruct (arr_get _ _) as [f|]; cbn [mbind option_bind] in Hp; [|done]. injection Hp as _ <-.
  apply kernel_ok_vars; [| |done].
  - split; cbn; [done|lia].
  - cbn. intros i x Hi Hx. apply (Hk i x); [unfold depth; lia|done].
Qed.

(** A failed authentication in the kernel: the report, and the flag the test looks at. *)
Lemma pac_trap_keeps (L : layout) (sym : el0_symbols) (far : Z) (tf : LettuceTrapFrame) (st st' : cpu_state) e :
  lettuce_arch_sync_el1_handler fpac_esr far tf st = Some (e, st') → kernel_ok L sym st →
  kernel_ok L sym st' ∧ cp_caps st' = cp_caps st.
Proof.
  unfold lettuce_arch_sync_el1_handler. change ((fpac_esr .>> 26) .& 0x3f) with 0x1c. cbn [Z.eqb Pos.eqb orb].
  intros H Hok. destruct (print_esr_elr _ _ _ st) as [s1|] eqn:H1; cbn [mbind option_bind] in H; [|done].
  apply print_esr_elr_quiet in H1. do 3 quiet_print H.
  destruct (print_identity _) as [s2|] eqn:H2 in H; cbn [mbind option_bind] in H; [|done].
  apply print_identity_quiet in H2. do 2 apply puts_quiet in H2.
  assert (quiet st s2) as Hq by (etrans; [exact H1|]; etrans; [exact Hp|]; etrans; [exact Hp0|]; etrans; [exact Hp1|exact H2]).
  assert (∀ s, quiet s2 s → kernel_ok L sym s ∧ cp_caps s = cp_caps st) as Hs.
  { intros s Hs. assert (quiet st s) as Hss by by etrans. split; [by eapply kernel_ok_quiet|by destruct Hss]. }
  clear H1 H2 Hp Hp0 Hp1 s1. set (s3 := with_mmu (cp_mmu s2) s2) in H.
  assert (quiet s2 s3) as H3 by (by apply quiet_mmu). clearbody s3.
  destruct (print_esr_elr _ _ _ s3) as [s4|] eqn:H4 in H; cbn [mbind option_bind] in H; [|done].
  apply print_esr_elr_quiet in H4.
  assert (quiet s2 (puts newline s4)) as H5 by (etrans; [exact H3|]; etrans; [exact H4|apply quiet_io]).
  cbv zeta in H. destruct (g_pac_expected_trap _); cbn [mbind option_bind] in H; injection H as _ <-.
  - destruct (Hs _ H5) as [Hk Hc]. split; [by apply kernel_ok_flags|exact Hc].
  - apply Hs. etrans; [exact H5|apply quiet_io].
Qed.

(** ** Statements *)

Section statements.
Context (L : layout) (sym : el0_symbols) (env : environment).

#[local] Abbreviation does := (does L sym).

Lemma does_fail {A : Type} : does [] (fail : prog A).
Proof. by intros w a w' _ Hrun. Qed.

Lemma does_on_vars (f : cpu_vars → cpu_vars) : (∀ v, keeps_stack v (f v)) → does [] (on_vars f).
Proof. intros Hf. apply does_modify. intros st st' [= <-] Hok. split; [|done]. by apply kernel_ok_flags. Qed.

Lemma does_on_sched (f : scheduler_state mmu_state → option (scheduler_state mmu_state)) :
  (∀ s s', f s = Some s' → ss_arch s' = ss_arch s) → does [] (on_sched f).
Proof.
  intros Hf. apply does_modify. intros st st' Hst Hok. destruct (f (cp_sched st)) as [s|] eqn:Hs; cbn in Hst; [|done].
  injection Hst as <-. split; [|done]. apply kernel_ok_sched; [left; by apply Hf|done].
Qed.

Lemma does_on_gic (f : gic_log → gic_log) : does [] (on_gic f).
Proof. apply does_modify_quiet. intros st st' [= <-]. apply quiet_timer_gic. Qed.

Lemma does_poke (a v : Z) : does [] (poke a v).
Proof.
  apply does_modify_quiet. intros st st' Hst. destruct (store_u64 _ _ _); cbn in Hst; [|done]. injection Hst as <-. apply quiet_io.
Qed.

Lemma does_peek (a : Z) : does [] (peek a).
Proof. intros w v w' Hok Hrun. unfold peek in Hrun. destruct (load_le _ _ _); cbn in Hrun; [|done]. by injection Hrun as _ <-. Qed.

Lemma does_timer_init (hz : Z) : does [] (timer_init hz).
Proof.
  apply does_modify_quiet. intros st st' [= <-].
  match goal with |- quiet _ (with_mmu _ (with_timer_gic ?t ?g _)) => transitivity (with_timer_gic t g st); [apply quiet_timer_gic|] end.
  apply quiet_mmu. apply (quiet_msr_after cntv_ctl_el0); [done..|]. by apply (quiet_msr cntv_tval_el0 _ (cp_mmu st)).
Qed.

Lemma irq_el1_quiet (iar : Z) (st : cpu_state) : quiet st (lettuce_arch_irq_el1_handler iar st).
Proof.
  unfold lettuce_arch_irq_el1_handler. etrans; [|apply end_of_interrupt_quiet]. case_match; [apply timer_quiet|reflexivity].
Qed.

Lemma irqs_quiet (iars : list Z) (st : cpu_state) : quiet st (foldl (λ st iar, lettuce_arch_irq_el1_handler iar st) st iars).
Proof. revert st. induction iars as [|iar iars IH]; intros st; cbn; [reflexivity|]. etrans; [apply irq_el1_quiet|apply IH]. Qed.

Lemma does_interrupts : does [] (interrupts env).
Proof.
  intros w a w' Hok [= _ <-]. cbn. destruct (w_unmasked w); [|done]. pose proof (irqs_quiet (env_interrupts env (w_time w)) (w_cpu w)) as Hq.
  split; [by eapply kernel_ok_quiet|]. by destruct Hq as [_ _ -> _ _ _].
Qed.

Lemma does_counter_read : does [] (counter_read env).
Proof.
  intros w a w' Hok [= _ <-]. split; [|done]. cbn [w_cpu].
  eapply kernel_ok_quiet, Hok. apply on_hw_quiet. intros m. by apply quiet_msr.
Qed.

Lemma does_unmask (b : bool) : does [] (unmask b).
Proof. by intros w a w' Hok [= _ <-]. Qed.

Lemma does_push (pac_sign : Z → Z → Z) (svc dom elr spsr sp : Z) :
  mmu_known dom = true → does [] (context_push pac_sign svc dom elr spsr sp).
Proof.
  intros Hdom. apply does_modify. intros st st' Hst Hok.
  destruct (lettuce_arch_context_push _ _ _ _ _ _ _) as [[b v]|] eqn:Hp; cbn in Hst; [|done]. injection Hst as <-.
  split; [by eapply push_keeps|done].
Qed.

Lemma does_corrupt (mask : Z) : does [] (context_corrupt_top_elr mask).
Proof.
  apply does_modify. intros st st' Hst Hok.
  destruct (lettuce_arch_context_corrupt_top_elr _ _) as [v|] eqn:Hp; cbn in Hst; [|done]. injection Hst as <-.
  split; [by eapply corrupt_keeps|done].
Qed.

Lemma does_pop (pac_auth : Z → Z → Z) : does [] (context_pop pac_auth env).
Proof.
  intros w r w' Hok Hrun. unfold context_pop in Hrun.
  assert (∃ auth st, kernel_ok L sym st ∧ cp_caps st = cp_caps (w_cpu w) ∧
    ('(f, v) ← lettuce_arch_context_pop auth (cp_vars st); Some (f, on_cpu (with_vars v st) w)) = Some (r, w'))
    as (auth & st & Hok1 & Hc1 & Hrun1).
  { destruct (pop_traps _ _); cbn [mbind option_bind] in Hrun; [|by eexists _, _].
    destruct (lettuce_arch_sync_el1_handler _ _ _ _) as [[e st]|] eqn:He; cbn [mbind option_bind] in Hrun; [|done].
    destruct (pac_trap_keeps L sym _ _ _ _ _ He Hok). destruct e; [by eexists _, _|done..]. }
  destruct (lettuce_arch_context_pop auth (cp_vars st)) as [[f v]|] eqn:Hp; cbn in Hrun1; [|done].
  injection Hrun1 as _ <-. split; [by eapply pop_keeps|]. cbn. by rewrite Hc1.
Qed.

Lemma does_task_create (service domain s : Z) (name : string) : does [] (task_create L env service domain s name).
Proof.
  intros w t w' Hok Hrun. unfold task_create in Hrun. destruct (lettuce_task_create _ _ _ _ _ _) as [[task ts]|]; cbn in Hrun; [|done].
  injection Hrun as _ <-. split; [|done]. apply kernel_ok_sched; [by left|done].
Qed.

Lemma does_task_state (task : option Z) : does [] (task_state_of task).
Proof.
  intros w s w' Hok Hrun. unfold task_state_of in Hrun. destruct task as [slot|]; cbn in Hrun; [|done].
  destruct (arr_get _ slot); cbn in Hrun; [|done]. by injection Hrun as _ <-.
Qed.

Lemma does_handle_timer : does [] (modify (λ st, Some (handle_timer st))).
Proof. apply does_modify_quiet. intros st st' [= <-]. apply timer_quiet. Qed.

Lemma does_tick (tf : LettuceTrapFrame) : frame_ok tf → does [] (scheduler_tick tf).
Proof.
  intros Htf. apply does_modify. intros st st' Hst Hok. unfold lettuce_scheduler_tick in Hst.
  destruct (do_schedule _ _ _ _ _) as [[[hit o] s]|] eqn:Hs; cbn in Hst; [|done]. destruct hit; [done|]. injection Hst as <-.
  split; [|done]. apply kernel_ok_sched; [|done]. apply schedule_moves in Hs as [[Ha _ _] _]; [|done]. exact Ha.
Qed.

Lemma does_fd_init : does [] (modify (λ st, fds ← lettuce_fd_table_init (cp_fds st); Some (with_fds fds st))).
Proof.
  apply does_modify. intros st st' Hst [[H1 H2 H3 H4] Hk Hc Hr]. destruct (lettuce_fd_table_init _); cbn in Hst; [|done].
  injection Hst as <-. split; [|done]. by split.
Qed.

Lemma does_poke_bytes (bytes : list Z) (a : Z) : does [] (poke_bytes a bytes).
Proof.
  revert a. induction bytes as [|b bytes IH]; intros a; cbn [poke_bytes]; [apply does_ret|]. apply does_then; [|intros _; apply IH].
  apply does_modify_quiet. intros st st' Hst. destruct (store_byte _ _ _); cbn in Hst; [|done]. injection Hst as <-. apply quiet_io.
Qed.

Lemma does_sys_write (fd buf count : Z) : does [] (sys_write fd buf count).
Proof.
  intros w r w' Hok Hrun. unfold sys_write in Hrun. destruct (lettuce_kernel_sys_write _ _ _ _ _ _) as [[res io]|]; cbn in Hrun; [|done].
  injection Hrun as _ <-. split; [|done]. eapply kernel_ok_quiet, Hok. apply quiet_io.
Qed.

Lemma does_repeat (n : nat) (p : prog unit) : does [] p → does [] (repeat_prog n p).
Proof. intros Hp. induction n as [|n IH]; cbn [repeat_prog]; [apply does_ret|]. by apply does_then. Qed.

Lemma does_features :
  does [] (modify (λ st, Some (with_io (lettuce_arch_features_probe_and_print (mmu_hw (cp_mmu st)) (cp_io st)) st))).
Proof. apply does_modify_quiet. intros st st' [= <-]. apply quiet_io. Qed.

Lemma does_enter_and_leave (d : Z) : does [] (enter_and_leave d).
Proof.
  apply does_modify. intros st st' [= <-] Hok. split; [|done]. unfold lettuce_mmu_leave.
  rewrite (surjective_pairing (lettuce_mmu_enter d (cp_mmu st))). cbn [fst snd].
  apply (kernel_ok_enter L sym d) in Hok. by apply (kernel_ok_enter L sym (lettuce_mmu_enter d (cp_mmu st)).1) in Hok.
Qed.

Lemma does_check (f : cpu_state → option bool) : does [] (modify (λ st, _ ← f st; Some st)).
Proof. apply does_modify_quiet. intros st st' Hst. destruct (f st); cbn in Hst; [|done]. injection Hst as <-. reflexivity. Qed.

Lemma does_results : does [] results.
Proof. by intros w a w' Hok [= _ <-]. Qed.

Lemma does_and_then (ok : bool) (p : prog bool) : does [] p → does [] (and_then ok p).
Proof. intros Hp. destruct ok; [done|apply does_ret]. Qed.

Lemma does_console (f : cpu_state → option io_state) : does [] (modify (λ st, io ← f st; Some (with_io io st))).
Proof. apply does_modify_quiet. intros st st' Hst. destruct (f st); cbn in Hst; [|done]. injection Hst as <-. apply quiet_io. Qed.

Lemma does_bench_stats (name : string) (samples : list Z) (freq : Z) :
  does [] (modify (λ st, '(_, io) ← print_bench_stats name samples freq (cp_io st); Some (with_io io st))).
Proof.
  apply does_modify_quiet. intros st st' Hst. destruct (print_bench_stats _ _ _ _) as [[s io]|]; cbn in Hst; [|done].
  injection Hst as <-. apply quiet_io.
Qed.

End statements.

#[export] Hint Resolve does_fail does_on_gic does_poke does_peek does_timer_init does_interrupts does_counter_read does_unmask
  does_corrupt does_pop does_task_create does_task_state does_handle_timer does_fd_init does_poke_bytes does_sys_write
  does_repeat does_features does_enter_and_leave does_check does_results does_and_then does_console does_bench_stats
  does_title does_restored does_run_expecting does_register_display does_register_storage : harness.
#[export] Hint Extern 3 (does _ _ [] (on_vars _)) => (apply does_on_vars; by split) : harness.
#[export] Hint Extern 3 (does _ _ [] (on_sched _)) => (apply does_on_sched; by intros s s' [= <-]) : harness.
#[export] Hint Extern 3 (does _ _ [] (context_push _ _ _ _ _ _)) => (by apply does_push) : harness.
#[export] Hint Extern 3 (does _ _ [] (scheduler_tick _)) => (by apply does_tick) : harness.
#[export] Hint Extern 3 (does _ _ [] (enter_domain _)) => (apply does_enter) : harness.
#[export] Hint Extern 3 (does _ _ [] (set_service _)) => (apply does_identity) : harness.

(** ** Tests 18 to 25 *)

Section tests.
Context (pac_sign pac_auth : Z → Z → Z) (L : layout) (sym : el0_symbols) (registers : LettuceTrapFrame).
Context (user : el0_code) (fuel : nat) (env : environment) (Hregs : frame_ok registers) (Huser : code_ok user).

#[local] Abbreviation does := (does L sym).

Lemma does_el0_enter (pc sp : Z) : does [] (el0_enter pac_sign pac_auth registers user fuel pc sp).
Proof using Hregs Huser.
  intros w a w' Hok Hrun. unfold el0_enter in Hrun.
  destruct (lettuce_el0_enter _ _ _ _ _ _ _ _) as [[status st]|] eqn:Hst; cbn in Hrun; [|done]. injection Hrun as _ <-.
  destruct (kernel_ok_enter_el0 L sym _ _ _ _ _ Hregs Huser _ _ _ _ _ Hok Hst) as [? Hc]. split; [done|]. cbn. by rewrite Hc.
Qed.

Lemma does_irq_enable : does [] (lettuce_arch_irq_enable env).
Proof. unfold lettuce_arch_irq_enable. harness. Qed.

Lemma does_irq_disable : does [] (lettuce_arch_irq_disable env).
Proof. unfold lettuce_arch_irq_disable. harness. Qed.

#[local] Hint Resolve does_el0_enter does_irq_enable does_irq_disable : harness.

Lemma does_wait (turns : nat) (target deadline : Z) : does [] (wait_for_ticks env turns target deadline).
Proof.
  induction turns as [|turns IH]; cbn [wait_for_ticks]; [apply does_fail|]. unfold ticks. harness.
  case_match; [|apply does_ret]. harness. case_match; [apply does_ret|done].
Qed.

Lemma does_scheduler_init : does [] scheduler_init.
Proof.
  apply does_on_sched. intros s s'. unfold lettuce_scheduler_init. destruct (lettuce_task_init_subsystem _); cbn; [|done]. by intros [= <-].
Qed.

Lemma does_task_store (task : option Z) (f : LettuceTask → LettuceTask) : does [] (task_store task f).
Proof.
  apply does_on_sched. intros s s' Hs. destruct task as [slot|]; cbn in Hs; [|done]. destruct (task_update _ _ _); cbn in Hs; [|done].
  by injection Hs as <-.
Qed.

Lemma does_set_weight (task : option Z) (weight : Z) : does [] (task_set_weight task weight).
Proof. apply does_on_sched. intros s s' Hs. destruct (lettuce_task_set_weight _ _ _); cbn in Hs; [|done]. by injection Hs as <-. Qed.

Lemma does_clear_counters : does [] clear_counters.
Proof. unfold clear_counters. harness. Qed.

#[local] Hint Resolve does_clear_counters does_wait does_scheduler_init does_task_store does_set_weight : harness.

Lemma does_start_running (task : option Z) : does [] (start_running task).
Proof. unfold start_running, task_set_current, scheduler_start. harness. Qed.

Lemma does_run_preemptively : does [] (run_preemptively pac_sign pac_auth L sym registers user fuel env).
Proof using Hregs Huser. unfold run_preemptively, scheduler_stop. harness. Qed.

Lemma does_all_progressed (res : Z) : does [] (all_progressed res).
Proof. unfold all_progressed. repeat (apply does_and_then; harness). Qed.

#[local] Hint Resolve does_start_running does_run_preemptively does_all_progressed : harness.

Lemma does_task_tests (turns : nat) (caps : camera_caps) :
  does [] (task_tests pac_sign pac_auth L sym registers user fuel env turns caps).
Proof using Hregs Huser.
  unfold task_tests.
  do 7 (apply does_then; [unfold test_18, test_19, test_20, test_21, test_22, test_23, test_24, ticks,
    counter_frequency, scheduler_start, scheduler_stop; harness|intros _]).
  unfold test_25. harness.
Qed.

Lemma does_all_tests (turns : nat) :
  does bring_up_grants (all_tests pac_sign pac_auth L sym registers user fuel env turns).
Proof using Hregs Huser.
  unfold all_tests. rewrite <- (app_nil_r bring_up_grants). apply does_bind; [by apply does_bring_up_tests|intros caps].
  apply does_then; [apply does_task_tests|intros _; apply does_ret].
Qed.

(** ** The benchmarks *)

Lemma does_camera_run (s : Z) : does [] (camera_run pac_sign pac_auth L registers user fuel s).
Proof using Hregs Huser. unfold camera_run. harness. Qed.

Lemma does_samples (n : nat) (p : prog unit) : does [] p → does [] (take_samples env n p).
Proof.
  intros Hp. induction n as [|n IH]; cbn [take_samples]; [apply does_ret|]. harness.
Qed.

Lemma does_measure (p : prog unit) : does [] p → does [] (measure env p).
Proof. intros Hp. unfold measure. apply does_then; [auto with harness|intros _; by apply does_samples]. Qed.

Lemma does_print_all (names : list string) (samples : list (list Z)) (freq : Z) : does [] (print_all names samples freq).
Proof.
  revert samples. induction names as [|name names IH]; intros [|s samples]; cbn [print_all]; try apply does_ret.
  apply does_then; [apply does_bench_stats|intros _; apply IH].
Qed.

#[local] Hint Resolve does_camera_run : harness.
#[local] Hint Extern 1 (HarnessSpec.does _ _ [] (measure _ _)) => (apply does_measure) : harness.
#[local] Hint Extern 1 (HarnessSpec.does _ _ [] (print_all _ _ _)) => (apply does_print_all) : harness.
#[local] Hint Opaque measure take_samples repeat_prog print_all : harness.

Lemma does_direct_call : does [] direct_call.
Proof. unfold direct_call. harness. Qed.

#[local] Hint Resolve does_direct_call : harness.

Lemma does_benchmarks (caps : camera_caps) :
  does [] (benchmarks pac_sign pac_auth L sym registers user fuel env caps).
Proof using Hregs Huser.
  unfold benchmarks, counter_frequency.
  unfold bench_a, bench_b, bench_c, bench_d, bench_e.
  do 7 (apply does_then; [solve [auto with harness]|intros ?]).
  do 5 (apply does_then; [unfold bench_f, bench_g, bench_h, bench_i, bench_j; harness|intros ?]).
  unfold bench_k. harness.
Qed.

Lemma does_summary : does [] summary.
Proof.
  unfold summary. apply does_then; [apply does_title|intros _]. apply does_then; [apply does_results|intros t]. cbv zeta.
  apply does_then; [case_match; unfold print_count; harness|intros _; apply does_say].
Qed.

End tests.

(** ** What the benchmarks do, as a trace *)

(** An effect of the benchmarks: bytes on the console, an observation of the counter, a
    run of a service as the camera in domain A, a domain entered and left, a shared word
    written, a flag changed. *)
Inductive event :=
  | Prints (text : list Z)
  | Reads
  | Runs (s : Z)
  | Enters (d : Z)
  | Stores (i v : Z)
  | UsesPac (b : bool)
  | UsesAsm (b : bool).

Definition is_read (e : event) : bool := match e with Reads => true | _ => false end.
Definition reads (l : list event) : nat := length (filter is_read l).

Lemma reads_app (l k : list event) : reads (l ++ k) = (reads l + reads k)%nat.
Proof. unfold reads. by rewrite filter_app, length_app. Qed.

Fixpoint times (n : nat) (l : list event) : list event := match n with O => [] | S n' => l ++ times n' l end.

Lemma reads_times (n : nat) (l : list event) : reads (times n l) = (n * reads l)%nat.
Proof. induction n as [|n IH]; cbn [times]; [done|]. by rewrite reads_app, IH. Qed.

(** One measured case: [BENCH_WARMUP_CALLS] calls, then [BENCH_SAMPLES] times the counter,
    [BENCH_CALLS_PER_SAMPLE] calls, and the counter again.  [call] are the effects of a
    call. *)
Definition case_trace (call : list event) : list event :=
  times (Z.to_nat BENCH_WARMUP_CALLS) call ++
  times (Z.to_nat BENCH_SAMPLES) (Reads :: times (Z.to_nat BENCH_CALLS_PER_SAMPLE) call ++ [Reads]).

Definition bytes_of_title (text : string) : list Z := text_bytes (String.append newline (line text)).

(** Cases A and B call functions without effects. *)
Definition bench_cases (sym : el0_symbols) (caps : camera_caps) (reports : list (list Z)) : list event :=
  case_trace [] ++ case_trace [] ++
  case_trace [Runs (svc_minimal_return_entry sym)] ++ case_trace [Enters DOMAIN_A] ++ case_trace [Enters DOMAIN_B] ++
  (Stores 0 (cap_cam_disp caps) :: case_trace [Runs (svc_camera_call_display sym)]) ++
  (Stores 2 (cap_cam_sensor caps) :: case_trace [Runs (svc_camera_cross_layer_call sym)]) ++
  (UsesAsm false :: Stores 3 (cap_cam_elev caps) :: case_trace [Runs (svc_camera_elevator_call sym)]) ++
  (UsesPac true :: case_trace [Runs (svc_camera_call_display sym)] ++ [UsesPac false]) ++
  (UsesAsm true :: Stores 3 (cap_cam_elev caps) :: case_trace [Runs (svc_camera_elevator_call sym)]) ++
  case_trace [Runs (task_bench_syscall sym)] ++
  (Prints <$> reports) ++
  [Prints (bytes_of_title "NOTE: generic counter ticks != CPU core cycles.");
   Prints (text_bytes (line "NOTE: QEMU TCG measurements reflect software emulation overhead, not silicon hardware cycles."))].

Definition bench_trace (sym : el0_symbols) (caps : camera_caps) (reports : list (list Z)) : list event :=
  Prints (bytes_of_title "--- ARM64 Statistical Microbenchmarks ---") :: bench_cases sym caps reports.

(** The services the benchmarks measure. *)
Definition measured_services (sym : el0_symbols) : list Z :=
  [svc_minimal_return_entry sym; svc_camera_call_display sym; svc_camera_cross_layer_call sym;
   svc_camera_elevator_call sym; task_bench_syscall sym].

(** The samples of a case whose first observation is the [time]-th: each takes two. *)
Definition measured (env : environment) (time n : nat) : list Z :=
  (λ k, u64 (u64 (env_counter env (time + 2 * k + 1)) - u64 (env_counter env (time + 2 * k))) / BENCH_CALLS_PER_SAMPLE) <$> seq 0 n.

Definition bench_measurements (env : environment) (time : nat) : list (list Z) :=
  (λ i, measured env (time + 100 * i) (Z.to_nat BENCH_SAMPLES)) <$> seq 0 (length bench_names).

Lemma measured_S (env : environment) (time n : nat) :
  measured env time (S n) =
  u64 (u64 (env_counter env (S time)) - u64 (env_counter env time)) / BENCH_CALLS_PER_SAMPLE :: measured env (time + 2) n.
Proof.
  unfold measured. cbn [seq]. rewrite fmap_cons, <- fmap_S_seq, <- list_fmap_compose. f_equal.
  - by rewrite Nat.mul_0_r, Nat.add_0_r, Nat.add_1_r.
  - apply list_fmap_ext. intros k j _. unfold compose.
    by replace (time + 2 * S j)%nat with (time + 2 + 2 * j)%nat by lia.
Qed.

Lemma measured_samples (env : environment) (time n : nat) :
  length (measured env time n) = n ∧ Forall is_u64 (measured env time n).
Proof.
  split; [unfold measured; by rewrite length_fmap, length_seq|]. apply Forall_fmap, Forall_true. intros k. cbn.
  match goal with |- context [u64 ?x / _] => pose proof (u64_range x) end. unfold is_u64, BENCH_CALLS_PER_SAMPLE in *.
  split; [apply Z.div_pos; lia|apply Z.div_lt_upper_bound; lia].
Qed.

Definition shared_mapped (mem : gmap Z Z) : Prop := ∀ a, SHARED_PAGE_VA ≤ a < SHARED_PAGE_VA + 32 → is_Some (mem !! a).

(** The call stack is empty, and the words the services read their capabilities from are
    there. *)
Record bench_ready (L : layout) (sym : el0_symbols) (st : cpu_state) : Prop := {
  br_kernel : kernel_ok L sym st;
  br_depth : depth st = 0;
  br_shared : shared_mapped (io_mem (cp_io st))
}.

Lemma store_le_mapped (n : nat) (a v x : Z) (m m' : gmap Z Z) :
  store_le n a v m = Some m' → is_Some (m !! x) → is_Some (m' !! x).
Proof.
  revert a v m. induction n as [|n IH]; intros a v m Hs Hx; cbn in Hs; [by injection Hs as <-|].
  destruct (store_byte a (v mod 256) m) as [m1|] eqn:H1; cbn in Hs; [|done]. apply IH in Hs; [done|].
  unfold store_byte in H1. destruct (m !! a); [|done]. injection H1 as <-.
  destruct (decide (a = x)) as [->|Hne]; [by rewrite lookup_insert_eq|by rewrite lookup_insert_ne].
Qed.

Section traces.
Context (pac_sign pac_auth : Z → Z → Z) (L : layout) (sym : el0_symbols) (registers : LettuceTrapFrame).
Context (user : el0_code) (fuel : nat) (env : environment) (Hregs : frame_ok registers) (Huser : code_ok user).

(** What an event does. *)
Definition happens (e : event) : prog unit :=
  match e with
  | Prints text => modify (λ st, Some (with_io (shows text (cp_io st)) st))
  | Reads => _ ← counter_read env; mret tt
  | Runs s => camera_run pac_sign pac_auth L registers user fuel s
  | Enters d => enter_and_leave d
  | Stores i v => shared_word i v
  | UsesPac b => on_vars (lettuce_pac_enable b)
  | UsesAsm b => on_vars (lettuce_elevator_set_use_asm b)
  end.

Fixpoint trace (l : list event) : prog unit := match l with [] => mret tt | e :: l' => happens e ;; trace l' end.

Lemma bind_done {A B : Type} (p : prog A) (f : A → prog B) (w w1 : world) (x : A) : p w = Some (x, w1) → (p ≫= f) w = f x w1.
Proof. unfold mbind, prog_bind. by intros ->. Qed.

Lemma bind_stuck {A B : Type} (p : prog A) (f : A → prog B) (w : world) : p w = None → (p ≫= f) w = None.
Proof. unfold mbind, prog_bind. by intros ->. Qed.

Lemma trace_app (l k : list event) (w : world) : trace (l ++ k) w = (trace l ;; trace k) w.
Proof.
  revert w. induction l as [|e l IH]; intros w; [done|]. cbn [app trace]. unfold mbind, prog_bind.
  destruct (happens e w) as [[u w1]|]; [|done]. cbn [mbind option_bind]. exact (IH w1).
Qed.

Lemma happens_does (e : event) : does L sym [] (happens e).
Proof using Hregs Huser.
  destruct e; cbn [happens]; auto with harness.
  - apply does_modify_quiet. intros st st' [= <-]. apply quiet_io.
  - apply does_then; auto with harness.
  - by apply does_camera_run.
Qed.

Lemma trace_does (l : list event) : does L sym [] (trace l).
Proof using Hregs Huser.
  induction l as [|e l IH]; cbn [trace]; [apply does_ret|]. apply does_then; [apply happens_does|intros _; exact IH].
Qed.

Lemma modify_time (f : cpu_state → option cpu_state) (w w' : world) u : modify f w = Some (u, w') → w_time w' = w_time w.
Proof. unfold modify. destruct (f (w_cpu w)); cbn; [|done]. by intros [= _ <-]. Qed.

Lemma happens_time (e : event) (w w' : world) u : happens e w = Some (u, w') → w_time w' = (reads [e] + w_time w)%nat.
Proof.
  destruct e; cbn [happens]; try apply modify_time.
  - by intros [= _ <-].
  - intros (status & w1 & Hx & [= _ <-])%prog_bind_inv. unfold run in Hx.
    destruct (run_el0_service _ _ _ _ _ _ _ _ _ _) as [[r st]|]; cbn in Hx; [|done]. by injection Hx as _ <-.
Qed.

Lemma trace_time (l : list event) (w w' : world) u : trace l w = Some (u, w') → w_time w' = (reads l + w_time w)%nat.
Proof.
  revert w. induction l as [|e l IH]; intros w; cbn [trace]; [by intros [= _ <-]|].
  intros (u1 & w1 & H1%happens_time & H2%IH)%prog_bind_inv. rewrite H2, H1. change (e :: l) with ([e] ++ l). rewrite reads_app. lia.
Qed.

(** At the [time]-th observation the program [p] has the effects [l] and the result [x]. *)
Definition traced {A : Type} (time : nat) (l : list event) (p : prog A) (x : A) : Prop :=
  ∀ w, kernel_ok L sym (w_cpu w) → w_time w = time → p w = (trace l ;; mret x) w.

Lemma traced_ret {A : Type} (time : nat) (x : A) : traced time [] (mret x) x.
Proof. done. Qed.

Lemma traced_bind {A B : Type} (time : nat) (l k : list event) (p : prog A) (f : A → prog B) (x : A) (y : B) :
  traced time l p x → traced (reads l + time) k (f x) y → traced time (l ++ k) (p ≫= f) y.
Proof using Hregs Huser.
  intros Hp Hf w Hw Ht. pose proof (trace_app l k w) as Hlk. specialize (Hp w Hw Ht). destruct (trace l w) as [[u w1]|] eqn:H1.
  - rewrite (bind_done _ _ _ _ _ H1) in Hp. rewrite (bind_done _ _ _ _ _ H1) in Hlk.
    rewrite (bind_done _ _ _ _ _ Hp), (Hf w1).
    + unfold mbind, prog_bind. by rewrite Hlk.
    + by apply (trace_does l w u w1).
    + apply trace_time in H1. lia.
  - rewrite (bind_stuck _ _ _ H1) in Hp. rewrite (bind_stuck _ _ _ H1) in Hlk. by rewrite (bind_stuck _ _ w Hp), (bind_stuck _ _ w Hlk).
Qed.

Lemma traced_happens (time : nat) (e : event) : traced time [e] (happens e) tt.
Proof.
  intros w _ _. cbn [trace]. unfold mbind, prog_bind. by destruct (happens e w) as [[[] w1]|].
Qed.

(** A statement without effects. *)
Lemma traced_nothing {A : Type} (time : nat) (p : prog A) (x : A) :
  (∀ w, kernel_ok L sym (w_cpu w) → p w = Some (x, w)) → traced time [] p x.
Proof. intros Hp w Hw _. by rewrite Hp. Qed.

Lemma traced_say (time : nat) (text : string) : traced time [Prints (text_bytes text)] (say text) tt.
Proof. intros w _ _. unfold say, modify, puts. by rewrite puts_shows. Qed.

Lemma traced_read (time : nat) : traced time [Reads] (counter_read env) (u64 (env_counter env time)).
Proof. by intros w _ <-. Qed.

(** A call that does not look at the counter, any number of times. *)
Lemma traced_repeat (time n : nat) (l : list event) (p : prog unit) :
  (∀ time, traced time l p tt) → traced time (times n l) (repeat_prog n p) tt.
Proof using Hregs Huser.
  intros Hp. revert time. induction n as [|n IH]; intros time; cbn [times repeat_prog]; [apply traced_ret|].
  by eapply traced_bind.
Qed.

Lemma traced_samples (time n : nat) (call : list event) (p : prog unit) :
  reads call = 0%nat → (∀ time, traced time call p tt) →
  traced time (times n (Reads :: times (Z.to_nat BENCH_CALLS_PER_SAMPLE) call ++ [Reads])) (take_samples env n p)
    (measured env time n).
Proof using Hregs Huser.
  intros H0 Hp. revert time. induction n as [|n IH]; intros time; cbn [times take_samples]; [apply traced_ret|].
  set (calls := times _ call). assert (reads calls = 0%nat) as Hc by (unfold calls; rewrite reads_times; lia).
  change ((Reads :: calls ++ [Reads]) ++ ?k) with ([Reads] ++ (calls ++ [Reads]) ++ k). rewrite <- app_assoc.
  rewrite <- (app_nil_r (times n _)). rewrite measured_S.
  eapply traced_bind; [apply traced_read|]. eapply traced_bind; [by apply traced_repeat|]. rewrite Hc.
  eapply traced_bind; [apply traced_read|]. eapply traced_bind; [|apply traced_ret].
  change (reads [Reads]) with 1%nat. replace (time + 2)%nat with (1 + (0 + (1 + time)))%nat by lia. apply IH.
Qed.

Lemma traced_measure (time : nat) (call : list event) (p : prog unit) :
  reads call = 0%nat → (∀ time, traced time call p tt) →
  traced time (case_trace call) (measure env p) (measured env time (Z.to_nat BENCH_SAMPLES)).
Proof using Hregs Huser.
  intros H0 Hp. eapply traced_bind; [by apply traced_repeat|]. rewrite reads_times, H0, Nat.mul_0_r. by apply traced_samples.
Qed.

Lemma reads_case (call : list event) : reads call = 0%nat → reads (case_trace call) = 100%nat.
Proof.
  intros H0. unfold case_trace. rewrite reads_app, !reads_times, H0.
  change (Reads :: ?l ++ [Reads]) with ([Reads] ++ l ++ [Reads]). by rewrite !reads_app, reads_times, H0.
Qed.

(** A service call. *)
Lemma traced_run (time : nat) (s : Z) :
  traced time [Runs s] (camera_run pac_sign pac_auth L registers user fuel s) tt.
Proof. apply (traced_happens time (Runs s)). Qed.

Lemma traced_reports (names : list string) (samples : list (list Z)) (freq : Z) :
  Forall (λ s, Z.of_nat (length s) = BENCH_SAMPLES ∧ Forall is_u64 s) samples → length names = length samples →
  ∃ reports, Forall2 (λ ns text, is_report freq ns.1 ns.2 text) (zip names samples) reports ∧
    ∀ time, traced time (Prints <$> reports) (print_all names samples freq) tt.
Proof using Hregs Huser.
  intros Hs. revert names. induction Hs as [|s samples [Hl Hall] _ IH]; intros [|name names] Hlen; try done.
  { exists []. split; [constructor|intros time; apply traced_ret]. }
  injection Hlen as Hlen. destruct (bench_report_spec name s freq Hl Hall) as (s' & b & Hrun & _ & _ & Hos).
  destruct (IH names Hlen) as (reports & Hr & Ht). exists (report_text name freq b :: reports).
  split; [constructor; [by exists b|exact Hr]|]. intros time. cbn [print_all]. rewrite fmap_cons.
  apply (traced_bind time [_] _ _ _ tt); [|apply Ht]. intros w _ _. unfold modify. by rewrite Hrun.
Qed.

(** One case after another; each makes a hundred observations. *)
Lemma traced_case {B : Type} (time : nat) (l k : list event) (p : prog (list Z)) (f : list Z → prog B) (x : list Z) (y : B) :
  traced time l p x → reads l = 100%nat → traced (time + 100) k (f x) y → traced time (l ++ k) (p ≫= f) y.
Proof using Hregs Huser. intros Hp Hl Hf. eapply traced_bind; [exact Hp|]. by rewrite Hl, Nat.add_comm. Qed.

Lemma traced_direct_call (time : nat) : traced time [] direct_call tt.
Proof. by apply traced_nothing. Qed.

Lemma traced_check (time : nat) (caps : camera_caps) : traced time [] (modify (λ st,
  _ ← lettuce_capability_check (cp_service st) (cap_cam_disp caps) SERVICE_DISPLAY OP_DRAW LETTUCE_CAP_CALL RES_FRAMEBUFFER
        (cp_caps st); Some st)) tt.
Proof.
  apply traced_nothing. intros w Hw. unfold modify.
  destruct (check_spec (cp_caps (w_cpu w)) (cp_service (w_cpu w)) (cap_cam_disp caps) SERVICE_DISPLAY OP_DRAW LETTUCE_CAP_CALL
    RES_FRAMEBUFFER) as (b & -> & _); [apply Hw|]. cbn [mbind option_bind]. by destruct w.
Qed.

(** Registering what is registered already. *)
Lemma traced_register (time : nat) (s o f f' : Z) : (s, o, f) ∈ boot_entries L sym → traced time [] (dispatch_register s o f') tt.
Proof.
  intros Hin. apply traced_nothing. intros w Hw. unfold dispatch_register, modify.
  rewrite (reregistration_is_ignored L sym _ s o f f' (ko_registry _ _ _ Hw) Hin). cbn [mbind option_bind].
  destruct w as [st ? ? ?]. by destruct st.
Qed.

#[local] Abbreviation services_case s := (case_trace [Runs s]).

Lemma traced_service (time : nat) (s : Z) :
  traced time (services_case s) (measure env (camera_run pac_sign pac_auth L registers user fuel s))
    (measured env time (Z.to_nat BENCH_SAMPLES)).
Proof using Hregs Huser. apply traced_measure; [done|intros; apply traced_run]. Qed.

Lemma traced_enter (time : nat) (d : Z) :
  traced time (case_trace [Enters d]) (measure env (enter_and_leave d)) (measured env time (Z.to_nat BENCH_SAMPLES)).
Proof using Hregs Huser. apply traced_measure; [done|intros; apply (traced_happens _ (Enters d))]. Qed.

(** Setting up, then measuring a service. *)
Lemma traced_setup (time : nat) (e : event) (k : list event) (f : unit → prog (list Z)) :
  reads [e] = 0%nat → traced time k (f tt) (measured env time (Z.to_nat BENCH_SAMPLES)) →
  traced time (e :: k) (happens e ≫= f) (measured env time (Z.to_nat BENCH_SAMPLES)).
Proof using Hregs Huser.
  intros He Hf. apply (traced_bind time [e] k _ _ tt); [apply traced_happens|]. by rewrite He.
Qed.

Lemma traced_bench_f (time : nat) (caps : camera_caps) :
  traced time (Stores 0 (cap_cam_disp caps) :: services_case (svc_camera_call_display sym))
    (bench_f pac_sign pac_auth L sym registers user fuel env caps) (measured env time (Z.to_nat BENCH_SAMPLES)).
Proof using Hregs Huser.
  apply (traced_bind time [] _ _ _ tt).
  - apply (traced_register _ _ _ (el0_service_va L (svc_display_entry sym))). by apply elem_of_cons; left.
  - apply (traced_setup _ (Stores 0 (cap_cam_disp caps))); [done|]. apply traced_service.
Qed.

Lemma traced_bench_g (time : nat) (caps : camera_caps) :
  traced time (Stores 2 (cap_cam_sensor caps) :: services_case (svc_camera_cross_layer_call sym))
    (bench_g pac_sign pac_auth L sym registers user fuel env caps) (measured env time (Z.to_nat BENCH_SAMPLES)).
Proof using Hregs Huser. apply (traced_setup _ (Stores 2 (cap_cam_sensor caps))); [done|]. apply traced_service. Qed.

Lemma traced_bench_h (time : nat) (caps : camera_caps) :
  traced time (UsesAsm false :: Stores 3 (cap_cam_elev caps) :: services_case (svc_camera_elevator_call sym))
    (bench_h pac_sign pac_auth L sym registers user fuel env caps) (measured env time (Z.to_nat BENCH_SAMPLES)).
Proof using Hregs Huser.
  apply (traced_setup _ (UsesAsm false)); [done|]. apply (traced_setup _ (Stores 3 (cap_cam_elev caps))); [done|]. apply traced_service.
Qed.

Lemma traced_bench_i (time : nat) :
  traced time (UsesPac true :: services_case (svc_camera_call_display sym) ++ [UsesPac false])
    (bench_i pac_sign pac_auth L sym registers user fuel env) (measured env time (Z.to_nat BENCH_SAMPLES)).
Proof using Hregs Huser.
  apply (traced_setup _ (UsesPac true)); [done|]. eapply traced_bind; [apply traced_service|].
  apply (traced_bind _ [UsesPac false] [] _ _ tt); [apply (traced_happens _ (UsesPac false))|apply traced_ret].
Qed.

Lemma traced_bench_j (time : nat) (caps : camera_caps) :
  traced time (UsesAsm true :: Stores 3 (cap_cam_elev caps) :: services_case (svc_camera_elevator_call sym))
    (bench_j pac_sign pac_auth L sym registers user fuel env caps) (measured env time (Z.to_nat BENCH_SAMPLES)).
Proof using Hregs Huser.
  apply (traced_setup _ (UsesAsm true)); [done|]. apply (traced_setup _ (Stores 3 (cap_cam_elev caps))); [done|]. apply traced_service.
Qed.

Lemma reads_setup (e : event) (l : list event) : reads [e] = 0%nat → reads l = 100%nat → reads (e :: l) = 100%nat.
Proof. intros He Hl. change (e :: l) with ([e] ++ l). by rewrite reads_app, He. Qed.

Lemma bench_measurements_ok (time : nat) :
  Forall (λ s, Z.of_nat (length s) = BENCH_SAMPLES ∧ Forall is_u64 s) (bench_measurements env time).
Proof.
  apply Forall_forall. intros s (i & -> & _)%list_elem_of_fmap.
  destruct (measured_samples env (time + 100 * i) (Z.to_nat BENCH_SAMPLES)) as [Hl Hall]. by rewrite Hl.
Qed.

Lemma bench_measurements_list (time : nat) :
  let m time := measured env time (Z.to_nat BENCH_SAMPLES) in
  let t1 := (time + 100)%nat in let t2 := (t1 + 100)%nat in let t3 := (t2 + 100)%nat in let t4 := (t3 + 100)%nat in
  let t5 := (t4 + 100)%nat in let t6 := (t5 + 100)%nat in let t7 := (t6 + 100)%nat in let t8 := (t7 + 100)%nat in
  let t9 := (t8 + 100)%nat in let t10 := (t9 + 100)%nat in
  bench_measurements env time = [m time; m t1; m t2; m t3; m t4; m t5; m t6; m t7; m t8; m t9; m t10].
Proof. unfold bench_measurements. cbn [length bench_names seq fmap list_fmap]. repeat (f_equal; try lia). Qed.

Lemma benchmarks_trace (w : world) (caps : camera_caps) :
  kernel_ok L sym (w_cpu w) →
  ∃ reports,
    Forall2 (λ ns text, is_report (lettuce_arch_counter_frequency (mmu_hw (cp_mmu (w_cpu w)))) ns.1 ns.2 text)
      (zip bench_names (bench_measurements env (w_time w))) reports ∧
    benchmarks pac_sign pac_auth L sym registers user fuel env caps w =
      (trace (bench_trace sym caps reports) ;; mret (bench_measurements env (w_time w))) w.
Proof using Hregs Huser.
  intros Hw. set (freq := lettuce_arch_counter_frequency _). set (time := w_time w).
  destruct (traced_reports bench_names (bench_measurements env time) freq (bench_measurements_ok time) eq_refl)
    as (reports & Hrep & Hprint).
  exists reports. split; [exact Hrep|]. rewrite (bench_measurements_list time) in Hprint. rewrite (bench_measurements_list time).
  set (w1 := on_cpu (puts (String.append newline (line "--- ARM64 Statistical Microbenchmarks ---")) (w_cpu w)) w).
  assert (title "--- ARM64 Statistical Microbenchmarks ---" w = Some (tt, w1)) as H1 by done.
  unfold benchmarks. rewrite (bind_done _ _ _ _ _ H1), (bind_done counter_frequency _ w1 w1 freq eq_refl).
  apply (does_title L sym) in H1 as [Hw1 _]; [|exact Hw].
  match goal with |- ?p w1 = (_ ≫= λ _, mret ?x) w => assert (traced time (bench_cases sym caps reports) p x) as Hp end.
  - unfold bench_cases.
    eapply traced_case; [apply traced_measure; [done|apply traced_direct_call]|by apply reads_case|].
    eapply traced_case; [apply traced_measure; [done|intros; apply traced_check]|by apply reads_case|].
    eapply traced_case; [apply traced_service|by apply reads_case|].
    do 2 (eapply traced_case; [apply traced_enter|by apply reads_case|]).
    eapply traced_case; [apply traced_bench_f|by apply reads_setup, reads_case|].
    eapply traced_case; [apply traced_bench_g|by apply reads_setup, reads_case|].
    eapply traced_case; [apply traced_bench_h|by do 2 (apply reads_setup; [done|]); apply reads_case|].
    eapply traced_case; [apply traced_bench_i|by apply reads_setup; [|rewrite reads_app, reads_case]|].
    eapply traced_case; [apply traced_bench_j|by do 2 (apply reads_setup; [done|]); apply reads_case|].
    eapply traced_case; [apply traced_service|by apply reads_case|].
    cbv zeta. eapply traced_bind; [apply Hprint|]. apply (traced_bind _ [_] [_] _ _ tt); [apply traced_say|].
    apply (traced_bind _ [_] [] _ _ tt); [apply traced_say|apply traced_ret].
  - rewrite (Hp w1 Hw1 eq_refl). unfold bench_trace. generalize (bench_cases sym caps reports). intros l. cbn [trace].
    unfold w1, puts. rewrite puts_shows. reflexivity.
Qed.

(** *** The trace ends *)

(** Every run of a measured service comes back to the kernel with the call stack empty. *)
Definition services_return : Prop := ∀ s st, s ∈ measured_services sym → bench_ready L sym st → ∃ status st',
  run_el0_service pac_sign pac_auth L registers user fuel s DOMAIN_A SERVICE_CAMERA st = Some (status, st') ∧
  depth st' = 0 ∧ shared_mapped (io_mem (cp_io st')).

(** The event runs a measured service, or writes one of the words for the capabilities. *)
Definition event_ok (e : event) : Prop :=
  match e with Runs s => s ∈ measured_services sym | Stores i _ => 0 ≤ i < 4 | _ => True end.

#[local] Abbreviation ready w := (bench_ready L sym (w_cpu w)).

(** A step that leaves the stack and the memory alone. *)
Lemma ready_step (e : event) (w w' : world) u :
  happens e w = Some (u, w') → depth (w_cpu w') = depth (w_cpu w) → io_mem (cp_io (w_cpu w')) = io_mem (cp_io (w_cpu w)) →
  ready w → ready w'.
Proof using Hregs Huser.
  intros Hx Hd Hm [Hk Hd0 Hs]. split; [by apply (happens_does e w u w')|congruence|by rewrite Hm].
Qed.

Lemma store_word_ready (i v : Z) (w : world) : 0 ≤ i < 4 → ready w → ∃ w', happens (Stores i v) w = Some (tt, w') ∧ ready w'.
Proof.
  intros Hi [Hk Hd Hs]. cbn [happens]. unfold shared_word, modify, store_u64.
  destruct (store_le_spec 8 (SHARED_PAGE_VA + 8 * i) (u64 v) (io_mem (cp_io (w_cpu w)))) as (m & Hm & _).
  { intros x Hx. apply Hs. lia. }
  rewrite Hm. eexists. split; [done|]. split; [|done|].
  - eapply kernel_ok_quiet, Hk. apply quiet_io.
  - intros x Hx. eapply store_le_mapped; [exact Hm|by apply Hs].
Qed.

Lemma happens_ends (e : event) (w : world) :
  services_return → event_ok e → ready w → ∃ w', happens e w = Some (tt, w') ∧ ready w'.
Proof using Hregs Huser.
  intros Hret He Hw.
  assert (∀ w', happens e w = Some (tt, w') → depth (w_cpu w') = depth (w_cpu w) →
    io_mem (cp_io (w_cpu w')) = io_mem (cp_io (w_cpu w)) → ∃ w', happens e w = Some (tt, w') ∧ ready w') as Hquiet
    by (intros w' Hx Hd Hm; exists w'; split; [exact Hx|exact (ready_step e w w' tt Hx Hd Hm Hw)]).
  destruct e as [text| |s|d|i v|b|b]; cbn [event_ok] in He; [..|by apply store_word_ready| |]; try (by eapply Hquiet).
  destruct (Hret s (w_cpu w) He Hw) as (status & st' & Hx & Hd & Hm). cbn [happens]. unfold camera_run, mbind, prog_bind, run.
  rewrite Hx. cbn. eexists. split; [done|]. split; [|done|done].
  by apply (kernel_ok_run L sym pac_sign pac_auth registers user fuel Hregs Huser) in Hx as [? _]; [|apply Hw].
Qed.

Lemma trace_ends (l : list event) (w : world) :
  services_return → Forall event_ok l → ready w → ∃ w', trace l w = Some (tt, w') ∧ ready w'.
Proof using Hregs Huser.
  intros Hret Hl. revert w. induction Hl as [|e l He _ IH]; intros w Hw; cbn [trace]; [by exists w|].
  destruct (happens_ends e w Hret He Hw) as (w1 & H1 & Hw1). rewrite (bind_done _ _ _ _ _ H1). by apply IH.
Qed.

Lemma times_ok (n : nat) (l : list event) : Forall event_ok l → Forall event_ok (times n l).
Proof. intros Hl. induction n as [|n IH]; cbn [times]; [constructor|]. by apply Forall_app. Qed.

Lemma case_ok (call : list event) : Forall event_ok call → Forall event_ok (case_trace call).
Proof.
  intros Hc. apply Forall_app. split; [by apply times_ok|]. apply times_ok. constructor; [exact I|].
  apply Forall_app. split; [by apply times_ok|by repeat constructor].
Qed.

Lemma service_case_ok (s : Z) : s ∈ measured_services sym → Forall event_ok (services_case s).
Proof. intros Hs. by apply case_ok, Forall_singleton. Qed.

Lemma bench_trace_ok (caps : camera_caps) (reports : list (list Z)) : Forall event_ok (bench_trace sym caps reports).
Proof.
  assert (∀ d, Forall event_ok (case_trace [Enters d])) as Hd by (intros d; apply case_ok; by repeat constructor).
  assert (Forall event_ok (Prints <$> reports)) as Hp by (by apply Forall_fmap, Forall_true).
  unfold bench_trace, bench_cases. constructor; [exact I|]. rewrite !Forall_app, !Forall_cons, !Forall_app.
  split_and!; try apply Hd; try exact Hp; try (apply case_ok; constructor);
    try (apply service_case_ok; unfold measured_services; set_solver); cbn [event_ok]; try lia; try exact I; by repeat constructor.
Qed.

End traces.

(** ** Authority *)

(** The kernel's invariants hold, and every call that any gate would authorise is one the
    test program created a capability for, and enters the entry point registered at
    boot. *)
Definition confined (L : layout) (sym : el0_symbols) (st : cpu_state) : Prop :=
  calls_ok L st ∧ cap_inv (cp_caps st) ∧ reg_refines (cp_registry st) (boot_registry L sym) ∧
  ∀ k m r d, message_wf m → authorized k m (kernel_view st) r d →
    (cp_service st, target_service_id m, operation_id m, resource_id m) ∈ granted_calls bring_up_grants ∧
    (target_service_id m, operation_id m, de_entry d) ∈ boot_entries L sym.

Lemma kernel_ok_confined (L : layout) (sym : el0_symbols) (st : cpu_state) :
  kernel_ok L sym st → grant_all bring_up_grants cap_fresh = Some (cp_caps st) → confined L sym st.
Proof.
  intros [Hc _ Hi Hr] Hg. split_and!; [done..|]. intros k m r d (Ht & Ho & _) [_ _ _ _ _ _ _ (e & He & Hauth) Hd _]. split.
  - destruct granted_table as (caps & Hgr & Hall). rewrite Hgr in Hg. injection Hg as ->.
    cbn [kernel_view ks_caps] in He. apply Hall in He.
    destruct Hauth as (Ho' & Ht' & Hop' & Hres' & _). unfold entry_call in He. cbn in Ho'. congruence.
  - by apply (boot_entries_lookup _ _ _ _ _ _ Hr).
Qed.

(** ** Claims *)

(** C33: the bring-up program hands out exactly the authority it creates.  It runs
    arbitrary user code: in tests 1 to 17 one service at a time, in tests 18 to 25 also
    under two scheduling policies and with interrupts, in the benchmarks thousands of
    times, with the counter, the interrupts and pointer authentication as the outside
    world has them.  Wherever the program gets to, the kernel's invariants hold, and every
    call that any gate would still authorise is one of the five the program created a
    capability for, and enters the entry point that was registered at boot: also after
    tests 11, 12 and 18, which try to replace it. *)
Theorem bring_up_tests_confine_user_code (pac_sign pac_auth : Z → Z → Z) (L : layout) (sym : el0_symbols)
    (registers : LettuceTrapFrame) (user : el0_code) (fuel : nat) (env : environment) (turns : nat)
    (st0 : cpu_state) (w w1 : world) (caps : camera_caps) :
  booted L sym st0 (w_cpu w) → depth (w_cpu w) = 0 → frame_ok registers → code_ok user →
  bring_up_tests pac_sign pac_auth L sym registers user fuel w = Some (caps, w1) →
  confined L sym (w_cpu w1) ∧
  ∀ w2, task_tests pac_sign pac_auth L sym registers user fuel env turns caps w1 = Some (tt, w2) →
    confined L sym (w_cpu w2) ∧
    ∀ samples w3, benchmarks pac_sign pac_auth L sym registers user fuel env caps w2 = Some (samples, w3) →
      confined L sym (w_cpu w3).
Proof.
  intros [[Hcaps _ _] Hcalls _ _ Hfresh Hreg _ _] H0 Hregs Huser H1. cbn [kernel_view ks_caps] in Hcaps.
  assert (kernel_ok L sym (w_cpu w)) as Hok by (split; [done|intros i f Hi; lia|done..]).
  destruct (does_bring_up_tests pac_sign pac_auth L sym registers user fuel Hregs Huser w caps w1 Hok H1) as [Hok1 Hg1].
  rewrite Hfresh in Hg1. split; [by apply kernel_ok_confined|]. intros w2 H2.
  destruct (does_task_tests pac_sign pac_auth L sym registers user fuel env Hregs Huser turns caps w1 tt w2 Hok1 H2) as [Hok2 [= Hg2]].
  split; [apply kernel_ok_confined; [done|by rewrite <- Hg2]|]. intros samples w3 H3.
  destruct (does_benchmarks pac_sign pac_auth L sym registers user fuel env Hregs Huser caps w2 samples w3 Hok2 H3) as [Hok3 [= Hg3]].
  apply kernel_ok_confined; [done|]. by rewrite <- Hg3, <- Hg2.
Qed.

(** C39: the benchmarks do and report what they measure.  From any state with the kernel's
    invariants, for any user code and any counter, the eleven cases with their nested loops
    are the straight-line [bench_trace]: per case a hundred warm-up calls and fifty times a
    hundred calls between two observations of the counter, of the service or the domain
    switch the case is named after (cases A and B have no effects), with the capability the
    service uses stored first, pointer authentication turned on before case I and off after
    it, and the gate in C selected before case H, the one in assembly before case J.  The
    samples are the differences of the counter, per call, and after the last case the
    console gets, case by case, the report of exactly those samples under the case's name.
    Where the measured services come back to the kernel with the call stack empty, and the
    words for the capabilities are there, the whole ends, with capabilities and registry as
    they were. *)
Theorem benchmarks_report_what_they_measure (pac_sign pac_auth : Z → Z → Z) (L : layout) (sym : el0_symbols)
    (registers : LettuceTrapFrame) (user : el0_code) (fuel : nat) (env : environment) (w : world) (caps : camera_caps) :
  frame_ok registers → code_ok user → kernel_ok L sym (w_cpu w) →
  let samples := bench_measurements env (w_time w) in
  let freq := lettuce_arch_counter_frequency (mmu_hw (cp_mmu (w_cpu w))) in
  ∃ reports,
    Forall2 (λ ns text, is_report freq ns.1 ns.2 text) (zip bench_names samples) reports ∧
    benchmarks pac_sign pac_auth L sym registers user fuel env caps w =
      (trace pac_sign pac_auth L registers user fuel env (bench_trace sym caps reports) ;; mret samples) w ∧
    (services_return pac_sign pac_auth L sym registers user fuel →
     depth (w_cpu w) = 0 → shared_mapped (io_mem (cp_io (w_cpu w))) →
     ∃ w', benchmarks pac_sign pac_auth L sym registers user fuel env caps w = Some (samples, w') ∧
       calls_ok L (w_cpu w') ∧ reg_refines (cp_registry (w_cpu w')) (boot_registry L sym) ∧
       cp_caps (w_cpu w') = cp_caps (w_cpu w)).
Proof.
  intros Hregs Huser Hw samples freq.
  destruct (benchmarks_trace pac_sign pac_auth L sym registers user fuel env Hregs Huser w caps Hw) as (reports & Hrep & Heq).
  exists reports. split; [exact Hrep|]. split; [exact Heq|]. intros Hret Hd Hm.
  destruct (trace_ends pac_sign pac_auth L sym registers user fuel env Hregs Huser (bench_trace sym caps reports) w Hret)
    as (w' & Ht & Hw'); [apply bench_trace_ok|by split|].
  rewrite (bind_done _ _ _ _ _ Ht) in Heq. exists w'. split; [exact Heq|].
  destruct (does_benchmarks pac_sign pac_auth L sym registers user fuel env Hregs Huser caps w _ w' Hw Heq)
    as [[Hc _ _ Hr] [= Hg]]. by split_and!.
Qed.

(** ** The program on the services of [entry.S] *)

Definition bytes_at (a : Z) (n : nat) : gmap Z Z := list_to_map ((λ i : nat, (a + Z.of_nat i, 0)) <$> seq 0 n).

(** The words of the private pages and of the shared page that the services use. *)
Definition harness_memory : gmap Z Z :=
  bytes_at PRIVATE_A_VA 8 ∪ bytes_at PRIVATE_B_VA 8 ∪ bytes_at PRIVATE_C_VA 8 ∪ bytes_at SHARED_PAGE_VA 0x68.

(** A processor with pointer authentication and a counter of 62.5 MHz. *)
Definition harness_hw (h : hw_state) : hw_state := msr cntfrq_el0 62500000 (msr id_aa64isar1_el1 0x10 h).

Definition harness_demo : cpu_state := on_hw harness_hw (with_memory harness_memory boot_demo).

(** A check code of 15 bits above the 48 of the address; a wrong one traps. *)
Definition pac_code (p m : Z) : Z := (p * 31 + m) mod 2 ^ 15.
Definition pac_strip (p : Z) : Z := p .& (2 ^ 48 - 1).
Definition harness_sign (p m : Z) : Z := p .| (pac_code p m .<< 48).
Definition harness_auth (p m : Z) : Z := pac_strip p.

(** The counter advances by a million between observations; a timer interrupt each
    time. *)
Definition harness_env : environment := {|
  env_counter := λ n, Z.of_nat n * 1000000; env_interrupts := λ n, [GIC_INTID_VTIMER]; env_literal := λ s, 0x40090000;
  env_pac_traps := λ p m, negb (p .>> 48 =? pac_code (pac_strip p) m); env_pac_frame := frame_of 0; env_pac_far := 0 |}.

#[local] Abbreviation harness_code := (service_code demo_layout 12).
#[local] Abbreviation harness_bring_up :=
  (bring_up_tests harness_sign harness_auth demo_layout demo_symbols (frame_of 0) harness_code 120).
#[local] Abbreviation harness_tasks :=
  (task_tests harness_sign harness_auth demo_layout demo_symbols (frame_of 0) harness_code 120 harness_env 10).
#[local] Abbreviation harness_all :=
  (all_tests harness_sign harness_auth demo_layout demo_symbols (frame_of 0) harness_code 120 harness_env 10).

(** The state boot leaves, evaluated once. *)
Definition booted_mmu : mmu_state := Eval vm_compute in
  default demo_mmu (cp_mmu <$> boot_cpu demo_layout 0x40080800 (on_hw harness_hw boot_demo)).
Definition booted_console : list Z := Eval vm_compute in
  default [] ((λ st, io_console (cp_io st)) <$> boot_cpu demo_layout 0x40080800 (on_hw harness_hw boot_demo)).
Definition booted_registry : list LettuceServiceRegistryEntry := Eval vm_compute in
  default [] ('(_, t) ← lettuce_service_registry_init registry_boot;
              t ← register_services boot_services t; register_entries (boot_entries demo_layout demo_symbols) t).

Definition booted_cpu (mem : gmap Z Z) : cpu_state :=
  with_io {| io_mem := mem; io_console := booted_console |} (with_mmu booted_mmu boot_demo).
Definition booted_demo : cpu_state := with_tables cap_fresh booted_registry (booted_cpu harness_memory).

Lemma boot_cpu_demo (mem : gmap Z Z) :
  boot_cpu demo_layout 0x40080800 (on_hw harness_hw (with_memory mem boot_demo)) = Some (booted_cpu mem).
Proof. vm_cast_no_check (eq_refl (Some (booted_cpu mem))). Qed.

Definition boot_registry_steps (L : layout) (sym : el0_symbols) (t : list LettuceServiceRegistryEntry)
    : option (list LettuceServiceRegistryEntry) :=
  '(_, t) ← lettuce_service_registry_init t; t ← register_services boot_services t; register_entries (boot_entries L sym) t.

Lemma boot_tables_fresh (L : layout) (sym : el0_symbols) (st : cpu_state) (t : list LettuceServiceRegistryEntry) :
  Z.of_nat (length (capability_table (cp_caps st))) = LETTUCE_CAPABILITY_TABLE_SIZE →
  Z.of_nat (length (free_slots (cp_caps st))) = LETTUCE_CAPABILITY_TABLE_SIZE →
  boot_registry_steps L sym (cp_registry st) = Some t → boot_tables L sym st = Some (with_tables cap_fresh t st).
Proof.
  intros Hc Hf. unfold boot_registry_steps, boot_tables. rewrite (cap_init_spec (cp_caps st) Hc Hf).
  destruct (lettuce_service_registry_init _) as [[b t0]|]; cbn [mbind option_bind]; [|done].
  destruct (register_services _ t0) as [t1|]; cbn [mbind option_bind]; [|done]. by intros ->.
Qed.

Lemma boot_registry_demo : boot_registry_steps demo_layout demo_symbols registry_boot = Some booted_registry.
Proof. vm_cast_no_check (eq_refl (Some booted_registry)). Qed.

Lemma boot_tables_demo : boot_tables demo_layout demo_symbols (booted_cpu harness_memory) = Some booted_demo.
Proof. apply boot_tables_fresh; [reflexivity..|exact boot_registry_demo]. Qed.

Lemma harness_boots : boot demo_layout 0x40080800 demo_symbols harness_demo = Some booted_demo.
Proof. unfold boot, harness_demo. rewrite boot_cpu_demo, bind_Some_l. exact boot_tables_demo. Qed.

Lemma harness_demo_memory : boot_memory demo_layout harness_demo.
Proof. pose proof boot_demo_memory as [[] ? ? ? ? ? ?]. split; [by split|done..]. Qed.

Lemma demo_symbols_ok : symbols_ok demo_layout demo_symbols.
Proof. repeat split; vm_compute; discriminate. Qed.

Lemma harness_booted : booted demo_layout demo_symbols harness_demo booted_demo.
Proof.
  destruct (boot_spec demo_layout 0x40080800 demo_symbols harness_demo demo_layout_ok demo_symbols_ok harness_demo_memory)
    as (st & Hb & Hbt).
  rewrite harness_boots in Hb. injection Hb as <-. exact Hbt.
Qed.

(** The twenty-five tests after boot, with the real instructions of the services and every
    access translated by the tables: all of them pass, and the call stack is empty. *)
Lemma all_tests_pass :
  (λ r, (w_tests r.2, depth (w_cpu r.2))) <$> harness_all (started_world booted_demo) =
  Some ({| g_tests_passed := 25; g_tests_failed := 0 |}, 0).
Proof. vm_cast_no_check (eq_refl (Some ({| g_tests_passed := 25; g_tests_failed := 0 |}, 0))). Qed.

Lemma set_x_ok (i v : Z) (tf tf' : LettuceTrapFrame) : set_x i v tf = Some tf' → frame_ok tf → frame_ok tf'.
Proof.
  unfold set_x, frame_ok. destruct (arr_set _ _ _) as [x|] eqn:Hx; cbn; [|done]. intros [= <-]. cbn.
  by rewrite (arr_set_length _ _ _ _ Hx).
Qed.

Lemma jump_ok (k : Z) (tf : LettuceTrapFrame) : frame_ok tf → frame_ok (jump k tf).
Proof. done. Qed.

Lemma exec_instr_ok (L : layout) (m : mmu_state) (i : instr) (tf : LettuceTrapFrame) (mem : gmap Z Z) o :
  frame_ok tf → exec_instr L m i tf mem = Some o →
  match o with Goes tf' _ => frame_ok tf' | Traps x _ => frame_ok (exception_frame x) end.
Proof.
  intros Htf. unfold exec_instr. destruct i; intros Hx; run_inv Hx; try done; by eapply (jump_ok 1), set_x_ok.
Qed.

(** The services leave the 30 registers. *)
Lemma service_code_ok (L : layout) (quantum : nat) : code_ok (service_code L quantum).
Proof.
  intros tf st x mem Htf. unfold service_code. generalize (io_mem (cp_io st)) as mem0. revert tf Htf.
  induction quantum as [|n IH]; intros tf Htf mem0; cbn [run_user]; [by intros [= <- _]|].
  unfold step. destruct (user_access _ _ _ _) as [pa|]; cbn [mbind option_bind]; [|by intros [= <- _]].
  destruct (arr_get service_text _) as [i|]; cbn [mbind option_bind]; [|done].
  destruct (exec_instr L _ i tf mem0) as [o|] eqn:Ho; cbn [mbind option_bind]; [|done].
  apply exec_instr_ok in Ho; [|done]. destruct o; [by apply IH|by intros [= <- _]].
Qed.

Lemma all_tests_split (pac_sign pac_auth : Z → Z → Z) (L : layout) (sym : el0_symbols) (registers : LettuceTrapFrame)
    (user : el0_code) (fuel : nat) (env : environment) (turns : nat) (w w2 : world) (caps : camera_caps) :
  all_tests pac_sign pac_auth L sym registers user fuel env turns w = Some (caps, w2) →
  ∃ w1, bring_up_tests pac_sign pac_auth L sym registers user fuel w = Some (caps, w1) ∧
    task_tests pac_sign pac_auth L sym registers user fuel env turns caps w1 = Some (tt, w2).
Proof.
  intros (c & w1 & H1 & (u & w3 & H2 & H3)%prog_bind_inv)%prog_bind_inv. injection H3 as -> ->. destruct u. exists w1. split; [exact H1|exact H2].
Qed.

Lemma harness_ends : ∃ caps w2, harness_all (started_world booted_demo) = Some (caps, w2).
Proof.
  pose proof all_tests_pass as Hpass. destruct (harness_all (started_world booted_demo)) as [[caps w2]|]; [|discriminate Hpass].
  by exists caps, w2.
Qed.

Lemma bring_up_tests_confine_user_code_witness :
  boot demo_layout 0x40080800 demo_symbols harness_demo = Some booted_demo ∧
  ∃ caps w1 w2, harness_bring_up (started_world booted_demo) = Some (caps, w1) ∧ harness_tasks caps w1 = Some (tt, w2) ∧
    confined demo_layout demo_symbols (w_cpu w2).
Proof.
  split; [exact harness_boots|]. destruct harness_ends as (caps & w2 & Hx). apply all_tests_split in Hx as (w1 & H1 & H2).
  exists caps, w1, w2. split; [exact H1|]. split; [exact H2|].
  apply (bring_up_tests_confine_user_code harness_sign harness_auth demo_layout demo_symbols (frame_of 0)
    harness_code 120 harness_env 10 harness_demo (started_world booted_demo) w1 caps).
  - exact harness_booted.
  - reflexivity.
  - reflexivity.
  - apply service_code_ok.
  - exact H1.
  - exact H2.
Defined.

(** A service that returns at once. *)
Definition returning_code : el0_code := λ tf st, Some (Synchronous (svc_esr LETTUCE_SVC_RETURN) 0 tf, io_mem (cp_io st)).

Lemma returning_code_returns (L : layout) (sym : el0_symbols) (registers : LettuceTrapFrame) :
  frame_ok registers → services_return harness_sign harness_auth L sym registers returning_code 1.
Proof.
  intros Hregs s st _ [_ Hd Hm]. unfold run_el0_service, lettuce_el0_enter.
  cbn [el0_execution returning_code mbind option_bind take_exception].
  rewrite handler_return. unfold svc_return. destruct (frame_register registers 0 Hregs ltac:(lia)) as [x0 Hx0].
  cbn [set_return tf_x]. rewrite Hx0. cbn [mbind option_bind]. unfold depth in Hd. cbn [cp_vars with_memory with_mmu with_identity with_sched with_io].
  rewrite Hd. cbn. by eexists _, _.
Qed.

(** With a counter that advances by a million per observation and services that return at
    once, every sample is ten thousand ticks. *)
Lemma benchmarks_report_what_they_measure_witness :
  ∃ w', benchmarks harness_sign harness_auth demo_layout demo_symbols (frame_of 0) returning_code 1 harness_env
      {| cap_cam_disp := 65537; cap_cam_sensor := 65540; cap_cam_elev := 65541 |} (started_world booted_demo) =
      Some (replicate 11 (replicate 50 10000), w') ∧
    cp_caps (w_cpu w') = cap_fresh.
Proof.
  destruct (benchmarks_report_what_they_measure harness_sign harness_auth demo_layout demo_symbols (frame_of 0) returning_code 1
    harness_env (started_world booted_demo) {| cap_cam_disp := 65537; cap_cam_sensor := 65540; cap_cam_elev := 65541 |})
    as (reports & _ & _ & Hends).
  - reflexivity.
  - intros tf st x mem Htf [= <- <-]. exact Htf.
  - destruct harness_booted as [[Hcaps _ _] Hcalls _ _ _ Hreg _ _]. split; [exact Hcalls| |exact Hcaps|exact Hreg].
    intros i f Hi. change (depth (w_cpu (started_world booted_demo))) with 0 in Hi. lia.
  - destruct Hends as (w' & Hx & _ & _ & Hc).
    + apply returning_code_returns. reflexivity.
    + reflexivity.
    + assert (Forall (λ i : nat, is_Some (harness_memory !! (SHARED_PAGE_VA + Z.of_nat i))) (seq 0 32)) as Hall
        by (apply (bool_decide_unpack _); vm_compute; exact I).
      intros a Ha. rewrite Forall_forall in Hall. replace a with (SHARED_PAGE_VA + Z.of_nat (Z.to_nat (a - SHARED_PAGE_VA))) by lia.
      apply Hall, elem_of_seq. lia.
    + exists w'. split; [|exact Hc].
      assert (bench_measurements harness_env (w_time (started_world booted_demo)) = replicate 11 (replicate 50 10000)) as <-
        by (vm_compute; reflexivity).
      exact Hx.
Defined.
